(* ===== verification/_CoqProject ===== *)
-Q . S2P
Prelude.v
Machine.v
Procq.v
Asl.v
Blocked.v
ProcqSpec.v
Links.v
SemdList.v
Queues.v
AslInv.v
AslSpec.v
AslInit.v
AslRefine.v
Kernel.v
Nucleus.v
Syscall.v
KernelSpec.v
NucleusSpec.v
SyscallSpec.v
Boot.v
Family.v
FamilySpec.v
Reap.v
Terminate.v
Tree.v
Create.v
Alive.v
Invariant.v
InvariantOps.v
Safety.v
Example.v
Fixtures.v
ProcessProps.v
DispatchProps.v
SemProps.v
IoProps.v
TrapProps.v
QueueProps.v
BootProps.v
P1Test.v
TestProps.v
User.v
Run.v
M68k.v
Stubs.v
StubSpec.v
StubSave.v
StubProps.v
Switch.v
Calls.v
Service.v
Reach.v
ReachProps.v
Critical.v
TestMachine.v
RunReach.v
TrapsP1.v
TrapsP12.v
IntP1.v
RunP1.v
RunP12.v
RunInt.v
Support.v
Page.v
Slsys1.v
Slsys2.v
SupportP1.v
BootCode.v
SupportSpec.v
Programs.v
BigStep.v
TestSupport.v
Terminal.v
RunSupport.v
PageProps.v
Tables.v
DiskProps.v
