(* ===== verification/Prelude.v ===== *)
(** * HOCA operating system: a verification library

    HOCA is a small operating system for a machine with an m68k processor, written in C
    in three layers:

    - the queues ([src/queues]): a table of twenty processes with the queues over it
      ([procq.c]) and the active semaphore list ([asl.c]);
    - the nucleus ([src/nucleus]): the dispatcher and start-up ([traps/main.c]), the
      system calls SYS1 to SYS6 ([traps/syscall.c]), the trap handlers
      ([traps/trap.c]), and interrupts, SYS7 and SYS8 ([interrupts/int.c]);
    - the support level ([src/support]): T-processes with virtual memory, their traps
      and SYS9 to SYS17 ([part1/support.c], [part1/slsyscall1.c],
      [part2/slsyscall2.c]), and paging with its daemon ([part2/page.c]);

    the routines in assembly that enter and leave the nucleus ([src/util/*.s]), and a
    test program for each phase ([queues/p1test.c], [p1test2.c],
    [nucleus/traps/p1.c], [p1.2.c], [nucleus/interrupts/intp1.c]).

    ** How the code is translated

    A C function that runs to its end without interruption, which is every function of
    the queues and of the nucleus, is a function of the state and exception monad [M]
    of this file: it returns, or leaves with [Fault] (a bad dereference or index),
    [Panic], [OutOfFuel] (of the model, see below) or [Leave] (a processor state is
    loaded, the processor stops for an interrupt, or halts).  The state is the record
    of the layer's globals: [procq] ([Procq.v]), [asl] ([Asl.v]), which contains it, and
    [kernel] ([Kernel.v]), which contains that.  Functions, fields and constants keep
    their names.  An [int] is a [Z] that wraps at 32 bits ([i32]); a pointer to an entry
    of a table is its index, and -1 is ENULL; other addresses are integers, and memory
    is typed: [int] cells, processor states, device registers and texts.  Arrays are
    finite maps, so an index out of range is a [Fault], although in C it reads what
    lies there.

    A C program that traps into the nucleus, be it a test program or a part of the
    support level, is an interaction tree ([User.v]) of atoms (computations in [M]) and
    traps.  [Run.v] is the machine that executes such programs on the nucleus: an
    exception goes through its vector and stub to the handler that the new area names,
    and the state the handler loads is resumed.  The granularity: a handler is one step,
    as interrupts are masked in it; in the support level a run of statements without a
    trap that is a function of its own ([choose_frame], [tasker_helper], the inner loops
    of [pageinit]...) is one atom, and any other access is an atom of its own.

    The assembly routines are lists of instructions ([Stubs.v]), run on a processor with
    registers, a status word and a memory of bytes ([M68k.v]).  What [Run.v] takes an
    exception to do, the old area filled with the interrupted state and the word of the
    stub, is what they are proved to do ([Switch.v]): the two models meet in [holds], a
    [state_t] at an address of the byte memory, and in [stub], the table of old areas.

    ** The files

    Code:
    - [Machine.v] [h/const.h], [h/types.h], [h/vpop.h]; [Kernel.v] the nucleus's state;
    - [Procq.v] [queues/procq.c], [h/procq.h]; [Asl.v] [queues/asl.c], [h/asl.h];
    - [Nucleus.v] [nucleus/interrupts/int.c], the dispatcher and the clock of
      [main.c] and [trap.c]; [Syscall.v] [nucleus/traps/syscall.c], the rest of [trap.c]
      and [main.c], [intinit];
    - [User.v], [Run.v] programs and the machine, [util/passeren.c], [util/verhogen.c];
    - [M68k.v] the instructions of the processor; [Stubs.v] [util/STLD*.s], [LDST.s],
      [STST.s], [STCK.s], [LDIT.s], [SYS.s], [HALT.s]; [BootCode.v] [support/part1/bootcode.c]
      (the loader that [p1] of [support.c] puts into page 31 of each T-process);
    - [Support.v] the data of the support level ([h/support.h]); [Page.v]
      [support/part2/page.c]; [Slsys1.v] [support/part1/slsyscall1.c]; [Slsys2.v]
      [support/part2/slsyscall2.c]; [SupportP1.v] [support/part1/support.c];
    - [P1Test.v] [queues/p1test.c], [p1test2.c]; [TrapsP1.v] [nucleus/traps/p1.c];
      [TrapsP12.v] [p1.2.c]; [IntP1.v] [nucleus/interrupts/intp1.c].

    Specifications and proofs, from the bottom:
    - [Blocked.v]: the abstract queues [absq], a free list, a ready queue and an
      association list from semaphores to waiters.  [ProcqSpec.v], [Links.v],
      [Queues.v], [SemdList.v], [AslInv.v], [AslSpec.v], [AslInit.v]: circular queues
      through the link cells, linked lists of descriptors, their invariants.
      [AslRefine.v]: each operation of [procq.c] and [asl.c] refines the abstract one
      ([repr s tp x]: the tables [s] represent [x]).
    - [KernelSpec.v]: [kview k x m c r], the abstract view of a nucleus state (the queues
      [x], the [int] cells [m], the entries [c], the rest [r]), with a rule for each
      operation below; [NucleusSpec.v], [SyscallSpec.v], [Boot.v]: what the dispatcher,
      the interrupts, the calls and the start-up do to the view.
    - [Family.v], [FamilySpec.v], [Reap.v], [Terminate.v], [Tree.v], [Create.v]: the
      process families.  The three family pointers of the entries represent a rose tree
      ([tree_inv]); SYS1 adds a leaf and SYS2 removes a subtree, whose processes leave
      all queues.  [Alive.v]: every process stays ready or waiting.
    - [Invariant.v], [InvariantOps.v], [Safety.v], [Reach.v]: the invariant of the
      nucleus ([nuc]), that every change of the view keeps it, that every handler ends
      in a state with it, and the states that are reachable from the start-up by
      exceptions and by accesses of programs and devices to memory ([reach], whose steps
      are [moves]).  A program may declare a semaphore that is used by P and V only: the
      class [Credits] has the units left of each, the invariant relates them to the
      value and the waiters, and SYS3 spends them ([spend]).
    - [SupportSpec.v]: rules for the accesses of the support level.  [BigStep.v]: what a
      program does up to its next trap, its end or a failed access ([traps_from],
      [returns_from], [fails_from]), with rules for sequences and loops, and that these are
      steps of the machine.
    - [StubSpec.v]: rules for the byte memory and for each instruction ([runs_from]);
      [StubSave.v], [StubProps.v]: the parts that the stubs share, which save the
      registers, save the frame and load the new area.

    Properties, with concrete states ([Example.v], [Fixtures.v], [TestMachine.v],
    [TestSupport.v]) on which each is applied:
    - [ReachProps.v]: the nucleus never fails, loses no process, its semaphores count
      and every ready process gets its turn, in every reachable state;
    - [Critical.v]: the declared semaphores of the programs: their units are conserved,
      one with one unit excludes ([sessions] are the processes inside), and a V admits
      the process that has waited longest;
    - [RunReach.v]: the machine that runs the nucleus on programs stays within these
      states; [Programs.v]: the library's [passeren] and [verhogen], and the support
      level's [P] and [V], from the call of the program to the return or the suspension,
      are P and V on the queues of the nucleus;
    - [Switch.v]: the stubs do what [Run.v] takes them to do, and what a stub has saved,
      [LDST] resumes exactly; [Calls.v]: from the call of [SYSn] to the exception, and from
      the resumption to the return; [Service.v]: [STST], [STCK], [LDIT];
    - [QueueProps.v]: the queue operations refine the abstract ones;
    - [ProcessProps.v], [TrapProps.v], [SemProps.v], [IoProps.v], [DispatchProps.v],
      [BootProps.v]: what each call and handler of the nucleus does, errors included;
    - [PageProps.v], [DiskProps.v]: layout of memory, positions on the floppy disk, page
      frames, the order of the disk requests; [Tables.v]: the segment and page tables
      that [p1] of [support.c] writes, and the frames that each process reaches in them;
      [Terminal.v]: SYS9 and SYS10 from the call to the wait and from there to the result,
      and what they do with an unchecked length; [BootCode.v]: the loader puts the lines of
      the terminal at the start of the segment and jumps there;
    - [TestProps.v], [RunP1.v], [RunP12.v], [RunInt.v], [RunSupport.v]: the test programs
      and five T-processes run to their ends on the model of the nucleus; two runs show
      races of the support level, a frame that is freed twice and a V on a virtual
      semaphore that reaches the wrong process.

    ** Bounds

    Every loop over a linked list has a fuel in the model: 21 steps ([queue_fuel],
    [proc_fuel], [semd_fuel], [brother_fuel], [tree_fuel]), enough because a list visits
    an entry or descriptor once and there are twenty of each; that the fuel suffices is
    part of every refinement theorem, as [OutOfFuel] is not a return.  The loop that
    polls the printer's status has the fuel [poll_fuel] of the machine, with the
    hypothesis that the printer is ready within it ([printer_ok]).  A run of the machine
    has a number of steps; the theorems on runs show how the machine has ended.  The
    assembly routines only branch forward, so [exec] needs no fuel; [boot_code_loads]
    has the number of instructions of the loader, eleven for each line and six.  In
    [ReachProps.v] at most 2^31 - 3 interrupts are considered, since the count of a
    device's completions is an [int] that nothing bounds.

    ** What is a parameter

    [Machine]: addresses the linker chooses, the readings of the clock, of the processor
    state and of the printer's status.  [Support]: the linker's part, the segments SEG1
    and SEG2 of the missing header [tconst.h], and the memory management unit
    ([translate], [reference]), of which [Terminal.v] assumes that it translates by its
    tables alone and changes referenced bits at most ([UnitOk]).  The programs of the
    T-processes.

    ** What the nucleus asks of its programs

    The conditions of [proper_trap], which the code does not check: areas that exist for
    SYS1 and SYS5, a device number below 15 for SYS8, and for SYS3 a vector of
    operations on semaphores of the program of which one P blocks at most, with no V on
    its semaphore after it ([proper_ops]); the vectors of the support level are of this
    kind.  [SemProps.v] covers the other vectors and shows how they can lose a process.

    ** Not modelled

    The entry of an exception in hardware is taken from the processor's manual
    ([exception] in [Calls.v], [exec1] in [M68k.v]).  Addresses in the assembly routines
    are physical, also the one of the user's stack from which the stub of SYS1 to SYS8
    takes the argument: whether the machine translates them until the stub clears [ps_m]
    is not in the source.  The loader's SYS9 is answered by [SYS9_answer], the effect that
    [Terminal.v] shows of [Read_from_Terminal] without an interrupt.  The headers of the C library under [util/inc], which no
    modelled file needs, and the description in [src/doc].

    ** What comes next

    The sessions of [Critical.v] for the semaphores of the support level, from the
    programs of [Page.v] and [Slsys2.v] down; the protocol of the page daemon without the
    race that [RunSupport.v] shows; the refinement of a memory of pages by frames and
    floppy disk. *)

From stdpp Require Export base gmap list numbers vector strings.
From Stdlib Require Export ZArith Lia.

#[global] Open Scope Z_scope.

(** ** Machine integers

    [int], [long] and pointers are 32 bits wide on the m68k.  Arithmetic that can
    leave the range is written with [i32], the two's complement wrap-around. *)
Definition i32 (z : Z) : Z := (z + 2 ^ 31) mod 2 ^ 32 - 2 ^ 31.

Definition in_i32 (z : Z) : Prop := - 2 ^ 31 <= z < 2 ^ 31.

Lemma i32_id z : in_i32 z -> i32 z = z.
Proof. unfold in_i32, i32. intros. rewrite Z.mod_small by lia. lia. Qed.

Lemma i32_range z : in_i32 (i32 z).
Proof. unfold in_i32, i32. pose proof (Z.mod_pos_bound (z + 2 ^ 31) (2 ^ 32)). lia. Qed.

Lemma i32_wrap_min : i32 (- 2 ^ 31 - 1) = 2 ^ 31 - 1.
Proof. reflexivity. Qed.

(** ** A state and exception monad

    A C function that reads and writes the globals [S] is a function from [S] to a
    [result]: it returns ([Ret]) or it does not ([Exn], with the state at that
    point: a bad dereference, a panic, or control leaving the function for good). *)
Inductive result (E S A : Type) : Type :=
  | Ret (a : A) (s : S)
  | Exn (e : E) (s : S).
Arguments Ret {E S A} a s.
Arguments Exn {E S A} e s.

Definition M (E S A : Type) : Type := S -> result E S A.

Section monad.
Context {E S : Type}.

Definition ret {A} (a : A) : M E S A := fun s => Ret a s.
Definition bind {A B} (m : M E S A) (k : A -> M E S B) : M E S B := fun s =>
  match m s with
  | Ret a s' => k a s'
  | Exn e s' => Exn e s'
  end.
Definition raise {A} (e : E) : M E S A := fun s => Exn e s.
Definition gets {A} (f : S -> A) : M E S A := fun s => Ret (f s) s.
Definition modify (f : S -> S) : M E S unit := fun s => Ret tt (f s).
(** the value of a partial access, or the exception [e] when there is none *)
Definition gets_opt {A} (e : E) (f : S -> option A) : M E S A := fun s =>
  match f s with
  | Some a => Ret a s
  | None => Exn e s
  end.
Definition when (b : bool) (m : M E S unit) : M E S unit := if b then m else ret tt.
(** [n] iterations of [body], the counter starting from [lo] *)
Fixpoint iterate (lo : Z) (n : nat) (body : Z -> M E S unit) : M E S unit :=
  match n with
  | O => ret tt
  | Datatypes.S n' => bind (body lo) (fun _ => iterate (lo + 1) n' body)
  end.
(** [for (i = lo; i < hi; i++) body] *)
Definition for_ (lo hi : Z) (body : Z -> M E S unit) : M E S unit :=
  iterate lo (Z.to_nat (hi - lo)) body.
End monad.

(** A computation on a part [T] of the state [S], as a computation on [S]. *)
Definition zoom {E S T A} (get : S -> T) (put : T -> S -> S) (m : M E T A) : M E S A :=
  fun s =>
    match m (get s) with
    | Ret a t => Ret a (put t s)
    | Exn e t => Exn e (put t s)
    end.

Declare Scope kernel_scope.
Delimit Scope kernel_scope with K.
Notation "'let!' x ':=' m 'in' k" := (bind m (fun x => k))
  (at level 10, x name, m at level 100, k at level 200) : kernel_scope.
Notation "'let!' ' p ':=' m 'in' k" := (bind m (fun x => match x with p => k end))
  (at level 10, p pattern, m at level 100, k at level 200) : kernel_scope.
Notation "m ';;' k" := (bind m (fun _ => k))
  (at level 100, right associativity) : kernel_scope.

(** ** Weakest preconditions

    [wp m s Q X]: run from [s], [m] returns with [Q], or leaves with [X]. *)
Definition wp {E S A} (m : M E S A) (s : S) (Q : A -> S -> Prop) (X : E -> S -> Prop) : Prop :=
  match m s with
  | Ret a s' => Q a s'
  | Exn e s' => X e s'
  end.

(** total correctness: [m] returns *)
Abbreviation returns m s Q := (wp m s Q (fun _ _ => False)).

Section wp.
Context {E S : Type}.
Implicit Types (X : E -> S -> Prop).

Lemma wp_ret {A} (a : A) s (Q : A -> S -> Prop) X : Q a s -> wp (ret a) s Q X.
Proof. done. Qed.

Lemma wp_bind {A B} (m : M E S A) (k : A -> M E S B) s Q X :
  wp m s (fun a s' => wp (k a) s' Q X) X -> wp (bind m k) s Q X.
Proof. unfold wp, bind. by destruct (m s). Qed.

(** a prefix of two steps is one step *)
Lemma wp_bind_assoc {A B C} (m1 : M E S A) (m2 : A -> M E S B) (k : B -> M E S C) s Q X :
  wp (bind (bind m1 m2) k) s Q X -> wp (bind m1 (fun a => bind (m2 a) k)) s Q X.
Proof. unfold wp, bind. by destruct (m1 s). Qed.

Lemma wp_raise {A} e s (Q : A -> S -> Prop) X : X e s -> wp (raise e) s Q X.
Proof. done. Qed.

Lemma wp_gets {A} (f : S -> A) s (Q : A -> S -> Prop) X : Q (f s) s -> wp (gets f) s Q X.
Proof. done. Qed.

Lemma wp_modify (f : S -> S) s (Q : unit -> S -> Prop) X : Q tt (f s) -> wp (modify f) s Q X.
Proof. done. Qed.

Lemma wp_gets_opt {A} e (f : S -> option A) s a (Q : A -> S -> Prop) X :
  f s = Some a -> Q a s -> wp (gets_opt e f) s Q X.
Proof. unfold wp, gets_opt. by intros ->. Qed.

Lemma wp_mono {A} (m : M E S A) s (Q Q' : A -> S -> Prop) X X' :
  wp m s Q X -> (forall a s', Q a s' -> Q' a s') -> (forall e s', X e s' -> X' e s') ->
  wp m s Q' X'.
Proof. unfold wp. destruct (m s); auto. Qed.

(** a returning computation composes with whatever follows *)
Lemma wp_use {A} (m : M E S A) s (Q Q' : A -> S -> Prop) X :
  returns m s Q -> (forall a s', Q a s' -> Q' a s') -> wp m s Q' X.
Proof. intros H HQ. eapply wp_mono; [exact H | exact HQ | by intros]. Qed.

Lemma returns_inv {A} (m : M E S A) s (Q : A -> S -> Prop) :
  returns m s Q -> exists a s', m s = Ret a s' /\ Q a s'.
Proof. unfold wp. destruct (m s); [eauto | tauto]. Qed.

Lemma returns_of_run {A} (m : M E S A) s a s' (Q : A -> S -> Prop) :
  m s = Ret a s' -> Q a s' -> returns m s Q.
Proof. unfold wp. by intros ->. Qed.

Lemma wp_iterate (I : Z -> S -> Prop) lo n body s (Q : unit -> S -> Prop) X :
  I lo s ->
  (forall i s, lo <= i < lo + Z.of_nat n -> I i s ->
     wp (body i) s (fun _ s' => I (i + 1) s') X) ->
  (forall s, I (lo + Z.of_nat n) s -> Q tt s) ->
  wp (iterate lo n body) s Q X.
Proof.
  revert lo s. induction n as [|n IH]; intros lo s HI Hb HQ; simpl.
  - apply wp_ret, HQ. by replace (lo + Z.of_nat 0) with lo by lia.
  - apply wp_bind. eapply wp_mono; [apply Hb; [lia | done] | | done].
    intros [] s' HI'. simpl in *. apply IH; [done | |].
    + intros i s'' Hi. apply Hb. lia.
    + intros s'' Hs''. apply HQ.
      by replace (lo + Z.of_nat (Datatypes.S n)) with (lo + 1 + Z.of_nat n) by lia.
Qed.

(** the rule of the counting loop: [I i] holds when the counter is [i] *)
Lemma wp_for (I : Z -> S -> Prop) lo hi body s (Q : unit -> S -> Prop) X :
  lo <= hi -> I lo s ->
  (forall i s, lo <= i < hi -> I i s -> wp (body i) s (fun _ s' => I (i + 1) s') X) ->
  (forall s, I hi s -> Q tt s) ->
  wp (for_ lo hi body) s Q X.
Proof.
  intros Hle HI Hb HQ. apply (wp_iterate I); [done | |].
  - intros i s' Hi. apply Hb. lia.
  - intros s' Hs'. apply HQ. by replace hi with (lo + Z.of_nat (Z.to_nat (hi - lo))) by lia.
Qed.
End wp.

Lemma wp_zoom {E S T A} (get : S -> T) (put : T -> S -> S) (m : M E T A) s Q X :
  wp m (get s) (fun a t => Q a (put t s)) (fun e t => X e (put t s)) ->
  wp (zoom get put m) s Q X.
Proof. unfold wp, zoom. by destruct (m (get s)). Qed.

Create HintDb wpdb.
Create HintDb kernel.
#[export] Hint Resolve wp_ret wp_gets wp_modify : wpdb.

(** one step of symbolic execution *)
Ltac wp_step :=
  lazymatch goal with
  | |- wp (bind _ _) _ _ _ => apply wp_bind
  | |- wp (ret _) _ _ _ => apply wp_ret
  | |- wp (raise _) _ _ _ => apply wp_raise
  | |- wp (gets _) _ _ _ => apply wp_gets
  | |- wp (modify _) _ _ _ => apply wp_modify
  | |- wp (gets_opt _ _) _ _ _ => eapply wp_gets_opt; [eassumption |]
  | |- wp (when ?b _) _ _ _ => unfold when
  | |- wp (match ?x with pair _ _ => _ end) _ _ _ => destruct x
  end; cbv beta.
Ltac wp_steps := repeat wp_step.
(** apply a specification [H : returns m s Q] to the goal [wp m s Q' X] *)
Tactic Notation "wp_apply" uconstr(H) := eapply wp_use; [eapply H | ]; cbv beta.

(** case analysis on an integer comparison in the goal *)
Ltac case_Z :=
  match goal with
  | |- context [?a =? ?b] => destruct (Z.eqb_spec a b)
  | |- context [?a <? ?b] => destruct (Z.ltb_spec a b)
  | |- context [?a <=? ?b] => destruct (Z.leb_spec a b)
  end.

(** ** Lists *)

Lemma last_default_app {A} (l : list A) x d : List.last (l ++ [x]) d = x.
Proof. apply List.last_last. Qed.

Lemma last_cons_default {A} (l : list A) x d : List.last (x :: l) d = List.last l x.
Proof. revert x. induction l as [|y l IH]; intros x; [done |]. simpl in *. destruct l; [done |]. apply IH. Qed.

Lemma last_default_in {A} (l : list A) d : List.last l d ∈ d :: l.
Proof.
  revert d. induction l as [|x l IH]; intros d; [left |].
  rewrite last_cons_default. right. apply IH.
Qed.

(** filters that keep everything, and filters that agree *)
Lemma filter_ext_in {A} (P Q : A -> Prop) `{forall x, Decision (P x)} `{forall x, Decision (Q x)} (l : list A) :
  (forall x, x ∈ l -> P x <-> Q x) -> filter P l = filter Q l.
Proof.
  induction l as [|x l IH]; intros HPQ; [done |]. rewrite !filter_cons, IH by (intros y Hy; apply HPQ; by right).
  pose proof (HPQ x ltac:(left)). repeat case_decide; tauto || done.
Qed.

Lemma filter_id {A} (P : A -> Prop) `{forall x, Decision (P x)} (l : list A) :
  (forall x, x ∈ l -> P x) -> filter P l = l.
Proof.
  induction l as [|x l IH]; intros HP; [done |]. rewrite filter_cons_True by (apply HP; left).
  f_equal. apply IH. intros y Hy. apply HP. by right.
Qed.

Lemma filter_not_in (p : Z) (l : list Z) : p ∉ l -> filter (fun q => q <> p) l = l.
Proof. intros Hp. apply filter_id. by intros q Hq ->. Qed.

(** a duplicate-free list of keys of a map is no longer than the map *)
Lemma NoDup_dom_length `{Countable K} {A} (m : gmap K A) (l : list K) :
  NoDup l -> Forall (fun k => is_Some (m !! k)) l -> (length l <= size m)%nat.
Proof.
  intros Hnd Hl. rewrite <- size_dom.
  rewrite <- (size_list_to_set (C := gset K) l Hnd). apply subseteq_size.
  intros k Hk. apply elem_of_list_to_set in Hk. apply elem_of_dom.
  rewrite Forall_forall in Hl. by apply Hl.
Qed.

(** ** Arrays

    A C array is the finite map of its valid indices: a lookup outside them is
    the undefined access. *)
Abbreviation array := (gmap Z).

Definition mk_array {A} (n : Z) (x : A) : array A :=
  list_to_map ((fun i => (i, x)) <$> seqZ 0 n).

Lemma mk_array_lookup {A} n (x : A) i :
  mk_array n x !! i = if decide (0 <= i < n) then Some x else None.
Proof.
  unfold mk_array. case_decide as Hi.
  - apply elem_of_list_to_map_1.
    + rewrite <- list_fmap_compose. apply NoDup_fmap_2; [by intros ?? [=] | apply NoDup_seqZ].
    + apply list_elem_of_fmap. exists i. split; [done |]. apply elem_of_seqZ. lia.
  - apply not_elem_of_list_to_map_1. rewrite <- list_fmap_compose.
    intros (j & -> & Hj)%list_elem_of_fmap. apply elem_of_seqZ in Hj. simpl in Hi. lia.
Qed.
Lemma mk_array_is_Some {A} n (x : A) i : is_Some (mk_array n x !! i) <-> 0 <= i < n.
Proof. rewrite mk_array_lookup. case_decide; split; intros Hi; [done | eauto | by destruct Hi | done]. Qed.

Lemma insert_is_alter `{Countable K} {A} (f : A -> A) (m : gmap K A) k x :
  m !! k = Some x -> <[k := f x]> m = alter f k m.
Proof.
  intros Hx. apply map_eq. intros j. rewrite lookup_insert, lookup_alter.
  case_decide; [| done]. subst. by rewrite Hx.
Qed.
