(* ===== verification/Machine.v ===== *)
(** * The machine and the constants

    [src/h/const.h], [src/h/types.h] and [src/h/vpop.h]: constants, the processor
    state, the status register, the two-byte temporary storage with its
    overlapping bit fields, and the device registers; the ways control leaves the
    C code of the kernel; and what the linker and the hardware supply. *)

From S2P Require Import Prelude.
Local Open Scope kernel_scope.

(** ** Constants ([src/h/const.h], [src/h/vpop.h]) *)
Definition PAGESIZE : Z := 512.
Definition TRUE : Z := 1.
Definition FALSE : Z := 0.
Definition ENULL : Z := -1.
Definition PROGTRAP : Z := 0.
Definition MMTRAP : Z := 1.
Definition SYSTRAP : Z := 2.
Definition PRIVILEGE : Z := 8.
Definition IOWRITE : Z := 1.
Definition NORMAL : Z := 0.
Definition TERMINAL : Z := 0.
Definition PRINTER : Z := 1.
Definition DISK : Z := 2.
Definition FLOPPY : Z := 3.
Definition MAXPROC : Z := 20.
Definition SEMMAX : Z := 10.
Definition LOCK : Z := -1.
Definition UNLOCK : Z := 1.

(** ** The status register ([sr_t]), one field per named bit field *)
Record sr_t := mk_sr {
  ps_t : Z; ps_s : Z; ps_m : Z; ps_int : Z;
  ps_x : Z; ps_n : Z; ps_z : Z; ps_o : Z; ps_c : Z }.

Definition set_ps_s v sr := let 'mk_sr t _ m i x n z o c := sr in mk_sr t v m i x n z o c.
Definition set_ps_m v sr := let 'mk_sr t s _ i x n z o c := sr in mk_sr t s v i x n z o c.
Definition set_ps_int v sr := let 'mk_sr t s m _ x n z o c := sr in mk_sr t s m v x n z o c.

(** ** The two-byte temporary storage ([tmp_t])

    A union of bit-field structs over one 16-bit word; fields are allocated from
    the most significant bit, so [in_dno], [mm_pg], [pr_typ] and [sys_no] all end
    at bit 0 and overlap. *)
Definition bits (w lo n : Z) : Z := Z.land (Z.shiftr w lo) (Z.ones n).
Definition set_bits (w lo n v : Z) : Z :=
  Z.lor (Z.ldiff w (Z.shiftl (Z.ones n) lo)) (Z.shiftl (Z.land v (Z.ones n)) lo).

Definition in_dev (t : Z) : Z := bits t 3 3.
Definition in_dno (t : Z) : Z := bits t 0 3.
Definition mm_typ (t : Z) : Z := bits t 14 2.
Definition mm_seg (t : Z) : Z := bits t 10 4.
Definition mm_pg (t : Z) : Z := bits t 0 10.
Definition pr_typ (t : Z) : Z := bits t 0 8.
Definition sys_no (t : Z) : Z := bits t 0 8.
Definition set_pr_typ (v t : Z) : Z := set_bits t 0 8 v.

(** ** The processor state ([state_t]) *)
Record state_t := mk_state {
  s_r : vec Z 17;          (* d0-d7, a0-a7, pc *)
  s_sr : sr_t;
  s_tmp : Z;               (* the 16-bit word of the union tmp_t *)
  s_crp : Z }.             (* address of the segment table *)

Definition s_sp (st : state_t) : Z := s_r st !!! 15%fin.
Definition s_pc (st : state_t) : Z := s_r st !!! 16%fin.
Definition set_reg (i : fin 17) v st := let 'mk_state r sr t c := st in mk_state (vinsert i v r) sr t c.
Definition set_sp := set_reg 15%fin.
Definition set_pc := set_reg 16%fin.
Definition set_sr v st := let 'mk_state r _ t c := st in mk_state r v t c.
Definition set_tmp v st := let 'mk_state r sr _ c := st in mk_state r sr v c.

Definition sr0 : sr_t := mk_sr 0 0 0 0 0 0 0 0 0.
Definition state0 : state_t := mk_state (vreplicate 17 0) sr0 0 0.

(** ** Device registers ([devreg_t]); [d_amnt], [d_track], [d_sect] are [d_dadd] *)
Record devreg_t := mk_devreg { d_op : Z; d_dadd : Z; d_badd : Z; d_stat : Z }.
Definition d_amnt := d_dadd.

(** ** How a kernel function fails to return *)
Inductive exit : Type :=
  | LDST (st : state_t)   (* the processor state is loaded: control goes to st *)
  | HALT                  (* the machine halts *)
  | STOP.                 (* [stop #0x2000]: wait for an interrupt *)

Inductive exn : Type :=
  | Fault                 (* a dereference of ENULL or outside an array or memory *)
  | Panic                 (* [panic]: trap #0 with the message in [pncbuf] *)
  | OutOfFuel             (* the loop has not ended within the fuel of the model *)
  | Leave (e : exit).

#[export] Instance sr_eq_dec : EqDecision sr_t.
Proof. solve_decision. Defined.
#[export] Instance state_eq_dec : EqDecision state_t.
Proof. solve_decision. Defined.
#[export] Instance devreg_eq_dec : EqDecision devreg_t.
Proof. solve_decision. Defined.
#[export] Instance exit_eq_dec : EqDecision exit.
Proof. solve_decision. Defined.
#[export] Instance exn_eq_dec : EqDecision exn.
Proof. solve_decision. Defined.

Lemma reg_set_eq i v st : s_r (set_reg i v st) !!! i = v.
Proof. destruct st. apply vlookup_insert. Qed.
Lemma reg_set_ne i j v st : i <> j -> s_r (set_reg i v st) !!! j = s_r st !!! j.
Proof. destruct st. apply vlookup_insert_ne. Qed.
Create Rewrite HintDb machine.
#[export] Hint Rewrite reg_set_eq : machine.

(** ** Bit fields *)

Lemma bits_range w lo n : 0 <= n -> 0 <= bits w lo n < 2 ^ n.
Proof.
  intros Hn. unfold bits. rewrite Z.land_ones by done. apply Z.mod_pos_bound. lia.
Qed.

Lemma bits_set_bits w lo n v :
  0 <= lo -> 0 <= n -> bits (set_bits w lo n v) lo n = Z.land v (Z.ones n).
Proof.
  intros Hlo Hn. unfold bits, set_bits. apply Z.bits_inj'. intros k Hk.
  rewrite !Z.land_spec, Z.shiftr_spec, Z.lor_spec, Z.ldiff_spec, !Z.shiftl_spec by lia.
  rewrite Z.land_spec. replace (k + lo - lo) with k by lia.
  rewrite Z.testbit_ones_nonneg by lia.
  destruct (k <? n), (Z.testbit w (k + lo)), (Z.testbit v k); done.
Qed.

(** a field above the one written keeps its value *)
Lemma bits_set_bits_above w lo n v lo' n' :
  0 <= lo -> 0 <= n -> lo + n <= lo' -> bits (set_bits w lo n v) lo' n' = bits w lo' n'.
Proof.
  intros Hlo Hn Hle. unfold bits, set_bits. apply Z.bits_inj'. intros k Hk.
  rewrite !Z.land_spec, !Z.shiftr_spec, Z.lor_spec, Z.ldiff_spec, !Z.shiftl_spec by lia.
  rewrite Z.land_spec, Z.testbit_ones_nonneg by lia.
  destruct (Z.ltb_spec (k + lo' - lo) n); [lia |].
  by rewrite andb_true_r, andb_false_r, orb_false_r.
Qed.
