(* ===== verification/Procq.v ===== *)
(** * Process queues: the code

    [src/h/procq.h] and [src/queues/procq.c].  A [proc_t] pointer is the index of
    the entry in [proc_table], or [ENULL].  A [proc_link] points to one link cell,
    the cell [p_link[index]] of entry [next].  A function that takes a
    [proc_link *tp] takes the link by value and returns the new value: the links
    passed in the program, [running_queue] and the [s_link] of a semaphore
    descriptor, lie outside the process table. *)

From S2P Require Export Prelude Machine.
Local Open Scope kernel_scope.

Record proc_link := mk_link { index : Z; next : Z }.

Record proc_t := mk_proc {
  p_link : array proc_link;
  p_s : state_t;
  qcount : Z;
  semvec : array Z;
  cpu_time : Z;
  start_time : Z;
  prog_old : Z; prog_new : Z;
  memory_management_old : Z; memory_management_new : Z;
  system_call_old : Z; system_call_new : Z;
  parent : Z; child : Z; brother : Z }.

(** field assignments *)
Definition set_p_link v p := let 'mk_proc _ s q sv ct st po pn mo mn so sn pa ch br := p in mk_proc v s q sv ct st po pn mo mn so sn pa ch br.
Definition set_p_s v p := let 'mk_proc l _ q sv ct st po pn mo mn so sn pa ch br := p in mk_proc l v q sv ct st po pn mo mn so sn pa ch br.
Definition set_qcount v p := let 'mk_proc l s _ sv ct st po pn mo mn so sn pa ch br := p in mk_proc l s v sv ct st po pn mo mn so sn pa ch br.
Definition set_semvec v p := let 'mk_proc l s q _ ct st po pn mo mn so sn pa ch br := p in mk_proc l s q v ct st po pn mo mn so sn pa ch br.
Definition set_cpu_time v p := let 'mk_proc l s q sv _ st po pn mo mn so sn pa ch br := p in mk_proc l s q sv v st po pn mo mn so sn pa ch br.
Definition set_start_time v p := let 'mk_proc l s q sv ct _ po pn mo mn so sn pa ch br := p in mk_proc l s q sv ct v po pn mo mn so sn pa ch br.
Definition set_prog o n p := let 'mk_proc l s q sv ct st _ _ mo mn so sn pa ch br := p in mk_proc l s q sv ct st o n mo mn so sn pa ch br.
Definition set_memory_management o n p := let 'mk_proc l s q sv ct st po pn _ _ so sn pa ch br := p in mk_proc l s q sv ct st po pn o n so sn pa ch br.
Definition set_system_call o n p := let 'mk_proc l s q sv ct st po pn mo mn _ _ pa ch br := p in mk_proc l s q sv ct st po pn mo mn o n pa ch br.
Definition set_parent v p := let 'mk_proc l s q sv ct st po pn mo mn so sn _ ch br := p in mk_proc l s q sv ct st po pn mo mn so sn v ch br.
Definition set_child v p := let 'mk_proc l s q sv ct st po pn mo mn so sn pa _ br := p in mk_proc l s q sv ct st po pn mo mn so sn pa v br.
Definition set_brother v p := let 'mk_proc l s q sv ct st po pn mo mn so sn pa ch _ := p in mk_proc l s q sv ct st po pn mo mn so sn pa ch v.

(** the globals of procq.c *)
Record procq := mk_procq {
  proc_table : array proc_t;
  free_head : Z;
  pncbuf : string }.

Definition set_proc_table t s := mk_procq t (free_head s) (pncbuf s).
Definition set_free_head h s := mk_procq (proc_table s) h (pncbuf s).
Definition set_pncbuf b s := mk_procq (proc_table s) (free_head s) b.

(** the empty link, which every unused link cell and every empty queue holds *)
Definition elink : proc_link := mk_link ENULL ENULL.

(** ** Access to the process table *)

Definition MQ := M exn procq.

Definition deref (p : Z) : MQ proc_t := gets_opt Fault (fun s => proc_table s !! p).

(** [p->f = ...] *)
Definition update (p : Z) (f : proc_t -> proc_t) : MQ unit :=
  let! pr := deref p in
  modify (fun s => set_proc_table (<[p := f pr]> (proc_table s)) s).

(** the cell [p->p_link[i]] *)
Definition get_link (p i : Z) : MQ proc_link :=
  let! pr := deref p in
  gets_opt Fault (fun _ => p_link pr !! i).

Definition put_link (p i : Z) (l : proc_link) : MQ unit :=
  let! pr := deref p in
  let! old := get_link p i in
  update p (fun pr => set_p_link (<[i := l]> (p_link pr)) pr).

Definition put_link_next (p i v : Z) : MQ unit :=
  let! l := get_link p i in
  put_link p i (mk_link (index l) v).

(** ** The operations *)

(** [panic]: copy the message to [pncbuf] and trap *)
Definition panic {A} (sp : string) : MQ A :=
  modify (set_pncbuf sp) ;; raise Panic.

Definition headQueue (tp : proc_link) : MQ Z :=
  if next tp =? ENULL then ret ENULL
  else let! l := get_link (next tp) (index tp) in ret (next l).

Definition allocProc : MQ Z :=
  let! h := gets free_head in
  if h =? ENULL then ret ENULL
  else
    let rv := h in
    let! l := get_link h 0 in
    modify (set_free_head (next l)) ;;
    put_link rv 0 elink ;;
    ret rv.

(** [p->semvec[i] = v] *)
Definition put_semvec (p i v : Z) : MQ unit :=
  let! pr := deref p in
  let! old := gets_opt Fault (fun _ => semvec pr !! i) in
  update p (fun pr => set_semvec (<[i := v]> (semvec pr)) pr).

(** the loop over the link cells and the semaphore vector of one entry, the inner
    loop of [initProc] and the loop of [freeProc] *)
Definition clear_links (p : Z) : MQ unit :=
  for_ 0 SEMMAX (fun j => put_link p j elink ;; put_semvec p j ENULL).

(** the fields of an entry [initProc] sets after the inner loop *)
Definition reset_proc (pr : proc_t) : proc_t :=
  set_brother ENULL (set_child ENULL (set_parent ENULL
  (set_memory_management ENULL ENULL (set_system_call ENULL ENULL (set_prog ENULL ENULL
  (set_start_time 0 (set_cpu_time 0 (set_qcount 0 pr)))))))).

Definition initProc_entry (i : Z) : MQ unit :=
  clear_links i ;; update i reset_proc.

Definition initProc : MQ unit :=
  for_ 0 MAXPROC initProc_entry ;;
  for_ 0 (MAXPROC - 1) (fun i => put_link i 0 (mk_link 0 (i + 1))) ;;
  put_link (MAXPROC - 1) 0 (mk_link ENULL ENULL) ;;
  modify (set_free_head 0).

(** [for (i = 0; i < SEMMAX; i++) if (p->p_link[i].index == ENULL) break;] *)
Fixpoint find_free_link (p i : Z) (n : nat) : MQ Z :=
  match n with
  | O => ret i
  | S n' =>
      let! l := get_link p i in
      if index l =? ENULL then ret i else find_free_link p (i + 1) n'
  end.

Definition msg_full : string :=
  ("This process is already in 20 sem queue" +:+ String (Ascii.ascii_of_nat 10) EmptyString)%string.

#[global] Arguments find_free_link : simpl never.

Definition insertProc (tp : proc_link) (p : Z) : MQ proc_link :=
  let tail := next tp in
  let tail_index := index tp in
  let! i := find_free_link p 0 (Z.to_nat SEMMAX) in
  (if i =? SEMMAX then panic msg_full else ret tt) ;;
  (if tail =? ENULL then
     put_link p i (mk_link i p)
   else
     let! t := get_link tail tail_index in
     put_link p i t ;;
     put_link tail tail_index (mk_link i p)) ;;
  update p (fun pr => set_qcount (i32 (qcount pr + 1)) pr) ;;
  ret (mk_link i p).

Definition removeProc (tp : proc_link) : MQ (proc_link * Z) :=
  if next tp =? ENULL then ret (tp, ENULL)
  else
    let! h := headQueue tp in
    let! '(tp', rv) :=
      (if next tp =? h then
         let rv := next tp in
         put_link rv (index tp) elink ;;
         ret (elink, rv)
       else
         let! rv := headQueue tp in
         let! l := get_link (next tp) (index tp) in
         let head_index := index l in
         let! new_head := get_link rv head_index in
         put_link (next tp) (index tp) new_head ;;
         put_link rv head_index elink ;;
         ret (tp, rv)) in
    update rv (fun pr => set_qcount (i32 (qcount pr - 1)) pr) ;;
    ret (tp', rv).

(** [while (walker->p_link[0].next != ENULL) walker = walker->p_link[0].next;] *)
Fixpoint free_list_end (fuel : nat) (walker : Z) : MQ Z :=
  match fuel with
  | O => raise OutOfFuel
  | S fuel' =>
      let! l := get_link walker 0 in
      if next l =? ENULL then ret walker else free_list_end fuel' (next l)
  end.

Definition proc_fuel : nat := 21.
#[global] Arguments free_list_end : simpl never.

Definition freeProc (p : Z) : MQ unit :=
  clear_links p ;;
  update p (set_qcount 0) ;;
  let! h := gets free_head in
  if h =? ENULL then modify (set_free_head p)
  else
    let! walker := free_list_end proc_fuel h in
    put_link_next walker 0 p.

(** The loop of [outProc].  [prev] and [cur] are the links (index, entry) the C
    variables [prev_index]/[pre_proc_t] and [cur_index]/[cur_proc_t] hold.  The
    loop ends by returning [rv] ([inl]) or at the tail ([inr (prev, cur)]). *)
Fixpoint outProc_loop (fuel : nat) (tp : proc_link) (p : Z) (prev cur : proc_link)
    : MQ (Z + proc_link * proc_link) :=
  match fuel with
  | O => raise OutOfFuel
  | S fuel' =>
      if next cur =? next tp then ret (inr (prev, cur))
      else if next cur =? p then
        let! l := get_link (next cur) (index cur) in
        put_link (next prev) (index prev) l ;;
        let rv := next cur in
        put_link rv (index cur) elink ;;
        update rv (fun pr => set_qcount (i32 (qcount pr - 1)) pr) ;;
        ret (inl rv)
      else
        let! l := get_link (next cur) (index cur) in
        outProc_loop fuel' tp p cur l
  end.

Definition queue_fuel : nat := 21.
#[global] Arguments outProc_loop : simpl never.

Definition outProc (tp : proc_link) (p : Z) : MQ (proc_link * Z) :=
  if next tp =? ENULL then ret (tp, ENULL)
  else
    let! h := headQueue tp in
    if (next tp =? h) && (next tp =? p) then
      let rv := next tp in
      put_link rv (index tp) elink ;;
      update rv (fun pr => set_qcount (i32 (qcount pr - 1)) pr) ;;
      ret (elink, rv)
    else if (next tp =? h) && negb (next tp =? p) then ret (tp, ENULL)
    else
      let! cur := get_link (next tp) (index tp) in
      let! r := outProc_loop queue_fuel tp p tp cur in
      match r with
      | inl rv => ret (tp, rv)
      | inr (prev, cur) =>
          if (next cur =? next tp) && (next cur =? p) then
            let! l := get_link (next cur) (index cur) in
            put_link (next prev) (index prev) l ;;
            let rv := next cur in
            put_link rv (index cur) elink ;;
            update rv (fun pr => set_qcount (i32 (qcount pr - 1)) pr) ;;
            ret (prev, rv)
          else ret (tp, ENULL)
      end.

(** ** The uninitialised table: static storage is zero *)
Definition proc0 : proc_t :=
  mk_proc (mk_array 10 (mk_link 0 0)) state0 0 (mk_array 10 0) 0 0 0 0 0 0 0 0 0 0 0.
Definition procq0 : procq := mk_procq (mk_array 20 proc0) 0 EmptyString.
