(* ===== verification/Asl.v ===== *)
(** * The active semaphore list: the code

    [src/h/asl.h] and [src/queues/asl.c].  A [semd_t] pointer is the index of a
    descriptor in [semd_table], or [ENULL].  A semaphore is an [int] in memory;
    [ints] holds the [int] cells of memory by address, and an address outside its
    domain is a bus or address error. *)

From S2P Require Export Procq.
Local Open Scope kernel_scope.

Record semd_t := mk_semd { s_next : Z; s_prev : Z; s_semAdd : Z; s_link : proc_link }.

Definition set_s_next v d := mk_semd v (s_prev d) (s_semAdd d) (s_link d).
Definition set_s_prev v d := mk_semd (s_next d) v (s_semAdd d) (s_link d).
Definition set_s_semAdd v d := mk_semd (s_next d) (s_prev d) v (s_link d).
Definition set_s_link v d := mk_semd (s_next d) (s_prev d) (s_semAdd d) v.

(** the globals of asl.c, the process queues below it, and the [int] cells *)
Record asl := mk_asl {
  a_pq : procq;
  semd_table : array semd_t;
  cur_sem : Z;
  free_head_s : Z;
  ints : gmap Z Z }.

Definition set_a_pq v s := mk_asl v (semd_table s) (cur_sem s) (free_head_s s) (ints s).
Definition set_semd_table v s := mk_asl (a_pq s) v (cur_sem s) (free_head_s s) (ints s).
Definition set_cur_sem v s := mk_asl (a_pq s) (semd_table s) v (free_head_s s) (ints s).
Definition set_free_head_s v s := mk_asl (a_pq s) (semd_table s) (cur_sem s) v (ints s).
Definition set_ints v s := mk_asl (a_pq s) (semd_table s) (cur_sem s) (free_head_s s) v.

Definition MA := M exn asl.

(** a process queue operation, as an operation on the whole *)
Definition pq {A} (m : MQ A) : MA A := zoom a_pq set_a_pq m.

Definition semd (d : Z) : MA semd_t := gets_opt Fault (fun s => semd_table s !! d).
Definition put_semd (d : Z) (f : semd_t -> semd_t) : MA unit :=
  let! x := semd d in
  modify (fun s => set_semd_table (<[d := f x]> (semd_table s)) s).

(** [*a] and [*a = v] *)
Definition load (a : Z) : MA Z := gets_opt Fault (fun s => ints s !! a).
Definition store (a v : Z) : MA unit :=
  let! old := load a in
  modify (fun s => set_ints (<[a := v]> (ints s)) s).

(** [semvec[i] = new] at the first [i] where it is [old] *)
Fixpoint replace_first (p old new i : Z) (n : nat) : MQ unit :=
  match n with
  | O => ret tt
  | S n' =>
      let! pr := deref p in
      let! v := gets_opt Fault (fun _ => semvec pr !! i) in
      if v =? old then put_semvec p i new else replace_first p old new (i + 1) n'
  end.
#[global] Arguments replace_first : simpl never.

Definition setSem (semAdd p : Z) : MA unit :=
  pq (replace_first p ENULL semAdd 0 (Z.to_nat SEMMAX)).
Definition setSem2 (semAdd p : Z) : MA unit :=
  pq (replace_first p semAdd ENULL 0 (Z.to_nat SEMMAX)).

(** the loop that walks to the last descriptor of the free list *)
Fixpoint free_semd_end (fuel : nat) (walker2 : Z) : MA Z :=
  match fuel with
  | O => raise OutOfFuel
  | S fuel' =>
      let! d := semd walker2 in
      if s_next d =? ENULL then ret walker2 else free_semd_end fuel' (s_next d)
  end.
#[global] Arguments free_semd_end : simpl never.

Definition semd_fuel : nat := 21.

(** the four cases of [removeBlockHelper] that unlink the descriptor, *)
Definition unlink_semd (walker : Z) : MA unit :=
  let! w := semd walker in
  if negb (s_prev w =? ENULL) && negb (s_next w =? ENULL) then
    put_semd (s_prev w) (set_s_next (s_next w)) ;;
    let! w := semd walker in
    put_semd (s_next w) (set_s_prev (s_prev w))
  else if negb (s_prev w =? ENULL) && (s_next w =? ENULL) then
    put_semd (s_prev w) (set_s_next ENULL)
  else if (s_prev w =? ENULL) && negb (s_next w =? ENULL) then
    put_semd (s_next w) (set_s_prev ENULL) ;;
    let! w := semd walker in
    modify (set_cur_sem (s_next w))
  else modify (set_cur_sem ENULL).

(** and the rest of it, that puts the descriptor on the free list *)
Definition release_semd (walker : Z) : MA unit :=
  let! h := gets free_head_s in
  if h =? ENULL then
    put_semd walker (set_s_prev ENULL) ;;
    put_semd walker (set_s_next ENULL) ;;
    put_semd walker (set_s_semAdd ENULL) ;;
    modify (set_free_head_s walker)
  else
    let! walker2 := free_semd_end semd_fuel h in
    put_semd walker2 (set_s_next walker) ;;
    put_semd walker (set_s_prev walker2) ;;
    put_semd walker (set_s_next ENULL) ;;
    put_semd walker (set_s_semAdd ENULL).

Definition removeBlockHelper (walker : Z) : MA unit :=
  unlink_semd walker ;; release_semd walker.

(** [while (walker != ENULL && walker->s_semAdd != semAdd) { prev = walker;
    walker = walker->s_next; }]: the final [prev] and [walker] *)
Fixpoint find_semd (fuel : nat) (semAdd prev walker : Z) : MA (Z * Z) :=
  match fuel with
  | O => raise OutOfFuel
  | S fuel' =>
      if walker =? ENULL then ret (prev, walker)
      else
        let! d := semd walker in
        if s_semAdd d =? semAdd then ret (prev, walker)
        else find_semd fuel' semAdd walker (s_next d)
  end.
#[global] Arguments find_semd : simpl never.

(** [insertProc(&(d->s_link), p)] *)
Definition insert_link (d p : Z) : MA unit :=
  let! x := semd d in
  let! tp := pq (insertProc (s_link x) p) in
  put_semd d (set_s_link tp).

Definition insertBlocked (semAdd p : Z) : MA Z :=
  let! cur := gets cur_sem in
  if cur =? ENULL then
    let! h := gets free_head_s in
    modify (set_cur_sem h) ;;
    let! d := semd h in
    modify (set_free_head_s (s_next d)) ;;
    put_semd h (set_s_next ENULL) ;;
    let! h2 := gets free_head_s in
    put_semd h2 (set_s_prev ENULL) ;;
    put_semd h (set_s_semAdd semAdd) ;;
    insert_link h p ;;
    setSem semAdd p ;;
    ret FALSE
  else
    let! '(prev, walker) := find_semd semd_fuel semAdd ENULL cur in
    let! h := gets free_head_s in
    if (walker =? ENULL) && (h =? ENULL) then ret TRUE
    else if walker =? ENULL then
      let new_sem := h in
      let! d := semd h in
      modify (set_free_head_s (s_next d)) ;;
      put_semd new_sem (set_s_next ENULL) ;;
      put_semd new_sem (set_s_semAdd semAdd) ;;
      put_semd prev (set_s_next new_sem) ;;
      put_semd new_sem (set_s_prev prev) ;;
      let! h2 := gets free_head_s in
      (if negb (h2 =? ENULL) then put_semd h2 (set_s_prev ENULL) else ret tt) ;;
      insert_link new_sem p ;;
      setSem semAdd p ;;
      ret FALSE
    else
      insert_link walker p ;;
      setSem semAdd p ;;
      ret FALSE.

Definition initSemd : MA unit :=
  for_ 0 MAXPROC (fun i => put_semd i (fun _ => mk_semd ENULL ENULL ENULL elink)) ;;
  for_ 1 (MAXPROC - 1) (fun i =>
    put_semd i (set_s_next (i + 1)) ;; put_semd i (set_s_prev (i - 1))) ;;
  put_semd 0 (set_s_next 1) ;;
  put_semd 19 (set_s_prev 18) ;;
  modify (set_cur_sem ENULL) ;;
  modify (set_free_head_s 0).

Definition headBlocked (semAdd : Z) : MA Z :=
  let! cur := gets cur_sem in
  if cur =? ENULL then ret ENULL
  else
    let! '(_, walker) := find_semd semd_fuel semAdd ENULL cur in
    if walker =? ENULL then ret ENULL
    else let! d := semd walker in pq (headQueue (s_link d)).

Definition removeBlocked (semAdd : Z) : MA Z :=
  let! cur := gets cur_sem in
  let! '(_, walker) := find_semd semd_fuel semAdd ENULL cur in
  if walker =? ENULL then ret ENULL
  else
    let! d := semd walker in
    let! '(tp, rv) := pq (removeProc (s_link d)) in
    put_semd walker (set_s_link tp) ;;
    setSem2 semAdd rv ;;
    let! associate_queue := headBlocked semAdd in
    (if associate_queue =? ENULL then removeBlockHelper walker else ret tt) ;;
    ret rv.

(** one iteration of the loop of [outBlocked]: the new value of [rv] *)
Definition outBlocked_step (p i rv : Z) : MA Z :=
  let! pr := pq (deref p) in
  let! a := gets_opt Fault (fun _ => semvec pr !! i) in
  if a =? ENULL then ret rv
  else
    let! v := load a in
    store a (i32 (v + 1)) ;;
    let! cur := gets cur_sem in
    let! '(_, walker) := find_semd semd_fuel a ENULL cur in
    if walker =? ENULL then ret rv
    else
      pq (put_semvec p i ENULL) ;;
      let! d := semd walker in
      let! '(tp, rv) := pq (outProc (s_link d) p) in
      put_semd walker (set_s_link tp) ;;
      let! d := semd walker in
      let! associate_queue := headBlocked (s_semAdd d) in
      (if associate_queue =? ENULL then removeBlockHelper walker else ret tt) ;;
      ret rv.

Fixpoint outBlocked_loop (p i : Z) (n : nat) (rv : Z) : MA Z :=
  match n with
  | O => ret rv
  | S n' => let! rv := outBlocked_step p i rv in outBlocked_loop p (i + 1) n' rv
  end.
#[global] Arguments outBlocked_loop : simpl never.

Definition outBlocked (p : Z) : MA Z := outBlocked_loop p 0 (Z.to_nat SEMMAX) ENULL.

Definition headASL : MA Z :=
  let! cur := gets cur_sem in
  ret (if cur =? ENULL then FALSE else TRUE).

Definition semd0 : semd_t := mk_semd 0 0 0 (mk_link 0 0).
Definition asl0 (m : gmap Z Z) : asl := mk_asl procq0 (mk_array 20 semd0) 0 0 m.
