(* ===== verification/Blocked.v ===== *)
(** * The abstract queues

    What [procq.c] and [asl.c] promise: a free list, a ready queue, and for each
    semaphore with waiters the processes that wait for it, in FIFO order.  An
    association list, in the order in which the code keeps the descriptors. *)

From S2P Require Export Prelude.

Definition blist : Type := list (Z * list Z).

Definition keys (B : blist) : list Z := fst <$> B.

(** the processes that wait for [a] *)
Fixpoint waiters (a : Z) (B : blist) : list Z :=
  match B with
  | [] => []
  | (b, q) :: B' => if b =? a then q else waiters a B'
  end.

(** [p] waits for [a], last *)
Fixpoint suspend (a p : Z) (B : blist) : blist :=
  match B with
  | [] => [(a, [p])]
  | (b, q) :: B' => if b =? a then (b, q ++ [p]) :: B' else (b, q) :: suspend a p B'
  end.

(** the entry [(a, q)], which is dropped when no process is left *)
Definition entry_of (a : Z) (q : list Z) : blist :=
  match q with [] => [] | _ => [(a, q)] end.

(** the first waiter of [a] stops waiting *)
Fixpoint resume (a : Z) (B : blist) : blist :=
  match B with
  | [] => []
  | (b, q) :: B' => if b =? a then entry_of b (List.tl q) ++ B' else (b, q) :: resume a B'
  end.

(** [p] stops waiting for [a] *)
Fixpoint leave (a p : Z) (B : blist) : blist :=
  match B with
  | [] => []
  | (b, q) :: B' =>
      if b =? a then entry_of b (filter (fun r => r <> p) q) ++ B' else (b, q) :: leave a p B'
  end.

(** [p] stops waiting for anything *)
Fixpoint leave_all (p : Z) (B : blist) : blist :=
  match B with
  | [] => []
  | (b, q) :: B' => entry_of b (filter (fun r => r <> p) q) ++ leave_all p B'
  end.

(** what [p] waits for *)
Definition waits_for (p : Z) (B : blist) : list Z := fst <$> filter (fun bq => p ∈ bq.2) B.

Record absq := mk_absq { free_procs : list Z; ready : list Z; blocked : blist }.
Definition set_free_procs v x := mk_absq v (ready x) (blocked x).
Definition set_ready v x := mk_absq (free_procs x) v (blocked x).
Definition set_blocked v x := mk_absq (free_procs x) (ready x) v.

(** the number of queues [p] is in *)
Definition in_queues (p : Z) (x : absq) : nat :=
  length (filter (fun q => p ∈ q) (ready x :: (snd <$> blocked x))).

(** ** Laws of the abstract operations *)

Lemma keys_cons b q B : keys ((b, q) :: B) = b :: keys B.
Proof. done. Qed.
Lemma keys_app B1 B2 : keys (B1 ++ B2) = keys B1 ++ keys B2.
Proof. apply fmap_app. Qed.

#[global] Arguments keys : simpl never.

(** every semaphore once, and none without waiters *)
Definition bwf (B : blist) : Prop := NoDup (keys B) /\ forall b q, (b, q) ∈ B -> q <> [].

Lemma waiters_none a B : a ∉ keys B -> waiters a B = [].
Proof.
  induction B as [|[b q] B IH]; [done |]. rewrite keys_cons. simpl.
  intros [Hb HB]%not_elem_of_cons. case_Z; [congruence |]. by apply IH.
Qed.

Lemma waiters_some a q B : NoDup (keys B) -> (a, q) ∈ B -> waiters a B = q.
Proof.
  induction B as [|[b r] B IH]; [by intros _ ?%elem_of_nil |]. rewrite keys_cons. simpl.
  intros [Hb Hnd]%NoDup_cons [[= -> ->]|Hin]%elem_of_cons; case_Z; [done | done | | by apply IH].
  subst b. destruct Hb. apply list_elem_of_fmap. by exists (a, q).
Qed.

Lemma waiters_nil_iff a B : bwf B -> waiters a B = [] <-> a ∉ keys B.
Proof.
  intros [Hnd Hne]. split; [| apply waiters_none].
  intros Hw ([b q] & -> & Hin)%list_elem_of_fmap. simpl in Hw.
  rewrite (waiters_some b q) in Hw by done. by apply (Hne b q).
Qed.

Lemma waiters_suspend a p b B :
  waiters b (suspend a p B) = waiters b B ++ (if b =? a then [p] else []).
Proof.
  induction B as [|[c q] B IH]; simpl.
  - rewrite (Z.eqb_sym a b). by destruct (b =? a).
  - destruct (Z.eqb_spec c a) as [->|Hca]; simpl.
    + rewrite (Z.eqb_sym b a). destruct (a =? b); [done | by rewrite app_nil_r].
    + destruct (Z.eqb_spec c b) as [->|]; [| done]. by rewrite (proj2 (Z.eqb_neq b a)), app_nil_r.
Qed.

Lemma waiters_entry_of a q b B :
  a ∉ keys B -> waiters b (entry_of a q ++ B) = if b =? a then q else waiters b B.
Proof.
  intros Ha. destruct q; simpl; [| by rewrite (Z.eqb_sym a b)].
  case_Z; [subst; by apply waiters_none | done].
Qed.

Lemma waiters_resume a b B :
  NoDup (keys B) -> waiters b (resume a B) = if b =? a then List.tl (waiters b B) else waiters b B.
Proof.
  induction B as [|[c q] B IH]; simpl; [by case_Z |]. rewrite keys_cons.
  intros [Hc Hnd]%NoDup_cons. destruct (Z.eqb_spec c a) as [->|Hca]; simpl.
  - rewrite waiters_entry_of by done. rewrite (Z.eqb_sym a b). by case_Z.
  - destruct (Z.eqb_spec c b) as [->|]; [| by apply IH]. by rewrite (proj2 (Z.eqb_neq b a)).
Qed.

(** a process that is alone in a queue leaves no trace *)
Lemma resume_suspend a p B : a ∉ keys B -> resume a (suspend a p B) = B.
Proof.
  induction B as [|[b l] B IH]; simpl; [by rewrite Z.eqb_refl |]. rewrite keys_cons.
  intros [Hab Hni]%not_elem_of_cons. rewrite (proj2 (Z.eqb_neq b a)) by done. simpl.
  by rewrite (proj2 (Z.eqb_neq b a)), IH.
Qed.

Lemma waiters_leave a p b B :
  NoDup (keys B) ->
  waiters b (leave a p B) = if b =? a then filter (fun r => r <> p) (waiters b B) else waiters b B.
Proof.
  induction B as [|[c q] B IH]; simpl; [by case_Z |]. rewrite keys_cons.
  intros [Hc Hnd]%NoDup_cons. destruct (Z.eqb_spec c a) as [->|Hca]; simpl.
  - rewrite waiters_entry_of by done. rewrite (Z.eqb_sym a b). by case_Z.
  - destruct (Z.eqb_spec c b) as [->|]; [| by apply IH]. by rewrite (proj2 (Z.eqb_neq b a)).
Qed.

Lemma keys_leave_all p B : forall b, b ∈ keys (leave_all p B) -> b ∈ keys B.
Proof.
  induction B as [|[c q] B IH]; simpl; [done |]. intros b. rewrite keys_app, keys_cons, elem_of_app, elem_of_cons.
  intros [Hb|Hb]; [left | right; by apply IH].
  destruct (filter (fun r => r <> p) q); simpl in Hb; [by apply elem_of_nil in Hb | by apply list_elem_of_singleton in Hb].
Qed.

Lemma waiters_leave_all p b B :
  NoDup (keys B) -> waiters b (leave_all p B) = filter (fun r => r <> p) (waiters b B).
Proof.
  induction B as [|[c q] B IH]; simpl; [done |]. rewrite keys_cons. simpl.
  intros [Hc Hnd]%NoDup_cons. rewrite waiters_entry_of by (by intros ?%keys_leave_all).
  rewrite (Z.eqb_sym b c). case_Z; [done | by apply IH].
Qed.

Lemma waits_for_cons p a q B :
  waits_for p ((a, q) :: B) = (if decide (p ∈ q) then [a] else []) ++ waits_for p B.
Proof.
  unfold waits_for. case_decide.
  - by rewrite (filter_cons_True (fun bq : Z * list Z => p ∈ bq.2)).
  - by rewrite (filter_cons_False (fun bq : Z * list Z => p ∈ bq.2)).
Qed.

Lemma waits_for_app p B1 B2 : waits_for p (B1 ++ B2) = waits_for p B1 ++ waits_for p B2.
Proof.
  induction B1 as [|[a q] B1 IH]; [done |]. cbn [app]. by rewrite !waits_for_cons, IH, app_assoc.
Qed.

Lemma waits_for_entry_of p a q : waits_for p (entry_of a q) = if decide (p ∈ q) then [a] else [].
Proof. destruct q; [by rewrite decide_False by apply not_elem_of_nil |]. cbn [entry_of]. by rewrite waits_for_cons, app_nil_r. Qed.

(** *** Leaving every queue, one semaphore at a time *)

Definition leaves (p : Z) (l : list Z) (B : blist) : blist := foldl (fun B a => leave a p B) B l.

Lemma entry_of_filter (p a : Z) (q : list Z) (B : blist) :
  leave_all p (entry_of a q ++ B) = entry_of a (filter (fun r => r <> p) q) ++ leave_all p B.
Proof. by destruct q. Qed.

Lemma leave_all_leave p a B : leave_all p (leave a p B) = leave_all p B.
Proof.
  induction B as [|[b q] B IH]; [done |]. simpl. case_Z; simpl; [| by rewrite IH].
  rewrite entry_of_filter. by rewrite list_filter_filter_l.
Qed.

Lemma leave_all_leaves p l B : leave_all p (leaves p l B) = leave_all p B.
Proof.
  revert B. induction l as [|a l IH]; intros B; [done |]. simpl. by rewrite IH, leave_all_leave.
Qed.

(** nothing changes for a process that waits for nothing *)
Lemma leave_all_none p B : bwf B -> waits_for p B = [] -> leave_all p B = B.
Proof.
  induction B as [|[b q] B IH]; [done |]. intros [Hnd Hne] Hw. simpl.
  assert (p ∉ q) as Hp.
  { intros Hp. unfold waits_for in Hw.
    by rewrite (filter_cons_True (fun bq : Z * list Z => p ∈ bq.2)) in Hw. }
  rewrite (filter_not_in p q Hp).
  rewrite IH.
  - pose proof (Hne b q ltac:(left)). by destruct q.
  - split; [rewrite keys_cons in Hnd; by apply NoDup_cons in Hnd as [_ ?] |]. intros c r Hin. apply (Hne c). by right.
  - unfold waits_for in *. by rewrite (filter_cons_False (fun bq : Z * list Z => p ∈ bq.2)) in Hw.
Qed.

(** *** The semaphore values *)

(** the [int]s at [l] incremented *)
Definition bump (a : Z) (m : gmap Z Z) : gmap Z Z := alter (fun v => i32 (v + 1)) a m.
Definition bumps (l : list Z) (m : gmap Z Z) : gmap Z Z := foldl (fun m a => bump a m) m l.

Lemma bumps_lookup l m a :
  NoDup l -> bumps l m !! a = (if decide (a ∈ l) then fun v => i32 (v + 1) else id) <$> m !! a.
Proof.
  revert m. induction l as [|b l IH]; intros m.
  { intros _. rewrite decide_False by apply not_elem_of_nil. by rewrite option_fmap_id. }
  intros [Hb Hnd]%NoDup_cons. simpl. rewrite IH by done. unfold bump. rewrite lookup_alter.
  destruct (decide (b = a)) as [->|Hba].
  - rewrite (decide_False (P := a ∈ l)), (decide_True (P := a ∈ a :: l)) by (done || left). by destruct (m !! a).
  - assert (a ∈ b :: l <-> a ∈ l) by (rewrite elem_of_cons; intuition congruence).
    f_equal. repeat case_decide; tauto || done.
Qed.
