(* ===== verification/ProcqSpec.v ===== *)
(** * Process queues: specification

    The views of the process table that the queue operations act on, the
    abstraction of a circular queue to the list of its link cells, and the
    functional specification of every operation of [src/queues/procq.c]. *)

From S2P Require Export Procq.
Local Open Scope kernel_scope.

#[export] Instance proc_link_eq_dec : EqDecision proc_link.
Proof. solve_decision. Defined.

(** ** Views of the process table *)

(** the content of the link cell [n] points to *)
Definition cell (s : procq) (n : proc_link) : option proc_link :=
  proc_table s !! next n ≫= fun pr => p_link pr !! index n.

Definition qc (s : procq) (p : Z) : option Z := qcount <$> proc_table s !! p.

(** an entry without the two fields the queue operations change *)
Definition rest (pr : proc_t) : proc_t := set_p_link ∅ (set_qcount 0 pr).
Definition prest (s : procq) (p : Z) : option proc_t := rest <$> proc_table s !! p.

Definition set_cell (n l : proc_link) (s : procq) : procq :=
  set_proc_table
    (alter (fun pr => set_p_link (<[index n := l]> (p_link pr)) pr) (next n) (proc_table s)) s.

Definition add_qcount (p d : Z) (s : procq) : procq :=
  set_proc_table (alter (fun pr => set_qcount (i32 (qcount pr + d)) pr) p (proc_table s)) s.

Lemma set_cell_cell s n l m :
  is_Some (cell s n) -> cell (set_cell n l s) m = if decide (m = n) then Some l else cell s m.
Proof.
  unfold cell. intros [x Hx]. apply bind_Some in Hx as (pr & Hpr & Hx).
  destruct m as [mi mp], n as [i p]; simpl in *. rewrite lookup_alter.
  destruct (decide (p = mp)) as [->|Hp]; [| rewrite decide_False; congruence].
  rewrite Hpr. destruct pr; simpl in *. rewrite lookup_insert.
  do 2 case_decide; congruence.
Qed.

Lemma set_cell_eq s n l : is_Some (cell s n) -> cell (set_cell n l s) n = Some l.
Proof. intros. rewrite set_cell_cell by done. by rewrite decide_True. Qed.

Lemma set_cell_ne s n l m : is_Some (cell s n) -> m <> n -> cell (set_cell n l s) m = cell s m.
Proof. intros. rewrite set_cell_cell by done. by rewrite decide_False. Qed.

Lemma set_cell_is_Some s n l m :
  is_Some (cell s n) -> is_Some (cell (set_cell n l s) m) <-> is_Some (cell s m).
Proof. intros. rewrite set_cell_cell by done. case_decide; subst; [split; eauto | done]. Qed.

Lemma set_cell_qc s n l p : qc (set_cell n l s) p = qc s p.
Proof.
  unfold qc. simpl. rewrite lookup_alter. case_decide; [| done]. subst.
  by destruct (proc_table s !! next n) as [[]|].
Qed.

Lemma set_cell_prest s n l p : prest (set_cell n l s) p = prest s p.
Proof.
  unfold prest. simpl. rewrite lookup_alter. case_decide; [| done]. subst.
  by destruct (proc_table s !! next n) as [[]|].
Qed.

Lemma set_cell_table_is_Some s n l p :
  is_Some (proc_table (set_cell n l s) !! p) <-> is_Some (proc_table s !! p).
Proof.
  simpl. rewrite lookup_alter. case_decide; [subst | done]. apply fmap_is_Some.
Qed.

Lemma add_qcount_cell s p d n : cell (add_qcount p d s) n = cell s n.
Proof.
  unfold cell. simpl. rewrite lookup_alter. case_decide; [| done]. subst.
  by destruct (proc_table s !! next n) as [[]|].
Qed.

Lemma add_qcount_qc s p d q :
  qc (add_qcount p d s) q = (if decide (q = p) then fun c => i32 (c + d) else id) <$> qc s q.
Proof.
  unfold qc. simpl. rewrite lookup_alter. case_decide; subst.
  - rewrite decide_True by done. by destruct (proc_table s !! q) as [[]|].
  - rewrite decide_False by done. by rewrite option_fmap_id.
Qed.

Lemma add_qcount_prest s p d q : prest (add_qcount p d s) q = prest s q.
Proof.
  unfold prest. simpl. rewrite lookup_alter. case_decide; [| done]. subst.
  by destruct (proc_table s !! q) as [[]|].
Qed.

(** the semaphore vector, and an entry without the fields of the queue modules *)
Definition semv (s : procq) (p i : Z) : option Z :=
  proc_table s !! p ≫= fun pr => semvec pr !! i.
Definition core (pr : proc_t) : proc_t := set_semvec ∅ (rest pr).
Definition pcore (s : procq) (p : Z) : option proc_t := core <$> proc_table s !! p.

Definition set_semv (p i v : Z) (s : procq) : procq :=
  set_proc_table
    (alter (fun pr => set_semvec (<[i := v]> (semvec pr)) pr) p (proc_table s)) s.

Lemma prest_eq_core s s' p : prest s' p = prest s p -> pcore s' p = pcore s p.
Proof.
  unfold prest, pcore. destruct (proc_table s !! p) as [[]|], (proc_table s' !! p) as [[]|];
    simpl; try done. intros [=]; by subst.
Qed.

Lemma prest_eq_semv s s' p i : prest s' p = prest s p -> semv s' p i = semv s p i.
Proof.
  unfold prest, semv. destruct (proc_table s !! p) as [[]|], (proc_table s' !! p) as [[]|];
    simpl; try done. intros [=]; by subst.
Qed.

Lemma set_semv_semv s p i v q j :
  is_Some (semv s p i) ->
  semv (set_semv p i v s) q j = if decide (q = p /\ j = i) then Some v else semv s q j.
Proof.
  unfold semv. intros (x & (pr & Hpr & Hx)%bind_Some). simpl. rewrite lookup_alter.
  destruct (decide (p = q)) as [->|]; [| rewrite decide_False; [done | naive_solver]].
  rewrite Hpr. destruct pr; simpl in *. rewrite lookup_insert.
  do 2 case_decide; naive_solver.
Qed.

Lemma set_semv_cell s p i v n : cell (set_semv p i v s) n = cell s n.
Proof.
  unfold cell. simpl. rewrite lookup_alter. case_decide; [| done]. subst.
  by destruct (proc_table s !! next n) as [[]|].
Qed.

Lemma set_semv_qc s p i v q : qc (set_semv p i v s) q = qc s q.
Proof.
  unfold qc. simpl. rewrite lookup_alter. case_decide; [| done]. subst.
  by destruct (proc_table s !! q) as [[]|].
Qed.

Lemma set_semv_pcore s p i v q : pcore (set_semv p i v s) q = pcore s q.
Proof.
  unfold pcore. simpl. rewrite lookup_alter. case_decide; [| done]. subst.
  by destruct (proc_table s !! q) as [[]|].
Qed.

Lemma set_cell_pcore s n l q : pcore (set_cell n l s) q = pcore s q.
Proof. apply prest_eq_core, set_cell_prest. Qed.
Lemma set_cell_semv s n l q i : semv (set_cell n l s) q i = semv s q i.
Proof. apply prest_eq_semv, set_cell_prest. Qed.
Lemma add_qcount_pcore s p d q : pcore (add_qcount p d s) q = pcore s q.
Proof. apply prest_eq_core, add_qcount_prest. Qed.
Lemma add_qcount_semv s p d q i : semv (add_qcount p d s) q i = semv s q i.
Proof. apply prest_eq_semv, add_qcount_prest. Qed.

Create Rewrite HintDb views.
#[export] Hint Rewrite set_cell_qc set_cell_prest add_qcount_cell add_qcount_prest
  set_semv_cell set_semv_qc set_semv_pcore set_cell_pcore set_cell_semv
  add_qcount_pcore add_qcount_semv : views.

(** ** The primitive accesses *)

Section primitives.
Implicit Types (X : exn -> procq -> Prop).

Lemma wp_get_link s p i l Q X :
  cell s (mk_link i p) = Some l -> Q l s -> wp (get_link p i) s Q X.
Proof.
  unfold cell. simpl. intros (pr & Hpr & Hl)%bind_Some HQ.
  unfold get_link, deref. wp_steps. done.
Qed.

Lemma wp_put_link s p i l Q X :
  is_Some (cell s (mk_link i p)) -> Q tt (set_cell (mk_link i p) l s) ->
  wp (put_link p i l) s Q X.
Proof.
  intros [x Hx] HQ. pose proof Hx as Hx'. unfold cell in Hx'. simpl in Hx'.
  apply bind_Some in Hx' as (pr & Hpr & Hl).
  unfold put_link, update, deref. wp_steps. eapply wp_get_link; [exact Hx |]. wp_steps.
  erewrite (insert_is_alter (fun pr => set_p_link (<[i:=l]> (p_link pr)) pr)) by done. done.
Qed.

Lemma wp_put_link_next s p i l v Q X :
  cell s (mk_link i p) = Some l -> Q tt (set_cell (mk_link i p) (mk_link (index l) v) s) ->
  wp (put_link_next p i v) s Q X.
Proof.
  intros Hl HQ. unfold put_link_next. wp_step. eapply wp_get_link; [exact Hl |].
  apply wp_put_link; eauto.
Qed.

Lemma wp_add_qcount s p d Q X :
  is_Some (proc_table s !! p) -> Q tt (add_qcount p d s) ->
  wp (update p (fun pr => set_qcount (i32 (qcount pr + d)) pr)) s Q X.
Proof.
  intros [pr Hpr] HQ. unfold update, deref. wp_steps.
  by rewrite (insert_is_alter (fun pr => set_qcount (i32 (qcount pr + d)) pr)) by done.
Qed.
End primitives.

Ltac q_step :=
  lazymatch goal with
  | |- wp (get_link _ _) _ _ _ => eapply wp_get_link; [eassumption |]
  | |- wp (put_link _ _ _) _ _ _ => apply wp_put_link; [eauto |]
  | |- wp (update _ (fun pr => set_qcount (i32 (qcount pr + ?d)) pr)) _ _ _ =>
      apply (wp_add_qcount _ _ d); [eauto |]
  | |- wp (update _ (fun pr => set_qcount (i32 (qcount pr - 1)) pr)) _ _ _ =>
      apply (wp_add_qcount _ _ (-1)); [eauto |]
  | _ => wp_step
  end; cbv beta.
Ltac q_steps := repeat q_step.

(** ** Well-formed process tables: the shape of the C arrays *)
Definition valid_link (n : proc_link) : Prop := 0 <= next n < MAXPROC /\ 0 <= index n < SEMMAX.

Record pwf (s : procq) : Prop := {
  pwf_table : forall p, is_Some (proc_table s !! p) <-> 0 <= p < MAXPROC;
  pwf_cell : forall n, is_Some (cell s n) <-> valid_link n;
  pwf_semv : forall p i, is_Some (semv s p i) <-> 0 <= p < MAXPROC /\ 0 <= i < SEMMAX }.

(** [s'] differs from [s] in the cells [ns] and in the queue count of [p], by [d] *)
Record relink (s s' : procq) (ns : list proc_link) (p d : Z) : Prop := {
  rl_head : free_head s' = free_head s;
  rl_buf : pncbuf s' = pncbuf s;
  rl_cell : forall n, n ∉ ns -> cell s' n = cell s n;
  rl_some : forall n, is_Some (cell s' n) <-> is_Some (cell s n);
  rl_rest : forall q, prest s' q = prest s q;
  rl_qc : forall q, qc s' q = (if decide (q = p) then fun c => i32 (c + d) else id) <$> qc s q }.

Lemma relink_pwf s s' ns p d : pwf s -> relink s s' ns p d -> pwf s'.
Proof.
  intros [Ht Hc Hsv] R. split.
  - intros q. rewrite <- Ht. pose proof (rl_rest _ _ _ _ _ R q) as Hq. unfold prest in Hq.
    rewrite <- (fmap_is_Some rest (proc_table s' !! q)), Hq. apply fmap_is_Some.
  - intros n. rewrite (rl_some _ _ _ _ _ R). apply Hc.
  - intros q i. rewrite (prest_eq_semv s s' q i); [apply Hsv | apply R].
Qed.

Lemma relink_mono s s' ns ns' p d : relink s s' ns p d -> ns ⊆ ns' -> relink s s' ns' p d.
Proof. intros [] Hs. split; auto. Qed.

(** ** Circular queues

    [chain s n l d]: from [n] the cells lead through the links [l] to [d]. *)
Fixpoint chain (s : procq) (n : proc_link) (l : list proc_link) (d : proc_link) : Prop :=
  match l with
  | [] => cell s n = Some d
  | m :: l' => cell s n = Some m /\ chain s m l' d
  end.

Definition ring (s : procq) (l : list proc_link) : Prop :=
  match l with
  | [] => True
  | h :: t => chain s h t h
  end.

(** [queue s tp l]: [tp] is the tail link of the circular queue of the link cells
    [l], head first; an entry occurs at most once *)
Record queue (s : procq) (tp : proc_link) (l : list proc_link) : Prop := {
  q_ring : ring s l;
  q_nodup : NoDup (next <$> l);
  q_tail : tp = List.last l elink }.

Lemma chain_app s n l1 m l2 d : chain s n (l1 ++ m :: l2) d <-> chain s n l1 m /\ chain s m l2 d.
Proof. revert n. induction l1 as [|x l1 IH]; intros n; simpl; [done |]. rewrite IH. tauto. Qed.

Lemma chain_frame s s' n l d :
  (forall m, m ∈ n :: l -> cell s' m = cell s m) -> chain s n l d -> chain s' n l d.
Proof.
  revert n. induction l as [|x l IH]; simpl; intros n Hf.
  - by rewrite Hf by left.
  - rewrite Hf by left. intros [? Hc]. split; [done |]. apply IH; [| done].
    intros m Hm. apply Hf. by right.
Qed.

Lemma chain_last s n l d : chain s n l d -> cell s (List.last l n) = Some d.
Proof.
  revert n. induction l as [|x l IH]; intros n; [done |]. intros [_ Hc].
  rewrite last_cons_default. by apply IH.
Qed.

Lemma chain_cell s n l d m : chain s n l d -> m ∈ n :: l -> exists x, cell s m = Some x /\ x ∈ l ++ [d].
Proof.
  revert n. induction l as [|y l IH]; simpl; intros n Hc Hm.
  - apply list_elem_of_singleton in Hm as ->. exists d. split; [done | left].
  - destruct Hc as [Hn Hc]. apply elem_of_cons in Hm as [->|Hm].
    + exists y. split; [done | left].
    + destruct (IH y Hc Hm) as (x & ? & ?). exists x. split; [done | by right].
Qed.

Lemma chain_set_last s n l d d' :
  chain s n l d -> NoDup (n :: l) -> chain (set_cell (List.last l n) d' s) n l d'.
Proof.
  revert n. induction l as [|x l IH]; intros n Hc Hnd; simpl in Hc.
  - simpl. rewrite set_cell_eq; eauto.
  - destruct Hc as [Hn Hc]. apply NoDup_cons in Hnd as [Hx Hnd].
    rewrite last_cons_default. split; [| by apply IH].
    rewrite set_cell_ne; [done | |].
    + apply chain_last in Hc. eauto.
    + intros ->. apply Hx, last_default_in.
Qed.

Lemma ring_rotate s l1 l2 : ring s (l1 ++ l2) -> ring s (l2 ++ l1).
Proof.
  destruct l1 as [|h t], l2 as [|m r]; simpl; rewrite ?app_nil_r; [done .. |].
  rewrite !chain_app. tauto.
Qed.

Lemma ring_frame s s' l : (forall m, m ∈ l -> cell s' m = cell s m) -> ring s l -> ring s' l.
Proof. destruct l; [done |]. apply chain_frame. Qed.

Lemma ring_cell s l m : ring s l -> m ∈ l -> exists x, cell s m = Some x /\ x ∈ l.
Proof.
  destruct l as [|h t]; [set_solver |]. intros Hr Hm.
  destruct (chain_cell _ _ _ _ _ Hr Hm) as (x & ? & Hx). exists x. split; [done |].
  apply elem_of_app in Hx as [|Hx]; [by right |]. apply list_elem_of_singleton in Hx as ->. left.
Qed.

Lemma queue_frame s s' tp l :
  (forall m, m ∈ l -> cell s' m = cell s m) -> queue s tp l -> queue s' tp l.
Proof. intros Hf [??]. split; [by apply (ring_frame s) | done | done]. Qed.

Lemma queue_relink s s' ns p d tp l :
  relink s s' ns p d -> (forall m, m ∈ l -> m ∉ ns) -> queue s tp l -> queue s' tp l.
Proof. intros R Hd. apply queue_frame. intros m Hm. apply (rl_cell _ _ _ _ _ R). auto. Qed.

Lemma queue_nil s : queue s elink [].
Proof. split; [done | constructor | done]. Qed.

Lemma queue_NoDup s tp l : queue s tp l -> NoDup l.
Proof. intros [_ Hnd _]. by apply NoDup_fmap_1 in Hnd. Qed.

Lemma queue_valid s tp l n : pwf s -> queue s tp l -> n ∈ l -> valid_link n.
Proof.
  intros W Q Hn. apply (pwf_cell s W). destruct (ring_cell s l n (q_ring _ _ _ Q) Hn) as (x & ? & _).
  eauto.
Qed.

Lemma queue_content s tp l n :
  pwf s -> queue s tp l -> n ∈ l -> exists x, cell s n = Some x /\ x ∈ l /\ valid_link x.
Proof.
  intros W Q Hn. destruct (ring_cell s l n (q_ring _ _ _ Q) Hn) as (x & ? & ?).
  exists x. split_and!; eauto using queue_valid.
Qed.

(** a queue is no longer than the process table *)
Lemma queue_length s tp l : pwf s -> queue s tp l -> (length l <= 20)%nat.
Proof.
  intros W Q. rewrite <- (length_fmap next).
  assert (size (list_to_set (seqZ 0 MAXPROC) : gset Z) = 20%nat) as E by reflexivity.
  rewrite <- E. rewrite <- (size_list_to_set (C := gset Z) _ (q_nodup _ _ _ Q)).
  apply subseteq_size. intros p Hp. apply elem_of_list_to_set in Hp.
  apply list_elem_of_fmap in Hp as (n & -> & Hn).
  destruct (queue_valid _ _ _ _ W Q Hn) as [? _].
  apply elem_of_list_to_set, elem_of_seqZ. lia.
Qed.

(** ** Closing a ring over a new link, and around a removed one *)

Lemma ring_push s l n :
  queue s (List.last l elink) l -> next n ∉ next <$> l -> is_Some (cell s n) -> l <> [] ->
  ring (set_cell (List.last l elink) n (set_cell n (List.hd elink l) s)) (l ++ [n]).
Proof.
  destruct l as [|h t]; [done |]. intros [Hr Hnd _] Hn Hs _.
  rewrite last_cons_default. simpl in *. apply chain_app.
  assert (n ∉ h :: t) as Hni. { intros Hin. apply Hn. by apply (list_elem_of_fmap_2 next _ n) in Hin. }
  assert (NoDup (h :: t)) as Hnd' by by apply (NoDup_fmap_1 next).
  assert (forall m, m ∈ h :: t -> cell (set_cell n h s) m = cell s m) as Hf.
  { intros m Hm. apply set_cell_ne; [done | by intros ->]. }
  assert (chain (set_cell n h s) h t h) as Hc by by apply (chain_frame s).
  split; [by apply (chain_set_last _ _ _ h) |]. simpl.
  rewrite set_cell_ne; [by apply set_cell_eq | apply chain_last in Hc; eauto |].
  intros ->. apply Hni. rewrite <- last_cons_default with (d := elink). apply list_elem_of_In.
  rewrite last_cons_default. apply list_elem_of_In, last_default_in.
Qed.

(** what remains when the link [n] is cut out of a ring: the predecessor gets
    [n]'s content, [n] is cleared *)
Lemma ring_cut s n m r :
  ring s (n :: m :: r) -> NoDup (n :: m :: r) ->
  cell s n = Some m /\
  ring (set_cell n elink (set_cell (List.last (m :: r) elink) m s)) (m :: r).
Proof.
  intros [Hn Hc] Hnd. split; [done |]. apply NoDup_cons in Hnd as [Hni Hnd].
  rewrite last_cons_default.
  apply (chain_frame (set_cell (List.last r m) m s)).
  - intros x Hx. apply set_cell_ne; [| by intros ->].
    apply set_cell_is_Some; [apply chain_last in Hc; eauto | eauto].
  - by apply (chain_set_last _ _ _ n).
Qed.

Lemma last_app_ne {A} (l1 l2 : list A) d : l2 <> [] -> List.last (l1 ++ l2) d = List.last l2 d.
Proof.
  intros Hne. induction l1 as [|x l1 IH]; [done |]. simpl.
  destruct (l1 ++ l2) eqn:E; [| done]. by apply app_eq_nil in E as [_ ->].
Qed.

Lemma last_nonempty {A} (l : list A) d d' : l <> [] -> List.last l d = List.last l d'.
Proof. destruct l; [done |]. by rewrite !last_cons_default. Qed.

(** cutting an arbitrary link [n] out of a queue of at least two *)
Lemma queue_cut s tp l1 n l2 c :
  queue s tp (l1 ++ n :: l2) -> l1 ++ l2 <> [] -> cell s n = Some c ->
  let prev := List.last l1 tp in
  is_Some (cell s prev) /\ prev ∈ l1 ++ l2 /\
  queue (set_cell n elink (set_cell prev c s)) (match l2 with [] => prev | _ => tp end) (l1 ++ l2).
Proof.
  intros [Hr Hnd Ht] Hne Hc prev.
  assert (NoDup (n :: l2 ++ l1)) as Hnd'.
  { apply (NoDup_fmap_1 next). rewrite fmap_cons, fmap_app. rewrite fmap_app, fmap_cons in Hnd.
    apply NoDup_app in Hnd as (? & Hd & [? ?]%NoDup_cons). constructor.
    - intros [?|Hin]%elem_of_app; [done |]. by apply (Hd (next n)); [| left].
    - apply NoDup_app. split_and!; [done | | done]. intros x Hx1 Hx2. apply (Hd x); [done | by right]. }
  assert (prev = List.last (l2 ++ l1) elink) as Hp.
  { subst prev. destruct l1 as [|a l1].
    - rewrite app_nil_r. cbn [app] in *. subst tp. rewrite last_cons_default.
      change (List.last l2 n = List.last l2 elink). by apply last_nonempty.
    - rewrite last_app_ne by done. by apply last_nonempty. }
  apply (ring_rotate s l1 (n :: l2)) in Hr. simpl app in Hr.
  destruct (l2 ++ l1) as [|m r] eqn:E.
  { apply app_eq_nil in E as [-> ->]. done. }
  destruct (ring_cut s n m r Hr Hnd') as [Hm Hring]. rewrite Hc in Hm. injection Hm as ->.
  rewrite <- Hp in Hring.
  assert (prev ∈ m :: r) as Hpin. { rewrite Hp, last_cons_default. apply last_default_in. }
  split_and!.
  - destruct (ring_cell s (n :: m :: r) prev Hr) as (x & ? & _); [by right | eauto].
  - rewrite <- E in Hpin. rewrite elem_of_app in Hpin. rewrite elem_of_app. tauto.
  - split.
    + rewrite <- E in Hring. by apply ring_rotate in Hring.
    + rewrite fmap_app, fmap_cons in Hnd. rewrite fmap_app.
      apply NoDup_app in Hnd as (? & Hd & [? ?]%NoDup_cons). apply NoDup_app.
      split_and!; [done | | done]. intros x Hx1 Hx2. apply (Hd x); [done | by right].
    + subst prev. destruct l2 as [|b l2].
      * rewrite app_nil_r. rewrite app_nil_r in Hne. by apply last_nonempty.
      * rewrite Ht, !last_app_ne by done. by rewrite !last_cons_default.
Qed.

Lemma relink_one s a x ns p d :
  is_Some (cell s a) -> a ∈ ns -> relink s (add_qcount p d (set_cell a x s)) ns p d.
Proof.
  intros Ha Hin. split; [done | done | ..]; intros; autorewrite with views; try done.
  - apply set_cell_ne; [done | by intros ->].
  - by apply set_cell_is_Some.
  - rewrite add_qcount_qc. by autorewrite with views.
Qed.

Lemma relink_two s a x b y ns p d :
  is_Some (cell s a) -> is_Some (cell s b) -> a ∈ ns -> b ∈ ns ->
  relink s (add_qcount p d (set_cell a x (set_cell b y s))) ns p d.
Proof.
  intros Ha Hb Hain Hbin. assert (is_Some (cell (set_cell b y s) a)) by by apply set_cell_is_Some.
  split; [done | done | ..]; intros; autorewrite with views; try done.
  - rewrite !set_cell_ne; [done | done | by intros -> | done | by intros ->].
  - by rewrite !set_cell_is_Some.
  - rewrite add_qcount_qc. by autorewrite with views.
Qed.

Lemma queue_add_qcount s tp l p d : queue s tp l -> queue (add_qcount p d s) tp l.
Proof. apply queue_frame. intros. apply add_qcount_cell. Qed.

#[export] Hint Resolve relink_one relink_two queue_add_qcount : core.

(** ** [headQueue] *)

Lemma queue_tail_in s tp l : queue s tp l -> l <> [] -> tp ∈ l.
Proof.
  intros Q Hne. rewrite (q_tail _ _ _ Q). destruct l as [|h t]; [done |].
  rewrite last_cons_default. apply last_default_in.
Qed.

Lemma queue_tail_cell s tp h t : queue s tp (h :: t) -> cell s tp = Some h.
Proof.
  intros [Hr _ ->]. rewrite last_cons_default. by apply chain_last in Hr.
Qed.

Lemma queue_next_ne s tp l n : pwf s -> queue s tp l -> n ∈ l -> next n <> ENULL.
Proof. intros W Q Hn. destruct (queue_valid _ _ _ _ W Q Hn). unfold ENULL. lia. Qed.

Definition head_of (l : list proc_link) : Z :=
  match l with [] => ENULL | n :: _ => next n end.

Lemma headQueue_run s tp l :
  pwf s -> queue s tp l -> headQueue tp s = Ret (head_of l) s.
Proof.
  intros W Q. unfold headQueue. destruct l as [|h t].
  - by rewrite (q_tail _ _ _ Q).
  - assert (next tp <> ENULL) by (eapply queue_next_ne, queue_tail_in; eauto).
    rewrite (proj2 (Z.eqb_neq _ _)) by done.
    assert (wp (get_link (next tp) (index tp)) s (fun l s' => l = h /\ s' = s) (fun _ _ => False)) as Hw.
    { eapply wp_get_link; [destruct tp; by eapply queue_tail_cell | done]. }
    apply returns_inv in Hw as (? & ? & Hrun & -> & ->). unfold bind. by rewrite Hrun.
Qed.

Lemma wp_headQueue s tp l Q X :
  pwf s -> queue s tp l -> Q (head_of l) s -> wp (headQueue tp) s Q X.
Proof. intros W Hq HQ. unfold wp. by erewrite headQueue_run. Qed.

(** ** [insertProc] *)

Definition full (s : procq) (p : Z) : Prop :=
  forall j, 0 <= j < SEMMAX -> exists l, cell s (mk_link j p) = Some l /\ index l <> ENULL.

Lemma wp_find_free_link s p Q X :
  pwf s -> 0 <= p < MAXPROC ->
  (full s p -> Q SEMMAX s) ->
  (forall i l, 0 <= i < SEMMAX -> cell s (mk_link i p) = Some l -> index l = ENULL -> Q i s) ->
  wp (find_free_link p 0 (Z.to_nat SEMMAX)) s Q X.
Proof.
  intros W Hp Hfull Hfree.
  assert (forall n i, i + Z.of_nat n = SEMMAX -> 0 <= i ->
    (forall j, 0 <= j < i -> exists l, cell s (mk_link j p) = Some l /\ index l <> ENULL) ->
    wp (find_free_link p i n) s Q X) as Hgen; [| apply Hgen; [done | lia | lia]].
  induction n as [|n IH]; intros i Hi Hi0 Hbusy; unfold find_free_link; fold find_free_link.
  - apply wp_ret. replace i with SEMMAX in * by lia. by apply Hfull.
  - assert (is_Some (cell s (mk_link i p))) as [l Hl].
    { apply (pwf_cell s W). split; simpl; lia. }
    q_step. q_step. case_Z.
    + apply wp_ret. eapply Hfree; [lia | done | done].
    + apply IH; [lia | lia |]. intros j Hj. destruct (decide (j = i)) as [->|]; [eauto |].
      apply Hbusy. lia.
Qed.

(** a full entry makes [insertProc] panic, with the state unchanged otherwise *)
Lemma insertProc_full s tp p :
  pwf s -> 0 <= p < MAXPROC -> full s p ->
  insertProc tp p s = Exn Panic (set_pncbuf msg_full s).
Proof.
  intros W Hp Hfull.
  assert (returns (find_free_link p 0 (Z.to_nat SEMMAX)) s (fun i s' => i = SEMMAX /\ s' = s)) as Hw.
  { apply wp_find_free_link; [done | done | done |]. intros i l Hi Hl Hix.
    destruct (Hfull i Hi) as (l' & Hl' & ?). congruence. }
  apply returns_inv in Hw as (? & ? & Hrun & -> & ->). unfold insertProc, bind. by rewrite Hrun.
Qed.

Lemma insertProc_spec s tp l p :
  pwf s -> queue s tp l -> 0 <= p < MAXPROC -> p ∉ next <$> l -> ~ full s p ->
  returns (insertProc tp p) s (fun tp' s' => exists i c,
    tp' = mk_link i p /\ 0 <= i < SEMMAX /\ cell s (mk_link i p) = Some c /\ index c = ENULL /\
    queue s' (mk_link i p) (l ++ [mk_link i p]) /\ relink s s' (mk_link i p :: l) p 1).
Proof.
  intros W Q Hp Hni Hnf. unfold insertProc. q_step.
  apply wp_find_free_link; [done | done | by intros ? |]. intros i c Hi Hc Hix.
  q_step. rewrite (proj2 (Z.eqb_neq i SEMMAX)) by lia. apply wp_ret.
  assert (is_Some (proc_table s !! p)) as Hps by by apply (pwf_table s W).
  assert (is_Some (cell s (mk_link i p))) as Hcs by eauto.
  assert (NoDup (next <$> l ++ [mk_link i p])) as Hnd.
  { rewrite fmap_app. apply NoDup_app. split_and!; [apply Q | | apply NoDup_singleton].
    intros x Hx ->%list_elem_of_singleton. done. }
  assert (relink s (add_qcount p 1 (set_cell (mk_link i p) (mk_link i p) s)) [mk_link i p] p 1) as R1.
  { apply relink_one; [done | left]. }
  destruct l as [|h t].
  - rewrite (q_tail _ _ _ Q). case_Z; [| done]. q_steps.
    { by rewrite set_cell_table_is_Some. }
    exists i, c. split_and!; try done; [lia | lia |]. apply queue_add_qcount.
    split; [| done | done]. by apply set_cell_eq.
  - pose proof (queue_tail_cell _ _ _ _ Q) as Ht. pose proof (queue_tail_in _ _ _ Q) as Hin.
    specialize (Hin ltac:(done)). pose proof (queue_next_ne _ _ _ _ W Q Hin).
    case_Z; [done |]. destruct tp as [ti tn]; simpl in *. q_steps.
    { rewrite set_cell_is_Some by done. eauto. }
    { by rewrite !set_cell_table_is_Some. }
    exists i, c. split_and!; try done; [lia | lia | |].
    + apply queue_add_qcount. split; [| done |].
      * rewrite (q_tail _ _ _ Q). apply (ring_push s (h :: t)); [| done | done | done].
        by rewrite <- (q_tail _ _ _ Q).
      * by rewrite last_cons_default, last_default_app.
    + apply relink_two; [eauto | done | by right | left].
Qed.

(** ** [removeProc] *)

Lemma removeProc_nil s tp : queue s tp [] -> removeProc tp s = Ret (tp, ENULL) s.
Proof. intros Q. by rewrite (q_tail _ _ _ Q). Qed.

Lemma queue_single s tp n : queue s tp [n] -> tp = n /\ cell s n = Some n.
Proof. intros Q. split; [apply Q |]. apply (q_ring _ _ _ Q). Qed.

Lemma queue_two_ne s tp h t :
  queue s tp (h :: t) -> t <> [] -> next tp <> next h.
Proof.
  intros Q Ht. rewrite (q_tail _ _ _ Q), last_cons_default. intros Heq.
  pose proof (q_nodup _ _ _ Q) as Hnd. rewrite fmap_cons in Hnd. apply NoDup_cons in Hnd as [Hh _].
  apply Hh. rewrite <- Heq. apply list_elem_of_fmap_2. destruct t as [|m r]; [done |].
  rewrite last_cons_default. apply last_default_in.
Qed.

Lemma removeProc_spec s tp h t :
  pwf s -> queue s tp (h :: t) ->
  returns (removeProc tp) s (fun r s' =>
    r.2 = next h /\ queue s' r.1 t /\ cell s' h = Some elink /\ relink s s' (h :: t) (next h) (-1)).
Proof.
  intros W Q. unfold removeProc.
  pose proof (queue_tail_in _ _ _ Q ltac:(done)) as Hin.
  pose proof (queue_next_ne _ _ _ _ W Q Hin). pose proof (queue_tail_cell _ _ _ _ Q) as Htp.
  case_Z; [done |]. q_step. eapply wp_headQueue; [done | done |]. simpl head_of.
  assert (is_Some (proc_table s !! next h)) as Hps.
  { apply (pwf_table s W). by eapply queue_valid; [| | left]. }
  destruct t as [|m r].
  - apply queue_single in Q as [-> Hc]. case_Z; [| done]. destruct h as [hi hp]; simpl in *. q_steps.
    { by rewrite set_cell_table_is_Some. }
    split_and!; [done | apply queue_add_qcount, queue_nil | | apply relink_one; [eauto | left]].
    rewrite add_qcount_cell. by apply set_cell_eq.
  - pose proof (queue_two_ne _ _ _ _ Q ltac:(done)). case_Z; [done |].
    destruct (queue_content _ _ _ h W Q ltac:(left)) as (c & Hc & _).
    destruct (queue_cut s tp [] h (m :: r) c Q ltac:(done) Hc) as (Hps' & Hpin & Hq). simpl in Hps', Hpin, Hq.
    destruct tp as [ti tn], h as [hi hp]; simpl in *. q_step. q_step.
    eapply wp_headQueue; [done | done |]. simpl head_of. q_steps.
    { by apply set_cell_is_Some. }
    { by rewrite !set_cell_table_is_Some. }
    split_and!; [done | by apply queue_add_qcount | | apply relink_two; [eauto | done | left | by right]].
    rewrite add_qcount_cell. apply set_cell_eq. by apply set_cell_is_Some.
Qed.

(** ** [outProc] *)

(** the outcome of cutting the entry [p] out of the queue [l] of [tp] *)
Definition cut_out (s : procq) (l : list proc_link) (p : Z) (tp' : proc_link) (s' : procq) : Prop :=
  exists l1 n l2, l = l1 ++ n :: l2 /\ next n = p /\
    queue s' tp' (l1 ++ l2) /\ cell s' n = Some elink /\ relink s s' l p (-1).

(** the assignments by which [outProc] cuts the link [n] out, prev being before it *)
Lemma wp_cut {A} s tp l1 n l2 (k : MQ A) Q X :
  pwf s -> queue s tp (l1 ++ n :: l2) -> l1 ++ l2 <> [] ->
  (forall s', queue s' (match l2 with [] => List.last l1 tp | _ => tp end) (l1 ++ l2) ->
     cell s' n = Some elink -> relink s s' (l1 ++ n :: l2) (next n) (-1) -> wp k s' Q X) ->
  wp (let! l := get_link (next n) (index n) in
      put_link (next (List.last l1 tp)) (index (List.last l1 tp)) l ;;
      put_link (next n) (index n) elink ;;
      update (next n) (fun pr => set_qcount (i32 (qcount pr - 1)) pr) ;;
      k) s Q X.
Proof.
  intros W Hq Hne HQ.
  assert (n ∈ l1 ++ n :: l2) as Hin by (apply elem_of_app; right; left).
  destruct (queue_content _ _ _ n W Hq Hin) as (c & Hc & _).
  destruct (queue_cut s tp l1 n l2 c Hq Hne Hc) as (Hps & Hpin & Hq').
  assert (is_Some (proc_table s !! next n)) as Hts.
  { apply (pwf_table s W). by eapply queue_valid. }
  remember (List.last l1 tp) as prev. destruct n as [ni nn], prev as [pi pn]. simpl in *. q_steps.
  { rewrite set_cell_is_Some by done. eauto. }
  { by rewrite !set_cell_table_is_Some. }
  assert (is_Some (cell s (mk_link ni nn))) as Hcs by eauto.
  apply HQ; [by apply queue_add_qcount | | ].
  - rewrite add_qcount_cell. apply set_cell_eq. by apply set_cell_is_Some.
  - apply relink_two; [done .. |]. apply elem_of_app in Hpin. rewrite elem_of_app, elem_of_cons. tauto.
Qed.

Definition loop_post (s : procq) (tp : proc_link) (l : list proc_link) (p : Z)
    (r : Z + proc_link * proc_link) (s' : procq) : Prop :=
  match r with
  | inl rv => rv = p /\ cut_out s l p tp s'
  | inr (prev, cur) => s' = s /\ cur = tp /\
      exists l1, l = l1 ++ [tp] /\ prev = List.last l1 tp /\ p ∉ next <$> l1
  end.

Lemma queue_next_inj s tp l a b :
  queue s tp l -> a ∈ l -> b ∈ l -> next a = next b -> a = b.
Proof.
  intros Q Ha Hb Heq. apply list_elem_of_lookup in Ha as [i Hi], Hb as [j Hj].
  assert (i = j) as ->; [| congruence].
  eapply (NoDup_lookup (next <$> l)); [apply Q | |]; rewrite list_lookup_fmap;
    [by rewrite Hi | rewrite Hj; simpl; congruence].
Qed.

Lemma queue_not_tail s tp done cur m todo :
  queue s tp (done ++ cur :: m :: todo) -> next cur <> next tp.
Proof.
  intros Q Heq. apply (queue_next_inj _ _ _ _ _ Q) in Heq as ->.
  - pose proof (queue_NoDup _ _ _ Q) as Hnd. apply NoDup_app in Hnd as (_ & _ & Hnd).
    apply NoDup_cons in Hnd as [Hni _]. apply Hni. rewrite (q_tail _ _ _ Q) at 1.
    rewrite last_app_ne, !last_cons_default by done. apply last_default_in.
  - apply elem_of_app. right. left.
  - apply (queue_tail_in _ _ _ Q). by destruct done.
Qed.

Lemma outProc_loop_spec s tp l p :
  pwf s -> queue s tp l ->
  forall todo done cur fuel, l = done ++ cur :: todo -> (length todo < fuel)%nat ->
  p ∉ next <$> done ->
  returns (outProc_loop fuel tp p (List.last done tp) cur) s (loop_post s tp l p).
Proof.
  intros W Q. induction todo as [|m todo IH]; intros done cur fuel Hl Hf Hp;
    (destruct fuel as [|fuel]; simpl in Hf; [lia |]); unfold outProc_loop; fold outProc_loop.
  - assert (cur = tp) as -> by (rewrite (q_tail _ _ _ Q), Hl; by rewrite last_default_app).
    rewrite Z.eqb_refl. apply wp_ret. split_and!; [done | done |]. by exists done.
  - subst l. pose proof (queue_not_tail _ _ _ _ _ _ Q). case_Z; [done |]. case_Z.
    + subst p. apply (wp_cut s tp done cur (m :: todo)); [done | done | by destruct done |].
      intros s' Q' Hc R. apply wp_ret. split; [done |]. by exists done, cur, (m :: todo).
    + q_step. destruct (queue_content _ _ _ cur W Q ltac:(set_solver)) as (c & Hc & _).
      assert (c = m) as ->.
      { pose proof (q_ring _ _ _ Q) as Hr. apply (ring_rotate s done (cur :: m :: todo)) in Hr.
        destruct Hr as [Hm _]. congruence. }
      destruct cur as [ci cn]. q_step. simpl in *.
      pose proof (IH (done ++ [mk_link ci cn]) m fuel) as IH'. rewrite last_default_app in IH'.
      apply IH'; [by rewrite <- app_assoc | lia |].
      rewrite fmap_app, not_elem_of_app. split; [done |]. intros [=->]%list_elem_of_singleton. done.
Qed.

Lemma outProc_spec s tp l p :
  pwf s -> queue s tp l -> 0 <= p ->
  returns (outProc tp p) s (fun r s' =>
    ((p ∉ (next <$> l)) /\ r = (tp, ENULL) /\ s' = s) \/ (r.2 = p /\ cut_out s l p r.1 s')).
Proof.
  intros W Q Hp. unfold outProc. destruct l as [|h t].
  { rewrite (q_tail _ _ _ Q). apply wp_ret. left. split_and!; [set_solver | done | done]. }
  pose proof (queue_tail_in _ _ _ Q ltac:(done)) as Hin.
  pose proof (queue_next_ne _ _ _ _ W Q Hin). pose proof (queue_tail_cell _ _ _ _ Q) as Htp.
  case_Z; [done |]. q_step. eapply wp_headQueue; [done | done |]. simpl head_of.
  destruct t as [|m r].
  - apply queue_single in Q as Q1. destruct Q1 as [-> Hc].
    rewrite Z.eqb_refl. simpl. case_Z; simpl.
    + assert (is_Some (proc_table s !! next h)) as Hps.
      { apply (pwf_table s W). by eapply queue_valid. }
      destruct h as [hi hp]; simpl in *. q_steps.
      { by rewrite set_cell_table_is_Some. }
      right. split; [done |]. exists [], (mk_link hi hp), [].
      split_and!; [done | done | apply queue_add_qcount, queue_nil | | subst; apply relink_one; [eauto | left]].
      rewrite add_qcount_cell. by apply set_cell_eq.
    + apply wp_ret. left. split_and!; [set_solver | done | done].
  - pose proof (queue_two_ne _ _ _ _ Q ltac:(done)) as Hne.
    rewrite (proj2 (Z.eqb_neq (next tp) (next h))) by done. cbn [andb negb].
    destruct tp as [ti tn]; cbn [next index] in *. q_step. q_step.
    q_step. eapply wp_use.
    { apply (outProc_loop_spec s (mk_link ti tn) (h :: m :: r) p W Q (m :: r) [] h);
        [done | | set_solver].
      apply queue_length in Q; [| done]. simpl in *. unfold queue_fuel. lia. }
    intros [rv|[prev cur]] s' Hpost; unfold loop_post in Hpost.
    { destruct Hpost as [-> ?]. apply wp_ret. by right. }
    destruct Hpost as (-> & -> & l1 & Hl & -> & Hni). cbn [next index].
    rewrite Z.eqb_refl. cbn [andb].
    assert (l1 <> []) as Hl1 by (intros ->; discriminate).
    rewrite Hl in Q |- *. case_Z.
    + subst p. apply (wp_cut s (mk_link ti tn) l1 (mk_link ti tn) []); [done | done | by destruct l1 |].
      intros s' Q' Hc R. apply wp_ret. right. split; [done |]. by exists l1, (mk_link ti tn), [].
    + apply wp_ret. left. split_and!; [| done | done]. rewrite fmap_app, not_elem_of_app. split; [done |]. intros [=->]%list_elem_of_singleton. done.
Qed.

(** ** The free list *)

Fixpoint flist (s : procq) (h : Z) (fl : list Z) : Prop :=
  match fl with
  | [] => h = ENULL
  | p :: fl' => h = p /\ exists l, cell s (mk_link 0 p) = Some l /\ flist s (next l) fl'
  end.

Lemma flist_frame s s' h fl :
  (forall p, p ∈ fl -> cell s' (mk_link 0 p) = cell s (mk_link 0 p)) ->
  flist s h fl -> flist s' h fl.
Proof.
  revert h. induction fl as [|p fl IH]; intros h Hf; [done |]. simpl.
  intros [-> (l & Hl & Hfl)]. split; [done |]. exists l. rewrite Hf by left.
  split; [done |]. apply IH; [| done]. intros q Hq. apply Hf. by right.
Qed.

Lemma flist_valid s h fl p : pwf s -> flist s h fl -> p ∈ fl -> 0 <= p < MAXPROC.
Proof.
  intros W. revert h. induction fl as [|q fl IH]; simpl; intros h Hfl Hp; [set_solver |].
  destruct Hfl as [-> (l & Hl & Hfl)]. apply elem_of_cons in Hp as [->|Hp]; [| by eapply IH].
  assert (valid_link (mk_link 0 q)) as []; [| done]. apply (pwf_cell s W). eauto.
Qed.

Lemma flist_head s h fl : pwf s -> flist s h fl -> (h = ENULL <-> fl = []).
Proof.
  intros W Hfl. destruct fl as [|p fl]; [done |]. split; [| done]. intros ->.
  destruct (flist_valid s ENULL (p :: fl) p W Hfl ltac:(left)).
  destruct Hfl as [<- _]. unfold ENULL in *. lia.
Qed.

Lemma flist_length s h fl : pwf s -> flist s h fl -> NoDup fl -> (length fl <= 20)%nat.
Proof.
  intros W Hfl Hnd.
  assert (size (list_to_set (seqZ 0 MAXPROC) : gset Z) = 20%nat) as E by reflexivity.
  rewrite <- E, <- (size_list_to_set (C := gset Z) _ Hnd). apply subseteq_size.
  intros p Hp. apply elem_of_list_to_set in Hp. pose proof (flist_valid _ _ _ _ W Hfl Hp).
  apply elem_of_list_to_set, elem_of_seqZ. lia.
Qed.

(** ** [allocProc] *)

Lemma set_free_head_cell s h n : cell (set_free_head h s) n = cell s n.
Proof. done. Qed.

Lemma allocProc_nil s : flist s (free_head s) [] -> allocProc s = Ret ENULL s.
Proof. simpl. intros Hh. unfold allocProc, bind, gets. by rewrite Hh. Qed.

Lemma allocProc_spec s p fl :
  pwf s -> flist s (free_head s) (p :: fl) -> NoDup (p :: fl) ->
  returns (allocProc) s (fun r s' => r = p /\ flist s' (free_head s') fl /\
    exists h, s' = set_cell (mk_link 0 p) elink (set_free_head h s)).
Proof.
  intros W Hfl [Hni Hnd]%NoDup_cons.
  destruct (flist_valid _ _ _ p W Hfl ltac:(left)) as [Hp0 Hp1].
  destruct Hfl as [Hh (l & Hl & Hfl)]. unfold allocProc. q_step. q_step. rewrite Hh.
  case_Z; [unfold ENULL in *; lia |]. q_steps.
  split_and!; [done | | by eexists].
  apply (flist_frame s); [| done]. intros q Hq.
  rewrite set_cell_ne; [done | eauto | intros [=]; congruence].
Qed.

(** ** [clear_links] *)

Lemma wp_put_semvec s p i v Q X :
  is_Some (semv s p i) -> Q tt (set_semv p i v s) -> wp (put_semvec p i v) s Q X.
Proof.
  intros (x & (pr & Hpr & Hx)%bind_Some) HQ. unfold put_semvec, update, deref. wp_steps.
  erewrite (insert_is_alter (fun pr => set_semvec (<[i:=v]> (semvec pr)) pr)) by done. done.
Qed.

(** entry [p] has its links and semaphore vector cleared for the indices below [i] *)
Record cleared (i p : Z) (s s' : procq) : Prop := {
  cl_head : free_head s' = free_head s;
  cl_cell : forall n, cell s' n =
    (if decide (next n = p /\ index n < i) then fun _ => elink else id) <$> cell s n;
  cl_semv : forall q j, semv s' q j =
    (if decide (q = p /\ j < i) then fun _ => ENULL else id) <$> semv s q j;
  cl_core : forall q, pcore s' q = pcore s q;
  cl_qc : forall q, qc s' q = qc s q }.

Lemma cleared_pwf i p s s' : pwf s -> cleared i p s s' -> pwf s'.
Proof.
  intros W C. split.
  - intros q. rewrite <- (pwf_table s W). pose proof (cl_qc _ _ _ _ C q) as Hq. unfold qc in Hq.
    rewrite <- (fmap_is_Some qcount (proc_table s' !! q)), Hq. apply fmap_is_Some.
  - intros n. rewrite (cl_cell _ _ _ _ C), fmap_is_Some. apply W.
  - intros q j. rewrite (cl_semv _ _ _ _ C), fmap_is_Some. apply W.
Qed.

Lemma clear_links_spec s p :
  pwf s -> 0 <= p < MAXPROC -> returns (clear_links p) s (fun _ s' => cleared SEMMAX p s s').
Proof.
  intros W Hp. unfold clear_links. apply (wp_for (fun i s' => cleared i p s s')); [done | | |].
  - split; [done | | | done | done]; intros.
    + case_decide as Hd; [| by rewrite option_fmap_id]. destruct (cell s n) eqn:E; [| done].
      assert (valid_link n) as [_ ?] by (apply (pwf_cell s W); eauto). lia.
    + case_decide as Hd; [| by rewrite option_fmap_id]. destruct (semv s q j) eqn:E; [| done].
      assert (0 <= q < MAXPROC /\ 0 <= j < SEMMAX) as [_ ?] by (apply (pwf_semv s W); eauto). lia.
  - intros i s1 Hi C. pose proof (cleared_pwf _ _ _ _ W C) as W1.
    assert (is_Some (cell s1 (mk_link i p))) as Hc by by apply (pwf_cell s1 W1).
    assert (is_Some (semv s1 p i)) as Hs by by apply (pwf_semv s1 W1).
    q_step. apply wp_put_link; [done |]. apply wp_put_semvec.
    { by autorewrite with views. }
    split; intros; autorewrite with views; [apply C | | | apply C | apply C].
    + rewrite set_cell_cell by done. rewrite (cl_cell _ _ _ _ C).
      rewrite (cl_cell _ _ _ _ C), fmap_is_Some in Hc. destruct Hc as [x Hx].
      destruct n as [j q]; simpl. case_decide as Hd; simplify_eq.
      * rewrite decide_True by (split; [done | lia]). by rewrite Hx.
      * f_equal. apply decide_ext. split; intros [-> ?]; split; try done; [lia |].
        assert (j <> i) by congruence. lia.
    + rewrite set_semv_semv by by autorewrite with views. autorewrite with views.
      rewrite (cl_semv _ _ _ _ C). rewrite (cl_semv _ _ _ _ C), fmap_is_Some in Hs.
      destruct Hs as [x Hx]. case_decide as Hd; [destruct Hd as [-> ->] |].
      * rewrite decide_True by (split; [done | lia]). by rewrite Hx.
      * f_equal. apply decide_ext. split; intros [-> ?]; split; try done; [lia |].
        assert (j <> i) by naive_solver. lia.
  - done.
Qed.

(** ** [freeProc] *)

Lemma free_list_end_spec s h fl fuel :
  pwf s -> flist s h fl -> fl <> [] -> (length fl <= fuel)%nat ->
  returns (free_list_end fuel h) s (fun r s' => r = List.last fl ENULL /\ s' = s).
Proof.
  intros W. revert h fuel. induction fl as [|p fl IH]; intros h fuel Hfl Hne Hf; [done |].
  destruct fuel as [|fuel]; simpl in Hf; [lia |]. destruct Hfl as [-> (l & Hl & Hfl)].
  unfold free_list_end; fold free_list_end. q_step. q_step.
  rewrite last_cons_default. pose proof (flist_head _ _ _ W Hfl) as Hh.
  case_Z.
  - apply wp_ret. by rewrite (proj1 Hh).
  - destruct fl as [|q fl]; [naive_solver |].
    rewrite (last_nonempty _ p ENULL) by done. apply IH; [done | done | simpl in *; lia].
Qed.

(** linking the cleared entry [p] behind the last entry [z] *)
Lemma flist_snoc s h fl z lz p :
  flist s h (fl ++ [z]) -> NoDup (fl ++ [z]) -> cell s (mk_link 0 z) = Some lz ->
  cell s (mk_link 0 p) = Some elink -> p <> z ->
  flist (set_cell (mk_link 0 z) (mk_link (index lz) p) s) h ((fl ++ [z]) ++ [p]).
Proof.
  intros Hfl Hnd Hz Hp Hpz. revert h Hfl. induction fl as [|q fl IH]; simpl; intros h Hfl.
  - destruct Hfl as [-> _]. split; [done |]. exists (mk_link (index lz) p).
    rewrite set_cell_eq by eauto. split; [done |]. split; [done |]. exists elink.
    rewrite set_cell_ne; [done | eauto | intros [=]; congruence].
  - destruct Hfl as [-> (l & Hl & Hfl)]. apply NoDup_cons in Hnd as [Hq Hnd].
    split; [done |]. exists l. split; [| by apply IH].
    rewrite set_cell_ne; [done | eauto |]. intros [= ->]. apply Hq, elem_of_app. right. left.
Qed.

Definition qcount_zero (p : Z) (s : procq) : procq :=
  set_proc_table (alter (set_qcount 0) p (proc_table s)) s.

Lemma wp_qcount_zero s p Q X :
  is_Some (proc_table s !! p) -> Q tt (qcount_zero p s) -> wp (update p (set_qcount 0)) s Q X.
Proof.
  intros [pr Hpr] HQ. unfold update, deref. wp_steps.
  by rewrite (insert_is_alter (set_qcount 0)) by done.
Qed.

Lemma qcount_zero_views s p :
  (forall n, cell (qcount_zero p s) n = cell s n) /\
  (forall q i, semv (qcount_zero p s) q i = semv s q i) /\
  (forall q, pcore (qcount_zero p s) q = pcore s q) /\
  (forall q, qc (qcount_zero p s) q = (if decide (q = p) then fun _ => 0 else id) <$> qc s q).
Proof.
  split_and!; intros; unfold cell, semv, pcore, qc; simpl; rewrite lookup_alter; case_decide; subst.
  1, 3, 5: by destruct (proc_table s !! _) as [[]|].
  1, 2, 3: done.
  - rewrite decide_True by done. by destruct (proc_table s !! q) as [[]|].
  - rewrite decide_False by done. by rewrite option_fmap_id.
Qed.

(** what [freeProc p] does when the free list is [fl] *)
Record freed (s s' : procq) (fl : list Z) (p : Z) : Prop := {
  fr_list : flist s' (free_head s') (fl ++ [p]);
  fr_clear : forall i, 0 <= i < SEMMAX -> cell s' (mk_link i p) = Some elink;
  fr_cell : forall n, next n <> p -> (index n = 0 -> next n ∉ fl) -> cell s' n = cell s n;
  fr_semv : forall q i, semv s' q i = (if decide (q = p) then fun _ => ENULL else id) <$> semv s q i;
  fr_core : forall q, pcore s' q = pcore s q;
  fr_qc : forall q, qc s' q = (if decide (q = p) then fun _ => 0 else id) <$> qc s q;
  fr_pwf : pwf s' }.

(** the entry cleared, before it is linked to the free list *)
Lemma freed_cleared s s1 p :
  pwf s -> cleared SEMMAX p s s1 ->
  let s2 := qcount_zero p s1 in
  (forall n, cell s2 n = (if decide (next n = p) then fun _ => elink else id) <$> cell s n) /\
  (forall q i, semv s2 q i = (if decide (q = p) then fun _ => ENULL else id) <$> semv s q i) /\
  (forall q, pcore s2 q = pcore s q) /\
  (forall q, qc s2 q = (if decide (q = p) then fun _ => 0 else id) <$> qc s q) /\
  free_head s2 = free_head s /\ pwf s2.
Proof.
  intros W C s2. destruct (qcount_zero_views s1 p) as (Hc & Hs & Hp & Hq). subst s2.
  split_and!; [| | intros; by rewrite Hp, (cl_core _ _ _ _ C) | | apply C | ].
  - intros n. rewrite Hc, (cl_cell _ _ _ _ C). destruct (cell s n) eqn:E; [| done].
    assert (valid_link n) as [_ ?] by (apply (pwf_cell s W); eauto).
    f_equal. by rewrite (decide_ext _ (next n = p)) by naive_solver lia.
  - intros q i. rewrite Hs, (cl_semv _ _ _ _ C). destruct (semv s q i) eqn:E; [| done].
    assert (0 <= q < MAXPROC /\ 0 <= i < SEMMAX) as [_ ?] by (apply (pwf_semv s W); eauto).
    f_equal. by rewrite (decide_ext _ (q = p)) by naive_solver lia.
  - intros q. by rewrite Hq, (cl_qc _ _ _ _ C).
  - pose proof (cleared_pwf _ _ _ _ W C) as W1. split.
    + intros q. rewrite <- (pwf_table s1 W1). simpl. rewrite lookup_alter.
      case_decide; [subst; apply fmap_is_Some | done].
    + intros n. rewrite Hc. apply W1.
    + intros q i. rewrite Hs. apply W1.
Qed.

Lemma freeProc_spec s fl p :
  pwf s -> flist s (free_head s) fl -> NoDup fl -> 0 <= p < MAXPROC -> p ∉ fl ->
  returns (freeProc p) s (fun _ s' => freed s s' fl p).
Proof.
  intros W Hfl Hnd Hp Hni. unfold freeProc. q_step.
  wp_apply (clear_links_spec s p W Hp). intros [] s1 C.
  destruct (freed_cleared s s1 p W C) as (Hcell & Hsemv & Hcore & Hqc & Hfh & W2).
  q_step. apply wp_qcount_zero. { by apply (pwf_table s1 (cleared_pwf _ _ _ _ W C)). }
  set (s2 := qcount_zero p s1) in *. clearbody s2. clear C s1.
  assert (forall i, 0 <= i < SEMMAX -> cell s2 (mk_link i p) = Some elink) as Hp2.
  { intros i Hi. rewrite Hcell. simpl. rewrite decide_True by done.
    assert (is_Some (cell s (mk_link i p))) as [x ->] by (by apply (pwf_cell s W)). done. }
  assert (forall n, next n <> p -> cell s2 n = cell s n) as Hother.
  { intros n Hn. rewrite Hcell, decide_False by done. by rewrite option_fmap_id. }
  assert (flist s2 (free_head s2) fl) as Hfl2.
  { rewrite Hfh. apply (flist_frame s); [| done]. intros q Hq. apply Hother. simpl. by intros ->. }
  q_step. q_step. case_Z.
  - apply wp_modify. apply (flist_head _ _ _ W2) in Hfl2. assert (fl = []) as -> by by apply Hfl2.
    split; try done; simpl.
    + split; [done |]. exists elink. by rewrite set_free_head_cell, Hp2.
    + intros n ? _. by apply Hother.
    + by destruct W2.
  - assert (fl <> []) as Hne by (intros ->; by apply n).
    q_step. eapply wp_use.
    { apply (free_list_end_spec _ _ _ _ W2 Hfl2 Hne). unfold proc_fuel.
      pose proof (flist_length _ _ _ W2 Hfl2 Hnd). lia. }
    intros r s' [-> ->]. destruct (exists_last Hne) as (fl0 & z & ->). rewrite last_default_app in *.
    assert (is_Some (cell s2 (mk_link 0 z))) as [lz Hlz].
    { apply (pwf_cell s2 W2). split; [| done]. simpl. eapply flist_valid; [exact W2 | exact Hfl2 | set_solver]. }
    eapply wp_put_link_next; [exact Hlz |].
    assert (z <> p) as Hzp by (intros ->; apply Hni, elem_of_app; right; left).
    assert (is_Some (cell s2 (mk_link 0 z))) as Hzs by eauto.
    split; intros; autorewrite with views; try done; simpl free_head.
    + apply flist_snoc; [done | done | done | by apply Hp2 | done].
    + rewrite set_cell_ne; [by apply Hp2 | done | intros [=]; congruence].
    + rewrite set_cell_ne; [by apply Hother | done |]. intros ->. simpl in *.
      apply (H0 eq_refl), elem_of_app. right. left.
    + destruct W2 as [Ht Hc Hs]. split; intros; autorewrite with views; [| | done].
      * by rewrite set_cell_table_is_Some.
      * by rewrite set_cell_is_Some.
Qed.

(** ** [initProc] *)

Definition reset_core (c : proc_t) : proc_t := core (reset_proc c).

Definition reset_at (p : Z) (s : procq) : procq :=
  set_proc_table (alter reset_proc p (proc_table s)) s.

Lemma wp_reset_at s p Q X :
  is_Some (proc_table s !! p) -> Q tt (reset_at p s) -> wp (update p reset_proc) s Q X.
Proof.
  intros [pr Hpr] HQ. unfold update, deref. wp_steps. by rewrite (insert_is_alter reset_proc) by done.
Qed.

Lemma reset_at_views s p :
  (forall n, cell (reset_at p s) n = cell s n) /\
  (forall q i, semv (reset_at p s) q i = semv s q i) /\
  (forall q, pcore (reset_at p s) q = (if decide (q = p) then reset_core else id) <$> pcore s q) /\
  (forall q, qc (reset_at p s) q = (if decide (q = p) then fun _ => 0 else id) <$> qc s q) /\
  (forall q, is_Some (proc_table (reset_at p s) !! q) <-> is_Some (proc_table s !! q)).
Proof.
  split_and!; intros; unfold cell, semv, pcore, qc; simpl; rewrite lookup_alter; case_decide; subst.
  1, 3: by destruct (proc_table s !! _) as [[]|].
  1, 2, 8: done.
  1, 3: rewrite decide_True by done; by destruct (proc_table s !! q) as [[]|].
  1, 2: rewrite decide_False by done; by rewrite option_fmap_id.
  by rewrite fmap_is_Some.
Qed.

(** the entries below [i] are reset *)
Record reset_below (i : Z) (s s' : procq) : Prop := {
  rs_cell : forall n, cell s' n = (if decide (next n < i) then fun _ => elink else id) <$> cell s n;
  rs_semv : forall q j, semv s' q j = (if decide (q < i) then fun _ => ENULL else id) <$> semv s q j;
  rs_core : forall q, pcore s' q = (if decide (q < i) then reset_core else id) <$> pcore s q;
  rs_qc : forall q, qc s' q = (if decide (q < i) then fun _ => 0 else id) <$> qc s q;
  rs_pwf : pwf s' }.

Lemma fmap_step {A} (f : A -> A) (P Q R : Prop) `{Decision P, Decision Q, Decision R} (o : option A) :
  (forall x, f (f x) = f x) -> (R <-> P \/ Q) ->
  (if decide P then f else id) <$> ((if decide Q then f else id) <$> o)
  = (if decide R then f else id) <$> o.
Proof. intros Hf HR. destruct o; [| done]. simpl. f_equal. repeat case_decide; simpl; naive_solver. Qed.

Lemma initProc_entry_spec s i s1 :
  0 <= i < MAXPROC -> reset_below i s s1 ->
  returns (initProc_entry i) s1 (fun _ s' => reset_below (i + 1) s s').
Proof.
  intros Hi R. pose proof (rs_pwf _ _ _ R) as W1. unfold initProc_entry. q_step.
  wp_apply (clear_links_spec s1 i W1 Hi). intros [] s2 C.
  pose proof (cleared_pwf _ _ _ _ W1 C) as W2.
  apply wp_reset_at; [by apply (pwf_table s2 W2) |].
  destruct (reset_at_views s2 i) as (Hcell & Hsemv & Hcore & Hqc & Htab).
  split.
  - intros n. rewrite Hcell, (cl_cell _ _ _ _ C), (rs_cell _ _ _ R).
    destruct (cell s n) eqn:E; [| done].
    assert (valid_link n) as [_ ?].
    { apply (pwf_cell s1 W1). rewrite (rs_cell _ _ _ R), E. eauto. }
    apply (fmap_step (fun _ => elink)); [done |]. split; intros; [| lia].
    destruct (decide (next n = i)); [| lia]. left. split; [done | lia].
  - intros q j. rewrite Hsemv, (cl_semv _ _ _ _ C), (rs_semv _ _ _ R).
    destruct (semv s q j) eqn:E; [| done].
    assert (0 <= q < MAXPROC /\ 0 <= j < SEMMAX) as [_ ?].
    { apply (pwf_semv s1 W1). rewrite (rs_semv _ _ _ R), E. eauto. }
    apply (fmap_step (fun _ => ENULL)); [done |]. split; intros; [| lia].
    destruct (decide (q = i)); [| lia]. left. split; [done | lia].
  - intros q. rewrite Hcore, (cl_core _ _ _ _ C), (rs_core _ _ _ R).
    apply fmap_step; [by intros [] | lia].
  - intros q. rewrite Hqc, (cl_qc _ _ _ _ C), (rs_qc _ _ _ R).
    apply (fmap_step (fun _ => 0)); [done | lia].
  - destruct W2 as [Ht Hc Hs]. split; intros; rewrite ?Hcell, ?Hsemv, ?Htab; auto.
Qed.

(** the cells of the free list after [i] iterations of the second loop *)
Definition free_link (i : Z) (n : proc_link) : option proc_link :=
  if decide (valid_link n) then
    Some (if decide (index n = 0 /\ next n < i) then mk_link 0 (next n + 1) else elink)
  else None.

Record initialised (s s' : procq) : Prop := {
  in_list : flist s' (free_head s') (seqZ 0 MAXPROC);
  in_cell : forall n, cell s' n = free_link (MAXPROC - 1) n;
  in_semv : forall q j, 0 <= q < MAXPROC -> 0 <= j < SEMMAX -> semv s' q j = Some ENULL;
  in_qc : forall q, 0 <= q < MAXPROC -> qc s' q = Some 0;
  in_core : forall q, pcore s' q = reset_core <$> pcore s q;
  in_pwf : pwf s' }.

Lemma free_link_flist s k :
  (forall n, cell s n = free_link (MAXPROC - 1) n) -> 0 <= k < MAXPROC ->
  flist s (MAXPROC - 1 - k) (seqZ (MAXPROC - 1 - k) (k + 1)).
Proof.
  intros Hc Hk. destruct Hk as [Hk0 Hk1]. revert Hk1. pattern k. apply natlike_ind; [| | done].
  - intros _. rewrite seqZ_cons by done. split; [done |]. exists elink. by rewrite Hc.
  - clear k Hk0. intros k Hk IH Hlt. rewrite seqZ_cons by lia. split; [done |].
    exists (mk_link 0 (MAXPROC - 1 - k)). rewrite Hc. unfold free_link. simpl.
    rewrite decide_True by (split; [simpl; lia | done]).
    rewrite decide_True by (split; [done | lia]). split; [do 2 f_equal; lia |].
    replace (Z.succ (MAXPROC - 1 - Z.succ k)) with (MAXPROC - 1 - k) by lia.
    replace (Z.pred (Z.succ k + 1)) with (k + 1) by lia. apply IH. lia.
Qed.

Lemma reset_below_start s : pwf s -> reset_below 0 s s.
Proof.
  intros W. split; intros; [| | | | done].
  - destruct (cell s n) eqn:E; [| done]. assert (valid_link n) as [? _] by (apply (pwf_cell s W); eauto).
    by rewrite decide_False by lia.
  - destruct (semv s q j) eqn:E; [| done].
    assert (0 <= q < MAXPROC /\ 0 <= j < SEMMAX) as [? _] by (apply (pwf_semv s W); eauto).
    by rewrite decide_False by lia.
  - unfold pcore. destruct (proc_table s !! q) eqn:E; [| done].
    assert (0 <= q < MAXPROC) by (apply (pwf_table s W); eauto). by rewrite decide_False by lia.
  - unfold qc. destruct (proc_table s !! q) eqn:E; [| done].
    assert (0 <= q < MAXPROC) by (apply (pwf_table s W); eauto). by rewrite decide_False by lia.
Qed.

(** the state after [i] iterations of the second loop, which begins in [s1] *)
Record linked_below (i : Z) (s1 s2 : procq) : Prop := {
  lb_cell : forall n, cell s2 n = free_link i n;
  lb_semv : forall q j, semv s2 q j = semv s1 q j;
  lb_core : forall q, pcore s2 q = pcore s1 q;
  lb_qc : forall q, qc s2 q = qc s1 q;
  lb_table : forall q, is_Some (proc_table s2 !! q) <-> is_Some (proc_table s1 !! q) }.

Lemma linked_below_start s s1 : pwf s -> reset_below MAXPROC s s1 -> linked_below 0 s1 s1.
Proof.
  intros W R. split; try done. intros n. rewrite (rs_cell _ _ _ R). unfold free_link.
  destruct (decide (valid_link n)) as [Hv|Hv].
  - assert (is_Some (cell s n)) as [x ->] by by apply (pwf_cell s W). simpl.
    rewrite decide_True by apply Hv. rewrite decide_False; [done |]. destruct Hv. lia.
  - destruct (cell s n) eqn:E; [| done]. exfalso. apply Hv, (pwf_cell s W). eauto.
Qed.

Lemma linked_below_cell i s1 s2 :
  0 <= i < MAXPROC -> linked_below i s1 s2 -> is_Some (cell s2 (mk_link 0 i)).
Proof.
  intros Hi L. rewrite (lb_cell _ _ _ L). unfold free_link. rewrite decide_True by (split; simpl; [lia | done]). eauto.
Qed.

Lemma linked_below_step s1 i s2 : 0 <= i < MAXPROC - 1 -> linked_below i s1 s2 ->
  returns (put_link i 0 (mk_link 0 (i + 1))) s2 (fun _ s' => linked_below (i + 1) s1 s').
Proof.
  intros Hi L. pose proof (linked_below_cell i s1 s2 ltac:(lia) L) as Hci. destruct L as [Hc Hs Hp Hq Ht].
  apply wp_put_link; [done |]. split; intros; autorewrite with views; auto.
  - rewrite set_cell_cell by done. rewrite Hc. unfold free_link. case_decide; subst.
    + rewrite decide_True by (split; simpl; [lia | done]). by rewrite decide_True by (simpl; lia).
    + destruct n as [ni np]; simpl. case_decide; [| done]. f_equal.
      rewrite (decide_ext _ (ni = 0 /\ np < i + 1)); [done |]. split; [lia |]. intros [-> ?].
      split; [done |]. assert (np <> i) by congruence. lia.
  - by rewrite set_cell_table_is_Some.
Qed.

(** the two assignments after the loops *)
Lemma initProc_end s s1 s2 :
  pwf s -> reset_below MAXPROC s s1 -> linked_below (MAXPROC - 1) s1 s2 ->
  initialised s (set_free_head 0 (set_cell (mk_link 0 (MAXPROC - 1)) (mk_link ENULL ENULL) s2)).
Proof.
  intros W R L. pose proof (linked_below_cell (MAXPROC - 1) s1 s2 ltac:(done) L) as Hlast.
  destruct L as [Hc Hs Hp Hq Ht]. set (s3' := set_cell _ _ s2). set (s3 := set_free_head 0 s3').
  assert (forall n, cell s3 n = free_link (MAXPROC - 1) n) as Hc3.
  { intros n. unfold s3. rewrite set_free_head_cell. unfold s3'. rewrite set_cell_cell by done.
    case_decide; subst; [by rewrite <- Hc, Hc | apply Hc]. }
  split; intros; [apply (free_link_flist s3 19); done | apply Hc3 | | | |].
  - change (semv s3 q j) with (semv s3' q j). unfold s3'. autorewrite with views.
    rewrite Hs, (rs_semv _ _ _ R), decide_True by lia.
    assert (is_Some (semv s q j)) as [x ->]; [apply (pwf_semv s W); lia | done].
  - change (qc s3 q) with (qc s3' q). unfold s3'. autorewrite with views.
    rewrite Hq, (rs_qc _ _ _ R), decide_True by lia.
    assert (is_Some (proc_table s !! q)) as [x Hx] by by apply (pwf_table s W).
    unfold qc. by rewrite Hx.
  - change (pcore s3 q) with (pcore s3' q). unfold s3'. autorewrite with views.
    rewrite Hp, (rs_core _ _ _ R). unfold pcore. destruct (proc_table s !! q) eqn:E; [| done].
    assert (0 <= q < MAXPROC) by (apply (pwf_table s W); eauto). by rewrite decide_True by lia.
  - pose proof (rs_pwf _ _ _ R) as W1. split.
    + intros q. change (proc_table s3) with (proc_table s3'). unfold s3'.
      rewrite set_cell_table_is_Some, Ht. apply W1.
    + intros n. rewrite Hc3. unfold free_link. destruct (decide (valid_link n)); [by split; eauto |]. split; [by intros [] | done].
    + intros q j. change (semv s3 q j) with (semv s3' q j). unfold s3'. autorewrite with views. rewrite Hs. apply W1.
Qed.

Lemma initProc_spec s : pwf s -> returns initProc s (fun _ s' => initialised s s').
Proof.
  intros W. unfold initProc. q_step.
  apply (wp_for (fun i s' => reset_below i s s'));
    [done | by apply reset_below_start | by intros; apply initProc_entry_spec |].
  intros s1 R. q_step. apply (wp_for (fun i s' => linked_below i s1 s'));
    [done | by apply (linked_below_start s) | by intros; apply linked_below_step |].
  intros s2 L. q_step. apply wp_put_link; [by apply (linked_below_cell _ s1) |]. apply wp_modify.
  by apply (initProc_end s s1 s2).
Qed.
