(* ===== verification/Links.v ===== *)
(** * Link accounting

    The cells in use by a set of queues, taken together: no cell is used twice,
    every other cell is empty, and [qcount] counts the cells of an entry in use.
    Stated for a list of links up to permutation, so that it does not depend on
    which queue a link is in. *)

From S2P Require Export ProcqSpec.

(** the number of links of entry [p] *)
Definition pcount (p : Z) (ls : list proc_link) : nat := length (filter (fun n => next n = p) ls).

#[export] Instance pcount_proper p : Proper ((≡ₚ) ==> (=)) (pcount p).
Proof. intros l1 l2 Hl. unfold pcount. by rewrite Hl. Qed.

Lemma pcount_cons p n ls :
  pcount p (n :: ls) = ((if decide (next n = p) then 1 else 0) + pcount p ls)%nat.
Proof. unfold pcount. rewrite filter_cons. by case_decide. Qed.

Lemma pcount_app p l1 l2 : pcount p (l1 ++ l2) = (pcount p l1 + pcount p l2)%nat.
Proof. unfold pcount. by rewrite filter_app, length_app. Qed.

Lemma pcount_pos p ls : (0 < pcount p ls)%nat <-> p ∈ (next <$> ls).
Proof.
  induction ls as [|n ls IH].
  { split; [by intros ?%Nat.nlt_0_r | by intros ?%elem_of_nil]. }
  rewrite pcount_cons, fmap_cons, elem_of_cons, <- IH. case_decide as Hn.
  - split; [by left | lia].
  - split; [by right | intros [->|]; [done | lia]].
Qed.

Lemma pcount_zero p ls : pcount p ls = 0%nat <-> p ∉ (next <$> ls).
Proof. rewrite <- pcount_pos. lia. Qed.

Lemma pcount_nodup p ls : NoDup (next <$> ls) -> (pcount p ls <= 1)%nat.
Proof.
  induction ls as [|n ls IH]; [by intros; apply Nat.le_0_l |]. intros [Hn Hnd]%NoDup_cons.
  rewrite pcount_cons. specialize (IH Hnd). case_decide; [| lia]. subst.
  apply pcount_zero in Hn. lia.
Qed.

Record links_ok (s : procq) (fl : list Z) (ls : list proc_link) : Prop := {
  lo_nodup : NoDup ls;
  lo_valid : forall n, n ∈ ls -> valid_link n;
  lo_cells : forall n c, cell s n = Some c -> n ∉ ls -> (next n ∈ fl -> index n <> 0) -> c = elink;
  lo_free : forall n, n ∈ ls -> next n ∉ fl;
  lo_qc : forall p, 0 <= p < MAXPROC -> qc s p = Some (Z.of_nat (pcount p ls)) }.

#[export] Instance links_ok_proper s fl : Proper ((≡ₚ) ==> iff) (links_ok s fl).
Proof.
  assert (forall l1 l2, l1 ≡ₚ l2 -> links_ok s fl l1 -> links_ok s fl l2) as H.
  { intros l1 l2 Hl [Hnd Hv Hc Hf Hq].
    split; [by rewrite <- Hl | intros n Hn | intros n c Hcell Hn | intros n Hn | intros p Hp; rewrite <- Hl; auto];
      rewrite <- Hl in Hn; eauto. }
  intros l1 l2 Hl. split; apply H; by rewrite Hl.
Qed.

Section links.
Context (s : procq) (fl : list Z) (ls : list proc_link).
Hypothesis W : pwf s.
Hypothesis L : links_ok s fl ls.

(** an entry is in at most [SEMMAX] queues *)
Lemma pcount_bound p : (pcount p ls <= 10)%nat.
Proof.
  unfold pcount. change 10%nat with (length ((fun j => mk_link j p) <$> seqZ 0 SEMMAX)).
  apply submseteq_length, NoDup_submseteq.
  - apply NoDup_filter, L.
  - intros [j q] [Heq Hn]%list_elem_of_filter. simpl in Heq. subst.
    destruct (lo_valid _ _ _ L _ Hn) as [_ Hj]. apply list_elem_of_fmap. exists j.
    split; [done |]. apply elem_of_seqZ. simpl in Hj. lia.
Qed.

(** one that is in fewer has an unused link cell *)
Lemma not_full p :
  0 <= p < MAXPROC -> p ∉ fl -> (pcount p ls < 10)%nat -> ~ full s p.
Proof.
  intros Hp Hfl Hlt Hfull. revert Hlt. apply Nat.le_ngt. unfold pcount.
  change 10%nat with (length ((fun j => mk_link j p) <$> seqZ 0 SEMMAX)).
  apply submseteq_length, NoDup_submseteq.
  - apply NoDup_fmap_2; [by intros ?? [=] | apply NoDup_seqZ].
  - intros n (j & -> & Hj)%list_elem_of_fmap. apply elem_of_seqZ in Hj.
    apply list_elem_of_filter. split; [done |].
    destruct (Hfull j ltac:(lia)) as (l & Hl & Hix).
    destruct (decide (mk_link j p ∈ ls)) as [|Hni]; [done |].
    rewrite (lo_cells _ _ _ L _ _ Hl Hni) in Hix by done. done.
Qed.

Lemma links_insert s' l n :
  (pcount (next n) ls < 10)%nat -> n ∉ ls -> valid_link n -> next n ∉ fl -> (forall m, m ∈ l -> m ∈ ls) ->
  relink s s' (n :: l) (next n) 1 -> links_ok s' fl (n :: ls).
Proof.
  intros Hlt Hni Hv Hfl Hsub R. split.
  - constructor; [done | apply L].
  - intros m [->|Hm]%elem_of_cons; [done | by apply L].
  - intros m c Hc [Hmn Hm]%not_elem_of_cons. rewrite (rl_cell _ _ _ _ _ R) in Hc; [by eapply L |].
    intros [->|Hin]%elem_of_cons; [done | auto].
  - intros m [->|Hm]%elem_of_cons; [done | by apply L].
  - intros p Hp. rewrite (rl_qc _ _ _ _ _ R), (lo_qc _ _ _ L p Hp), pcount_cons. simpl. f_equal.
    repeat case_decide; try congruence; subst; simpl; [| done].
    rewrite i32_id; [lia |]. unfold in_i32. lia.
Qed.

Lemma links_remove s' l n ls' :
  ls ≡ₚ n :: ls' -> (forall m, m ∈ l -> m ∈ ls) -> cell s' n = Some elink ->
  relink s s' l (next n) (-1) -> links_ok s' fl ls'.
Proof.
  intros Hp Hsub Hn R. pose proof (pcount_bound (next n)) as Hb. rewrite Hp in Hb.
  pose proof L as L'. rewrite Hp in L'. destruct L' as [Hnd Hv Hc Hf Hq].
  apply NoDup_cons in Hnd as [Hni Hnd]. split.
  - done.
  - intros m Hm. apply Hv. by right.
  - intros m c Hcm Hm Hflm. destruct (decide (m = n)) as [->|Hne]; [congruence |].
    eapply Hc; [| by apply not_elem_of_cons | done].
    rewrite <- Hcm. symmetry. apply (rl_cell _ _ _ _ _ R). intros Hin%Hsub. rewrite Hp in Hin.
    by apply elem_of_cons in Hin as [->|].
  - intros m Hm. apply Hf. by right.
  - intros p Hpv. rewrite (rl_qc _ _ _ _ _ R), (Hq p Hpv), pcount_cons. simpl. f_equal.
    rewrite pcount_cons in Hb. repeat case_decide; try congruence; subst; simpl; [| done].
    rewrite i32_id; [lia |]. unfold in_i32. lia.
Qed.
End links.
