(* ===== verification/SemdList.v ===== *)
(** * The descriptor lists of the active semaphore list

    The doubly linked lists of [src/queues/asl.c] as lists of descriptors: the
    walk [find_semd] and the unlinking of [removeBlockHelper]. *)

From S2P Require Export Asl ProcqSpec.
Local Open Scope kernel_scope.

(** the links of a descriptor, and its contents *)
Definition dv (s : asl) (d : Z) : option (Z * Z) :=
  (fun x => (s_next x, s_prev x)) <$> semd_table s !! d.
Definition dc (s : asl) (d : Z) : option (Z * proc_link) :=
  (fun x => (s_semAdd x, s_link x)) <$> semd_table s !! d.

Definition upd_semd (d : Z) (f : semd_t -> semd_t) (s : asl) : asl :=
  set_semd_table (alter f d (semd_table s)) s.

Lemma upd_semd_is_Some s e f d :
  is_Some (semd_table (upd_semd e f s) !! d) <-> is_Some (semd_table s !! d).
Proof. simpl. rewrite lookup_alter. case_decide; [subst; apply fmap_is_Some | done]. Qed.

Section upd.
Context (s : asl) (e : Z).

Local Ltac solve_upd :=
  unfold dv, dc; simpl; rewrite lookup_alter; case_decide; subst;
  [ rewrite ?decide_True by done; by destruct (semd_table s !! _) as [[]|]
  | rewrite ?decide_False by done; by destruct (semd_table s !! _) as [[]|] ].

Lemma dv_set_next v d :
  dv (upd_semd e (set_s_next v) s) d = (if decide (d = e) then fun np => (v, np.2) else id) <$> dv s d.
Proof. solve_upd. Qed.
Lemma dv_set_prev v d :
  dv (upd_semd e (set_s_prev v) s) d = (if decide (d = e) then fun np => (np.1, v) else id) <$> dv s d.
Proof. solve_upd. Qed.
Lemma dv_set_semAdd v d : dv (upd_semd e (set_s_semAdd v) s) d = dv s d.
Proof. solve_upd. Qed.
Lemma dv_set_link v d : dv (upd_semd e (set_s_link v) s) d = dv s d.
Proof. solve_upd. Qed.
Lemma dc_set_next v d : dc (upd_semd e (set_s_next v) s) d = dc s d.
Proof. solve_upd. Qed.
Lemma dc_set_prev v d : dc (upd_semd e (set_s_prev v) s) d = dc s d.
Proof. solve_upd. Qed.
Lemma dc_set_semAdd v d :
  dc (upd_semd e (set_s_semAdd v) s) d = (if decide (d = e) then fun al => (v, al.2) else id) <$> dc s d.
Proof. solve_upd. Qed.
Lemma dc_set_link v d :
  dc (upd_semd e (set_s_link v) s) d = (if decide (d = e) then fun al => (al.1, v) else id) <$> dc s d.
Proof. solve_upd. Qed.
Lemma dv_free_head h d : dv (set_free_head_s h s) d = dv s d.
Proof. done. Qed.
Lemma dc_free_head h d : dc (set_free_head_s h s) d = dc s d.
Proof. done. Qed.
Lemma dv_cur_sem h d : dv (set_cur_sem h s) d = dv s d.
Proof. done. Qed.
Lemma dc_cur_sem h d : dc (set_cur_sem h s) d = dc s d.
Proof. done. Qed.
End upd.

Create Rewrite HintDb semds.
#[export] Hint Rewrite dv_set_next dv_set_prev dv_set_semAdd dv_set_link
  dc_set_next dc_set_prev dc_set_semAdd dc_set_link
  dv_free_head dc_free_head dv_cur_sem dc_cur_sem : semds.

(** ** The primitive accesses *)

Lemma wp_semd s d x Q X : semd_table s !! d = Some x -> Q x s -> wp (semd d) s Q X.
Proof. intros Hx HQ. unfold semd. by eapply wp_gets_opt. Qed.

Lemma wp_put_semd s d f Q X :
  is_Some (semd_table s !! d) -> Q tt (upd_semd d f s) -> wp (put_semd d f) s Q X.
Proof.
  intros [x Hx] HQ. unfold put_semd, semd. wp_steps. by rewrite (insert_is_alter f) by done.
Qed.

Lemma wp_pq {A} (m : MQ A) s Q X :
  wp m (a_pq s) (fun a t => Q a (set_a_pq t s)) (fun e t => X e (set_a_pq t s)) ->
  wp (pq m) s Q X.
Proof. apply wp_zoom. Qed.

Ltac a_step :=
  lazymatch goal with
  | |- wp (semd _) _ _ _ => eapply wp_semd; [eassumption |]
  | |- wp (put_semd _ _) _ _ _ => apply wp_put_semd; [try by rewrite ?upd_semd_is_Some |]
  | _ => wp_step
  end; cbv beta.
Ltac a_steps := repeat a_step.

(** ** Doubly linked segments

    [dseg V prev h l nx]: the descriptors [l] are linked from [h] to [nx], the
    first one's predecessor being [prev]. *)
Fixpoint dseg (V : Z -> option (Z * Z)) (prev h : Z) (l : list Z) (nx : Z) : Prop :=
  match l with
  | [] => h = nx
  | d :: l' => h = d /\ exists n, V d = Some (n, prev) /\ dseg V d n l' nx
  end.

Abbreviation dlist V h l := (dseg V ENULL h l ENULL).

Lemma dseg_frame V V' prev h l nx :
  (forall d, d ∈ l -> V' d = V d) -> dseg V prev h l nx -> dseg V' prev h l nx.
Proof.
  revert prev h. induction l as [|d l IH]; intros prev h Hf; [done |].
  intros [-> (n & Hn & Hl)]. split; [done |]. exists n. rewrite Hf by left. split; [done |].
  apply IH; [| done]. intros e He. apply Hf. by right.
Qed.

Lemma dseg_app V prev h l1 l2 nx :
  dseg V prev h (l1 ++ l2) nx <->
  exists m, dseg V prev h l1 m /\ dseg V (List.last l1 prev) m l2 nx.
Proof.
  revert prev h. induction l1 as [|d l1 IH]; intros prev h; [simpl; naive_solver |].
  rewrite last_cons_default. cbn [dseg app]. setoid_rewrite IH. naive_solver.
Qed.

Lemma dseg_head V prev h l nx : dseg V prev h l nx -> h = List.hd nx l.
Proof. destruct l; [done | by intros [-> _]]. Qed.

Lemma dseg_lookup V prev h l nx d : dseg V prev h l nx -> d ∈ l -> is_Some (V d).
Proof.
  revert prev h. induction l as [|e l IH]; intros prev h; [by intros _ ?%elem_of_nil |].
  intros [-> (n & Hn & Hl)] [->|Hd]%elem_of_cons; eauto.
Qed.

(** redirecting the last descriptor, and the predecessor of the first one *)
Lemma dseg_set_last V V' prev h l z nx nx' :
  dseg V prev h (l ++ [z]) nx -> NoDup (l ++ [z]) ->
  (forall d, d ∈ l -> V' d = V d) -> V' z = (fun np => (nx', np.2)) <$> V z ->
  dseg V' prev h (l ++ [z]) nx'.
Proof.
  intros (m & Hl & -> & n & Hn & ->)%dseg_app Hnd Hf Hz. apply dseg_app. exists z.
  split; [by apply (dseg_frame V) |]. split; [done |]. exists nx'. by rewrite Hz, Hn.
Qed.

Lemma dseg_set_first V V' prev prev' h d l nx :
  dseg V prev h (d :: l) nx -> (forall e, e ∈ l -> V' e = V e) ->
  V' d = (fun np => (np.1, prev')) <$> V d ->
  dseg V' prev' h (d :: l) nx.
Proof.
  intros [-> (n & Hn & Hl)] Hf Hd. split; [done |]. exists n. rewrite Hd, Hn. split; [done |].
  by apply (dseg_frame V).
Qed.

(** ** [find_semd] *)

Definition semAdd_of (s : asl) (d : Z) : option Z := fst <$> dc s d.

Definition found (s : asl) (a prev : Z) (l : list Z) (r : Z * Z) : Prop :=
  (r = (List.last l prev, ENULL) /\ forall d, d ∈ l -> semAdd_of s d <> Some a) \/
  (exists l1 w l2, l = l1 ++ w :: l2 /\ r = (List.last l1 prev, w) /\ semAdd_of s w = Some a /\
     forall d, d ∈ l1 -> semAdd_of s d <> Some a).

Lemma find_semd_spec s a l fuel prev pv h :
  dseg (dv s) pv h l ENULL -> ENULL ∉ l -> (length l < fuel)%nat ->
  returns (find_semd fuel a prev h) s (fun r s' => s' = s /\ found s a prev l r).
Proof.
  revert fuel prev pv h. induction l as [|d l IH]; intros fuel prev pv h Hl Hne Hf;
    (destruct fuel as [|fuel]; simpl in Hf; [lia |]); unfold find_semd; fold find_semd.
  - simpl in Hl. subst h. apply wp_ret. split; [done |]. left. split; [done |].
    by intros d ?%elem_of_nil.
  - destruct Hl as [-> (n & Hn & Hl)]. apply not_elem_of_cons in Hne as [Hd Hne].
    rewrite (proj2 (Z.eqb_neq d ENULL)) by done.
    unfold dv in Hn. apply fmap_Some in Hn as (x & Hx & [= -> ->]).
    assert (semAdd_of s d = Some (s_semAdd x)) as Hs by by (unfold semAdd_of, dc; rewrite Hx).
    a_step. a_step. case_Z.
    + apply wp_ret. split; [done |]. right. exists [], d, l. rewrite Hs.
      split_and!; [done | done | congruence | by intros ? ?%elem_of_nil].
    + eapply wp_mono; [apply (IH fuel d d (s_next x) Hl Hne); lia | | done].
      intros r s' [-> Hr]. split; [done |].
      assert (semAdd_of s d <> Some a) as Hda by (rewrite Hs; congruence).
      destruct Hr as [[-> Hr] | (l1 & w & l2 & -> & -> & Hw & Hr)].
      * left. rewrite last_cons_default. split; [done |].
        intros e [->|He]%elem_of_cons; [done | auto].
      * right. exists (d :: l1), w, l2. rewrite last_cons_default. split_and!; [done | done | done |].
        intros e [->|He]%elem_of_cons; [done | auto].
Qed.

(** ** The free list of descriptors *)

Lemma free_semd_end_spec s l z fuel pv h :
  dseg (dv s) pv h (l ++ [z]) ENULL -> ENULL ∉ l ++ [z] -> (length l < fuel)%nat ->
  returns (free_semd_end fuel h) s (fun r s' => r = z /\ s' = s).
Proof.
  revert fuel pv h. induction l as [|d l IH]; intros fuel pv h Hl Hne Hf;
    (destruct fuel as [|fuel]; simpl in Hf; [lia |]); unfold free_semd_end; fold free_semd_end;
    destruct Hl as [-> (n & Hn & Hl)];
    unfold dv in Hn; apply fmap_Some in Hn as (x & Hx & [= -> ->]); a_step; a_step.
  - simpl in Hl. rewrite Hl. by apply wp_ret.
  - apply not_elem_of_cons in Hne as [_ Hne]. pose proof (dseg_head _ _ _ _ _ Hl) as Hh.
    assert (s_next x <> ENULL) as Hx0.
    { intros E. apply Hne. rewrite <- E, Hh. destruct l; left. }
    rewrite (proj2 (Z.eqb_neq _ _)) by done. eapply IH; [done | done | lia].
Qed.

(** ** [removeBlockHelper] *)

Lemma upd_semd_ne s e f d : d <> e -> semd_table (upd_semd e f s) !! d = semd_table s !! d.
Proof. intros. by apply lookup_alter_ne. Qed.

(** a descriptor in the middle of a list: its links, and the two parts *)
Lemma dlist_split V h l1 w l2 :
  dlist V h (l1 ++ w :: l2) ->
  dseg V ENULL h l1 w /\ V w = Some (List.hd ENULL l2, List.last l1 ENULL) /\
  dseg V w (List.hd ENULL l2) l2 ENULL.
Proof.
  intros (m & H1 & -> & n & Hw & H2)%dseg_app. by rewrite <- (dseg_head _ _ _ _ _ H2).
Qed.

Record semds_only (s s' : asl) (ds : list Z) : Prop := {
  so_dv : forall d, d ∉ ds -> dv s' d = dv s d;
  so_dc : forall d, dc s' d = dc s d;
  so_pq : a_pq s' = a_pq s;
  so_ints : ints s' = ints s;
  so_dom : forall d, is_Some (semd_table s' !! d) <-> is_Some (semd_table s !! d) }.

Lemma dv_is_Some s d : is_Some (dv s d) <-> is_Some (semd_table s !! d).
Proof. apply fmap_is_Some. Qed.

(** dropping the first descriptor, or the last one *)
Lemma relink_first s h w m l2 :
  dlist (dv s) h (w :: m :: l2) -> NoDup (w :: m :: l2) ->
  dlist (dv (upd_semd m (set_s_prev ENULL) s)) m (m :: l2).
Proof.
  intros (-> & n & Hw & Hs) [_ [Hm _]%NoDup_cons]%NoDup_cons. pose proof Hs as [-> _].
  apply (dseg_set_first (dv s) _ w); [done | |].
  - intros e He. autorewrite with semds. rewrite decide_False by (by intros ->). by destruct (dv s e).
  - autorewrite with semds. by rewrite decide_True by done.
Qed.

Lemma relink_last s h l1 z w :
  dlist (dv s) h ((l1 ++ [z]) ++ [w]) -> NoDup (l1 ++ [z]) ->
  dlist (dv (upd_semd z (set_s_next ENULL) s)) h (l1 ++ [z]).
Proof.
  intros (H1 & _)%dlist_split Hnd. apply (dseg_set_last (dv s) _ _ _ _ _ w); [done | done | |].
  - intros e He. autorewrite with semds. rewrite decide_False; [by destruct (dv s e) |].
    intros ->. apply NoDup_app in Hnd as (_ & Hz & _). apply (Hz z); [done | left].
  - autorewrite with semds. rewrite decide_True by done. by destruct (dv s z) as [[]|].
Qed.

(** linking the two parts around [w] *)
Lemma relink_both s h l1 z w m l2 :
  dlist (dv s) h (l1 ++ [z] ++ w :: m :: l2) -> NoDup (l1 ++ [z] ++ w :: m :: l2) ->
  dlist (dv (upd_semd m (set_s_prev z) (upd_semd z (set_s_next m) s))) h (l1 ++ [z] ++ m :: l2).
Proof.
  intros Hd Hnd. rewrite app_assoc in Hd, Hnd. rewrite app_assoc.
  apply dlist_split in Hd as (H1 & Hw & H2). rewrite last_default_app in *. simpl in Hw, H2.
  apply NoDup_app in Hnd as (Hnd1 & Hdis & [Hwni [Hmni Hnd2]%NoDup_cons]%NoDup_cons).
  assert (z <> m) as Hzm. { intros ->. apply (Hdis m); [apply elem_of_app; right; left | right; left]. }
  apply dseg_app. exists m. split.
  - apply (dseg_set_last (dv s) _ _ _ _ _ w m); [done | done | |].
    + intros d Hd. autorewrite with semds.
      assert (d <> m). { intros ->. apply (Hdis m); [apply elem_of_app; by left | right; left]. }
      assert (d <> z). { intros ->. apply NoDup_app in Hnd1 as (_ & Hz & _). apply (Hz z); [done | left]. }
      rewrite !decide_False by done. by destruct (dv s d).
    + autorewrite with semds. rewrite decide_False, decide_True by done. by destruct (dv s z) as [[]|].
  - rewrite last_default_app. apply (dseg_set_first (dv s) _ w z); [done | |].
    + intros d Hd. autorewrite with semds.
      assert (d <> m) by (by intros ->).
      assert (d <> z). { intros ->. apply (Hdis z); [apply elem_of_app; right; left | by do 2 right]. }
      rewrite !decide_False by done. by destruct (dv s d).
    + autorewrite with semds. rewrite decide_True, decide_False by done. by destruct (dv s m) as [[]|].
Qed.

Lemma semds_only_refl s ds : semds_only s s ds.
Proof. by split. Qed.

Lemma semds_only_next s s' ds d v :
  d ∈ ds -> semds_only s s' ds -> semds_only s (upd_semd d (set_s_next v) s') ds.
Proof.
  intros Hd [H1 H2 H3 H4 H5]. split; [| | done | done |].
  - intros e He. autorewrite with semds. rewrite H1 by done.
    rewrite decide_False by (by intros ->). by destruct (dv s e).
  - intros e. autorewrite with semds. apply H2.
  - intros e. by rewrite upd_semd_is_Some.
Qed.

Lemma semds_only_prev s s' ds d v :
  d ∈ ds -> semds_only s s' ds -> semds_only s (upd_semd d (set_s_prev v) s') ds.
Proof.
  intros Hd [H1 H2 H3 H4 H5]. split; [| | done | done |].
  - intros e He. autorewrite with semds. rewrite H1 by done.
    rewrite decide_False by (by intros ->). by destruct (dv s e).
  - intros e. autorewrite with semds. apply H2.
  - intros e. by rewrite upd_semd_is_Some.
Qed.

Lemma semds_only_cur s s' ds v : semds_only s s' ds -> semds_only s (set_cur_sem v s') ds.
Proof. by intros [H1 H2 H3 H4 H5]. Qed.

Lemma last_ne (l : list Z) : l <> [] -> ENULL ∉ l -> List.last l ENULL <> ENULL.
Proof.
  intros Hl Hne He. destruct l as [|x l] using rev_ind; [done |]. rewrite last_default_app in He.
  apply Hne. subst. apply elem_of_app. right. left.
Qed.

Lemma unlink_semd_spec s l1 w l2 :
  dlist (dv s) (cur_sem s) (l1 ++ w :: l2) -> NoDup (l1 ++ w :: l2) -> ENULL ∉ l1 ++ w :: l2 ->
  returns (unlink_semd w) s (fun _ s' =>
    dlist (dv s') (cur_sem s') (l1 ++ l2) /\ free_head_s s' = free_head_s s /\
    semds_only s s' (l1 ++ l2)).
Proof.
  intros Hd Hnd Hne. pose proof (dlist_split _ _ _ _ _ Hd) as (H1 & Hw & H2).
  assert (forall d, d ∈ l1 ++ w :: l2 -> is_Some (semd_table s !! d)) as Hdom.
  { intros d Hin. apply dv_is_Some. exact (dseg_lookup _ _ _ _ _ _ Hd Hin). }
  assert (semd_table s !! w = Some (mk_semd (List.hd ENULL l2) (List.last l1 ENULL)
            (from_option s_semAdd 0 (semd_table s !! w)) (from_option s_link elink (semd_table s !! w)))) as Hx.
  { unfold dv in Hw. destruct (semd_table s !! w) as [[]|]; [| done]. injection Hw as <- <-; reflexivity. }
  revert Hx. generalize (from_option s_semAdd 0 (semd_table s !! w)), (from_option s_link elink (semd_table s !! w)).
  intros a k Hx. unfold unlink_semd. a_step. a_step. cbn [s_next s_prev].
  destruct l1 as [|z l1 _] using rev_ind; destruct l2 as [|m l2].
  - simpl. a_steps. (split; [done | split; [done |]]). apply semds_only_cur, semds_only_refl.
  - simpl in *. destruct (Z.eqb_spec m ENULL) as [->|Hm]; [by exfalso; apply Hne; right; left |].
    simpl. a_step. a_step; [apply Hdom; right; left |]. a_step. eapply wp_semd.
    { rewrite upd_semd_ne; [exact Hx |]. intros ->. apply NoDup_cons in Hnd as [Hnd _]. apply Hnd. left. }
    a_steps. (split; [| split; [done |]]).
    + change (dlist (dv (upd_semd m (set_s_prev ENULL) s)) m (m :: l2)). by apply (relink_first s _ w) in Hd.
    + apply semds_only_cur, semds_only_prev; [left | apply semds_only_refl].
  - rewrite last_default_app. rewrite (proj2 (Z.eqb_neq z ENULL)).
    2: { intros ->. apply Hne, elem_of_app. left. apply elem_of_app. right. left. }
    simpl. a_step; [apply Hdom, elem_of_app; left; apply elem_of_app; right; left |].
    rewrite app_nil_r. (split; [| split; [done |]]).
    + apply (relink_last s _ l1 z w); [exact Hd | by apply NoDup_app in Hnd as (? & _)].
    + apply semds_only_next; [apply elem_of_app; right; left | apply semds_only_refl].
  - rewrite last_default_app in *. cbn [List.hd] in *. rewrite <- !app_assoc in *. cbn [app] in *.
    assert (z ∈ l1 ++ z :: w :: m :: l2) as Hz by (apply elem_of_app; right; left).
    assert (m ∈ l1 ++ z :: w :: m :: l2) as Hm by (apply elem_of_app; do 3 right; left).
    assert (z <> w) as Hzw.
    { intros ->. apply NoDup_app in Hnd as (_ & _ & [Hni _]%NoDup_cons). apply Hni. left. }
    rewrite !(proj2 (Z.eqb_neq _ ENULL)) by (by intros ->). simpl.
    a_step. a_step; [by apply Hdom |]. a_step. eapply wp_semd.
    { rewrite upd_semd_ne by done. exact Hx. }
    apply wp_put_semd; [rewrite upd_semd_is_Some; by apply Hdom |]. cbn [s_prev s_next].
    (split; [by apply (relink_both s _ l1 z w m l2) | split; [done |]]).
    apply semds_only_prev; [apply elem_of_app; do 2 right; left |].
    apply semds_only_next; [apply elem_of_app; right; left | apply semds_only_refl].
Qed.

(** ** Releasing the descriptor *)

(** what an operation on the lists leaves alone, apart from [s_semAdd] *)
Definition sem_frame (s s' : asl) : Prop :=
  a_pq s' = a_pq s /\ ints s' = ints s /\
  forall d, is_Some (semd_table s' !! d) <-> is_Some (semd_table s !! d).

Lemma sem_frame_trans s1 s2 s3 : sem_frame s1 s2 -> sem_frame s2 s3 -> sem_frame s1 s3.
Proof. intros (? & ? & H1) (? & ? & H2). split_and!; [congruence | congruence |]. intros d. by rewrite H2. Qed.

Definition released (s s' : asl) (w : Z) : Prop :=
  forall d, dc s' d = (if decide (d = w) then fun al => (ENULL, al.2) else id) <$> dc s d.

Lemma release_semd_spec s F w :
  dlist (dv s) (free_head_s s) F -> NoDup (w :: F) -> ENULL ∉ w :: F -> (length F < 21)%nat ->
  is_Some (semd_table s !! w) ->
  returns (release_semd w) s (fun _ s' =>
    dlist (dv s') (free_head_s s') (F ++ [w]) /\ cur_sem s' = cur_sem s /\
    (forall d, d <> w -> d ∉ F -> dv s' d = dv s d) /\ released s s' w /\ sem_frame s s').
Proof.
  intros Hd [Hw Hnd]%NoDup_cons [Hwn Hne]%not_elem_of_cons Hlen Hdw.
  pose proof Hdw as [[nw pw aw kw] Hx].
  pose proof (dseg_head _ _ _ _ _ Hd) as Hh. unfold release_semd. a_step. a_step.
  destruct F as [|z F _] using rev_ind.
  - simpl in Hh. rewrite Hh. simpl. a_steps. split; [| split; [done | split_and!]].
    + simpl. split; [done |]. exists ENULL. split; [| done]. autorewrite with semds.
      rewrite !decide_True by done. unfold dv. by rewrite Hx.
    + intros d Hne' _. autorewrite with semds. rewrite !decide_False by done. by destruct (dv s d).
    + intros d. by autorewrite with semds.
    + split_and!; [done | done |]. intros d. change (is_Some (semd_table (upd_semd w (set_s_semAdd ENULL) (upd_semd w (set_s_next ENULL)
        (upd_semd w (set_s_prev ENULL) s))) !! d) <-> is_Some (semd_table s !! d)).
      by rewrite !upd_semd_is_Some.
  - assert (z <> w) as Hzw. { intros ->. apply Hw, elem_of_app. right. left. }
    assert (is_Some (semd_table s !! z)) as Hdz.
    { apply dv_is_Some, (dseg_lookup _ _ _ _ _ _ Hd), elem_of_app. right. left. }
    rewrite (proj2 (Z.eqb_neq _ ENULL)).
    2: { intros E. apply Hne. rewrite <- E, Hh. destruct F; left. }
    rewrite length_app in Hlen. simpl in Hlen. a_step.
    wp_apply free_semd_end_spec; [exact Hd | done | unfold semd_fuel; lia |].
    intros r s' [-> ->]. a_steps. split; [| split; [done | split_and!]].
    + apply dseg_app. exists w. split.
      * apply (dseg_set_last (dv s) _ _ _ _ _ ENULL); [done | done | |].
        -- intros d Hin. autorewrite with semds.
           assert (d <> z). { intros ->. apply NoDup_app in Hnd as (_ & Hz & _). apply (Hz z); [done | left]. }
           assert (d <> w). { intros ->. apply Hw, elem_of_app. by left. }
           rewrite !decide_False by done. by destruct (dv s d).
        -- autorewrite with semds. rewrite !(decide_False (P := z = w)), (decide_True (P := z = z)) by done. by destruct (dv s z) as [[]|].
      * rewrite last_default_app. split; [done |]. exists ENULL. split; [| done]. autorewrite with semds.
        rewrite !(decide_True (P := w = w)), !(decide_False (P := w = z)) by done. unfold dv. by rewrite Hx.
    + intros d Hdw' HdF. autorewrite with semds.
      assert (d <> z). { intros ->. apply HdF, elem_of_app. right. left. }
      rewrite !decide_False by done. by destruct (dv s d).
    + intros d. by autorewrite with semds.
    + split_and!; [done | done |]. intros d. by rewrite !upd_semd_is_Some.
Qed.

Lemma removeBlockHelper_spec s l1 w l2 F :
  dlist (dv s) (cur_sem s) (l1 ++ w :: l2) -> dlist (dv s) (free_head_s s) F ->
  NoDup ((l1 ++ w :: l2) ++ F) -> ENULL ∉ (l1 ++ w :: l2) ++ F -> (length F < 21)%nat ->
  returns (removeBlockHelper w) s (fun _ s' =>
    dlist (dv s') (cur_sem s') (l1 ++ l2) /\ dlist (dv s') (free_head_s s') (F ++ [w]) /\
    released s s' w /\ sem_frame s s').
Proof.
  intros Hd HF Hnd [Hne HneF]%not_elem_of_app Hlen. apply NoDup_app in Hnd as (Hnd & Hdis & HndF).
  assert (w ∈ l1 ++ w :: l2) as Hwin by (apply elem_of_app; right; left).
  unfold removeBlockHelper. wp_step. wp_apply unlink_semd_spec; [exact Hd | done | done |].
  intros [] s1 (Hd1 & Hf1 & [Hdv Hdc Hpq Hints Hdom]).
  assert (forall d, d ∈ l1 ++ l2 -> d ∈ l1 ++ w :: l2 /\ d <> w) as Hsub.
  { intros d Hin. rewrite <- Permutation_middle in Hnd |- *. apply NoDup_cons in Hnd as [Hni _].
    split; [by right | by intros ->]. }
  wp_apply (release_semd_spec s1 F w).
  - rewrite Hf1. apply (dseg_frame (dv s)); [| done]. intros d Hin. apply Hdv.
    intros [Hin' _]%Hsub. by apply (Hdis d).
  - constructor; [by apply Hdis | done].
  - apply not_elem_of_cons. split; [| done]. intros E. by rewrite E in Hne.
  - done.
  - apply Hdom, dv_is_Some. exact (dseg_lookup _ _ _ _ _ _ Hd Hwin).
  - intros [] s2 (HF2 & Hcur & Hdv2 & Hrel & Hfr). split_and!.
    + rewrite Hcur. apply (dseg_frame (dv s1)); [| done]. intros d [Hin Hdw]%Hsub.
      apply Hdv2; [done | by apply Hdis].
    + done.
    + intros d. by rewrite Hrel, Hdc.
    + by apply (sem_frame_trans _ s1).
Qed.
