(* ===== verification/Queues.v ===== *)
(** * Several queues over one process table

    [queues s fl qs]: the table holds the free list [fl] and the queues [qs], each
    link cell being used at most once; how the operations of [procq.c] act on one
    queue among several.  The semaphore vector of an entry, as a multiset. *)

From S2P Require Export Asl ProcqSpec Links.
Local Open Scope kernel_scope.

Abbreviation tail q := (List.last q elink).
Abbreviation names q := (next <$> q).

Record queues (s : procq) (fl : list Z) (qs : list (list proc_link)) : Prop := {
  qu_pwf : pwf s;
  qu_free : flist s (free_head s) fl;
  qu_free_nodup : NoDup fl;
  qu_queue : forall q, q ∈ qs -> queue s (tail q) q;
  qu_links : links_ok s fl (concat qs) }.

(** what an operation on the queues leaves alone *)
Record same_procs (s s' : procq) : Prop := {
  sp_rest : forall q, prest s' q = prest s q;
  sp_head : free_head s' = free_head s;
  sp_buf : pncbuf s' = pncbuf s }.

Lemma relink_same s s' ns p d : relink s s' ns p d -> same_procs s s'.
Proof. by intros []. Qed.

Lemma concat_split {A} (Q1 : list (list A)) q Q2 :
  concat (Q1 ++ q :: Q2) ≡ₚ q ++ concat (Q1 ++ Q2).
Proof. rewrite !concat_app. simpl. rewrite Permutation_app_swap_app. done. Qed.

Lemma elem_of_concat_iff {A} (qs : list (list A)) x : x ∈ concat qs <-> exists q, q ∈ qs /\ x ∈ q.
Proof.
  induction qs as [|q qs IH]; simpl.
  - split; [by intros ?%elem_of_nil | by intros (q & ?%elem_of_nil & _)].
  - rewrite elem_of_app, IH. setoid_rewrite elem_of_cons. naive_solver.
Qed.

Lemma elem_of_concat {A} (qs : list (list A)) q x : q ∈ qs -> x ∈ q -> x ∈ concat qs.
Proof. intros. apply elem_of_concat_iff. eauto. Qed.

(** the number of queues an entry is in *)
Lemma pcount_concat s fl qs p :
  queues s fl qs -> pcount p (concat qs) = length (filter (fun q => p ∈ names q) qs).
Proof.
  intros [_ _ _ Hq _]. induction qs as [|q qs IH]; [done |]. simpl concat.
  rewrite pcount_app, IH by (intros q' ?; apply Hq; by right). rewrite filter_cons.
  assert (queue s (tail q) q) as Q by (apply Hq; left).
  pose proof (pcount_nodup p q (q_nodup _ _ _ Q)) as Hle.
  case_decide as Hp; [apply pcount_pos in Hp | apply pcount_zero in Hp]; simpl; lia.
Qed.

Section one.
Context (s : procq) (fl : list Z) (Q1 Q2 : list (list proc_link)) (q : list proc_link).
Hypothesis I : queues s fl (Q1 ++ q :: Q2).

Let L := qu_links _ _ _ I.
Let W := qu_pwf _ _ _ I.

Lemma this_queue : queue s (tail q) q.
Proof. apply (qu_queue _ _ _ I), elem_of_app. right. left. Qed.

Lemma this_links n : n ∈ q -> n ∈ concat (Q1 ++ q :: Q2).
Proof. apply elem_of_concat, elem_of_app. right. left. Qed.

Lemma other_queue q' : q' ∈ Q1 ++ Q2 -> queue s (tail q') q' /\ forall n, n ∈ q' -> n ∉ q.
Proof.
  intros Hq'. split.
  - apply (qu_queue _ _ _ I). rewrite elem_of_app in *. rewrite elem_of_cons. tauto.
  - intros n Hn Hnq. pose proof (lo_nodup _ _ _ L) as Hnd. rewrite concat_split in Hnd.
    apply NoDup_app in Hnd as (_ & Hdis & _). apply (Hdis n); [done |]. by apply (elem_of_concat _ q').
Qed.

Lemma links_not_free n : n ∈ concat (Q1 ++ q :: Q2) -> next n ∉ fl.
Proof. apply L. Qed.

(** a change to one queue *)
Lemma queues_step s' ns p d q' :
  relink s s' ns p d -> (forall n, n ∈ ns -> n ∈ q \/ (n ∉ concat (Q1 ++ q :: Q2) /\ next n ∉ fl)) ->
  queue s' (tail q') q' -> links_ok s' fl (concat (Q1 ++ q' :: Q2)) ->
  queues s' fl (Q1 ++ q' :: Q2).
Proof.
  intros R Hns Hq' L'. split.
  - by eapply relink_pwf.
  - rewrite (rl_head _ _ _ _ _ R). apply (flist_frame s); [| apply I]. intros r Hr.
    apply R. intros [Hin%this_links%links_not_free | [_ Hin]]%Hns; by apply Hin.
  - apply I.
  - intros q0. rewrite elem_of_app, elem_of_cons. intros Hq0.
    destruct (decide (q0 = q')) as [->|Hne]; [done |].
    destruct (other_queue q0) as [Hq Hdis]; [apply elem_of_app; tauto |].
    eapply queue_relink; [exact R | | done]. intros n Hn [Hin | [Hin _]]%Hns; [by apply (Hdis n) |].
    apply Hin, (elem_of_concat _ q0); [| done]. rewrite elem_of_app, elem_of_cons. tauto.
  - done.
Qed.

Lemma queues_insert p :
  0 <= p < MAXPROC -> p ∉ names q -> p ∉ fl -> (pcount p (concat (Q1 ++ q :: Q2)) < 10)%nat ->
  returns (insertProc (tail q) p) s (fun tp' s' => exists n,
    next n = p /\ tp' = n /\ queues s' fl (Q1 ++ (q ++ [n]) :: Q2) /\ same_procs s s').
Proof.
  intros Hp Hq Hfl Hlt. eapply wp_mono; [apply (insertProc_spec s (tail q) q p) | | done];
    [done | apply this_queue | done | done | by eapply not_full; [exact L | done ..] |].
  intros tp' s' (i & c & -> & Hi & Hc & Hci & HQ & R). exists (mk_link i p).
  assert (mk_link i p ∉ concat (Q1 ++ q :: Q2)) as Hni.
  { intros (q0 & Hq0 & Hin)%elem_of_concat_iff.
    destruct (queue_content s _ q0 (mk_link i p) W (qu_queue _ _ _ I _ Hq0) Hin) as (x & Hx & _ & Hvx).
    destruct Hvx as [_ Hvx]. assert (x = c) as -> by congruence. rewrite Hci in Hvx. by destruct Hvx. }
  split_and!; [done | done | | by eapply relink_same].
  eapply queues_step; [exact R | | by rewrite last_default_app |].
  - intros m [->|Hm]%elem_of_cons; [right | by left]. done.
  - eapply links_ok_proper; [| eapply (links_insert s fl (concat (Q1 ++ q :: Q2)) L s' q (mk_link i p)); eauto].
    + rewrite !concat_split. rewrite <- app_assoc. symmetry. apply Permutation_middle.
    + by split.
    + apply this_links.
Qed.
End one.

Lemma filter_out_id p (l : list proc_link) :
  p ∉ names l -> filter (fun n => next n <> p) l = l.
Proof.
  induction l as [|n l IH]; [done |]. rewrite fmap_cons. intros [Hn Hl]%not_elem_of_cons.
  rewrite filter_cons_True by done. by rewrite IH.
Qed.

Section shrink.
Context (s : procq) (fl : list Z) (Q1 Q2 : list (list proc_link)).

(** the state after a link [n] has been taken out of the queue [l1 ++ n :: l2] *)
Lemma queues_cut s' l1 n l2 :
  queues s fl (Q1 ++ (l1 ++ n :: l2) :: Q2) ->
  queue s' (tail (l1 ++ l2)) (l1 ++ l2) -> cell s' n = Some elink ->
  relink s s' (l1 ++ n :: l2) (next n) (-1) ->
  queues s' fl (Q1 ++ (l1 ++ l2) :: Q2).
Proof.
  intros I HQ Hn R. eapply (queues_step s fl Q1 Q2 _ I); [exact R | by left | done |].
  eapply (links_remove s fl); [apply I | | | exact Hn | exact R].
  - rewrite !concat_split, <- !app_assoc. symmetry. apply Permutation_middle.
  - intros m Hm. by eapply this_links.
Qed.

Lemma queues_remove h t :
  queues s fl (Q1 ++ (h :: t) :: Q2) ->
  returns (removeProc (tail (h :: t))) s (fun r s' =>
    r = (tail t, next h) /\ queues s' fl (Q1 ++ t :: Q2) /\ same_procs s s').
Proof.
  intros I. eapply wp_mono; [apply (removeProc_spec s _ h t) | | done];
    [apply I | by eapply this_queue |].
  intros [tp' rv] s' (Hrv & HQ & Hh & R). simpl in Hrv, HQ.
  pose proof (q_tail _ _ _ HQ) as ->. subst rv.
  split_and!; [done | | by eapply relink_same]. by apply (queues_cut s' [] h t).
Qed.

Lemma queues_out q p :
  queues s fl (Q1 ++ q :: Q2) -> 0 <= p ->
  returns (outProc (tail q) p) s (fun r s' =>
    let q' := filter (fun n => next n <> p) q in
    r = (tail q', if decide (p ∈ names q) then p else ENULL) /\
    queues s' fl (Q1 ++ q' :: Q2) /\ same_procs s s').
Proof.
  intros I Hp. pose proof (this_queue _ _ _ _ _ I) as Q.
  eapply wp_mono; [apply (outProc_spec s _ q p) | | done]; [apply I | done | done |].
  intros [tp' rv] s' [(Hni & [= -> ->] & ->) | (Hrv & l1 & n & l2 & -> & Hn & HQ & Hce & R)].
  - cbv zeta. rewrite filter_out_id, decide_False by done. by split_and!.
  - simpl in *. subst rv p.
    assert (filter (fun m => next m <> next n) (l1 ++ n :: l2) = l1 ++ l2) as ->.
    { pose proof (q_nodup _ _ _ Q) as Hnd. rewrite fmap_app, fmap_cons in Hnd.
      apply NoDup_app in Hnd as (_ & Hd & [Hn2 _]%NoDup_cons).
      rewrite filter_app, filter_cons_False by tauto.
      rewrite !filter_out_id; [done | done |]. intros Hin. apply (Hd _ Hin). left. }
    rewrite decide_True by (rewrite fmap_app, fmap_cons; apply elem_of_app; right; left).
    pose proof (q_tail _ _ _ HQ) as ->.
    split_and!; [done | | by eapply relink_same]. by apply (queues_cut s' l1 n l2).
Qed.
End shrink.

(** ** The free list *)

Lemma queues_alloc s p fl qs :
  queues s (p :: fl) qs ->
  returns allocProc s (fun r s' => r = p /\ queues s' fl qs /\
    (forall q, prest s' q = prest s q) /\ (forall q, qc s' q = qc s q)).
Proof.
  intros [W Hf Hnd HQ L]. eapply wp_mono; [by apply (allocProc_spec s p fl) | | done].
  intros r s' (-> & Hf' & h & ->). split; [done |].
  pose proof Hnd as [Hni Hnd']%NoDup_cons.
  assert (is_Some (cell s (mk_link 0 p))) as Hs.
  { apply (pwf_cell s W). split; [by eapply flist_valid; [done | exact Hf | left] | done]. }
  set (s1 := set_free_head h s). assert (is_Some (cell s1 (mk_link 0 p))) as Hs1 by done.
  split; [| split; intros q; by autorewrite with views]. split; [| done | done | |].
  - destruct W as [W1 W2 W3]. split.
    + intros q. rewrite (set_cell_table_is_Some s1). apply W1.
    + intros n. rewrite (set_cell_is_Some s1) by done. apply W2.
    + intros q i. rewrite (set_cell_semv s1). apply W3.
  - intros q Hq. apply (queue_frame s); [| by apply HQ]. intros n Hn. rewrite (set_cell_ne s1); [done | done |].
    intros ->. apply (lo_free _ _ _ L (mk_link 0 p)); [by apply (elem_of_concat _ q) | left].
  - destruct L as [L1 L2 L3 L4 L5]. split; [done | done | | |].
    + intros n c Hc Hn Hi. destruct (decide (n = mk_link 0 p)) as [->|Hne].
      * rewrite (set_cell_eq s1) in Hc by done. congruence.
      * rewrite (set_cell_ne s1) in Hc by done. apply (L3 n c Hc Hn).
        intros [Hp|Hin]%elem_of_cons; [| by apply Hi]. intros H0. apply Hne. destruct n; simpl in *; congruence.
    + intros n Hn Hin. apply (L4 n Hn). by right.
    + intros q Hq. rewrite (set_cell_qc s1). by apply L5.
Qed.

Lemma queues_free s p fl qs :
  queues s fl qs -> 0 <= p < MAXPROC -> p ∉ fl -> pcount p (concat qs) = 0%nat ->
  returns (freeProc p) s (fun _ s' => queues s' (fl ++ [p]) qs /\ freed s s' fl p).
Proof.
  intros [W Hf Hnd HQ L] Hp Hni Hc. eapply wp_mono; [by apply (freeProc_spec s fl p) | | done].
  intros [] s' Hfr. split; [| done]. pose proof Hfr as [F1 F2 F3 F4 F5 F6 F7].
  assert (forall n, n ∈ concat qs -> next n <> p /\ next n ∉ fl) as Hn.
  { intros n Hn. split; [| by apply L]. intros E. apply pcount_zero in Hc. apply Hc.
    apply list_elem_of_fmap. exists n. by split. }
  split; [done | done | | |].
  - apply NoDup_app. split_and!; [done | | apply NoDup_singleton].
    intros q Hq ->%list_elem_of_singleton. done.
  - intros q Hq. apply (queue_frame s); [| by apply HQ]. intros n Hin.
    destruct (Hn n) as [Hnp Hnf]; [by apply (elem_of_concat _ q) |]. by apply F3.
  - destruct L as [L1 L2 L3 L4 L5]. split; [done | done | | |].
    + intros n c Hcn Hnn Hi. destruct (decide (next n = p)) as [Hnp|Hnp].
      * assert (0 <= index n < SEMMAX) as Hix by (apply (pwf_cell s' F7); by exists c).
        destruct n as [i q]. simpl in *. subst q. rewrite (F2 i Hix) in Hcn. congruence.
      * apply (L3 n c); [| done |].
        -- rewrite <- Hcn. symmetry. apply F3; [done |]. intros H0 Hin. apply Hi; [| done].
           apply elem_of_app. by left.
        -- intros Hin. apply Hi, elem_of_app. by left.
    + intros n Hin. destruct (Hn n Hin) as [Hnp Hnf]. rewrite elem_of_app, list_elem_of_singleton. tauto.
    + intros q Hq. rewrite F6. case_decide as E; [subst q; by rewrite (L5 p Hp), Hc | by rewrite option_fmap_id; apply L5].
Qed.

(** ** The semaphore vector

    [semvec] as a multiset: the semaphores an entry is blocked on, [ENULL] marking
    the unused places. *)
Definition vec (s : procq) (p : Z) : list Z := (fun i => default ENULL (semv s p i)) <$> seqZ 0 SEMMAX.
Definition sems (s : procq) (p : Z) : list Z := filter (fun a => a <> ENULL) (vec s p).

Lemma vec_length s p : length (vec s p) = 10%nat.
Proof. done. Qed.

Lemma vec_ext s s' p : (forall i, semv s' p i = semv s p i) -> vec s' p = vec s p.
Proof. intros H. apply list_fmap_ext. intros i x _. by rewrite H. Qed.

Lemma same_procs_sems s s' p : same_procs s s' -> sems s' p = sems s p.
Proof. intros H. unfold sems. f_equal. apply vec_ext. intros i. apply prest_eq_semv, H. Qed.

Lemma vec_split s p j v :
  0 <= j < SEMMAX -> semv s p j = Some v ->
  exists l1 l2, vec s p = l1 ++ v :: l2 /\ forall w, vec (set_semv p j w s) p = l1 ++ w :: l2.
Proof.
  intros Hj Hv. set (f s i := default ENULL (semv s p i)).
  exists (f s <$> seqZ 0 j), (f s <$> seqZ (j + 1) (SEMMAX - j - 1)).
  assert (seqZ 0 SEMMAX = seqZ 0 j ++ j :: seqZ (j + 1) (SEMMAX - j - 1)) as Hseq.
  { replace SEMMAX with (j + (SEMMAX - j)) at 1 by lia. rewrite seqZ_app by lia. f_equal.
    rewrite seqZ_cons by lia. f_equal; f_equal; lia. }
  unfold vec. rewrite Hseq, fmap_app, fmap_cons. split.
  - f_equal. f_equal. by rewrite Hv.
  - intros w. rewrite fmap_app, fmap_cons.
    assert (forall l : list Z, j ∉ l -> (fun i => default ENULL (semv (set_semv p j w s) p i)) <$> l = f s <$> l) as Heq.
    { intros l Hl. apply list_fmap_ext. intros i x Hx. rewrite set_semv_semv by eauto.
      rewrite decide_False; [done |]. intros [_ ->]. apply Hl. by eapply list_elem_of_lookup_2. }
    rewrite !Heq by (rewrite elem_of_seqZ; lia). f_equal. f_equal.
    rewrite set_semv_semv by eauto. by rewrite decide_True.
Qed.

Lemma replace_first_spec s p old new :
  pwf s -> 0 <= p < MAXPROC ->
  returns (replace_first p old new 0 (Z.to_nat SEMMAX)) s (fun _ s' =>
    (s' = s /\ old ∉ vec s p) \/
    exists j, 0 <= j < SEMMAX /\ semv s p j = Some old /\ s' = set_semv p j new s).
Proof.
  intros W Hp.
  assert (forall n i, i + Z.of_nat n = SEMMAX -> 0 <= i ->
    (forall j, 0 <= j < i -> semv s p j <> Some old) ->
    returns (replace_first p old new i n) s (fun _ s' =>
      (s' = s /\ old ∉ vec s p) \/
      exists j, 0 <= j < SEMMAX /\ semv s p j = Some old /\ s' = set_semv p j new s)) as Hgen;
    [| apply Hgen; [done | lia | lia]].
  induction n as [|n IH]; intros i Hi Hi0 Hnot; unfold replace_first; fold replace_first.
  - apply wp_ret. left. split; [done |]. intros (j & Hj & Hin)%list_elem_of_fmap.
    apply elem_of_seqZ in Hin. destruct (proj2 (pwf_semv s W p j)) as [v Hv]; [lia |].
    rewrite Hv in Hj. simpl in Hj. subst v. by apply (Hnot j); [lia |].
  - destruct (proj2 (pwf_semv s W p i)) as [v Hv]; [lia |]. pose proof Hv as Hv'.
    unfold semv in Hv'. apply bind_Some in Hv' as (pr & Hpr & Hsv). unfold deref. wp_steps. case_Z.
    + subst v. apply wp_put_semvec; [by rewrite Hv |]. right. exists i. split_and!; [lia | lia | done | done].
    + apply IH; [lia | lia |]. intros j Hj. destruct (decide (j = i)) as [->|]; [congruence |].
      apply Hnot. lia.
Qed.

Lemma sems_drop l1 v l2 :
  filter (fun a => a <> ENULL) (l1 ++ v :: l2) ≡ₚ
  (if decide (v = ENULL) then [] else [v]) ++ filter (fun a => a <> ENULL) (l1 ++ l2).
Proof.
  rewrite !filter_app. destruct (decide (v = ENULL)) as [->|Hv].
  - by rewrite filter_cons_False by tauto.
  - rewrite filter_cons_True by done. cbn [app]. symmetry. apply Permutation_middle.
Qed.

Record vec_change (s s' : procq) (p : Z) : Prop := {
  vc_sems : forall q, q <> p -> sems s' q = sems s q;
  vc_cell : forall n, cell s' n = cell s n;
  vc_qc : forall q, qc s' q = qc s q;
  vc_core : forall q, pcore s' q = pcore s q;
  vc_head : free_head s' = free_head s;
  vc_buf : pncbuf s' = pncbuf s;
  vc_wf : pwf s' }.

Lemma set_semv_change s p j v : pwf s -> is_Some (semv s p j) -> vec_change s (set_semv p j v s) p.
Proof.
  intros W Hj. split; [| intros; by autorewrite with views .. | done | done |].
  - intros q Hq. unfold sems. f_equal. apply vec_ext. intros i. rewrite set_semv_semv by done.
    rewrite decide_False; [done | tauto].
  - destruct W as [Ht Hc Hs]. split.
    + intros q. rewrite <- Ht. unfold set_semv. simpl. rewrite lookup_alter. case_decide; [| done].
      subst. apply fmap_is_Some.
    + intros n. rewrite set_semv_cell. apply Hc.
    + intros q i. rewrite set_semv_semv by done. rewrite <- Hs. case_decide as Hqi; [| done].
      destruct Hqi as [-> ->]. split; by eauto.
Qed.

Lemma filter_lt_length {A} (P : A -> Prop) `{forall x, Decision (P x)} (l : list A) :
  (length (filter P l) < length l)%nat -> exists x, x ∈ l /\ ~ P x.
Proof.
  induction l as [|x l IH]; simpl; [lia |]. rewrite filter_cons. case_decide; simpl; intros Hlt.
  - destruct IH as (y & Hy & HP); [lia |]. exists y. split; [by right | done].
  - exists x. split; [left | done].
Qed.

(** [setSem] and [setSem2] *)
Lemma set_sems s p a :
  pwf s -> 0 <= p < MAXPROC -> a <> ENULL -> (length (sems s p) < 10)%nat ->
  returns (replace_first p ENULL a 0 (Z.to_nat SEMMAX)) s (fun _ s' =>
    sems s' p ≡ₚ a :: sems s p /\ vec_change s s' p).
Proof.
  intros W Hp Ha Hlen. eapply wp_mono; [by apply replace_first_spec | | done].
  intros [] s' [[-> Hni] | (j & Hj & Hv & ->)].
  - destruct (filter_lt_length (fun a => a <> ENULL) (vec s p)) as (x & Hx & Hnx); [done |].
    destruct (decide (x = ENULL)) as [->|]; [done | tauto].
  - split; [| apply set_semv_change; eauto].
    destruct (vec_split s p j ENULL Hj Hv) as (l1 & l2 & Hs & Hs'). unfold sems.
    rewrite Hs', Hs, !sems_drop. by rewrite decide_False, decide_True by done.
Qed.

Lemma unset_at s p j a :
  0 <= j < SEMMAX -> semv s p j = Some a -> a <> ENULL ->
  a :: sems (set_semv p j ENULL s) p ≡ₚ sems s p.
Proof.
  intros Hj Hv Ha. destruct (vec_split s p j a Hj Hv) as (l1 & l2 & Hs & Hs'). unfold sems.
  rewrite Hs', Hs, !sems_drop. by rewrite (decide_True (P := ENULL = ENULL)), decide_False by done.
Qed.

Lemma unset_sems s p a :
  pwf s -> 0 <= p < MAXPROC -> a <> ENULL -> a ∈ sems s p ->
  returns (replace_first p a ENULL 0 (Z.to_nat SEMMAX)) s (fun _ s' =>
    a :: sems s' p ≡ₚ sems s p /\ vec_change s s' p).
Proof.
  intros W Hp Ha Hin. eapply wp_mono; [by apply replace_first_spec | | done].
  intros [] s' [[-> Hni] | (j & Hj & Hv & ->)].
  - by apply list_elem_of_filter in Hin as [_ Hin].
  - split; [by apply unset_at | apply set_semv_change; eauto].
Qed.

Lemma vec_change_queues s s' p fl qs : vec_change s s' p -> queues s fl qs -> queues s' fl qs.
Proof.
  intros [_ Hc Hq _ Hh _ Hw] [_ Hf Hnd HQ L]. split; [done | | done | |].
  - rewrite Hh. apply (flist_frame s); [| done]. intros r _. apply Hc.
  - intros q Hin. apply (queue_frame s); [| by apply HQ]. intros m _. apply Hc.
  - destruct L as [L1 L2 L3 L4 L5]. split; [done | done | | done |].
    + intros n c. rewrite Hc. apply L3.
    + intros r Hr. rewrite Hq. by apply L5.
Qed.
