(* ===== verification/AslInv.v ===== *)
(** * The invariant of the queues and the active semaphore list

    A semaphore descriptor in use is an [entry]: the descriptor, the semaphore and
    the links of the queue.  [kinv s rq fl A]: the state [s] holds the free entries
    [fl], the ready queue [rq] and the entries [A] of the active semaphore list. *)

From S2P Require Export SemdList Queues.
Local Open Scope kernel_scope.

Record entry := mk_entry { e_sd : Z; e_sem : Z; e_q : list proc_link }.

#[export] Instance entry_eq_dec : EqDecision entry.
Proof. solve_decision. Defined.

Definition set_q (q : list proc_link) (e : entry) : entry := mk_entry (e_sd e) (e_sem e) q.

(** the descriptors *)
Record semds (s : asl) (A : list entry) (F : list Z) : Prop := {
  sm_cur : dlist (dv s) (cur_sem s) (e_sd <$> A);
  sm_free : dlist (dv s) (free_head_s s) F;
  sm_all : (e_sd <$> A) ++ F ≡ₚ seqZ 0 MAXPROC;
  sm_entry : forall e, e ∈ A -> dc s (e_sd e) = Some (e_sem e, tail (e_q e));
  sm_unused : forall d, d ∈ F -> snd <$> dc s d = Some elink;
  sm_sems : NoDup (e_sem <$> A) }.

(** the semaphores [p] is blocked on *)
Definition blocked_on (p : Z) (A : list entry) : list Z :=
  e_sem <$> filter (fun e => p ∈ names (e_q e)) A.

(** the invariant with the free descriptors [F], allowing empty queues in [A] *)
Record pinv (s : asl) (rq : list proc_link) (fl : list Z) (A : list entry) (F : list Z) : Prop := {
  pi_queues : queues (a_pq s) fl (rq :: (e_q <$> A));
  pi_semds : semds s A F;
  pi_vec : forall p, 0 <= p < MAXPROC -> sems (a_pq s) p ≡ₚ blocked_on p A }.

Definition busy (A : list entry) : Prop := forall e, e ∈ A -> e_q e <> [] /\ e_sem e <> ENULL.

Definition kinv (s : asl) (rq : list proc_link) (fl : list Z) (A : list entry) : Prop :=
  busy A /\ exists F, pinv s rq fl A F.

(** ** Facts about the descriptors *)

Lemma semds_nodup s A F : semds s A F -> NoDup ((e_sd <$> A) ++ F).
Proof. intros H. rewrite (sm_all _ _ _ H). apply NoDup_seqZ. Qed.

Lemma semds_valid s A F d : semds s A F -> d ∈ (e_sd <$> A) ++ F <-> 0 <= d < MAXPROC.
Proof. intros H. rewrite (sm_all _ _ _ H), elem_of_seqZ. lia. Qed.

Lemma semds_ne s A F : semds s A F -> ENULL ∉ (e_sd <$> A) ++ F.
Proof. intros H Hin. apply (semds_valid _ _ _ _ H) in Hin. by destruct Hin. Qed.

Lemma semds_length s A F : semds s A F -> (length A + length F = 20)%nat.
Proof.
  intros H. pose proof (Permutation_length (sm_all _ _ _ H)) as Hl.
  by rewrite length_app, length_fmap in Hl.
Qed.

Lemma semds_dom s A F d : semds s A F -> d ∈ (e_sd <$> A) ++ F -> is_Some (semd_table s !! d).
Proof.
  intros H [Hd|Hd]%elem_of_app; apply dv_is_Some.
  - exact (dseg_lookup _ _ _ _ _ _ (sm_cur _ _ _ H) Hd).
  - exact (dseg_lookup _ _ _ _ _ _ (sm_free _ _ _ H) Hd).
Qed.

Lemma e_sd_in A1 e A2 : e_sd e ∈ e_sd <$> (A1 ++ e :: A2).
Proof. rewrite fmap_app, fmap_cons. apply elem_of_app. right. left. Qed.

(** two entries with the same descriptor are in the same place *)
Lemma e_sd_other s A1 e A2 F e' : semds s (A1 ++ e :: A2) F -> e' ∈ A1 ++ A2 -> e_sd e' <> e_sd e.
Proof.
  intros H%semds_nodup He' E. apply NoDup_app in H as (H & _ & _).
  rewrite fmap_app, fmap_cons, <- Permutation_middle in H. apply NoDup_cons in H as [H _].
  apply H. rewrite <- E, <- fmap_app. apply list_elem_of_fmap. eauto.
Qed.

Lemma semds_frame s s' A F :
  (forall d, dv s' d = dv s d) -> (forall d, dc s' d = dc s d) ->
  cur_sem s' = cur_sem s -> free_head_s s' = free_head_s s -> semds s A F -> semds s' A F.
Proof.
  intros Hdv Hdc Hc Hf [H1 H2 H3 H4 H5 H6]. split; [| | done | | | done].
  - rewrite Hc. by apply (dseg_frame (dv s)).
  - rewrite Hf. by apply (dseg_frame (dv s)).
  - intros. rewrite Hdc. auto.
  - intros. rewrite Hdc. auto.
Qed.

Lemma semds_set_pq s A F q : semds (set_a_pq q s) A F <-> semds s A F.
Proof. split; by apply semds_frame. Qed.

(** [find_semd] on the active list *)
Lemma find_spec s A F a :
  semds s A F ->
  returns (find_semd semd_fuel a ENULL (cur_sem s)) s (fun r s' => s' = s /\
    ((a ∉ e_sem <$> A /\ r = (List.last (e_sd <$> A) ENULL, ENULL)) \/
     exists A1 e A2, A = A1 ++ e :: A2 /\ e_sem e = a /\ r.2 = e_sd e)).
Proof.
  intros H. pose proof (semds_ne _ _ _ H) as Hne. apply not_elem_of_app in Hne as [Hne _].
  pose proof (semds_length _ _ _ H) as Hlen.
  eapply wp_mono; [apply (find_semd_spec s a _ _ ENULL _ _ (sm_cur _ _ _ H)) | | done]; [done | |].
  { rewrite length_fmap. unfold semd_fuel. lia. }
  assert (forall e, e ∈ A -> semAdd_of s (e_sd e) = Some (e_sem e)) as Hadd.
  { intros e He. unfold semAdd_of. by rewrite (sm_entry _ _ _ H e He). }
  intros r s' [-> [[-> Hall] | (l1 & w & l2 & Hl & -> & Hw & Hall)]]; split; [done | | done |].
  - left. split; [| done]. intros (e & -> & He)%list_elem_of_fmap.
    eapply Hall; [apply list_elem_of_fmap; eauto |]. by apply Hadd.
  - right. apply fmap_app_inv in Hl as (A1 & A2' & -> & Hl & ->). symmetry in Hl.
    apply fmap_cons_inv in Hl as (e & A2 & -> & -> & ->).
    exists A1, e, A2. split_and!; [done | | done]. rewrite Hadd in Hw by (apply elem_of_app; right; left).
    congruence.
Qed.

(** ** The three changes to the descriptors *)

(** a queue changes *)
Lemma semds_set_link s A1 e A2 F q :
  semds s (A1 ++ e :: A2) F ->
  semds (upd_semd (e_sd e) (set_s_link (tail q)) s) (A1 ++ set_q q e :: A2) F.
Proof.
  intros H. pose proof (fun e' => e_sd_other _ _ _ _ _ e' H) as Hother.
  assert (e_sd <$> (A1 ++ set_q q e :: A2) = e_sd <$> (A1 ++ e :: A2)) as Hsd by by rewrite !fmap_app.
  assert (e_sem <$> (A1 ++ set_q q e :: A2) = e_sem <$> (A1 ++ e :: A2)) as Hsem by by rewrite !fmap_app.
  split; rewrite ?Hsd, ?Hsem.
  - apply (dseg_frame (dv s)); [| apply H]. intros. apply dv_set_link.
  - apply (dseg_frame (dv s)); [| apply H]. intros. apply dv_set_link.
  - apply H.
  - intros e'. rewrite dc_set_link. rewrite elem_of_app, elem_of_cons. intros He'.
    destruct (decide (e' = set_q q e)) as [->|Hne].
    + rewrite decide_True by done. simpl e_sd. by rewrite (sm_entry _ _ _ H e) by (apply elem_of_app; right; left).
    + rewrite decide_False by (apply Hother, elem_of_app; tauto).
      rewrite (sm_entry _ _ _ H e'); [done |]. rewrite elem_of_app, elem_of_cons. tauto.
  - intros d Hd. rewrite dc_set_link. rewrite decide_False; [by rewrite option_fmap_id; apply H |].
    intros ->. pose proof (semds_nodup _ _ _ H) as Hnd. apply NoDup_app in Hnd as (_ & Hdis & _).
    apply (Hdis (e_sd e)); [apply e_sd_in | done].
  - apply H.
Qed.

(** a free descriptor is appended to the active list *)
Definition set_next_of (n : Z) (np : Z * Z) : Z * Z := (n, np.2).
Definition set_prev_of (p : Z) (np : Z * Z) : Z * Z := (np.1, p).

Record appended (s s' : asl) (A : list entry) (h : Z) (F : list Z) (a : Z) : Prop := {
  ap_cur : cur_sem s' = List.hd h (e_sd <$> A);
  ap_free : free_head_s s' = List.hd ENULL F;
  ap_dc : forall d, dc s' d = (if decide (d = h) then fun al => (a, al.2) else id) <$> dc s d;
  ap_new : dv s' h = Some (ENULL, List.last (e_sd <$> A) ENULL);
  ap_last : forall d, d ∈ e_sd <$> A ->
    dv s' d = (if decide (d = List.last (e_sd <$> A) ENULL) then set_next_of h else id) <$> dv s d;
  ap_first : forall d, d ∈ F ->
    dv s' d = (if decide (d = List.hd ENULL F) then set_prev_of ENULL else id) <$> dv s d }.

Lemma dlist_append V V' A h hd0 :
  dlist V hd0 A -> NoDup A -> h ∉ A -> V' h = Some (ENULL, List.last A ENULL) ->
  (forall d, d ∈ A -> V' d = (if decide (d = List.last A ENULL) then set_next_of h else id) <$> V d) ->
  dlist V' (List.hd h A) (A ++ [h]).
Proof.
  intros HA Hnd Hh Hnew Hlast. destruct A as [|z A _] using rev_ind.
  - split; [done |]. by exists ENULL.
  - pose proof (dseg_head _ _ _ _ _ HA) as Hh0. rewrite last_default_app in Hnew, Hlast.
    apply dseg_app. exists h. split.
    + replace (List.hd h (A ++ [z])) with hd0 by (by rewrite Hh0; destruct A).
      apply (dseg_set_last V _ _ _ _ _ ENULL); [done | done | |].
      * intros d Hd. apply NoDup_app in Hnd as (_ & Hnd & _).
        rewrite Hlast by (apply elem_of_app; by left). rewrite decide_False; [by destruct (V d) |].
        intros ->. apply (Hnd z); [done | left].
      * rewrite Hlast by (apply elem_of_app; right; left). by rewrite decide_True.
    + rewrite last_default_app. split; [done |]. by exists ENULL.
Qed.

Lemma dlist_pop V V' h F hd0 :
  dlist V hd0 (h :: F) -> NoDup F ->
  (forall d, d ∈ F -> V' d = (if decide (d = List.hd ENULL F) then set_prev_of ENULL else id) <$> V d) ->
  dlist V' (List.hd ENULL F) F.
Proof.
  intros [-> (n & _ & HF)] Hnd Hfirst. destruct F as [|m F]; [done |].
  apply NoDup_cons in Hnd as [Hm Hnd]. simpl in Hfirst |- *.
  pose proof (dseg_head _ _ _ _ _ HF) as ->. apply (dseg_set_first V _ h); [done | |].
  - intros e He. rewrite Hfirst by (by right). rewrite decide_False; [by destruct (V e) |]. by intros ->.
  - rewrite Hfirst by left. by rewrite decide_True.
Qed.

Lemma semds_append s s' A h F a :
  semds s A (h :: F) -> a ∉ e_sem <$> A -> appended s s' A h F a ->
  semds s' (A ++ [mk_entry h a []]) F.
Proof.
  intros H Ha [H1 H2 H3 H4 H5 H6]. pose proof (semds_nodup _ _ _ H) as Hnd.
  apply NoDup_app in Hnd as (HndA & Hdis & [HhF HndF]%NoDup_cons).
  assert (h ∉ e_sd <$> A) as HhA. { intros Hin. apply (Hdis h); [done | left]. }
  split.
  - rewrite fmap_app, H1. by apply (dlist_append (dv s) _ _ _ _ (sm_cur _ _ _ H)).
  - rewrite H2. by apply (dlist_pop (dv s) _ h F _ (sm_free _ _ _ H)).
  - rewrite fmap_app, <- app_assoc. apply H.
  - intros e [He|He]%elem_of_app; rewrite H3.
    + rewrite decide_False; [rewrite option_fmap_id; by apply H |].
      intros E. apply HhA. rewrite <- E. apply list_elem_of_fmap. eauto.
    + apply list_elem_of_singleton in He as ->. simpl. rewrite decide_True by done.
      pose proof (sm_unused _ _ _ H h ltac:(left)) as Hu. destruct (dc s h) as [[? ?]|]; [| done].
      simpl in Hu |- *. congruence.
  - intros d Hd. rewrite H3. rewrite decide_False by (by intros ->). rewrite option_fmap_id.
    apply H. by right.
  - rewrite fmap_app. apply NoDup_app. split_and!; [apply H | | apply NoDup_singleton].
    intros b Hb ->%list_elem_of_singleton. done.
Qed.

(** an entry is released *)
Lemma removeBlockHelper_entry s A1 e A2 F :
  semds s (A1 ++ e :: A2) F -> e_q e = [] ->
  returns (removeBlockHelper (e_sd e)) s (fun _ s' =>
    semds s' (A1 ++ A2) (F ++ [e_sd e]) /\ a_pq s' = a_pq s /\ ints s' = ints s).
Proof.
  intros H He. pose proof (sm_cur _ _ _ H) as Hc. pose proof (semds_nodup _ _ _ H) as Hnd.
  pose proof (semds_ne _ _ _ H) as Hne. pose proof (semds_length _ _ _ H) as Hlen.
  rewrite length_app in Hlen. simpl in Hlen.
  rewrite fmap_app, fmap_cons in Hc, Hnd, Hne.
  eapply wp_mono; [apply (removeBlockHelper_spec s _ _ _ F Hc (sm_free _ _ _ H) Hnd Hne); lia | | done].
  intros [] s' (H1 & H2 & H3 & H4 & H5 & _). split_and!; [| done | done]. split.
  - by rewrite fmap_app.
  - done.
  - rewrite <- (sm_all _ _ _ H), !fmap_app, fmap_cons. rewrite (app_assoc _ F).
    rewrite (Permutation_app_comm _ [e_sd e]). simpl. rewrite <- !app_assoc. simpl. apply Permutation_middle.
  - intros e' He'. rewrite H3. rewrite decide_False by exact (e_sd_other _ _ _ _ _ _ H He').
    rewrite option_fmap_id. apply H. rewrite elem_of_app, elem_of_cons in *. tauto.
  - intros d [Hd|Hd]%elem_of_app; rewrite H3.
    + rewrite decide_False; [rewrite option_fmap_id; by apply H |]. intros ->.
      apply NoDup_app in Hnd as (_ & Hdis & _). apply (Hdis (e_sd e)); [| done].
      apply elem_of_app. right. left.
    + apply list_elem_of_singleton in Hd as ->. rewrite decide_True by done.
      rewrite (sm_entry _ _ _ H e) by (apply elem_of_app; right; left). by rewrite He.
  - pose proof (sm_sems _ _ _ H) as Hs. rewrite !fmap_app in *. rewrite fmap_cons, <- Permutation_middle in Hs.
    by apply NoDup_cons in Hs as [_ ?].
Qed.
