(* ===== verification/AslSpec.v ===== *)
(** * The operations of the active semaphore list

    Each operation of [src/queues/asl.c] keeps the invariant of [AslInv.v] and acts
    on the entries of the list as the abstract operations of [Blocked.v] say. *)

From S2P Require Export Blocked AslInv.
Local Open Scope kernel_scope.

(** what no operation on the queues changes: the processor state, the times, the
    trap areas and the family of an entry *)
Definition frame (s s' : asl) : Prop := forall q, pcore (a_pq s') q = pcore (a_pq s) q.

Lemma frame_refl s : frame s s.
Proof. done. Qed.
Lemma frame_trans s1 s2 s3 : frame s1 s2 -> frame s2 s3 -> frame s1 s3.
Proof. intros H1 H2 q. by rewrite (H2 q), (H1 q). Qed.
Lemma frame_same s s' : same_procs (a_pq s) (a_pq s') -> frame s s'.
Proof. intros [H1 H2 H3] q. apply prest_eq_core, H1. Qed.
Lemma frame_vec s s' p : vec_change (a_pq s) (a_pq s') p -> frame s s'.
Proof. by intros [] q. Qed.

(** ** [blocked_on] *)
Lemma blocked_on_app p A1 A2 : blocked_on p (A1 ++ A2) = blocked_on p A1 ++ blocked_on p A2.
Proof. unfold blocked_on. by rewrite filter_app, fmap_app. Qed.

Lemma blocked_on_cons p e A :
  blocked_on p (e :: A) = (if decide (p ∈ names (e_q e)) then [e_sem e] else []) ++ blocked_on p A.
Proof. unfold blocked_on. rewrite filter_cons. by case_decide. Qed.

Lemma blocked_on_mid p A1 e A2 :
  blocked_on p (A1 ++ e :: A2) ≡ₚ
  (if decide (p ∈ names (e_q e)) then [e_sem e] else []) ++ blocked_on p (A1 ++ A2).
Proof. rewrite !blocked_on_app, blocked_on_cons, !app_assoc. f_equiv. apply Permutation_app_comm. Qed.

Lemma blocked_on_bound s rq fl A p :
  queues s fl (rq :: (e_q <$> A)) ->
  (length (blocked_on p A) <= pcount p (concat (rq :: (e_q <$> A))))%nat.
Proof.
  intros H. rewrite (pcount_concat _ _ _ _ H). unfold blocked_on. rewrite length_fmap.
  rewrite filter_cons. clear H.
  assert (length (filter (fun q => p ∈ names q) (e_q <$> A)) = length (filter (fun e => p ∈ names (e_q e)) A)) as Heq.
  { induction A as [|e A IH]; [done |]. rewrite fmap_cons, !filter_cons. case_decide; simpl; lia. }
  case_decide; simpl; lia.
Qed.

Lemma queues_qs_mid rq A1 e A2 :
  rq :: (e_q <$> (A1 ++ e :: A2)) = (rq :: (e_q <$> A1)) ++ e_q e :: (e_q <$> A2).
Proof. by rewrite fmap_app, fmap_cons. Qed.

Lemma blocked_valid s rq fl A e p :
  queues s fl (rq :: (e_q <$> A)) -> e ∈ A -> p ∈ names (e_q e) -> 0 <= p < MAXPROC /\ p ∉ fl.
Proof.
  intros H He (n & -> & Hn)%list_elem_of_fmap.
  assert (n ∈ concat (rq :: (e_q <$> A))) as Hin.
  { apply (elem_of_concat _ (e_q e)); [| done]. right. apply list_elem_of_fmap. eauto. }
  pose proof (qu_links _ _ _ H) as L. split; [by apply (lo_valid _ _ _ L) | by apply (lo_free _ _ _ L)].
Qed.

(** ** Blocking a process at an entry *)

Lemma insert_link_entry s rq fl A1 e A2 F p :
  pinv s rq fl (A1 ++ e :: A2) F -> 0 <= p < MAXPROC -> p ∉ names (e_q e) -> p ∉ fl ->
  (pcount p (concat (rq :: (e_q <$> (A1 ++ e :: A2)))) < 10)%nat ->
  returns (insert_link (e_sd e) p) s (fun _ s' => exists n, next n = p /\
    let A' := A1 ++ set_q (e_q e ++ [n]) e :: A2 in
    queues (a_pq s') fl (rq :: (e_q <$> A')) /\ semds s' A' F /\
    same_procs (a_pq s) (a_pq s') /\ ints s' = ints s).
Proof.
  intros [HQ HS _] Hp Hni Hfl Hc. unfold insert_link. rewrite queues_qs_mid in HQ, Hc.
  assert (e_sd e ∈ (e_sd <$> (A1 ++ e :: A2)) ++ F) as Hd by (apply elem_of_app; left; apply e_sd_in).
  destruct (semds_dom _ _ _ _ HS Hd) as [x Hx]. a_step. a_step.
  assert (s_link x = tail (e_q e)) as ->.
  { pose proof (sm_entry _ _ _ HS e ltac:(apply elem_of_app; right; left)) as He. unfold dc in He.
    rewrite Hx in He. simpl in He. congruence. }
  a_step. apply wp_pq. wp_apply (queues_insert (a_pq s) fl (rq :: (e_q <$> A1)) (e_q <$> A2) (e_q e) HQ p);
    [done | done | done | done |].
  intros tp' pq' (n & Hn & -> & HQ' & Hsame). apply wp_put_semd; [by exists x |].
  exists n. split; [done |]. cbv zeta. rewrite queues_qs_mid. split_and!; [done | | done | done].
  pose proof (semds_set_link (set_a_pq pq' s) A1 e A2 F (e_q e ++ [n])) as HL.
  rewrite last_default_app in HL. by apply HL, semds_set_pq.
Qed.

Lemma block_entry s rq fl A1 e A2 F p :
  pinv s rq fl (A1 ++ e :: A2) F -> busy (A1 ++ A2) -> e_sem e <> ENULL ->
  0 <= p < MAXPROC -> p ∉ names (e_q e) -> p ∉ fl ->
  (pcount p (concat (rq :: (e_q <$> (A1 ++ e :: A2)))) < 10)%nat ->
  returns (insert_link (e_sd e) p ;; setSem (e_sem e) p ;; ret FALSE) s (fun r s' =>
    r = FALSE /\ ints s' = ints s /\ frame s s' /\
    exists n, next n = p /\ kinv s' rq fl (A1 ++ set_q (e_q e ++ [n]) e :: A2)).
Proof.
  intros HI Hbusy Ha Hp Hni Hfl Hc. wp_step.
  wp_apply (insert_link_entry _ _ _ _ _ _ _ _ HI Hp Hni Hfl Hc).
  intros [] s1 (n & Hn & HQ1 & HS1 & Hsame & Hints). cbv zeta in *.
  pose proof (pi_vec _ _ _ _ _ HI) as Hv. pose proof (blocked_on_bound _ _ _ _ p (pi_queues _ _ _ _ _ HI)) as Hb.
  a_step. unfold setSem. apply wp_pq. wp_apply (set_sems (a_pq s1) p (e_sem e)); [apply HQ1 | done | done | |].
  { rewrite (same_procs_sems _ _ _ Hsame), (Hv p Hp). lia. }
  intros [] pq2 (Hsems & Hch). apply wp_ret. split_and!; [done | done | |].
  - eapply frame_trans; [by apply frame_same | by eapply (frame_vec s1 (set_a_pq pq2 s1))].
  - exists n. split; [done |]. split; [| exists F; split].
    + intros e'. rewrite elem_of_app, elem_of_cons. intros [He|[->|He]];
        [apply Hbusy, elem_of_app; tauto | split; [by destruct (e_q e) | done] | apply Hbusy, elem_of_app; tauto].
    + by apply (vec_change_queues (a_pq s1) _ p).
    + by apply semds_set_pq.
    + intros q Hq. rewrite blocked_on_mid. simpl e_q. simpl e_sem. rewrite fmap_app. simpl.
      pose proof (Hv q Hq) as Hvq. rewrite blocked_on_mid in Hvq.
      destruct (decide (q = p)) as [->|Hqp].
      * simpl. rewrite Hsems, (same_procs_sems _ _ _ Hsame), Hvq.
        rewrite decide_False, decide_True by (done || (apply elem_of_app; right; rewrite Hn; left)). done.
      * simpl. rewrite (vc_sems _ _ _ Hch q Hqp), (same_procs_sems _ _ _ Hsame), Hvq.
        assert (q ∈ names (e_q e) ++ [next n] <-> q ∈ names (e_q e)) as Hiff
          by (rewrite elem_of_app, list_elem_of_singleton; intuition congruence).
        f_equiv. repeat case_decide; tauto || done.
Qed.

(** ** The representation of the abstract queues *)

Definition blk (A : list entry) : blist := (fun e => (e_sem e, names (e_q e))) <$> A.

(** [tp] is the link of the running queue *)
Definition repr (s : asl) (tp : proc_link) (x : absq) : Prop :=
  exists rq A, tp = tail rq /\ names rq = ready x /\ blk A = blocked x /\ kinv s rq (free_procs x) A.

Lemma keys_blk A : keys (blk A) = e_sem <$> A.
Proof. unfold keys, blk. by rewrite <- list_fmap_compose. Qed.

Lemma blk_app A1 A2 : blk (A1 ++ A2) = blk A1 ++ blk A2.
Proof. apply fmap_app. Qed.

Lemma split_keys s A1 e A2 F : semds s (A1 ++ e :: A2) F -> e_sem e ∉ e_sem <$> A1.
Proof.
  intros H Hin. pose proof (sm_sems _ _ _ H) as Hnd. rewrite fmap_app, fmap_cons in Hnd.
  apply NoDup_app in Hnd as (_ & Hd & _). apply (Hd _ Hin). left.
Qed.

Lemma waiters_blk A1 e A2 : e_sem e ∉ e_sem <$> A1 -> waiters (e_sem e) (blk (A1 ++ e :: A2)) = names (e_q e).
Proof.
  induction A1 as [|e1 A1 IH]; simpl; [by rewrite Z.eqb_refl |].
  intros [Hne Hni]%not_elem_of_cons. rewrite (proj2 (Z.eqb_neq _ _)) by done. by apply IH.
Qed.

Lemma block_blk A1 e A2 n :
  e_sem e ∉ e_sem <$> A1 ->
  suspend (e_sem e) (next n) (blk (A1 ++ e :: A2)) = blk (A1 ++ set_q (e_q e ++ [n]) e :: A2).
Proof.
  induction A1 as [|e1 A1 IH]; simpl.
  - rewrite Z.eqb_refl, fmap_app. done.
  - intros [Hne Hni]%not_elem_of_cons. rewrite (proj2 (Z.eqb_neq _ _)) by done. f_equal. by apply IH.
Qed.

Lemma block_blk_new A h a n :
  a ∉ e_sem <$> A -> suspend a (next n) (blk A) = blk (A ++ [mk_entry h a [n]]).
Proof.
  induction A as [|e1 A IH]; simpl; [done |].
  intros [Hne Hni]%not_elem_of_cons. rewrite (proj2 (Z.eqb_neq _ _)) by done. f_equal. by apply IH.
Qed.

Lemma in_queues_pcount s rq fl A p x :
  queues s fl (rq :: (e_q <$> A)) -> names rq = ready x -> blk A = blocked x ->
  pcount p (concat (rq :: (e_q <$> A))) = in_queues p x.
Proof.
  intros H Hr Hb. rewrite (pcount_concat _ _ _ _ H). unfold in_queues. rewrite <- Hr, <- Hb.
  replace (snd <$> blk A) with ((fun q => names q) <$> (e_q <$> A)) by (unfold blk; by rewrite <- !list_fmap_compose).
  clear. rewrite !filter_cons. assert (forall qs : list (list proc_link),
    length (filter (fun q => p ∈ names q) qs) = length (filter (fun q : list Z => p ∈ q) ((fun q : list proc_link => names q) <$> qs))) as Hq.
  { induction qs as [|q qs IH]; [done |]. rewrite fmap_cons, !filter_cons. case_decide; simpl; by rewrite IH. }
  case_decide; simpl; by rewrite Hq.
Qed.

Lemma busy_bwf A s F : semds s A F -> busy A -> bwf (blk A).
Proof.
  intros H Hb. split; [rewrite keys_blk; apply H |].
  intros b q (e & [= -> ->] & He)%list_elem_of_fmap. destruct (Hb e He) as [Hq _]. by destruct (e_q e).
Qed.

(** ** [insertBlocked] *)

Lemma find_waiters s A F a :
  semds s A F ->
  returns (find_semd semd_fuel a ENULL (cur_sem s)) s (fun r s' => s' = s /\
    ((a ∉ keys (blk A) /\ r.1 = List.last (e_sd <$> A) ENULL /\ r.2 = ENULL) \/
     exists A1 e A2, A = A1 ++ e :: A2 /\ e_sem e = a /\ r.2 = e_sd e /\ e_sd e <> ENULL /\
       e_sem e ∉ e_sem <$> A1 /\ waiters a (blk A) = names (e_q e))).
Proof.
  intros H. eapply wp_mono; [by eapply find_spec | | done]. intros r s' [-> Hr]. split; [done |].
  destruct Hr as [[Hni ->] | (A1 & e & A2 & -> & <- & Hr)]; [left | right].
  - by rewrite keys_blk.
  - exists A1, e, A2. pose proof (split_keys _ _ _ _ _ H). split_and!; try done.
    + intros E. apply (semds_ne _ _ _ H). rewrite <- E. apply elem_of_app. left. apply e_sd_in.
    + by apply waiters_blk.
Qed.

(** the two ways of taking a descriptor lead to an appended entry *)
Lemma append_first s h h2 F a x :
  semds s [] (h :: h2 :: F) -> semd_table s !! h = Some x -> 
  appended s (upd_semd h (set_s_semAdd a) (upd_semd h2 (set_s_prev ENULL) (upd_semd h (set_s_next ENULL)
    (set_free_head_s h2 (set_cur_sem h s))))) [] h (h2 :: F) a.
Proof.
  intros H Hx. pose proof (semds_nodup _ _ _ H) as Hnd. simpl in Hnd.
  apply NoDup_cons in Hnd as [[Hh2 HF]%not_elem_of_cons _].
  destruct (sm_free _ _ _ H) as [_ (n & Hn & -> & _)]. unfold dv in Hn. rewrite Hx in Hn. simpl in Hn.
  injection Hn as Hnx Hpv.
  split.
  - done.
  - done.
  - intros d. by autorewrite with semds.
  - autorewrite with semds. rewrite (decide_False (P := h = h2)), (decide_True (P := h = h)) by done.
    unfold dv. rewrite Hx. simpl. by rewrite Hpv.
  - by intros d ?%elem_of_nil.
  - intros d Hd. autorewrite with semds.
    rewrite (decide_False (P := d = h)).
    + cbn [List.hd]. case_decide; by destruct (dv s d).
    + intros ->. by apply elem_of_cons in Hd as [|].
Qed.

Definition append_next_state (h z a n : Z) (s : asl) : asl :=
  upd_semd h (set_s_prev z) (upd_semd z (set_s_next h) (upd_semd h (set_s_semAdd a)
    (upd_semd h (set_s_next ENULL) (set_free_head_s n s)))).

Definition unset_first (F : list Z) (s : asl) : asl :=
  match F with [] => s | h2 :: _ => upd_semd h2 (set_s_prev ENULL) s end.

Lemma append_next s A h F a x :
  semds s A (h :: F) -> A <> [] -> semd_table s !! h = Some x ->
  appended s (unset_first F (append_next_state h (List.last (e_sd <$> A) ENULL) a (s_next x) s)) A h F a.
Proof.
  intros H HA Hx. pose proof (semds_nodup _ _ _ H) as Hnd. set (z := List.last (e_sd <$> A) ENULL).
  destruct (sm_free _ _ _ H) as [_ (n & Hn & HF)]. unfold dv in Hn. rewrite Hx in Hn. simpl in Hn.
  injection Hn as <- Hpv. pose proof (dseg_head _ _ _ _ _ HF) as Hh2.
  apply NoDup_app in Hnd as (_ & Hdis & [HhF _]%NoDup_cons).
  assert (z ∈ e_sd <$> A) as HzA.
  { unfold z. destruct A as [|e A _] using rev_ind; [done |].
    rewrite fmap_app. cbn. rewrite last_default_app. apply elem_of_app. right. left. }
  assert (forall d, d ∈ e_sd <$> A -> d <> h /\ d ∉ F) as HA'.
  { intros d Hd. specialize (Hdis d Hd). rewrite elem_of_cons in Hdis. tauto. }
  destruct (HA' z HzA) as [Hzh HzF].
  assert (forall s0, cur_sem (unset_first F s0) = cur_sem s0 /\ free_head_s (unset_first F s0) = free_head_s s0 /\
    (forall d, dc (unset_first F s0) d = dc s0 d) /\ (forall d, d ∉ F -> dv (unset_first F s0) d = dv s0 d) /\
    (forall d, d ∈ F -> dv (unset_first F s0) d =
      (if decide (d = List.hd ENULL F) then set_prev_of ENULL else id) <$> dv s0 d)) as Hun.
  { intros s0. destruct F as [|h2 F]; [split_and!; try done; by intros d ?%elem_of_nil |].
    split_and!; [done | done | | |]; intros d; simpl; autorewrite with semds; [done | | done].
    intros [Hd _]%not_elem_of_cons. rewrite decide_False by done. by destruct (dv s0 d). }
  destruct (Hun (append_next_state h z a (s_next x) s)) as (H1 & H2 & H3 & H4 & H5).
  split.
  - rewrite H1. simpl. pose proof (dseg_head _ _ _ _ _ (sm_cur _ _ _ H)) as ->. by destruct A.
  - rewrite H2. simpl. done.
  - intros d. rewrite H3. unfold append_next_state. by autorewrite with semds.
  - rewrite H4 by done. unfold append_next_state. autorewrite with semds.
    rewrite (decide_False (P := h = z)), !(decide_True (P := h = h)) by done. unfold dv. by rewrite Hx.
  - intros d Hd. destruct (HA' d Hd) as [Hdh HdF]. rewrite H4 by done. unfold append_next_state.
    autorewrite with semds. rewrite !(decide_False (P := d = h)) by done. fold z.
    case_decide; by destruct (dv s d).
  - intros d Hd. rewrite H5 by done. unfold append_next_state. autorewrite with semds.
    assert (d <> h) by (by intros ->). assert (d <> z) by (by intros ->).
    rewrite !(decide_False (P := d = h)), !(decide_False (P := d = z)) by done.
    f_equal. by destruct (dv s d).
Qed.

Lemma unset_first_run F s Q X :
  (forall h2, h2 ∈ F -> is_Some (semd_table s !! h2)) -> ENULL ∉ F ->
  Q tt (unset_first F s) ->
  wp (if negb (List.hd ENULL F =? ENULL) then put_semd (List.hd ENULL F) (set_s_prev ENULL) else ret tt) s Q X.
Proof.
  intros Hd Hne HQ. destruct F as [|h2 F]; simpl; [by apply wp_ret |].
  rewrite (proj2 (Z.eqb_neq h2 ENULL)) by (intros ->; apply Hne; left). simpl.
  apply wp_put_semd; [apply Hd; left | done].
Qed.

Definition inserted (s : asl) (rq : list proc_link) (fl : list Z) (A : list entry) (a p : Z) (r : Z) (s' : asl) : Prop :=
  (r = TRUE /\ s' = s /\ a ∉ keys (blk A) /\ length A = 20%nat) \/
  (r = FALSE /\ (a ∈ keys (blk A) \/ length A < 20)%nat /\ ints s' = ints s /\ frame s s' /\
   exists A', kinv s' rq fl A' /\ blk A' = suspend a p (blk A)).

Lemma insertBlocked_new s rq fl A h F a p s1 :
  pinv s rq fl A (h :: F) -> busy A -> appended s s1 A h F a -> a_pq s1 = a_pq s -> ints s1 = ints s ->
  0 <= p < MAXPROC -> p ∉ fl -> a <> ENULL -> a ∉ keys (blk A) ->
  (pcount p (concat (rq :: (e_q <$> A))) < 10)%nat ->
  returns (insert_link h p ;; setSem a p ;; ret FALSE) s1 (inserted s rq fl A a p).
Proof.
  intros HI Hb Hap Hpq Hints Hp Hfl Ha Hni Hc. rewrite keys_blk in Hni.
  pose proof (semds_length _ _ _ (pi_semds _ _ _ _ _ HI)) as Hlen. simpl in Hlen.
  assert (concat (rq :: (e_q <$> (A ++ [mk_entry h a []]))) = concat (rq :: (e_q <$> A))) as Hcat.
  { rewrite fmap_app. change (rq :: ?x ++ ?y) with ((rq :: x) ++ y). rewrite concat_app. simpl. by rewrite !app_nil_r. }
  assert (pinv s1 rq fl (A ++ [mk_entry h a []]) F) as HI1.
  { destruct HI as [HQ HS Hv]. split; [| by eapply semds_append |].
    - rewrite Hpq. destruct HQ as [Q1 Q2 Q3 Q4 Q5]. split; [done | done | done | | by rewrite Hcat].
      intros q. rewrite fmap_app. change (rq :: ?x ++ ?y) with ((rq :: x) ++ y).
      intros [Hq|Hq]%elem_of_app; [by apply Q4 |]. apply list_elem_of_singleton in Hq as ->. apply queue_nil.
    - intros q Hq. rewrite Hpq, blocked_on_app. unfold blocked_on at 2. simpl. rewrite app_nil_r. by apply Hv. }
  eapply wp_mono; [apply (block_entry s1 rq fl A (mk_entry h a []) [] F p HI1) | | done]; simpl;
    [by rewrite app_nil_r | done | done | by apply not_elem_of_nil | done | |].
  - change (concat (rq :: ?x)) with (concat (rq :: x)). by rewrite <- Hcat in Hc.
  - intros r s' (-> & Hints' & Hfr & n & <- & HK). right.
    split_and!; [done | right; lia | congruence | | ].
    + eapply frame_trans; [| exact Hfr]. intros q. by rewrite Hpq.
    + eexists. split; [exact HK |]. symmetry. by apply block_blk_new.
Qed.

Lemma last_in (l : list Z) d : l <> [] -> List.last l d ∈ l.
Proof. destruct l as [|x l _] using rev_ind; [done |]. intros _. rewrite last_default_app. apply elem_of_app. right. left. Qed.

Lemma semds_free s A F d : semds s A F -> d ∈ F -> is_Some (semd_table s !! d) /\ d <> ENULL.
Proof.
  intros HS Hd. split; [apply (semds_dom _ _ _ _ HS), elem_of_app; by right |].
  intros ->. apply (semds_ne _ _ _ HS), elem_of_app. by right.
Qed.

(** no semaphore has waiting processes *)
Lemma insertBlocked_first s rq fl F a p :
  pinv s rq fl [] F -> 0 <= p < MAXPROC -> p ∉ fl -> a <> ENULL -> (pcount p (concat [rq]) < 10)%nat ->
  returns (insertBlocked a p) s (inserted s rq fl [] a p).
Proof.
  intros HI Hp Hfl Ha Hc. pose proof (pi_semds _ _ _ _ _ HI) as HS.
  pose proof (semds_length _ _ _ HS) as Hlen. pose proof (fun d => semds_free s [] F d HS) as HF.
  pose proof (dseg_head _ _ _ _ _ (sm_free _ _ _ HS)) as Hfh.
  pose proof (dseg_head _ _ _ _ _ (sm_cur _ _ _ HS)) as Hch.
  unfold insertBlocked. a_step. a_step.
  destruct F as [|h [|h2 F]]; [done | done |]. rewrite Hch. simpl. a_step. a_step.
  rewrite Hfh. simpl. a_step. a_step. a_step.
  destruct (HF h ltac:(left)) as [[x Hx] _]. eapply wp_semd; [exact Hx |].
  destruct (sm_free _ _ _ HS) as [_ (n & Hn & -> & _)]. unfold dv in Hn. rewrite Hx in Hn. injection Hn as Hnx Hpv.
  a_step. a_step. a_step. apply wp_put_semd; [apply HF; left |].
  a_step. a_step. a_step. cbn [free_head_s upd_semd set_semd_table set_free_head_s].
  rewrite Hnx. apply wp_put_semd.
  { rewrite upd_semd_is_Some. apply HF. right. left. }
  a_step. apply wp_put_semd; [rewrite !upd_semd_is_Some; apply HF; left |].
  apply (insertBlocked_new s rq fl [] h (h2 :: F)); try done;
    [by intros e ?%elem_of_nil | by eapply append_first | by apply not_elem_of_nil].
Qed.

(** a descriptor of the free list becomes the last of the list *)
Lemma insertBlocked_append s rq fl A h F a p :
  A <> [] -> pinv s rq fl A (h :: F) -> busy A -> 0 <= p < MAXPROC -> p ∉ fl -> a <> ENULL -> a ∉ keys (blk A) ->
  (pcount p (concat (rq :: (e_q <$> A))) < 10)%nat ->
  returns (let! d := semd h in
      modify (set_free_head_s (s_next d)) ;;
      put_semd h (set_s_next ENULL) ;;
      put_semd h (set_s_semAdd a) ;;
      put_semd (List.last (e_sd <$> A) ENULL) (set_s_next h) ;;
      put_semd h (set_s_prev (List.last (e_sd <$> A) ENULL)) ;;
      let! h2 := gets free_head_s in
      (if negb (h2 =? ENULL) then put_semd h2 (set_s_prev ENULL) else ret tt) ;;
      insert_link h p ;; setSem a p ;; ret FALSE) s (inserted s rq fl A a p).
Proof.
  intros HA HI Hb Hp Hfl Ha Hni Hc. pose proof (pi_semds _ _ _ _ _ HI) as HS.
  pose proof (fun d => semds_free s A (h :: F) d HS) as HF.
  destruct (HF h ltac:(left)) as [[x Hx] Hh]. a_step. eapply wp_semd; [exact Hx |].
  a_step. a_step. a_step. apply wp_put_semd; [apply HF; left |].
  a_step. apply wp_put_semd; [rewrite upd_semd_is_Some; apply HF; left |].
  a_step. apply wp_put_semd.
  { rewrite !upd_semd_is_Some. apply (semds_dom _ _ _ _ HS), elem_of_app. left. apply last_in. by destruct A. }
  a_step. apply wp_put_semd; [rewrite !upd_semd_is_Some; apply HF; left |].
  a_step. a_step. a_step. simpl free_head_s.
  assert (dv s h = Some (s_next x, s_prev x)) as Hdv by (unfold dv; by rewrite Hx).
  destruct (sm_free _ _ _ HS) as [_ (n & Hn & Hsg)]. rewrite Hdv in Hn. injection Hn as <-.
  pose proof (append_next s A h F a x HS HA Hx) as Hap.
  unfold append_next_state in Hap. rewrite (dseg_head _ _ _ _ _ Hsg) in Hap |- *.
  apply unset_first_run.
  - intros h2 Hh2. rewrite !upd_semd_is_Some. apply HF. by right.
  - intros Hin. by apply (HF ENULL); [right |].
  - eapply (insertBlocked_new s rq fl A h F); [exact HI | done | exact Hap | | | done ..]; by destruct F.
Qed.

(** the semaphore has waiting processes *)
Lemma insertBlocked_existing s rq fl A1 e A2 F p :
  pinv s rq fl (A1 ++ e :: A2) F -> busy (A1 ++ e :: A2) -> 0 <= p < MAXPROC -> p ∉ fl -> e_sem e <> ENULL ->
  e_sem e ∉ keys (blk A1) -> p ∉ names (e_q e) ->
  (pcount p (concat (rq :: (e_q <$> (A1 ++ e :: A2)))) < 10)%nat ->
  returns (insert_link (e_sd e) p ;; setSem (e_sem e) p ;; ret FALSE) s (inserted s rq fl (A1 ++ e :: A2) (e_sem e) p).
Proof.
  intros HI Hb Hp Hfl Ha Hk Hni Hc.
  eapply wp_mono; [apply (block_entry s rq fl A1 e A2 F p HI) | | done]; try done.
  - intros e' He'. apply Hb. rewrite elem_of_app, elem_of_cons in *. tauto.
  - intros r s' (-> & Hints & Hfr & n & <- & HK). right. split_and!; [done | | done | done |].
    { left. rewrite keys_blk. apply list_elem_of_fmap. exists e. split; [done |].
      apply elem_of_app. right. left. }
    eexists. split; [exact HK |]. symmetry. apply block_blk. by rewrite <- keys_blk.

Qed.

Lemma insertBlocked_entries s rq fl A a p :
  kinv s rq fl A -> 0 <= p < MAXPROC -> p ∉ fl -> a <> ENULL -> p ∉ waiters a (blk A) ->
  (pcount p (concat (rq :: (e_q <$> A))) < 10)%nat ->
  returns (insertBlocked a p) s (inserted s rq fl A a p).
Proof.
  intros (Hb & F & HI) Hp Hfl Ha Hni Hc. pose proof (pi_semds _ _ _ _ _ HI) as HS.
  destruct (decide (A = [])) as [->|HA]; [by apply (insertBlocked_first s rq fl F) |].
  pose proof (dseg_head _ _ _ _ _ (sm_cur _ _ _ HS)) as Hch.
  unfold insertBlocked. a_step. a_step. rewrite (proj2 (Z.eqb_neq _ ENULL)).
  2: { rewrite Hch. intros E. apply (semds_ne _ _ _ HS), elem_of_app. left. destruct A; [done |]. simpl in E. rewrite fmap_cons, E. left. }
  a_step. wp_apply (find_waiters s _ _ a HS). intros [prev walker] s' [-> Hr].
  wp_steps. rewrite (dseg_head _ _ _ _ _ (sm_free _ _ _ HS)).
  cbn [fst snd] in Hr. destruct Hr as [(Hni' & -> & ->) | (A1 & e & A2 & -> & <- & -> & Hsdn & Hk & Hw)].
  - change (ENULL =? ENULL) with true. cbn [andb]. destruct F as [|h F]; cbn [List.hd].
    { apply wp_ret. left. pose proof (semds_length _ _ _ HS) as Hlen. simpl in Hlen. split_and!; [done | done | done | lia]. }
    rewrite (proj2 (Z.eqb_neq h ENULL)) by (apply (semds_free s A (h :: F) h HS); left). cbv iota.
    by eapply insertBlocked_append.
  - rewrite (proj2 (Z.eqb_neq _ ENULL)) by congruence. cbn [andb].
    apply (insertBlocked_existing s rq fl A1 e A2 F); try done; [by rewrite keys_blk | by rewrite <- Hw].
Qed.

(** ** [headBlocked] *)

Definition head_or (l : list Z) : Z := List.hd ENULL l.

Lemma head_of_names l : head_of l = head_or (names l).
Proof. by destruct l. Qed.

Lemma semd_entry s A F e :
  semds s A F -> e ∈ A -> exists x, semd_table s !! e_sd e = Some x /\ s_link x = tail (e_q e) /\ s_semAdd x = e_sem e.
Proof.
  intros H He. pose proof (sm_entry _ _ _ H e He) as Hd. unfold dc in Hd.
  destruct (semd_table s !! e_sd e) as [x|]; [| done]. simpl in Hd. exists x. split; [done |].
  split; congruence.
Qed.

Lemma wp_headBlocked s rq fl A F a Q X :
  queues (a_pq s) fl (rq :: (e_q <$> A)) -> semds s A F ->
  Q (head_or (waiters a (blk A))) s -> wp (headBlocked a) s Q X.
Proof.
  intros HQ HS Hpost. unfold headBlocked. a_step. a_step.
  pose proof (dseg_head _ _ _ _ _ (sm_cur _ _ _ HS)) as Hch. pose proof (semds_ne _ _ _ HS) as Hne.
  destruct A as [|e0 A0]; [rewrite Hch; by apply wp_ret |].
  rewrite (proj2 (Z.eqb_neq _ ENULL)).
  2: { rewrite Hch. simpl. intros E. apply Hne. rewrite fmap_cons, E. left. }
  a_step. wp_apply (find_waiters s _ _ a HS). intros [prev walker] s' [-> Hr]. wp_steps. cbn [fst snd] in Hr.
  destruct Hr as [(Hni & _ & ->) | (A1 & e & A2 & HA & <- & -> & Hsdn & Hk & Hw)].
  - change (ENULL =? ENULL) with true. apply wp_ret. by rewrite waiters_none in Hpost.
  - rewrite (proj2 (Z.eqb_neq _ ENULL)) by done. rewrite HA in *.
    destruct (semd_entry _ _ _ e HS) as (x & Hx & Hl & _); [apply elem_of_app; right; left |].
    a_step. eapply wp_semd; [exact Hx |]. apply wp_pq. rewrite Hl.
    eapply wp_headQueue; [apply HQ | |].
    + apply (qu_queue _ _ _ HQ). right. rewrite fmap_app. apply elem_of_app. right. left.
    + rewrite head_of_names, <- Hw. by destruct s.
Qed.

(** ** When a queue has lost a process *)

(** the entries after the descriptor of an empty queue is released *)
Definition settled (A1 : list entry) (e : entry) (A2 : list entry) : list entry :=
  A1 ++ match e_q e with [] => A2 | _ => e :: A2 end.

Lemma wp_settle {B} s rq fl A1 e A2 F (k : MA B) Q X :
  pinv s rq fl (A1 ++ e :: A2) F -> busy (A1 ++ A2) -> e_sem e <> ENULL ->
  (forall s', a_pq s' = a_pq s -> ints s' = ints s -> kinv s' rq fl (settled A1 e A2) -> wp k s' Q X) ->
  wp (let! h := headBlocked (e_sem e) in
      (if h =? ENULL then removeBlockHelper (e_sd e) else ret tt) ;; k) s Q X.
Proof.
  intros [HQ HS Hv] Hb Ha Hk. a_step. eapply wp_headBlocked; [exact HQ | exact HS |].
  rewrite waiters_blk by by eapply split_keys. wp_step. unfold settled in Hk.
  destruct (e_q e) as [|n q] eqn:He.
  - change (ENULL =? ENULL) with true. wp_apply (removeBlockHelper_entry _ _ _ _ _ HS He).
    intros [] s' (HS' & Hpq & Hints). apply Hk; [done | done |]. split; [done |]. eexists.
    split; [| exact HS' |]; rewrite Hpq.
    + destruct HQ as [Q1 Q2 Q3 Q4 Q5]. split; [done | done | done | |].
      * intros q. rewrite fmap_app, elem_of_cons, elem_of_app. intros Hq. apply Q4.
        rewrite fmap_app, fmap_cons, elem_of_cons, elem_of_app, elem_of_cons. tauto.
      * simpl in Q5 |- *. rewrite fmap_app, fmap_cons, concat_app in Q5. simpl in Q5. rewrite He in Q5.
        by rewrite fmap_app, concat_app.
    + intros p Hp. rewrite (Hv p Hp), blocked_on_mid, He. rewrite decide_False; [done |]. apply not_elem_of_nil.
  - simpl. rewrite (proj2 (Z.eqb_neq _ ENULL)).
    + apply wp_ret. apply Hk; [done | done |]. split; [| exists F; by split].
      intros e'. rewrite elem_of_app, elem_of_cons. intros [He'|[->|He']];
        [apply Hb, elem_of_app; tauto | by rewrite He | apply Hb, elem_of_app; tauto].
    + eapply (queue_next_ne (a_pq s) _ (n :: q)); [apply HQ | | left].
      apply (qu_queue _ _ _ HQ). rewrite <- He. right. rewrite fmap_app. apply elem_of_app. right. left.
Qed.

Lemma blk_settled A1 e q A2 :
  blk (settled A1 (set_q q e) A2) = blk A1 ++ entry_of (e_sem e) (names q) ++ blk A2.
Proof. unfold settled. rewrite blk_app. by destruct q. Qed.

Lemma resume_blk A1 e A2 h t :
  e_sem e ∉ e_sem <$> A1 -> e_q e = h :: t ->
  resume (e_sem e) (blk (A1 ++ e :: A2)) = blk (settled A1 (set_q t e) A2).
Proof.
  intros Hni He. rewrite blk_settled. induction A1 as [|e1 A1 IH]; simpl.
  - rewrite Z.eqb_refl. f_equal. by rewrite He.
  - apply not_elem_of_cons in Hni as [Hne Hni]. rewrite (proj2 (Z.eqb_neq _ _)) by done. f_equal. by apply IH.
Qed.

Lemma leave_blk A1 e A2 p :
  e_sem e ∉ e_sem <$> A1 ->
  leave (e_sem e) p (blk (A1 ++ e :: A2)) =
    blk (settled A1 (set_q (filter (fun n => next n <> p) (e_q e)) e) A2).
Proof.
  intros Hni. rewrite blk_settled. induction A1 as [|e1 A1 IH]; simpl.
  - rewrite Z.eqb_refl. f_equal. f_equal. induction (e_q e) as [|n q IH]; [done |].
    rewrite fmap_cons, !filter_cons. case_decide; [rewrite fmap_cons; by f_equal | done].
  - apply not_elem_of_cons in Hni as [Hne Hni]. rewrite (proj2 (Z.eqb_neq _ _)) by done. f_equal. by apply IH.
Qed.

(** the state after the queue of [e] and the vector of [p] have changed *)
Lemma pinv_shrunk s s2 rq fl A1 e A2 F q p :
  pinv s rq fl (A1 ++ e :: A2) F ->
  queues (a_pq s2) fl (rq :: (e_q <$> (A1 ++ set_q q e :: A2))) ->
  (forall r, r <> p -> sems (a_pq s2) r = sems (a_pq s) r) ->
  e_sem e :: sems (a_pq s2) p ≡ₚ sems (a_pq s) p ->
  semds s2 (A1 ++ set_q q e :: A2) F ->
  p ∈ names (e_q e) -> (forall r, r ∈ names q <-> r ∈ names (e_q e) /\ r <> p) ->
  pinv s2 rq fl (A1 ++ set_q q e :: A2) F.
Proof.
  intros HI HQ Hother Hsems HS Hp Hq. split; [done | done |].
  intros r Hr. pose proof (pi_vec _ _ _ _ _ HI r Hr) as Hv. rewrite blocked_on_mid in Hv |- *. simpl.
  destruct (decide (r = p)) as [->|Hrp].
  - rewrite decide_False by (rewrite Hq; tauto). rewrite decide_True in Hv by done.
    rewrite Hv in Hsems. by apply Permutation_cons_inv in Hsems.
  - rewrite (Hother r Hrp), Hv. f_equiv. specialize (Hq r). repeat case_decide; tauto || done.
Qed.

Lemma waiting_sems s rq fl A1 e A2 F pq1 p :
  pinv s rq fl (A1 ++ e :: A2) F -> same_procs (a_pq s) pq1 -> p ∈ names (e_q e) ->
  0 <= p < MAXPROC /\ p ∉ fl /\ e_sem e ∈ sems pq1 p.
Proof.
  intros HI Hsame Hp.
  destruct (blocked_valid _ _ _ _ e p (pi_queues _ _ _ _ _ HI)) as [Hv Hf];
    [apply elem_of_app; right; left | done |].
  split; [done | split; [done |]]. rewrite (same_procs_sems _ _ _ Hsame), (pi_vec _ _ _ _ _ HI p Hv).
  rewrite blocked_on_mid, decide_True by done. left.
Qed.

(** ** [removeBlocked] *)

Lemma removeBlocked_entries s rq fl A a :
  kinv s rq fl A -> a <> ENULL ->
  returns (removeBlocked a) s (fun r s' =>
    r = head_or (waiters a (blk A)) /\ ints s' = ints s /\ frame s s' /\
    exists A', kinv s' rq fl A' /\ blk A' = resume a (blk A)).
Proof.
  intros (Hb & F & HI) Ha. pose proof (pi_semds _ _ _ _ _ HI) as HS. pose proof (pi_queues _ _ _ _ _ HI) as HQ.
  unfold removeBlocked. a_step. a_step. a_step. wp_apply (find_waiters s _ _ a HS).
  intros [prev walker] s' [-> Hr]. wp_steps. cbn [fst snd] in Hr.
  destruct Hr as [(Hni & _ & ->) | (A1 & e & A2 & HA & <- & -> & Hsdn & Hk & Hw)].
  - change (ENULL =? ENULL) with true. apply wp_ret. rewrite waiters_none by done.
    split_and!; [done | done | apply frame_refl |]. exists A. split; [by split; eauto |].
    clear -Hni. induction A as [|e A IH]; [done |]. simpl in *. rewrite keys_cons in Hni.
    apply not_elem_of_cons in Hni as [Hne Hni]. rewrite (proj2 (Z.eqb_neq _ _)) by done. f_equal. by apply IH.
  - rewrite (proj2 (Z.eqb_neq _ ENULL)) by done. rewrite HA in *.
    assert (e ∈ A1 ++ e :: A2) as Hein by (apply elem_of_app; right; left).
    destruct (semd_entry _ _ _ e HS Hein) as (x & Hx & Hl & _).
    destruct (Hb e Hein) as [Hne _]. destruct (e_q e) as [|h t] eqn:He; [done |].
    a_step. eapply wp_semd; [exact Hx |]. a_step. apply wp_pq. rewrite Hl, queues_qs_mid, He in *.
    wp_apply (queues_remove (a_pq s) fl _ _ h t HQ). intros [tp rv] pq1 ([= -> ->] & HQ1 & Hsame).
    wp_steps. apply wp_put_semd; [by exists x |]. a_step. unfold setSem2. apply wp_pq.
    pose proof (semds_set_link _ _ e A2 F t (proj2 (semds_set_pq s _ F pq1) HS)) as HS1.
    assert (next h ∈ names (e_q e)) as Hh by (rewrite He; left).
    destruct (waiting_sems _ _ _ _ _ _ _ pq1 _ HI Hsame Hh) as (Hv & _ & Hin).
    wp_apply (unset_sems pq1 (next h) (e_sem e)); [apply HQ1 | done | done | done |].
    intros [] pq2 (Hsems & Hch).
    set (s2 := set_a_pq pq2 (upd_semd (e_sd e) (set_s_link (tail t)) (set_a_pq pq1 s))).
    assert (pinv s2 rq fl (A1 ++ set_q t e :: A2) F) as HI2.
    { eapply (pinv_shrunk s s2 _ _ _ _ _ _ t (next h)); try done.
      - rewrite queues_qs_mid. by apply (vec_change_queues pq1 _ (next h)).
      - intros r Hr. rewrite <- (same_procs_sems _ _ r Hsame). by apply Hch.
      - by rewrite <- (same_procs_sems _ _ _ Hsame).
      - by apply semds_set_pq.
      - rewrite He. intros r. rewrite fmap_cons, elem_of_cons.
        pose proof (q_nodup _ _ _ (this_queue _ _ _ _ _ HQ)) as Hnd. apply NoDup_cons in Hnd as [Hnd _].
        split; [intros Hr; split; [by right | by intros ->] | intros [[->|Hr] Hne']; done]. }
    eapply (wp_settle s2 rq fl A1 (set_q t e) A2 F); [done | | done |].
    { intros e' He'. apply Hb. rewrite elem_of_app, elem_of_cons in *. tauto. }
    intros s3 Hpq3 Hints3 HK. apply wp_ret. split_and!.
    + by rewrite Hw.
    + by rewrite Hints3.
    + apply (frame_trans _ (set_a_pq pq1 s)); [by apply frame_same |].
      apply (frame_vec _ _ (next h)). by rewrite Hpq3.
    + eexists. split; [exact HK |]. symmetry. by apply (resume_blk _ _ _ h).
Qed.

(** ** [outBlocked] *)

Lemma waits_for_blk p A : waits_for p (blk A) = blocked_on p A.
Proof.
  unfold waits_for, blocked_on, blk. induction A as [|e A IH]; [done |].
  destruct (decide (p ∈ names (e_q e))) as [Hp|Hp]; rewrite fmap_cons.
  - rewrite filter_cons_True, (filter_cons_True (fun bq : Z * list Z => p ∈ bq.2)) by done.
    rewrite !fmap_cons. by f_equal.
  - by rewrite filter_cons_False, (filter_cons_False (fun bq : Z * list Z => p ∈ bq.2)) by done.
Qed.

Lemma names_filter_out p (q : list proc_link) r :
  r ∈ names (filter (fun n => next n <> p) q) <-> r ∈ names q /\ r <> p.
Proof.
  rewrite !list_elem_of_fmap. setoid_rewrite list_elem_of_filter. split.
  - intros (n & -> & Hn & Hin). eauto.
  - intros [(n & -> & Hin) Hn]. eauto.
Qed.

Lemma blocked_on_in p A1 e A2 s F :
  semds s (A1 ++ e :: A2) F -> e_sem e ∈ blocked_on p (A1 ++ e :: A2) -> p ∈ names (e_q e).
Proof.
  intros HS (e' & He & [Hp Hin]%list_elem_of_filter)%list_elem_of_fmap.
  destruct (decide (e' = e)) as [->|Hne]; [done |]. exfalso.
  pose proof (sm_sems _ _ _ HS) as Hnd. rewrite fmap_app, fmap_cons, <- Permutation_middle in Hnd.
  apply NoDup_cons in Hnd as [Hnd _]. apply Hnd. rewrite He, <- fmap_app. apply list_elem_of_fmap.
  exists e'. split; [done |]. rewrite elem_of_app, elem_of_cons in *. tauto.
Qed.

Lemma set_a_pq_id s : set_a_pq (a_pq s) s = s.
Proof. by destruct s. Qed.

Lemma wp_load s a v Q X : ints s !! a = Some v -> Q v s -> wp (load a) s Q X.
Proof. intros Hv HQ. unfold load. by eapply wp_gets_opt. Qed.

Lemma wp_store s a v Q X :
  is_Some (ints s !! a) -> Q tt (set_ints (<[a := v]> (ints s)) s) -> wp (store a v) s Q X.
Proof. intros [w Hw] HQ. unfold store, load. by wp_steps. Qed.

Record step_post (s : asl) rq fl A (p i a r : Z) (s' : asl) : Prop := {
  sp_ret : r = p;
  sp_ints : ints s' = bump a (ints s);
  sp_frame : frame s s';
  sp_kinv : exists A', kinv s' rq fl A' /\ blk A' = leave a p (blk A);
  sp_semv : forall j, semv (a_pq s') p j = if decide (j = i) then Some ENULL else semv (a_pq s) p j }.

(** the walker is at the entry [e]: the process leaves its queue *)
Lemma outBlocked_entry s rq fl A1 e A2 F p i :
  pinv s rq fl (A1 ++ e :: A2) F -> busy (A1 ++ e :: A2) -> 0 <= p < MAXPROC -> 0 <= i < SEMMAX ->
  semv (a_pq s) p i = Some (e_sem e) -> e_sem e <> ENULL -> e_sem e ∉ keys (blk A1) -> p ∈ names (e_q e) ->
  returns (pq (put_semvec p i ENULL) ;;
      let! d := semd (e_sd e) in
      let! '(tp, rv) := pq (outProc (s_link d) p) in
      put_semd (e_sd e) (set_s_link tp) ;;
      let! d := semd (e_sd e) in
      let! associate_queue := headBlocked (s_semAdd d) in
      (if associate_queue =? ENULL then removeBlockHelper (e_sd e) else ret tt) ;;
      ret rv) s
    (fun r s' => ints s' = ints s /\ forall s0, a_pq s0 = a_pq s -> ints s' = bump (e_sem e) (ints s0) ->
       step_post s0 rq fl (A1 ++ e :: A2) p i (e_sem e) r s').
Proof.
  intros HI Hb Hp Hi Hv Ha Hk Hpe. pose proof (pi_semds _ _ _ _ _ HI) as HS.
  pose proof (pi_queues _ _ _ _ _ HI) as HQ.
  destruct (semd_entry _ _ _ e HS) as (x & Hx & Hl & Hxa); [apply elem_of_app; right; left |].
  wp_step. apply wp_pq. apply wp_put_semvec; [exact (mk_is_Some _ _ Hv) |].
  set (pq1 := set_semv p i ENULL (a_pq s)).
  assert (vec_change (a_pq s) pq1 p) as Hch by (apply set_semv_change; [apply HQ | exact (mk_is_Some _ _ Hv)]).
  wp_step. eapply wp_semd; [exact Hx |]. a_step. apply wp_pq. rewrite Hl.
  pose proof (vec_change_queues _ pq1 p _ _ Hch HQ) as HQ1. rewrite queues_qs_mid in HQ1.
  wp_apply (queues_out pq1 fl _ _ (e_q e) p HQ1); [lia |]. rewrite decide_True by done.
  set (q' := filter (fun n => next n <> p) (e_q e)).
  intros [tp rv'] pq2 ([= -> ->] & HQ2 & Hsame). wp_steps. apply wp_put_semd; [by exists x |].
  wp_step. set (s2 := upd_semd (e_sd e) (set_s_link (tail q')) (set_a_pq pq2 (set_a_pq pq1 s))).
  eapply (wp_semd s2 _ (set_s_link (tail q') x)).
  { unfold s2. simpl. rewrite lookup_alter, decide_True by done. by rewrite Hx. }
  change (s_semAdd (set_s_link (tail q') x)) with (s_semAdd x). rewrite Hxa.
  assert (pinv s2 rq fl (A1 ++ set_q q' e :: A2) F) as HI2.
  { eapply (pinv_shrunk s s2 _ _ _ _ _ _ q' p); try done.
    - by rewrite queues_qs_mid.
    - intros r Hr. simpl. rewrite (same_procs_sems _ _ r Hsame). by apply Hch.
    - simpl. rewrite (same_procs_sems _ _ p Hsame). by apply unset_at.
    - apply semds_set_link. by apply semds_set_pq, semds_set_pq.
    - intros r. apply names_filter_out. }
  eapply (wp_settle s2 rq fl A1 (set_q q' e) A2 F); [done | | exact Ha |].
  { intros e' He'. apply Hb. rewrite elem_of_app, elem_of_cons in *. tauto. }
  intros s3 Hpq3 Hints3 HK. apply wp_ret. split; [done |]. intros s0 Hpq0 Hints. split; [done | done | | |].
  - apply (frame_trans _ (set_a_pq pq1 s)); [apply (frame_vec _ _ p); by rewrite Hpq0 |].
    apply frame_same. by rewrite Hpq3.
  - eexists. split; [exact HK |]. symmetry. apply leave_blk. by rewrite <- keys_blk.
  - intros j. rewrite Hpq3. simpl. rewrite (prest_eq_semv pq1 pq2 p j) by apply Hsame.
    unfold pq1. rewrite Hpq0, set_semv_semv by exact (mk_is_Some _ _ Hv).
    destruct (decide (j = i)); [by rewrite decide_True | by rewrite decide_False by tauto].
Qed.

Lemma pinv_set_ints s m rq fl A F : pinv s rq fl A F -> pinv (set_ints m s) rq fl A F.
Proof. intros [HQ HS Hv]. split; [done | by apply (semds_frame s) | done]. Qed.

Lemma outBlocked_step_spec s rq fl A p i rv a :
  kinv s rq fl A -> 0 <= p < MAXPROC -> 0 <= i < SEMMAX -> semv (a_pq s) p i = Some a ->
  a <> ENULL -> is_Some (ints s !! a) ->
  returns (outBlocked_step p i rv) s (step_post s rq fl A p i a).
Proof.
  intros (Hb & F & HI) Hp Hi Hv Ha [v Hint].
  pose proof Hv as Hv'. unfold semv in Hv'. apply bind_Some in Hv' as (pr & Hpr & Hsv).
  unfold outBlocked_step. a_step. apply wp_pq. unfold deref. a_step. rewrite set_a_pq_id. a_step. a_step.
  rewrite (proj2 (Z.eqb_neq _ ENULL)) by done. a_step. eapply wp_load; [exact Hint |].
  a_step. apply wp_store; [by eexists |]. a_step. a_step. a_step.
  set (s1 := set_ints (<[a := i32 (v + 1)]> (ints s)) s).
  assert (ints s1 = bump a (ints s)) as Hs1.
  { unfold bump. rewrite <- (insert_is_alter (fun v => i32 (v + 1)) _ _ v Hint). done. }
  assert (pinv s1 rq fl A F) as HI1 by by apply pinv_set_ints.
  wp_apply (find_waiters s1 _ _ a (pi_semds _ _ _ _ _ HI1)). intros [prev walker] s' [-> Hr]. wp_steps. cbn [fst snd] in Hr.
  assert (a ∈ blocked_on p A) as Hbl.
  { rewrite <- (pi_vec _ _ _ _ _ HI p Hp). apply list_elem_of_filter. split; [done |].
    apply list_elem_of_fmap. exists i. split; [by rewrite Hv |]. apply elem_of_seqZ. lia. }
  destruct Hr as [(Hni & _) | (A1 & e & A2 & -> & <- & -> & Hsdn & Hk & Hw)].
  { destruct Hni. rewrite keys_blk. apply list_elem_of_fmap in Hbl as (e & -> & [_ He]%list_elem_of_filter).
    apply list_elem_of_fmap. eauto. }
  rewrite (proj2 (Z.eqb_neq _ ENULL)) by done.
  eapply wp_mono; [apply (outBlocked_entry s1 rq fl A1 e A2 F p i HI1); try done | | done].
  - by rewrite keys_blk.
  - exact (blocked_on_in p _ _ _ _ _ (pi_semds _ _ _ _ _ HI) Hbl).
  - intros r s3 [Hints Hpost]. apply Hpost; [done | by rewrite Hints].
Qed.

Definition sems_from (s : procq) (p i n : Z) : list Z :=
  filter (fun a => a <> ENULL) ((fun j => default ENULL (semv s p j)) <$> seqZ i n).

Record loop_done (s : asl) rq fl A (p : Z) (l : list Z) (rv r : Z) (s' : asl) : Prop := {
  ld_ret : r = if decide (l = []) then rv else p;
  ld_ints : ints s' = bumps l (ints s);
  ld_frame : frame s s';
  ld_kinv : exists A', kinv s' rq fl A' /\ blk A' = leaves p l (blk A);
  ld_semv : forall j, 0 <= j < SEMMAX -> semv (a_pq s') p j = Some ENULL }.

Lemma outBlocked_loop_spec p rq fl : 0 <= p < MAXPROC ->
  forall n s A i rv, i + Z.of_nat n = SEMMAX -> 0 <= i -> kinv s rq fl A ->
  (forall j, 0 <= j < i -> semv (a_pq s) p j = Some ENULL) ->
  (forall a, a ∈ sems_from (a_pq s) p i (Z.of_nat n) -> is_Some (ints s !! a)) ->
  returns (outBlocked_loop p i n rv) s
    (loop_done s rq fl A p (sems_from (a_pq s) p i (Z.of_nat n)) rv).
Proof.
  intros Hp. induction n as [|n IH]; intros s A i rv Hin Hi HK Hdone Hints; unfold outBlocked_loop; fold outBlocked_loop.
  { apply wp_ret. split; [done | done | apply frame_refl | by exists A |]. intros j Hj. apply Hdone. lia. }
  pose proof HK as (Hb & F & HI).
  destruct (proj2 (pwf_semv _ (qu_pwf _ _ _ (pi_queues _ _ _ _ _ HI)) p i)) as [a Hv]; [lia |].
  assert (sems_from (a_pq s) p i (Z.of_nat (S n)) =
    (if decide (a = ENULL) then [] else [a]) ++ sems_from (a_pq s) p (i + 1) (Z.of_nat n)) as Hl.
  { unfold sems_from. rewrite seqZ_cons by lia. rewrite fmap_cons, Hv. simpl default.
    replace (Z.pred (Z.of_nat (S n))) with (Z.of_nat n) by lia. rewrite <- Z.add_1_r.
    rewrite filter_cons. repeat case_decide; tauto || done. }
  rewrite Hl in Hints |- *. wp_step. destruct (decide (a = ENULL)) as [->|Ha].
  - unfold outBlocked_step. wp_step. apply wp_pq. unfold deref.
    pose proof Hv as Hv'. unfold semv in Hv'. apply bind_Some in Hv' as (pr & Hpr & Hsv).
    a_step. rewrite set_a_pq_id. a_step. a_step. change (ENULL =? ENULL) with true. apply wp_ret.
    apply IH; [lia | lia | done | | done]. intros j Hj. destruct (decide (j = i)) as [->|]; [done |]. apply Hdone. lia.
  - wp_apply (outBlocked_step_spec s rq fl A p i rv a HK Hp); [lia | done | done | |].
    { apply Hints. left. }
    intros r s1 [-> Hint1 Hfr1 (A1 & HK1 & HB1) Hsv1].
    assert (sems_from (a_pq s1) p (i + 1) (Z.of_nat n) = sems_from (a_pq s) p (i + 1) (Z.of_nat n)) as Hsf.
    { unfold sems_from. f_equal. apply list_fmap_ext. intros k j Hj.
      apply list_elem_of_lookup_2, elem_of_seqZ in Hj. rewrite Hsv1, decide_False by lia. done. }
    eapply wp_mono; [apply (IH s1 A1 (i + 1) p) | | done]; [lia | lia | done | | |]; rewrite ?Hsf.
    + intros j Hj. rewrite Hsv1. case_decide; [done |]. apply Hdone. lia.
    + intros b Hbin. rewrite Hint1. unfold bump. rewrite lookup_alter. case_decide;
        [subst; apply fmap_is_Some, Hints; left | apply Hints; by right].
    + intros r s' [-> H2 H3 (A' & HK' & HB') H5]. split.
      * simpl. by case_decide.
      * by rewrite H2, Hint1.
      * by eapply frame_trans.
      * exists A'. split; [done |]. by rewrite HB', HB1.
      * done.
Qed.
