(* ===== verification/AslInit.v ===== *)
(** * The initial lists

    [initProc] and [initSemd] make every entry free, every semaphore idle. *)

From S2P Require Export AslSpec.
Local Open Scope kernel_scope.

(** the descriptor [initSemd] leaves at [d] *)
Definition init_semd (d : Z) : semd_t :=
  mk_semd (if d =? MAXPROC - 1 then ENULL else d + 1) (d - 1) ENULL elink.

Definition blank : semd_t := mk_semd ENULL ENULL ENULL elink.

(** the table has the descriptors [g] below [MAXPROC]; the rest is as in [s] *)
Definition table_is (s : asl) (g : Z -> semd_t) (s' : asl) : Prop :=
  (forall d, semd_table s' !! d = if decide (0 <= d < MAXPROC) then Some (g d) else None) /\
  a_pq s' = a_pq s /\ ints s' = ints s.

Lemma table_is_upd s g s' d f :
  0 <= d < MAXPROC -> table_is s g s' ->
  table_is s (fun e => if decide (e = d) then f (g d) else g e) (upd_semd d f s').
Proof.
  intros Hd (Ht & Hp & Hi). split_and!; [| done | done]. intros e. simpl. rewrite lookup_alter, !Ht.
  destruct (decide (d = e)) as [->|Hne]; [by rewrite !decide_True |].
  case_decide; [| done]. by rewrite decide_False by congruence.
Qed.

Lemma table_is_some s g s' d : 0 <= d < MAXPROC -> table_is s g s' -> is_Some (semd_table s' !! d).
Proof. intros Hd (Ht & _). by rewrite Ht, decide_True. Qed.

Lemma table_is_ext s g g' s' :
  (forall d, 0 <= d < MAXPROC -> g' d = g d) -> table_is s g s' -> table_is s g' s'.
Proof.
  intros Hg (Ht & ?). split; [| done]. intros d. rewrite Ht. case_decide; [| done]. by rewrite Hg.
Qed.

(** the table has its [MAXPROC] descriptors *)
Definition semd_dom (s : asl) : Prop := forall d, is_Some (semd_table s !! d) <-> 0 <= d < MAXPROC.

Lemma initSemd_blank s :
  semd_dom s ->
  returns (for_ 0 MAXPROC (fun i => put_semd i (fun _ => mk_semd ENULL ENULL ENULL elink))) s
    (fun _ s' => table_is s (fun _ => blank) s').
Proof.
  intros Hdom. apply (wp_for (fun i s' =>
    (forall d, semd_table s' !! d = if decide (0 <= d < i) then Some blank else semd_table s !! d) /\
    a_pq s' = a_pq s /\ ints s' = ints s)); [done | | |].
  - split_and!; [| done | done]. intros d. by rewrite decide_False by lia.
  - intros i s1 Hi (Ht & Hp & Hint). apply wp_put_semd.
    { rewrite Ht. case_decide; [done |]. by apply Hdom. }
    split_and!; [| done | done]. intros d. simpl. rewrite lookup_alter, Ht.
    destruct (decide (i = d)) as [->|Hne].
    + rewrite (decide_False (P := 0 <= d < d)), (decide_True (P := 0 <= d < d + 1)) by lia.
      by destruct (proj2 (Hdom d) Hi) as [x ->].
    + rewrite Ht. by rewrite (decide_ext (0 <= d < i) (0 <= d < i + 1)) by lia.
  - intros s1 (Ht & Hp & Hint). split_and!; [| done | done]. intros d. rewrite Ht. case_decide as Hd; [done |].
    destruct (semd_table s !! d) eqn:E; [| done]. destruct Hd. apply Hdom. by rewrite E.
Qed.

Lemma initSemd_run s :
  semd_dom s ->
  returns initSemd s (fun _ s' => table_is s init_semd s' /\ cur_sem s' = ENULL /\ free_head_s s' = 0).
Proof.
  intros Hdom. unfold initSemd. a_step. wp_apply (initSemd_blank s Hdom). intros [] s1 H1. a_step.
  apply (wp_for (fun i s' => table_is s (fun d => if decide (1 <= d < i) then init_semd d else blank) s')).
  - done.
  - eapply table_is_ext; [| exact H1]. intros d Hd. simpl. by rewrite decide_False by lia.
  - intros i s2 Hi H2. a_step. apply wp_put_semd; [eapply table_is_some; [| exact H2]; unfold MAXPROC in *; lia |].
    apply wp_put_semd; [rewrite upd_semd_is_Some; eapply table_is_some; [| exact H2]; unfold MAXPROC in *; lia |].
    eapply table_is_ext; [| do 2 (apply table_is_upd; [unfold MAXPROC in *; lia |]); exact H2].
    intros d Hd. simpl. rewrite !(decide_True (P := i = i)) by done. rewrite (decide_False (P := 1 <= i < i)) by lia.
    destruct (decide (d = i)) as [->|Hne].
    + rewrite decide_True by lia. unfold init_semd. by rewrite (proj2 (Z.eqb_neq _ _)) by lia.
    + by rewrite (decide_ext (1 <= d < i + 1) (1 <= d < i)) by lia.
  - intros s2 H2. a_step. apply wp_put_semd; [by eapply table_is_some |].
    apply (table_is_upd _ _ _ 0 (set_s_next 1)) in H2; [| done]. a_step.
    apply wp_put_semd; [by eapply table_is_some |].
    apply (table_is_upd _ _ _ 19 (set_s_prev 18)) in H2; [| done]. a_steps. split; [| done].
    match type of H2 with table_is _ ?g _ => assert (table_is s g (set_free_head_s 0 (set_cur_sem ENULL
      (upd_semd 19 (set_s_prev 18) (upd_semd 0 (set_s_next 1) s2))))) as H3 by done end.
    eapply table_is_ext; [| exact H3]. intros d Hd. simpl. unfold MAXPROC in Hd.
    destruct (decide (d = 19)) as [->|]; [done |]. destruct (decide (d = 0)) as [->|]; [done |].
    by rewrite decide_True by (unfold MAXPROC; lia).
Qed.

Lemma init_dlist s s' k :
  table_is s init_semd s' -> 0 <= k < MAXPROC ->
  dseg (dv s') (MAXPROC - 1 - k - 1) (MAXPROC - 1 - k) (seqZ (MAXPROC - 1 - k) (k + 1)) ENULL.
Proof.
  intros (Ht & _) [Hk0 Hk1]. revert Hk1. pattern k. apply natlike_ind; [| | done].
  - intros _. rewrite seqZ_cons by done. split; [done |]. exists ENULL. unfold dv. by rewrite Ht.
  - clear k Hk0. intros k Hk IH Hlt. rewrite seqZ_cons by lia. split; [done |].
    exists (MAXPROC - 1 - k). unfold dv at 1. rewrite Ht, decide_True by lia. simpl. unfold init_semd.
    rewrite (proj2 (Z.eqb_neq _ _)) by lia. split.
    + simpl. f_equal. f_equal. lia.
    + specialize (IH ltac:(lia)). replace (MAXPROC - 1 - Z.succ k) with (MAXPROC - 1 - k - 1) by lia.
      replace (Z.succ (MAXPROC - 1 - k - 1)) with (MAXPROC - 1 - k) by lia.
      by replace (Z.pred (Z.succ k + 1)) with (k + 1) by lia.
Qed.

Lemma initialised_queues s s' : initialised s s' -> queues s' (seqZ 0 MAXPROC) [[]].
Proof.
  intros [H1 H2 H3 H4 H5 H6]. split; [done | done | apply NoDup_seqZ | |].
  - intros q ->%list_elem_of_singleton. apply queue_nil.
  - split; [constructor | by intros n ?%elem_of_nil | | by intros n ?%elem_of_nil | done].
    intros n c Hc _ Hi. rewrite H2 in Hc. unfold free_link in Hc. case_decide as Hv; [| done].
    injection Hc as <-. rewrite decide_False; [done |]. intros [Hi0 _]. apply Hi; [| done].
    apply elem_of_seqZ. destruct Hv. lia.
Qed.

(** the state [initProc] and [initSemd] leave *)
Lemma init_repr s :
  pwf (a_pq s) -> semd_dom s ->
  returns (pq initProc ;; initSemd) s (fun _ s' =>
    repr s' elink (mk_absq (seqZ 0 MAXPROC) [] []) /\ ints s' = ints s /\
    forall q, pcore (a_pq s') q = reset_core <$> pcore (a_pq s) q).
Proof.
  intros W Hdom. a_step. apply wp_pq. wp_apply (initProc_spec (a_pq s) W). intros [] pq1 Hin.
  eapply wp_mono; [by apply (initSemd_run (set_a_pq pq1 s)) | | done].
  intros [] s' ((Ht & Hp & Hi) & Hc & Hf). split; [| split; [done | intros q; rewrite Hp; apply Hin]].
  exists [], []. split_and!; [done | done | done |]. split; [by intros e ?%elem_of_nil |].
  exists (seqZ 0 MAXPROC). split.
  - rewrite Hp. by apply (initialised_queues (a_pq s)).
  - split; [done | | done | by intros e ?%elem_of_nil | | constructor].
    + rewrite Hf. by apply (init_dlist _ s' 19 (conj Ht (conj Hp Hi))).
    + intros d Hd%elem_of_seqZ. unfold dc. by rewrite Ht, decide_True by lia.
  - intros p Hp'. rewrite Hp. simpl. unfold sems, vec.
    assert ((fun i => default ENULL (semv pq1 p i)) <$> seqZ 0 SEMMAX = (fun _ => ENULL) <$> seqZ 0 SEMMAX) as ->; [| done].
    apply list_fmap_ext. intros i j Hj%list_elem_of_lookup_2%elem_of_seqZ.
    by rewrite (in_semv _ _ Hin) by lia.
Qed.
