(* ===== verification/AslRefine.v ===== *)
(** * The queues refine the abstract queues

    Each operation of [procq.c] and [asl.c], run in a state that represents the
    abstract queues [x] ([repr]), returns, and leaves a state that represents the
    result of the abstract operation. *)

From S2P Require Export AslInit.
Local Open Scope kernel_scope.

(** ** The abstract queues represented are well formed *)

Record awf (x : absq) : Prop := {
  aw_free : NoDup (free_procs x);
  aw_free_valid : forall p, p ∈ free_procs x -> 0 <= p < MAXPROC;
  aw_queue : forall q, q ∈ ready x :: (snd <$> blocked x) -> NoDup q /\ forall p, p ∈ q -> 0 <= p < MAXPROC /\ p ∉ free_procs x;
  aw_blocked : bwf (blocked x);
  aw_sems : forall a, a ∈ keys (blocked x) -> a <> ENULL;
  aw_descriptors : (length (blocked x) <= 20)%nat;
  aw_count : forall p, (in_queues p x <= 10)%nat }.

Lemma repr_awf s tp x : repr s tp x -> awf x.
Proof.
  intros (rq & A & -> & Hr & Hb & Hbusy & F & HI). pose proof (pi_queues _ _ _ _ _ HI) as HQ.
  pose proof (pi_semds _ _ _ _ _ HI) as HS. split.
  - apply HQ.
  - intros p Hp. eapply flist_valid; [apply HQ | apply HQ | done].
  - intros q Hq.
    assert (exists l, q = names l /\ l ∈ rq :: (e_q <$> A)) as (l & -> & Hl).
    { apply elem_of_cons in Hq as [->|Hq]; [exists rq; split; [done | left] |].
      rewrite <- Hb in Hq. unfold blk in Hq. rewrite <- list_fmap_compose in Hq.
      apply list_elem_of_fmap in Hq as (e & -> & He). exists (e_q e). split; [done |].
      right. apply list_elem_of_fmap. eauto. }
    pose proof (qu_queue _ _ _ HQ l Hl) as Q. split; [apply Q |].
    intros p (n & -> & Hn)%list_elem_of_fmap.
    assert (n ∈ concat (rq :: (e_q <$> A))) as Hin by by apply (elem_of_concat _ l).
    split; apply (qu_links _ _ _ HQ); done.
  - rewrite <- Hb. by eapply busy_bwf.
  - intros a. rewrite <- Hb, keys_blk. intros (e & -> & He)%list_elem_of_fmap. by apply Hbusy.
  - rewrite <- Hb. unfold blk. rewrite length_fmap. pose proof (semds_length _ _ _ HS). lia.
  - intros p. rewrite <- (in_queues_pcount _ _ _ _ _ _ HQ Hr Hb). eapply pcount_bound. apply HQ.
Qed.

(** ** The operations on the process table *)

Lemma kinv_pq s rq fl A pq' rq' fl' :
  kinv s rq fl A -> queues pq' fl' (rq' :: (e_q <$> A)) ->
  (forall p, 0 <= p < MAXPROC -> sems pq' p ≡ₚ sems (a_pq s) p) ->
  kinv (set_a_pq pq' s) rq' fl' A.
Proof.
  intros (Hb & F & [H1 H2 H3]) HQ Hs. split; [done |]. exists F. split; [done | by apply semds_set_pq |].
  intros p Hp. simpl. by rewrite (Hs p Hp), (H3 p Hp).
Qed.

Lemma set_rq_repr s x rq A pq' rq' fl :
  names rq = ready x -> blk A = blocked x -> fl = free_procs x -> kinv s rq fl A ->
  queues pq' fl (rq' :: (e_q <$> A)) -> same_procs (a_pq s) pq' ->
  repr (set_a_pq pq' s) (tail rq') (set_ready (names rq') x) /\ frame s (set_a_pq pq' s) .
Proof.
  intros Hr Hb -> HK HQ Hsame. split; [| by apply frame_same]. exists rq', A.
  split_and!; [done | done | done |]. eapply kinv_pq; [exact HK | done |].
  intros p _. by rewrite (same_procs_sems _ _ _ Hsame).
Qed.

Section ops.
Context (s : asl) (tp : proc_link) (x : absq).
Hypothesis R : repr s tp x.

Lemma allocProc_repr :
  returns (pq allocProc) s (fun r s' => ints s' = ints s /\ frame s s' /\
    match free_procs x with
    | [] => r = ENULL /\ repr s' tp x
    | p :: fl => r = p /\ repr s' tp (set_free_procs fl x)
    end).
Proof.
  destruct R as (rq & A & -> & Hr & Hb & HK). pose proof HK as (_ & F & HI).
  pose proof (pi_queues _ _ _ _ _ HI) as HQ. apply wp_pq.
  destruct (free_procs x) as [|p fl] eqn:Hf.
  - eapply returns_of_run; [apply allocProc_nil, HQ |]. rewrite set_a_pq_id.
    split_and!; [done | apply frame_refl | done |]. exists rq, A. by rewrite Hf.
  - wp_apply (queues_alloc _ _ _ _ HQ). intros r pq' (-> & HQ' & Hrest & _).
    split_and!; [done | intros q; apply prest_eq_core, Hrest | done |]. exists rq, A.
    split_and!; [done | done | done |]. eapply kinv_pq; [exact HK | done |]. intros q _. unfold sems.
    rewrite (vec_ext (a_pq s) pq'); [done |]. intros i. apply prest_eq_semv, Hrest.
Qed.

Lemma freeProc_repr p :
  0 <= p < MAXPROC -> p ∉ free_procs x -> in_queues p x = 0%nat ->
  returns (pq (freeProc p)) s (fun _ s' => ints s' = ints s /\ frame s s' /\
    repr s' tp (set_free_procs (free_procs x ++ [p]) x)).
Proof.
  intros Hp Hni Hc. destruct R as (rq & A & -> & Hr & Hb & HK). pose proof HK as (_ & F & HI).
  pose proof (pi_queues _ _ _ _ _ HI) as HQ. apply wp_pq.
  rewrite <- (in_queues_pcount _ _ _ _ _ _ HQ Hr Hb) in Hc.
  wp_apply (queues_free _ p _ _ HQ Hp Hni Hc). intros [] pq' (HQ' & Hfr).
  split_and!; [done | intros q; apply (fr_core _ _ _ _ Hfr) |]. exists rq, A. split_and!; [done | done | done |].
  eapply kinv_pq; [exact HK | done |]. intros q Hq.
  destruct (decide (q = p)) as [->|Hqp].
  - pose proof (blocked_on_bound _ _ _ _ p HQ) as Hbl. rewrite Hc in Hbl.
    assert (sems (a_pq s) p = []) as ->.
    { apply Permutation_nil_r. rewrite (pi_vec _ _ _ _ _ HI p Hp). destruct (blocked_on p A); [done | simpl in Hbl; lia]. }
    unfold sems, vec.
    assert ((fun i => default ENULL (semv pq' p i)) <$> seqZ 0 SEMMAX = (fun _ => ENULL) <$> seqZ 0 SEMMAX) as ->; [| done].
    apply list_fmap_ext. intros i j Hj%list_elem_of_lookup_2%elem_of_seqZ. rewrite (fr_semv _ _ _ _ Hfr), decide_True by done.
    by destruct (semv (a_pq s) p j).
  - unfold sems. rewrite (vec_ext (a_pq s) pq'); [done |]. intros i.
    rewrite (fr_semv _ _ _ _ Hfr), decide_False by done. apply option_fmap_id.
Qed.

Lemma insertProc_repr p :
  0 <= p < MAXPROC -> p ∉ free_procs x -> p ∉ ready x -> (in_queues p x < 10)%nat ->
  returns (pq (insertProc tp p)) s (fun tp' s' => ints s' = ints s /\ frame s s' /\
    repr s' tp' (set_ready (ready x ++ [p]) x)).
Proof.
  intros Hp Hni Hnr Hc. destruct R as (rq & A & -> & Hr & Hb & HK). pose proof HK as (_ & F & HI).
  pose proof (pi_queues _ _ _ _ _ HI) as HQ. apply wp_pq.
  rewrite <- (in_queues_pcount _ _ _ _ _ _ HQ Hr Hb) in Hc. rewrite <- Hr in Hnr |- *.
  wp_apply (queues_insert _ _ [] (e_q <$> A) rq HQ p); [done | done | done | done |].
  intros tp' pq' (n & Hn & -> & HQ' & Hsame). simpl in HQ'.
  destruct (set_rq_repr s x rq A pq' (rq ++ [n]) _ Hr Hb eq_refl HK HQ' Hsame) as [HR Hfr].
  rewrite last_default_app in HR. rewrite fmap_app in HR. simpl in HR. rewrite Hn in HR. done.
Qed.

Lemma removeProc_repr :
  returns (pq (removeProc tp)) s (fun r s' => ints s' = ints s /\ frame s s' /\
    r.2 = head_or (ready x) /\ repr s' r.1 (set_ready (List.tl (ready x)) x)).
Proof.
  destruct R as (rq & A & -> & Hr & Hb & HK). pose proof HK as (_ & F & HI).
  pose proof (pi_queues _ _ _ _ _ HI) as HQ. apply wp_pq. rewrite <- Hr. destruct rq as [|h t].
  - eapply returns_of_run; [apply removeProc_nil, queue_nil |]. rewrite set_a_pq_id.
    split_and!; [done | apply frame_refl | done |]. by exists [], A.
  - wp_apply (queues_remove _ _ [] (e_q <$> A) h t HQ). intros r pq' (-> & HQ' & Hsame). simpl in HQ'.
    destruct (set_rq_repr s x _ A pq' t _ Hr Hb eq_refl HK HQ' Hsame) as [HR Hfr]. done.
Qed.

Lemma outProc_repr p :
  0 <= p ->
  returns (pq (outProc tp p)) s (fun r s' => ints s' = ints s /\ frame s s' /\
    r.2 = (if decide (p ∈ ready x) then p else ENULL) /\
    repr s' r.1 (set_ready (filter (fun q => q <> p) (ready x)) x)).
Proof.
  intros Hp. destruct R as (rq & A & -> & Hr & Hb & HK). pose proof HK as (_ & F & HI).
  pose proof (pi_queues _ _ _ _ _ HI) as HQ. apply wp_pq. rewrite <- Hr.
  wp_apply (queues_out _ _ [] (e_q <$> A) rq p HQ Hp). intros r pq' (-> & HQ' & Hsame). simpl in HQ'.
  destruct (set_rq_repr s x _ A pq' _ _ Hr Hb eq_refl HK HQ' Hsame) as [HR Hfr].
  replace (filter (fun q => q <> p) (names rq)) with (names (filter (fun n => next n <> p) rq)); [done |].
  clear. induction rq as [|n q IH]; [done |].
  rewrite fmap_cons, !filter_cons. case_decide; [rewrite fmap_cons; by f_equal | done].
Qed.

Lemma headQueue_repr : pq (headQueue tp) s = Ret (head_or (ready x)) s.
Proof.
  destruct R as (rq & A & -> & Hr & Hb & _ & F & HI). pose proof (pi_queues _ _ _ _ _ HI) as HQ.
  unfold pq, zoom. rewrite (headQueue_run _ _ rq); [| apply HQ | apply (qu_queue _ _ _ HQ); left].
  by rewrite set_a_pq_id, head_of_names, Hr.
Qed.
End ops.

(** ** The operations on the active semaphore list *)

Section blocked.
Context (s : asl) (tp : proc_link) (x : absq).
Hypothesis R : repr s tp x.

Lemma insertBlocked_repr a p :
  0 <= p < MAXPROC -> a <> ENULL -> p ∉ free_procs x -> p ∉ waiters a (blocked x) ->
  (in_queues p x < 10)%nat ->
  returns (insertBlocked a p) s (fun r s' => ints s' = ints s /\ frame s s' /\
    if decide (a ∉ keys (blocked x) /\ length (blocked x) = 20%nat)
    then r = TRUE /\ s' = s
    else r = FALSE /\ repr s' tp (set_blocked (suspend a p (blocked x)) x)).
Proof.
  intros Hp Ha Hf Hw Hc. destruct R as (rq & A & -> & Hr & Hb & HK). pose proof HK as (_ & F & HI).
  rewrite <- (in_queues_pcount _ _ _ _ _ _ (pi_queues _ _ _ _ _ HI) Hr Hb) in Hc.
  rewrite <- Hb in Hw |- *. assert (length (blk A) = length A) as -> by apply length_fmap.
  eapply wp_mono; [by apply (insertBlocked_entries s rq (free_procs x) A a p) | | done].
  intros r s' [(-> & -> & Hni & Hl) | (-> & Hroom & Hi & Hfr & A' & HK' & HB')].
  - by rewrite decide_True.
  - rewrite decide_False by (intros [Hni Hl]; destruct Hroom; [done | lia]).
    split_and!; [done | done | done |]. by exists rq, A'.
Qed.

Lemma removeBlocked_repr a :
  a <> ENULL ->
  returns (removeBlocked a) s (fun r s' => ints s' = ints s /\ frame s s' /\
    r = head_or (waiters a (blocked x)) /\ repr s' tp (set_blocked (resume a (blocked x)) x)).
Proof.
  intros Ha. destruct R as (rq & A & -> & Hr & Hb & HK). rewrite <- Hb.
  eapply wp_mono; [by apply (removeBlocked_entries s rq (free_procs x) A a) | | done].
  intros r s' (-> & Hi & Hfr & A' & HK' & HB'). split_and!; [done | done | done |]. by exists rq, A'.
Qed.

Lemma headBlocked_repr a : headBlocked a s = Ret (head_or (waiters a (blocked x))) s.
Proof.
  destruct R as (rq & A & -> & Hr & Hb & _ & F & HI).
  assert (returns (headBlocked a) s (fun r s' => r = head_or (waiters a (blocked x)) /\ s' = s)) as H.
  { eapply wp_headBlocked; [apply HI | apply HI |]. by rewrite Hb. }
  apply returns_inv in H as (r & s' & Hrun & -> & ->). done.
Qed.

Lemma headASL_repr : headASL s = Ret (if decide (blocked x = []) then FALSE else TRUE) s.
Proof.
  destruct R as (rq & A & -> & Hr & Hb & _ & F & HI). pose proof (pi_semds _ _ _ _ _ HI) as HS.
  unfold headASL, bind, gets, ret. f_equal. pose proof (dseg_head _ _ _ _ _ (sm_cur _ _ _ HS)) as ->.
  rewrite <- Hb. destruct A as [|e A]; [done |]. rewrite fmap_cons. cbn [List.hd].
  rewrite (proj2 (Z.eqb_neq _ ENULL)); [by rewrite decide_False |].
  intros E. apply (semds_ne _ _ _ HS). rewrite fmap_cons, E. left.
Qed.

(** every semaphore [p] is blocked on gets its [V]; [p] leaves every queue *)
Lemma outBlocked_repr p :
  0 <= p < MAXPROC -> (forall a, a ∈ waits_for p (blocked x) -> is_Some (ints s !! a)) ->
  returns (outBlocked p) s (fun r s' => frame s s' /\
    r = (if decide (waits_for p (blocked x) = []) then ENULL else p) /\
    (forall a, ints s' !! a =
      (if decide (a ∈ waits_for p (blocked x)) then fun v => i32 (v + 1) else id) <$> ints s !! a) /\
    repr s' tp (set_blocked (leave_all p (blocked x)) x)).
Proof.
  intros Hp Hints. destruct R as (rq & A & -> & Hr & Hb & HK). pose proof HK as (Hbusy & F & HI).
  rewrite <- Hb, waits_for_blk in Hints. rewrite <- Hb, waits_for_blk.
  assert (sems_from (a_pq s) p 0 (Z.of_nat (Z.to_nat SEMMAX)) ≡ₚ blocked_on p A) as Hperm
    by apply (pi_vec _ _ _ _ _ HI p Hp).
  eapply wp_mono; [apply (outBlocked_loop_spec p rq (free_procs x) Hp _ s A 0 ENULL) | | done];
    [done | done | done | intros; lia | intros a; rewrite Hperm; apply Hints |].
  intros r s' [-> H2 H3 (A' & HK' & HB') H5]. split_and!.
  - done.
  - rewrite (decide_ext _ (blocked_on p A = [])); [done |].
    split; intros E; rewrite E in Hperm; [by apply Permutation_nil_l in Hperm | by apply Permutation_nil_r in Hperm].
  - intros a. rewrite H2, bumps_lookup.
    + by rewrite (decide_ext _ (a ∈ blocked_on p A)) by by rewrite Hperm.
    + rewrite Hperm. unfold blocked_on. eapply sublist_NoDup; [apply (pi_semds _ _ _ _ _ HI) |].
      apply fmap_sublist, sublist_filter.
  - exists rq, A'. split_and!; [done | done | | done]. simpl.
    rewrite <- (leave_all_leaves p (sems_from (a_pq s) p 0 (Z.of_nat (Z.to_nat SEMMAX))) (blk A)), <- HB'.
    symmetry. pose proof HK' as (Hbusy' & F' & HI').
    apply leave_all_none; [eapply busy_bwf; [apply HI' | done] |]. rewrite waits_for_blk.
    apply Permutation_nil_r. rewrite <- (pi_vec _ _ _ _ _ HI' p Hp).
    assert (sems (a_pq s') p = []) as ->; [| done]. unfold sems, vec.
    assert ((fun i => default ENULL (semv (a_pq s') p i)) <$> seqZ 0 SEMMAX = (fun _ => ENULL) <$> seqZ 0 SEMMAX) as ->; [| done].
    apply list_fmap_ext. intros i j Hj%list_elem_of_lookup_2%elem_of_seqZ. by rewrite H5 by lia.
Qed.
End blocked.
