(* ===== verification/Kernel.v ===== *)
(** * The state of the nucleus

    The globals of [src/nucleus/traps/main.c], [src/nucleus/traps/trap.c] and
    [src/nucleus/interrupts/int.c], the memory the nucleus reads and writes beside
    them, and the accesses to both.

    Memory is typed: [ints] (in [asl]) holds the [int] and pointer cells by address,
    [states] the [state_t] areas, [devregs] the device registers and [chars] the
    character buffers.  [dev_sem] and [clock_lock] are [int] cells, because their
    addresses are used as semaphores. *)

From S2P Require Export Asl.
Local Open Scope kernel_scope.

(** ** What the linker and the hardware supply *)

(** the functions whose addresses the nucleus stores in memory *)
Inductive symbol : Type :=
  | STLDMM | STLDADDRESS | STLDILLEGAL | STLDZERO | STLDPRIVILEGE
  | STLDSYS | STLDSYS9 | STLDSYS10 | STLDSYS11 | STLDSYS12 | STLDSYS13 | STLDSYS14
  | STLDSYS15 | STLDSYS16 | STLDSYS17
  | STLDTERM0 | STLDTERM1 | STLDTERM2 | STLDTERM3 | STLDTERM4
  | STLDPRINT0 | STLDDISK0 | STLDFLOPPY0 | STLDCLOCK
  | sym_trapproghandler | sym_trapmmhandler | sym_trapsyshandler
  | sym_intterminalhandler | sym_intprinterhandler | sym_intdiskhandler
  | sym_intfloppyhandler | sym_intclockhandler | sym_p1.

Class Machine : Type := {
  sym : symbol -> Z;              (* the address of a function *)
  addr_dev_sem : Z;               (* &dev_sem[0] *)
  addr_clock_lock : Z;            (* &clock_lock *)
  addr_message : Z;               (* the buffer [a] of [printer] *)
  clk : nat -> Z;                 (* the n-th reading of the clock *)
  stst : nat -> state_t;          (* the processor state at the n-th STST *)
  prn_stat : nat -> Z;            (* the n-th reading of the printer's status *)
  poll_fuel : nat                 (* readings after which the model stops polling *)
}.

(** ** The state *)

Record saved_info := mk_saved { amnt : Z; stat : Z }.

Record kernel := mk_kernel {
  k_asl : asl;
  (* main.c *)
  running_queue : proc_link;
  init_state : state_t;
  (* trap.c *)
  old_pro_state : Z; old_mm_state : Z; old_sys_call_state : Z;
  (* int.c *)
  old_terminal_state : Z; old_printer_state : Z; old_disk_state : Z;
  old_floppy_state : Z; old_clock_state : Z;
  dev_arr : array Z;
  save_arr : array saved_info;
  clock_count : Z;
  (* memory and devices *)
  states : gmap Z state_t;
  devregs : gmap Z devreg_t;
  chars : gmap Z string;
  timer : Z;                     (* the interval timer *)
  readings : nat;                (* clock readings so far *)
  ststs : nat }.

Definition set_k_asl v k := mk_kernel v (running_queue k) (init_state k) (old_pro_state k)
    (old_mm_state k) (old_sys_call_state k) (old_terminal_state k) (old_printer_state k)
    (old_disk_state k) (old_floppy_state k) (old_clock_state k) (dev_arr k) (save_arr k)
    (clock_count k) (states k) (devregs k) (chars k) (timer k) (readings k) (ststs k).
Definition set_running_queue v k := mk_kernel (k_asl k) v (init_state k) (old_pro_state k)
    (old_mm_state k) (old_sys_call_state k) (old_terminal_state k) (old_printer_state k)
    (old_disk_state k) (old_floppy_state k) (old_clock_state k) (dev_arr k) (save_arr k)
    (clock_count k) (states k) (devregs k) (chars k) (timer k) (readings k) (ststs k).
Definition set_init_state v k := mk_kernel (k_asl k) (running_queue k) v (old_pro_state k)
    (old_mm_state k) (old_sys_call_state k) (old_terminal_state k) (old_printer_state k)
    (old_disk_state k) (old_floppy_state k) (old_clock_state k) (dev_arr k) (save_arr k)
    (clock_count k) (states k) (devregs k) (chars k) (timer k) (readings k) (ststs k).
Definition set_old_pro_state v k := mk_kernel (k_asl k) (running_queue k) (init_state k) v
    (old_mm_state k) (old_sys_call_state k) (old_terminal_state k) (old_printer_state k)
    (old_disk_state k) (old_floppy_state k) (old_clock_state k) (dev_arr k) (save_arr k)
    (clock_count k) (states k) (devregs k) (chars k) (timer k) (readings k) (ststs k).
Definition set_old_mm_state v k := mk_kernel (k_asl k) (running_queue k) (init_state k)
    (old_pro_state k) v (old_sys_call_state k) (old_terminal_state k) (old_printer_state k)
    (old_disk_state k) (old_floppy_state k) (old_clock_state k) (dev_arr k) (save_arr k)
    (clock_count k) (states k) (devregs k) (chars k) (timer k) (readings k) (ststs k).
Definition set_old_sys_call_state v k := mk_kernel (k_asl k) (running_queue k) (init_state k)
    (old_pro_state k) (old_mm_state k) v (old_terminal_state k) (old_printer_state k)
    (old_disk_state k) (old_floppy_state k) (old_clock_state k) (dev_arr k) (save_arr k)
    (clock_count k) (states k) (devregs k) (chars k) (timer k) (readings k) (ststs k).
Definition set_old_terminal_state v k := mk_kernel (k_asl k) (running_queue k) (init_state k)
    (old_pro_state k) (old_mm_state k) (old_sys_call_state k) v (old_printer_state k)
    (old_disk_state k) (old_floppy_state k) (old_clock_state k) (dev_arr k) (save_arr k)
    (clock_count k) (states k) (devregs k) (chars k) (timer k) (readings k) (ststs k).
Definition set_old_printer_state v k := mk_kernel (k_asl k) (running_queue k) (init_state k)
    (old_pro_state k) (old_mm_state k) (old_sys_call_state k) (old_terminal_state k) v
    (old_disk_state k) (old_floppy_state k) (old_clock_state k) (dev_arr k) (save_arr k)
    (clock_count k) (states k) (devregs k) (chars k) (timer k) (readings k) (ststs k).
Definition set_old_disk_state v k := mk_kernel (k_asl k) (running_queue k) (init_state k)
    (old_pro_state k) (old_mm_state k) (old_sys_call_state k) (old_terminal_state k)
    (old_printer_state k) v (old_floppy_state k) (old_clock_state k) (dev_arr k) (save_arr k)
    (clock_count k) (states k) (devregs k) (chars k) (timer k) (readings k) (ststs k).
Definition set_old_floppy_state v k := mk_kernel (k_asl k) (running_queue k) (init_state k)
    (old_pro_state k) (old_mm_state k) (old_sys_call_state k) (old_terminal_state k)
    (old_printer_state k) (old_disk_state k) v (old_clock_state k) (dev_arr k) (save_arr k)
    (clock_count k) (states k) (devregs k) (chars k) (timer k) (readings k) (ststs k).
Definition set_old_clock_state v k := mk_kernel (k_asl k) (running_queue k) (init_state k)
    (old_pro_state k) (old_mm_state k) (old_sys_call_state k) (old_terminal_state k)
    (old_printer_state k) (old_disk_state k) (old_floppy_state k) v (dev_arr k) (save_arr k)
    (clock_count k) (states k) (devregs k) (chars k) (timer k) (readings k) (ststs k).
Definition set_dev_arr v k := mk_kernel (k_asl k) (running_queue k) (init_state k) (old_pro_state k)
    (old_mm_state k) (old_sys_call_state k) (old_terminal_state k) (old_printer_state k)
    (old_disk_state k) (old_floppy_state k) (old_clock_state k) v (save_arr k) (clock_count k)
    (states k) (devregs k) (chars k) (timer k) (readings k) (ststs k).
Definition set_save_arr v k := mk_kernel (k_asl k) (running_queue k) (init_state k)
    (old_pro_state k) (old_mm_state k) (old_sys_call_state k) (old_terminal_state k)
    (old_printer_state k) (old_disk_state k) (old_floppy_state k) (old_clock_state k) (dev_arr k) v
    (clock_count k) (states k) (devregs k) (chars k) (timer k) (readings k) (ststs k).
Definition set_clock_count v k := mk_kernel (k_asl k) (running_queue k) (init_state k)
    (old_pro_state k) (old_mm_state k) (old_sys_call_state k) (old_terminal_state k)
    (old_printer_state k) (old_disk_state k) (old_floppy_state k) (old_clock_state k) (dev_arr k)
    (save_arr k) v (states k) (devregs k) (chars k) (timer k) (readings k) (ststs k).
Definition set_states v k := mk_kernel (k_asl k) (running_queue k) (init_state k) (old_pro_state k)
    (old_mm_state k) (old_sys_call_state k) (old_terminal_state k) (old_printer_state k)
    (old_disk_state k) (old_floppy_state k) (old_clock_state k) (dev_arr k) (save_arr k)
    (clock_count k) v (devregs k) (chars k) (timer k) (readings k) (ststs k).
Definition set_devregs v k := mk_kernel (k_asl k) (running_queue k) (init_state k) (old_pro_state k)
    (old_mm_state k) (old_sys_call_state k) (old_terminal_state k) (old_printer_state k)
    (old_disk_state k) (old_floppy_state k) (old_clock_state k) (dev_arr k) (save_arr k)
    (clock_count k) (states k) v (chars k) (timer k) (readings k) (ststs k).
Definition set_chars v k := mk_kernel (k_asl k) (running_queue k) (init_state k) (old_pro_state k)
    (old_mm_state k) (old_sys_call_state k) (old_terminal_state k) (old_printer_state k)
    (old_disk_state k) (old_floppy_state k) (old_clock_state k) (dev_arr k) (save_arr k)
    (clock_count k) (states k) (devregs k) v (timer k) (readings k) (ststs k).
Definition set_timer v k := mk_kernel (k_asl k) (running_queue k) (init_state k) (old_pro_state k)
    (old_mm_state k) (old_sys_call_state k) (old_terminal_state k) (old_printer_state k)
    (old_disk_state k) (old_floppy_state k) (old_clock_state k) (dev_arr k) (save_arr k)
    (clock_count k) (states k) (devregs k) (chars k) v (readings k) (ststs k).
Definition set_readings v k := mk_kernel (k_asl k) (running_queue k) (init_state k)
    (old_pro_state k) (old_mm_state k) (old_sys_call_state k) (old_terminal_state k)
    (old_printer_state k) (old_disk_state k) (old_floppy_state k) (old_clock_state k) (dev_arr k)
    (save_arr k) (clock_count k) (states k) (devregs k) (chars k) (timer k) v (ststs k).
Definition set_ststs v k := mk_kernel (k_asl k) (running_queue k) (init_state k) (old_pro_state k)
    (old_mm_state k) (old_sys_call_state k) (old_terminal_state k) (old_printer_state k)
    (old_disk_state k) (old_floppy_state k) (old_clock_state k) (dev_arr k) (save_arr k)
    (clock_count k) (states k) (devregs k) (chars k) (timer k) (readings k) v.

Definition MK := M exn kernel.

(** ** Accesses *)

(** an operation of the layers below *)
Definition asl_ {A} (m : MA A) : MK A := zoom k_asl set_k_asl m.
Definition pq_ {A} (m : MQ A) : MK A := asl_ (pq m).

(** the queue operations on [&running_queue] *)
Definition insert_running (p : Z) : MK unit :=
  let! rq := gets running_queue in
  let! tp := pq_ (insertProc rq p) in
  modify (set_running_queue tp).
Definition remove_running : MK Z :=
  let! rq := gets running_queue in
  let! '(tp, rv) := pq_ (removeProc rq) in
  modify (set_running_queue tp) ;;
  ret rv.
Definition out_running (p : Z) : MK Z :=
  let! rq := gets running_queue in
  let! '(tp, rv) := pq_ (outProc rq p) in
  modify (set_running_queue tp) ;;
  ret rv.
Definition head_running : MK Z :=
  let! rq := gets running_queue in
  pq_ (headQueue rq).

(** [*a] and [*a = st] for a [state_t] pointer; [a->s_r[i] = v] *)
Definition state_at (a : Z) : MK state_t := gets_opt Fault (fun k => states k !! a).
Definition put_state (a : Z) (st : state_t) : MK unit :=
  let! old := state_at a in
  modify (fun k => set_states (<[a := st]> (states k)) k).
Definition put_state_reg (a : Z) (i : fin 17) (v : Z) : MK unit :=
  let! st := state_at a in
  put_state a (set_reg i v st).

(** [p->p_s = st] *)
Definition put_p_s (p : Z) (st : state_t) : MK unit := pq_ (update p (set_p_s st)).

(** a [devreg_t] pointer *)
Definition devreg (a : Z) : MK devreg_t := gets_opt Fault (fun k => devregs k !! a).
Definition put_devreg (a : Z) (f : devreg_t -> devreg_t) : MK unit :=
  let! d := devreg a in
  modify (fun k => set_devregs (<[a := f d]> (devregs k)) k).

Definition u32 (z : Z) : Z := z mod 2 ^ 32.

Definition STATE_SIZE : Z := 76.   (* sizeof (state_t) *)

(** the machine operations of [src/util] *)
Section hardware.
Context `{Machine}.

(** [STCK(&x)]: the clock *)
Definition STCK : MK Z :=
  let! n := gets readings in
  modify (set_readings (S n)) ;;
  ret (clk n).
(** [STST(&x)]: the processor state *)
Definition STST : MK state_t :=
  let! n := gets ststs in
  modify (set_ststs (S n)) ;;
  ret (stst n).
(** [LDIT(&x)]: the interval timer *)
Definition LDIT (v : Z) : MK unit := modify (set_timer v).
(** [LDST(&x)]: the processor state is loaded; the call does not return *)
Definition LDST_ {A} (st : state_t) : MK A := raise (Leave (LDST st)).
Definition HALT_ {A} : MK A := raise (Leave HALT).
(** [sleep]: wait for an interrupt; its handler does not return here *)
Definition sleep {A} : MK A := raise (Leave STOP).
End hardware.

#[global] Arguments sleep {A}.
