(* ===== verification/Nucleus.v ===== *)
(** * The nucleus: the code

    [src/nucleus/traps/main.c], [syscall.c], [trap.c] and
    [src/nucleus/interrupts/int.c].  A function that ends by loading a processor
    state, halting or waiting for an interrupt leaves with [Leave]; [state_t *]
    arguments are addresses. *)

From S2P Require Export Kernel.
Local Open Scope kernel_scope.

Section nucleus.
Context `{Machine}.

(** ** The clock ([trap.c]) *)

Definition start_time (p : Z) : MK unit :=
  let! t := STCK in
  pq_ (update p (set_start_time t)).

Definition get_interval (p : Z) : MK unit :=
  let! cur_time := STCK in
  pq_ (update p (fun pr => set_cpu_time (i32 (cpu_time pr + i32 (cur_time - Procq.start_time pr))) pr)).

(** ** The dispatcher ([int.c], [main.c]) *)

Definition clock_interrupt_time : Z := 100000.
Definition quantum : Z := 5000.

Definition dev_sem (i : Z) : Z := addr_dev_sem + 4 * i.
Definition clock_lock : Z := addr_clock_lock.

Definition intschedule : MK unit := LDIT quantum.

(** [dev_arr[i]] *)
Definition dev_reg (i : Z) : MK Z := gets_opt Fault (fun k => dev_arr k !! i).

(** [while (dev_arr[5]->d_stat != NORMAL);], the device changing the register *)
Fixpoint poll_printer (fuel n : nat) : MK unit :=
  match fuel with
  | O => raise OutOfFuel
  | S fuel' =>
      let! d := dev_reg 5 in
      put_devreg d (fun r => mk_devreg (d_op r) (d_dadd r) (d_badd r) (prn_stat n)) ;;
      let! r := devreg d in
      if negb (d_stat r =? NORMAL) then poll_printer fuel' (S n) else ret tt
  end.

Definition print_message (a : string) : MK unit :=
  modify (fun k => set_chars (<[addr_message := a]> (chars k)) k) ;;
  let! d := dev_reg 5 in
  put_devreg d (fun r => mk_devreg (d_op r) (d_dadd r) (d_badd r) (u32 (-1))) ;;
  put_devreg d (fun r => mk_devreg (d_op r) (d_dadd r) addr_message (d_stat r)) ;;
  put_devreg d (fun r => mk_devreg (d_op r) (Z.of_nat (String.length a)) (d_badd r) (d_stat r)) ;;
  put_devreg d (fun r => mk_devreg IOWRITE (d_dadd r) (d_badd r) (d_stat r)) ;;
  poll_printer poll_fuel 0.

Definition printer (status : Z) : MK unit :=
  if status =? 0 then print_message "nucleus: normal termination"%string
  else print_message "nucleus: deadlock termination"%string.

(** the loop of [intdeadlock]: the new value of [dev_block] *)
Fixpoint blocked_devices (i : Z) (n : nat) (dev_block : Z) : MK Z :=
  match n with
  | O => ret dev_block
  | S n' =>
      let! h := asl_ (headBlocked (dev_sem i)) in
      blocked_devices (i + 1) n' (if negb (h =? ENULL) then 1 else dev_block)
  end.

Definition intdeadlock : MK unit :=
  let! dev_block := blocked_devices 0 15 0 in
  let! c := asl_ (headBlocked clock_lock) in
  if negb (c =? ENULL) then intschedule ;; sleep
  else if negb (dev_block =? 0) then sleep
  else
    let! a := asl_ headASL in
    if a =? FALSE then printer 0 ;; HALT_ else printer 1 ;; HALT_.

Definition schedule : MK unit :=
  let! cur := head_running in
  if cur =? ENULL then intdeadlock
  else
    intschedule ;;
    let! cur := head_running in
    start_time cur ;;
    let! pr := pq_ (deref cur) in
    LDST_ (p_s pr).

(** ** Semaphore operations of the nucleus ([int.c]) *)

(** [--( *a)] and [( *a)++]: the new value and the old value *)
Definition decr (a : Z) : MK Z :=
  let! v := asl_ (load a) in
  asl_ (store a (i32 (v - 1))) ;;
  ret (i32 (v - 1)).
Definition incr (a : Z) : MK Z :=
  let! v := asl_ (load a) in
  asl_ (store a (i32 (v + 1))) ;;
  ret v.

(** a process that was removed from a semaphore's queue becomes ready when it is
    in no other queue *)
Definition wake (removed : Z) : MK unit :=
  if negb (removed =? ENULL) then
    let! pr := pq_ (deref removed) in
    (if qcount pr =? 0 then insert_running removed else ret tt)
  else ret tt.

Definition intsemop (sem_value op : Z) : MK unit :=
  if op =? LOCK then
    let! v := decr sem_value in
    if v <? 0 then
      let! removed := remove_running in
      (if negb (removed =? ENULL) then
         let! _ := asl_ (insertBlocked sem_value removed) in ret tt
       else ret tt) ;;
      schedule
    else ret tt
  else
    let! v := incr sem_value in
    if v <? 0 then
      let! removed := asl_ (removeBlocked sem_value) in
      wake removed
    else ret tt.

Definition waitforpclock (old : Z) : MK unit :=
  let! head := head_running in
  let! st := state_at old in
  put_p_s head st ;;
  intsemop clock_lock LOCK.

Definition saved (i : Z) : MK saved_info := gets_opt Fault (fun k => save_arr k !! i).
Definition put_saved (i : Z) (v : saved_info) : MK unit :=
  let! old := saved i in
  modify (fun k => set_save_arr (<[i := v]> (save_arr k)) k).

Definition waitforio (old : Z) : MK unit :=
  let! st := state_at old in
  let dev := s_r st !!! 4%fin in
  let! v := asl_ (load (dev_sem dev)) in
  if v =? 1 then
    asl_ (store (dev_sem dev) (i32 (v - 1))) ;;
    let! sv := saved dev in
    put_state_reg old 2%fin (amnt sv) ;;
    let! sv := saved dev in
    put_state_reg old 3%fin (stat sv)
  else
    let! head := head_running in
    let! st := state_at old in
    put_p_s head st ;;
    intsemop (dev_sem dev) LOCK.

(** ** The interrupt handlers ([int.c]) *)

Definition dev_pos (type dev : Z) : Z :=
  if type =? TERMINAL then 0 + dev
  else if type =? PRINTER then 5 + dev
  else if type =? DISK then 7 + dev
  else if type =? FLOPPY then 11 + dev
  else -1.

(** [p->p_s.s_r[i] = v] *)
Definition put_p_s_reg (p : Z) (i : fin 17) (v : Z) : MK unit :=
  pq_ (update p (fun pr => set_p_s (set_reg i v (p_s pr)) pr)).

Definition inthandler (type dev : Z) : MK unit :=
  let pos := dev_pos type dev in
  let! v := asl_ (load (dev_sem pos)) in
  if v =? -1 then
    let! block_dev := asl_ (headBlocked (dev_sem pos)) in
    let! d := dev_reg pos in
    let! r := devreg d in
    put_p_s_reg block_dev 2%fin (i32 (d_amnt r)) ;;
    let! r := devreg d in
    put_p_s_reg block_dev 3%fin (i32 (d_stat r)) ;;
    intsemop (dev_sem pos) UNLOCK
  else
    asl_ (store (dev_sem pos) (i32 (v + 1))) ;;
    let! d := dev_reg pos in
    let! r := devreg d in
    let! sv := saved pos in
    put_saved pos (mk_saved (i32 (d_amnt r)) (stat sv)) ;;
    let! r := devreg d in
    let! sv := saved pos in
    put_saved pos (mk_saved (amnt sv) (i32 (d_stat r))).

(** the common body of the four device handlers *)
Definition device_handler (type : Z) (old : kernel -> Z) : MK unit :=
  let! head := head_running in
  let! a := gets old in
  let! st := state_at a in
  inthandler type (in_dno (s_tmp st)) ;;
  if negb (head =? ENULL) then
    let! st := state_at a in LDST_ st
  else schedule.

Definition intterminalhandler : MK unit := device_handler TERMINAL old_terminal_state.
Definition intprinterhandler : MK unit := device_handler PRINTER old_printer_state.
Definition intdiskhandler : MK unit := device_handler DISK old_disk_state.
Definition intfloppyhandler : MK unit := device_handler FLOPPY old_floppy_state.

Definition intclockhandler : MK unit :=
  let! head := head_running in
  modify (fun k => set_clock_count (i32 (clock_count k + quantum)) k) ;;
  (if negb (head =? ENULL) then
     let! removed := remove_running in
     get_interval removed ;;
     let! a := gets old_clock_state in
     let! st := state_at a in
     put_p_s removed st ;;
     insert_running removed
   else ret tt) ;;
  let! c := gets clock_count in
  (if clock_interrupt_time <=? c then
     modify (set_clock_count 0) ;;
     let! h := asl_ (headBlocked clock_lock) in
     (if negb (h =? ENULL) then intsemop clock_lock UNLOCK else ret tt)
   else ret tt) ;;
  schedule.
End nucleus.
