(* ===== verification/Syscall.v ===== *)
(** * The nucleus: system calls, traps and start-up

    [src/nucleus/traps/syscall.c], [trap.c] and [main.c], [intinit] of
    [src/nucleus/interrupts/int.c]. *)

From S2P Require Export Nucleus.
Local Open Scope kernel_scope.

Section syscall.
Context `{Machine}.

(** ** SYS1 *)

(** [while (p->parent == ENULL) p = p->brother;] *)
Fixpoint last_brother (fuel : nat) (p : Z) : MK Z :=
  match fuel with
  | O => raise OutOfFuel
  | S fuel' =>
      let! pr := pq_ (deref p) in
      if parent pr =? ENULL then last_brother fuel' (brother pr) else ret p
  end.

Definition brother_fuel : nat := 21.

(** the branch of [Create_Process] that links the new process into the family *)
Definition link_child (cur fork_process : Z) : MK unit :=
  let! pr := pq_ (deref cur) in
  if child pr =? ENULL then
    pq_ (update cur (set_child fork_process)) ;;
    pq_ (update fork_process (set_parent cur))
  else
    let! first_child := last_brother brother_fuel (child pr) in
    pq_ (update first_child (set_parent ENULL)) ;;
    pq_ (update first_child (set_brother fork_process)) ;;
    pq_ (update fork_process (set_parent cur)).

Definition Create_Process (old_state : Z) : MK unit :=
  let! fork_process := pq_ allocProc in
  let! cur := head_running in
  if fork_process =? ENULL then put_state_reg old_state 2%fin (-1)
  else
    let! old := state_at old_state in
    let! st := state_at (s_r old !!! 4%fin) in
    put_p_s fork_process st ;;
    link_child cur fork_process ;;
    insert_running fork_process ;;
    put_state_reg old_state 2%fin 0.

(** ** SYS2 *)

(** the part of [check_sibling] that removes one process and its descendants;
    [rec] is the recursive call *)
Definition remove_family (rec : Z -> MK unit) (first_child : Z) : MK unit :=
  let! removed := asl_ (outBlocked first_child) in
  let! removed := (if removed =? ENULL then out_running first_child else ret removed) in
  let! pr := pq_ (deref removed) in
  (if negb (child pr =? ENULL) then rec removed else ret tt) ;;
  pq_ (freeProc removed).

(** its loop: the last brother *)
Fixpoint remove_brothers (rec : Z -> MK unit) (fuel : nat) (first_child : Z) : MK Z :=
  match fuel with
  | O => raise OutOfFuel
  | S fuel' =>
      let! pr := pq_ (deref first_child) in
      if negb (brother pr =? ENULL) then
        let tmp := brother pr in
        pq_ (update first_child (set_brother ENULL)) ;;
        remove_family rec first_child ;;
        remove_brothers rec fuel' tmp
      else ret first_child
  end.

Fixpoint check_sibling (fuel : nat) (cur : Z) : MK unit :=
  match fuel with
  | O => raise OutOfFuel
  | S fuel' =>
      let! pr := pq_ (deref cur) in
      let! first_child := remove_brothers (check_sibling fuel') brother_fuel (child pr) in
      remove_family (check_sibling fuel') first_child ;;
      pq_ (update first_child (set_parent ENULL)) ;;
      pq_ (update cur (set_child ENULL))
  end.

(** [while (p->brother != cur) p = p->brother;] *)
Fixpoint elder_brother (fuel : nat) (cur p : Z) : MK Z :=
  match fuel with
  | O => raise OutOfFuel
  | S fuel' =>
      let! pr := pq_ (deref p) in
      if negb (brother pr =? cur) then elder_brother fuel' cur (brother pr) else ret p
  end.

(** the first part of [Terminate_Process]: [cur] leaves its family *)
Definition unlink_family (cur : Z) : MK unit :=
  let! pr := pq_ (deref cur) in
  if negb (parent pr =? ENULL) && (brother pr =? ENULL) then
    let! pa := pq_ (deref (parent pr)) in
    let first_child := child pa in
    if first_child =? cur then
      pq_ (update (parent pr) (set_child ENULL)) ;;
      pq_ (update cur (set_parent ENULL))
    else
      let! first_child := elder_brother brother_fuel cur first_child in
      pq_ (update first_child (set_brother (brother pr))) ;;
      pq_ (update first_child (set_parent (parent pr))) ;;
      pq_ (update cur (set_parent ENULL))
  else if ((parent pr =? ENULL) && negb (brother pr =? ENULL))
       || (negb (parent pr =? ENULL) && negb (brother pr =? ENULL)) then
    let! first_brother := last_brother brother_fuel (brother pr) in
    let! fb := pq_ (deref first_brother) in
    let! pa := pq_ (deref (parent fb)) in
    let first_child := child pa in
    if first_child =? cur then
      pq_ (update (parent fb) (set_child (brother pr))) ;;
      pq_ (update cur (set_brother ENULL))
    else
      let! first_child := elder_brother brother_fuel cur first_child in
      pq_ (update first_child (set_brother (brother pr))) ;;
      pq_ (update cur (set_brother ENULL))
  else ret tt.

Definition tree_fuel : nat := 21.

Definition Terminate_Process : MK unit :=
  let! cur := head_running in
  unlink_family cur ;;
  let! pr := pq_ (deref cur) in
  (if child pr =? ENULL then
     let! p := out_running cur in pq_ (freeProc p)
   else
     check_sibling tree_fuel cur ;;
     let! p := out_running cur in pq_ (freeProc p)) ;;
  schedule.

(** ** SYS3 *)

Definition VPOP_SIZE : Z := 8.   (* sizeof (vpop) *)

(** one iteration of the loop: the new value of [flag] *)
Definition Sem_OP_step (old_state cur vpop_addr flag : Z) : MK Z :=
  let! op := asl_ (load vpop_addr) in
  let! sem := asl_ (load (vpop_addr + 4)) in
  if op =? LOCK then
    let! v := decr sem in
    if v <? 0 then
      let! st := state_at old_state in
      put_p_s cur st ;;
      let! sem := asl_ (load (vpop_addr + 4)) in
      let! _ := asl_ (insertBlocked sem cur) in
      ret 1
    else ret flag
  else
    let! v := incr sem in
    if v <? 0 then
      let! sem := asl_ (load (vpop_addr + 4)) in
      let! removed := asl_ (removeBlocked sem) in
      wake removed ;;
      ret flag
    else ret flag.

(** the loop: [n] is [old_state->s_r[3]], which no iteration changes *)
Fixpoint Sem_OP_loop (n : nat) (old_state cur vpop_addr flag : Z) : MK Z :=
  match n with
  | O => ret flag
  | S n' =>
      let! flag := Sem_OP_step old_state cur vpop_addr flag in
      Sem_OP_loop n' old_state cur (vpop_addr + VPOP_SIZE) flag
  end.

Definition Sem_OP (old_state : Z) : MK unit :=
  let! cur := head_running in
  let! old := state_at old_state in
  let! flag := Sem_OP_loop (Z.to_nat (s_r old !!! 3%fin)) old_state cur (s_r old !!! 4%fin) 0 in
  if negb (flag =? 0) then
    let! _ := remove_running in
    schedule
  else ret tt.

(** ** SYS5, SYS4, SYS6 *)

Definition Specify_Trap_State_Vector (old_state : Z) : MK unit :=
  let! cur := head_running in
  let! old := state_at old_state in
  let trap := s_r old !!! 2%fin in
  let! pr := pq_ (deref cur) in
  if trap =? 0 then
    if negb (prog_old pr =? ENULL) then Terminate_Process
    else pq_ (update cur (set_prog (s_r old !!! 3%fin) (s_r old !!! 4%fin)))
  else if trap =? 1 then
    if negb (memory_management_old pr =? ENULL) then Terminate_Process
    else pq_ (update cur (set_memory_management (s_r old !!! 3%fin) (s_r old !!! 4%fin)))
  else if trap =? 2 then
    if negb (system_call_old pr =? ENULL) then Terminate_Process
    else pq_ (update cur (set_system_call (s_r old !!! 3%fin) (s_r old !!! 4%fin)))
  else ret tt.

Definition notused (old_state : Z) : MK unit := HALT_.

Definition Get_CPU_Time (old_state : Z) : MK unit :=
  let! cur := head_running in
  let! pr := pq_ (deref cur) in
  put_state_reg old_state 2%fin (cpu_time pr).

(** ** Trap handlers ([trap.c]) *)

(** [*old = *old_state; start_time(cur); LDST(new)] *)
Definition pass_to (cur old_state old new : Z) : MK unit :=
  let! st := state_at old_state in
  put_state old st ;;
  start_time cur ;;
  let! st := state_at new in
  LDST_ st.

Definition pass_up (old_state type : Z) : MK unit :=
  let! cur := head_running in
  let! pr := pq_ (deref cur) in
  if type =? 0 then
    if negb (prog_new pr =? ENULL) then pass_to cur old_state (prog_old pr) (prog_new pr)
    else Terminate_Process
  else if type =? 1 then
    if negb (memory_management_new pr =? ENULL)
    then pass_to cur old_state (memory_management_old pr) (memory_management_new pr)
    else Terminate_Process
  else if type =? 2 then
    if negb (system_call_new pr =? ENULL)
    then pass_to cur old_state (system_call_old pr) (system_call_new pr)
    else Terminate_Process
  else ret tt.

Definition trapmmhandler : MK unit :=
  let! cur := head_running in
  get_interval cur ;;
  let! a := gets old_mm_state in
  pass_up a 1.

Definition trapproghandler : MK unit :=
  let! cur := head_running in
  get_interval cur ;;
  let! a := gets old_pro_state in
  pass_up a 0.

(** the [switch] of [trapsyshandler] *)
Definition syscall (n a : Z) : MK unit :=
  if n =? 1 then Create_Process a
  else if n =? 2 then Terminate_Process
  else if n =? 3 then Sem_OP a
  else if n =? 4 then notused a
  else if n =? 5 then Specify_Trap_State_Vector a
  else if n =? 6 then Get_CPU_Time a
  else if n =? 7 then waitforpclock a
  else if n =? 8 then waitforio a
  else pass_up a 2.

Definition trapsyshandler : MK unit :=
  let! cur := head_running in
  get_interval cur ;;
  let! a := gets old_sys_call_state in
  let! st := state_at a in
  (if negb (ps_s (s_sr st) =? 1) && (1 <=? sys_no (s_tmp st)) && (sys_no (s_tmp st) <=? 8) then
     put_state a (set_tmp (set_pr_typ PRIVILEGE (s_tmp st)) st) ;;
     pass_up a 0
   else ret tt) ;;
  let! st := state_at a in
  syscall (sys_no (s_tmp st)) a ;;
  start_time cur ;;
  let! st := state_at a in
  LDST_ st.

(** ** Start-up ([trap.c], [int.c], [main.c]) *)

(** the assignments that make the new area of a trap or interrupt *)
Definition new_area (handler sp : Z) (st : state_t) : state_t :=
  let st := set_sp sp (set_pc handler st) in
  set_sr (set_ps_int 7 (set_ps_m 0 (set_ps_s 1 (s_sr st)))) st.

(** the five assignments to the new area, which follows the old one *)
Definition init_area (area : Z) (handler : symbol) : MK unit :=
  let! i := gets init_state in
  let! st := state_at (area + STATE_SIZE) in
  put_state (area + STATE_SIZE) (new_area (sym handler) (s_sp i) st).

(** the assignment of a function to an exception vector *)
Definition put_vector (a : Z) (f : symbol) : MK unit := asl_ (store a (sym f)).

Definition trap_vectors : list (Z * symbol) :=
  [ (0x008, STLDMM); (0x00c, STLDADDRESS); (0x010, STLDILLEGAL); (0x014, STLDZERO);
    (0x020, STLDPRIVILEGE); (0x08c, STLDSYS); (0x94, STLDSYS9); (0x98, STLDSYS10);
    (0x9c, STLDSYS11); (0xa0, STLDSYS12); (0xa4, STLDSYS13); (0xa8, STLDSYS14);
    (0xac, STLDSYS15); (0xb0, STLDSYS16); (0xb4, STLDSYS17); (0x100, STLDTERM0);
    (0x104, STLDTERM1); (0x108, STLDTERM2); (0x10c, STLDTERM3); (0x110, STLDTERM4);
    (0x114, STLDPRINT0); (0x11c, STLDDISK0); (0x12c, STLDFLOPPY0); (0x140, STLDCLOCK) ].

Fixpoint put_vectors (l : list (Z * symbol)) : MK unit :=
  match l with
  | [] => ret tt
  | (a, f) :: l' => put_vector a f ;; put_vectors l'
  end.

Definition trapinit : MK unit :=
  put_vectors trap_vectors ;;
  modify (set_old_pro_state 0x800) ;;
  init_area 0x800 sym_trapproghandler ;;
  modify (set_old_mm_state 0x898) ;;
  init_area 0x898 sym_trapmmhandler ;;
  modify (set_old_sys_call_state 0x930) ;;
  init_area 0x930 sym_trapsyshandler.

Definition intinit : MK unit :=
  asl_ (store clock_lock 0) ;;
  for_ 0 15 (fun i =>
    asl_ (store (dev_sem i) 0) ;;
    let! old := dev_reg i in
    modify (fun k => set_dev_arr (<[i := 0x1400 + i * 0x10]> (dev_arr k)) k)) ;;
  modify (set_old_terminal_state 0x9c8) ;;
  init_area 0x9c8 sym_intterminalhandler ;;
  modify (set_old_printer_state 0xa60) ;;
  init_area 0xa60 sym_intprinterhandler ;;
  modify (set_old_disk_state 0xaf8) ;;
  init_area 0xaf8 sym_intdiskhandler ;;
  modify (set_old_floppy_state 0xb90) ;;
  init_area 0xb90 sym_intfloppyhandler ;;
  modify (set_old_clock_state 0xc28) ;;
  init_area 0xc28 sym_intclockhandler.

Definition init : MK unit :=
  modify (set_running_queue elink) ;;
  let! st := STST in
  modify (set_init_state st) ;;
  pq_ initProc ;;
  asl_ initSemd ;;
  trapinit ;;
  intinit.

Definition main : MK unit :=
  init ;;
  let! first_process := pq_ allocProc in
  let! st := STST in
  put_p_s first_process st ;;
  let! i := gets init_state in
  pq_ (update first_process (fun pr => set_p_s (set_sp (s_sp i - 512 * 2) (p_s pr)) pr)) ;;
  pq_ (update first_process (fun pr => set_p_s (set_pc (sym sym_p1) (p_s pr)) pr)) ;;
  insert_running first_process ;;
  schedule.
End syscall.
