(* ===== verification/KernelSpec.v ===== *)
(** * The abstract state of the nucleus

    [kview k x m c r]: the state [k] represents the abstract queues [x]; its [int]
    cells are [m], the entries without their links [c], and everything else [r].
    The operations of the layers below, as seen by the nucleus. *)

From S2P Require Export Kernel AslRefine.
Local Open Scope kernel_scope.

Definition krest (k : kernel) : kernel := set_k_asl (asl0 ∅) (set_running_queue elink k).

Record kview (k : kernel) (x : absq) (m : gmap Z Z) (c : Z -> option proc_t) (r : kernel) : Prop := {
  kv_repr : repr (k_asl k) (running_queue k) x;
  kv_mem : ints (k_asl k) = m;
  kv_core : forall q, pcore (a_pq (k_asl k)) q = c q;
  kv_rest : krest k = r }.

(** a change to one entry *)
Definition upd (p : Z) (f : proc_t -> proc_t) (c : Z -> option proc_t) : Z -> option proc_t :=
  fun q => (if decide (q = p) then f else id) <$> c q.

Lemma upd_eq p f c : upd p f c p = f <$> c p.
Proof. unfold upd. by rewrite decide_True. Qed.
Lemma upd_ne p f c q : q <> p -> upd p f c q = c q.
Proof. intros. unfold upd. rewrite decide_False by done. apply option_fmap_id. Qed.

(** ** Changes that leave the queues alone *)

Class CoreUpd (f : proc_t -> proc_t) : Prop := {
  cu_link : forall pr, p_link (f pr) = p_link pr;
  cu_qcount : forall pr, qcount (f pr) = qcount pr;
  cu_semvec : forall pr, semvec (f pr) = semvec pr;
  cu_core : forall pr, core (f pr) = f (core pr) }.

Ltac solve_core_upd := split; by intros [].
#[export] Instance core_p_s st : CoreUpd (set_p_s st).
Proof. solve_core_upd. Qed.
#[export] Instance core_cpu_time v : CoreUpd (set_cpu_time v).
Proof. solve_core_upd. Qed.
#[export] Instance core_start_time v : CoreUpd (set_start_time v).
Proof. solve_core_upd. Qed.
#[export] Instance core_prog o n : CoreUpd (set_prog o n).
Proof. solve_core_upd. Qed.
#[export] Instance core_mm o n : CoreUpd (set_memory_management o n).
Proof. solve_core_upd. Qed.
#[export] Instance core_sys o n : CoreUpd (set_system_call o n).
Proof. solve_core_upd. Qed.
#[export] Instance core_parent v : CoreUpd (set_parent v).
Proof. solve_core_upd. Qed.
#[export] Instance core_child v : CoreUpd (set_child v).
Proof. solve_core_upd. Qed.
#[export] Instance core_brother v : CoreUpd (set_brother v).
Proof. solve_core_upd. Qed.
#[export] Instance core_map_p_s g : CoreUpd (fun pr => set_p_s (g (p_s pr)) pr).
Proof. solve_core_upd. Qed.
#[export] Instance core_interval t :
  CoreUpd (fun pr => set_cpu_time (i32 (cpu_time pr + i32 (t - start_time pr))) pr).
Proof. solve_core_upd. Qed.

Definition upd_core (p : Z) (f : proc_t -> proc_t) (s : procq) : procq :=
  set_proc_table (alter f p (proc_table s)) s.

Record same_queues (s s' : procq) : Prop := {
  sq_cell : forall n, cell s' n = cell s n;
  sq_qc : forall q, qc s' q = qc s q;
  sq_semv : forall q i, semv s' q i = semv s q i;
  sq_head : free_head s' = free_head s;
  sq_dom : forall q, is_Some (proc_table s' !! q) <-> is_Some (proc_table s !! q) }.

Lemma upd_core_same p f s : CoreUpd f -> same_queues s (upd_core p f s).
Proof.
  intros [H1 H2 H3 H4]. split; unfold cell, qc, semv; simpl; intros;
    try (rewrite lookup_alter; case_decide; [subst |done]); try done.
  - destruct (proc_table s !! next n) as [pr|]; [simpl; by rewrite H1 | done].
  - destruct (proc_table s !! q) as [pr|]; [simpl; by rewrite H2 | done].
  - destruct (proc_table s !! q) as [pr|]; [simpl; by rewrite H3 | done].
  - apply fmap_is_Some.
Qed.

Lemma upd_core_pcore p f s q : CoreUpd f -> pcore (upd_core p f s) q = upd p f (pcore s) q.
Proof.
  intros [_ _ _ H]. unfold upd, pcore. simpl. rewrite lookup_alter.
  destruct (decide (p = q)) as [->|Hne].
  - rewrite decide_True by done. destruct (proc_table s !! q) as [pr|]; [simpl; by rewrite H | done].
  - rewrite decide_False by congruence. by rewrite option_fmap_id.
Qed.

Lemma same_queues_queues s s' fl qs : same_queues s s' -> queues s fl qs -> queues s' fl qs.
Proof.
  intros [Hc Hq Hs Hh Hd] [[W1 W2 W3] Hf Hnd HQ [L1 L2 L3 L4 L5]]. split.
  - split; [intros q; by rewrite Hd | intros n; by rewrite Hc | intros q i; by rewrite Hs].
  - rewrite Hh. apply (flist_frame s); [| done]. intros r _. apply Hc.
  - done.
  - intros q Hin. apply (queue_frame s); [| by apply HQ]. intros n _. apply Hc.
  - split; [done | done | | done |].
    + intros n c. rewrite Hc. apply L3.
    + intros p Hp. rewrite Hq. by apply L5.
Qed.

Lemma same_queues_repr s pq' tp x : same_queues (a_pq s) pq' -> repr s tp x -> repr (set_a_pq pq' s) tp x.
Proof.
  intros HS (rq & A & H1 & H2 & H3 & HK). exists rq, A. split_and!; [done | done | done |].
  pose proof HK as (_ & F & HI). eapply kinv_pq; [exact HK | |].
  - eapply same_queues_queues; [done | apply HI].
  - intros p _. unfold sems. by rewrite (vec_ext (a_pq s) pq') by (intros; apply HS).
Qed.

(** the count of an entry *)
Lemma repr_qcount s tp x p :
  repr s tp x -> 0 <= p < MAXPROC -> qc (a_pq s) p = Some (Z.of_nat (in_queues p x)).
Proof.
  intros (rq & A & _ & Hr & Hb & _ & F & HI) Hp. pose proof (pi_queues _ _ _ _ _ HI) as HQ.
  rewrite <- (in_queues_pcount _ _ _ _ _ _ HQ Hr Hb). by apply (qu_links _ _ _ HQ).
Qed.

Lemma repr_valid s tp x p : repr s tp x -> is_Some (pcore (a_pq s) p) <-> 0 <= p < MAXPROC.
Proof.
  intros (rq & A & _ & _ & _ & _ & F & HI). unfold pcore. rewrite fmap_is_Some.
  apply (pwf_table _ (qu_pwf _ _ _ (pi_queues _ _ _ _ _ HI))).
Qed.

(** ** The operations, as steps of the abstract state *)

Lemma wp_asl_ {A} (m : MA A) k Q X :
  wp m (k_asl k) (fun a s => Q a (set_k_asl s k)) (fun e s => X e (set_k_asl s k)) -> wp (asl_ m) k Q X.
Proof. apply wp_zoom. Qed.

Section ops.
Context (k : kernel) (x : absq) (m : gmap Z Z) (c : Z -> option proc_t) (r : kernel).
Hypothesis V : kview k x m c r.

Lemma kview_awf : awf x.
Proof. eapply repr_awf, V. Qed.

Lemma kview_valid p : is_Some (c p) <-> 0 <= p < MAXPROC.
Proof. rewrite <- (kv_core _ _ _ _ _ V). eapply repr_valid, V. Qed.

(** an operation on the queues *)
Lemma kview_asl s' x' :
  repr s' (running_queue k) x' -> ints s' = ints (k_asl k) -> frame (k_asl k) s' ->
  kview (set_k_asl s' k) x' m c r.
Proof.
  intros HR Hi Hf. destruct V as [V1 V2 V3 V4]. split; [done | simpl; congruence | | by rewrite <- V4].
  intros q. simpl. by rewrite Hf.
Qed.

Lemma kview_running s' tp x' :
  repr s' tp x' -> ints s' = ints (k_asl k) -> frame (k_asl k) s' ->
  kview (set_running_queue tp (set_k_asl s' k)) x' m c r.
Proof.
  intros HR Hi Hf. destruct V as [V1 V2 V3 V4]. split; [done | simpl; congruence | | by rewrite <- V4].
  intros q. simpl. by rewrite Hf.
Qed.

Lemma wp_head_running Q X : Q (head_or (ready x)) k -> wp head_running k Q X.
Proof.
  intros HQ. unfold head_running. wp_step. wp_step. apply wp_asl_.
  unfold wp. rewrite (headQueue_repr _ _ _ (kv_repr _ _ _ _ _ V)). by destruct k.
Qed.

Lemma wp_insert_running p Q X :
  0 <= p < MAXPROC -> p ∉ free_procs x -> p ∉ ready x -> (in_queues p x < 10)%nat ->
  (forall k', kview k' (set_ready (ready x ++ [p]) x) m c r -> Q tt k') ->
  wp (insert_running p) k Q X.
Proof.
  intros Hp Hf Hr Hc HQ. unfold insert_running. wp_step. wp_step. wp_step. apply wp_asl_.
  wp_apply (insertProc_repr _ _ _ (kv_repr _ _ _ _ _ V) p Hp Hf Hr Hc).
  intros tp' s' (Hi & Hfr & HR). wp_step. by apply HQ, kview_running.
Qed.

Lemma wp_remove_running Q X :
  (forall k', kview k' (set_ready (List.tl (ready x)) x) m c r -> Q (head_or (ready x)) k') ->
  wp remove_running k Q X.
Proof.
  intros HQ. unfold remove_running. wp_step. wp_step. wp_step. apply wp_asl_.
  wp_apply (removeProc_repr _ _ _ (kv_repr _ _ _ _ _ V)).
  intros [tp' rv] s' (Hi & Hfr & Hrv & HR). simpl in Hrv. subst rv. wp_steps. by apply HQ, kview_running.
Qed.

Lemma wp_out_running p Q X :
  0 <= p ->
  (forall k', kview k' (set_ready (filter (fun q => q <> p) (ready x)) x) m c r ->
    Q (if decide (p ∈ ready x) then p else ENULL) k') ->
  wp (out_running p) k Q X.
Proof.
  intros Hp HQ. unfold out_running. wp_step. wp_step. wp_step. apply wp_asl_.
  wp_apply (outProc_repr _ _ _ (kv_repr _ _ _ _ _ V) p Hp).
  intros [tp' rv] s' (Hi & Hfr & Hrv & HR). simpl in Hrv. subst rv. wp_steps. by apply HQ, kview_running.
Qed.

Lemma wp_alloc Q X :
  (free_procs x = [] -> forall k', kview k' x m c r -> Q ENULL k') ->
  (forall p fl, free_procs x = p :: fl -> forall k', kview k' (set_free_procs fl x) m c r -> Q p k') ->
  wp (pq_ allocProc) k Q X.
Proof.
  intros HQ1 HQ2. apply wp_asl_. wp_apply (allocProc_repr _ _ _ (kv_repr _ _ _ _ _ V)).
  intros p s' (Hi & Hfr & HR). destruct (free_procs x) as [|q fl]; destruct HR as [-> HR].
  - by apply HQ1, kview_asl.
  - by eapply HQ2, kview_asl.
Qed.

Lemma wp_free p Q X :
  0 <= p < MAXPROC -> p ∉ free_procs x -> in_queues p x = 0%nat ->
  (forall k', kview k' (set_free_procs (free_procs x ++ [p]) x) m c r -> Q tt k') ->
  wp (pq_ (freeProc p)) k Q X.
Proof.
  intros Hp Hf Hc HQ. apply wp_asl_. wp_apply (freeProc_repr _ _ _ (kv_repr _ _ _ _ _ V) p Hp Hf Hc).
  intros [] s' (Hi & Hfr & HR). by apply HQ, kview_asl.
Qed.

Lemma wp_insertBlocked a p Q X :
  0 <= p < MAXPROC -> a <> ENULL -> p ∉ free_procs x -> p ∉ waiters a (blocked x) ->
  (in_queues p x < 10)%nat ->
  (a ∉ keys (blocked x) -> length (blocked x) = 20%nat ->
    forall k', kview k' x m c r -> Q TRUE k') ->
  (a ∈ keys (blocked x) \/ (length (blocked x) < 20)%nat ->
    forall k', kview k' (set_blocked (suspend a p (blocked x)) x) m c r -> Q FALSE k') ->
  wp (asl_ (insertBlocked a p)) k Q X.
Proof.
  intros Hp Ha Hf Hw Hc HQ1 HQ2. apply wp_asl_.
  wp_apply (insertBlocked_repr _ _ _ (kv_repr _ _ _ _ _ V) a p Hp Ha Hf Hw Hc).
  intros b s' (Hi & Hfr & HR). pose proof (aw_descriptors _ kview_awf) as Hd.
  destruct (decide (a ∉ keys (blocked x) /\ length (blocked x) = 20%nat)) as [[H1 H2]|H]; destruct HR as [-> HR].
  - apply HQ1; [done | done |]. subst s'. apply kview_asl; [apply V | done | done].
  - apply HQ2; [| by apply kview_asl]. destruct (decide (a ∈ keys (blocked x))); [by left | right]. assert (length (blocked x) <> 20%nat) by (intros E; by apply H). lia.
Qed.

Lemma wp_removeBlocked a Q X :
  a <> ENULL ->
  (forall k', kview k' (set_blocked (resume a (blocked x)) x) m c r ->
    Q (head_or (waiters a (blocked x))) k') ->
  wp (asl_ (removeBlocked a)) k Q X.
Proof.
  intros Ha HQ. apply wp_asl_. wp_apply (removeBlocked_repr _ _ _ (kv_repr _ _ _ _ _ V) a Ha).
  intros b s' (Hi & Hfr & -> & HR). by apply HQ, kview_asl.
Qed.

Lemma wp_outBlocked p Q X :
  0 <= p < MAXPROC -> (forall a, a ∈ waits_for p (blocked x) -> is_Some (m !! a)) ->
  (forall k' m', (forall a, m' !! a =
      (if decide (a ∈ waits_for p (blocked x)) then fun v => i32 (v + 1) else id) <$> m !! a) ->
    kview k' (set_blocked (leave_all p (blocked x)) x) m' c r ->
    Q (if decide (waits_for p (blocked x) = []) then ENULL else p) k') ->
  wp (asl_ (outBlocked p)) k Q X.
Proof.
  intros Hp Hm HQ. destruct V as [V1 V2 V3 V4]. apply wp_asl_. rewrite <- V2 in Hm.
  wp_apply (outBlocked_repr _ _ _ V1 p Hp Hm). intros b s' (Hfr & -> & Hi & HR).
  apply (HQ _ (ints s')); [intros a; by rewrite Hi, V2 |].
  split; [done | done | intros q; simpl; by rewrite Hfr | by rewrite <- V4].
Qed.

Lemma wp_kheadBlocked a Q X : Q (head_or (waiters a (blocked x))) k -> wp (asl_ (headBlocked a)) k Q X.
Proof.
  intros HQ. apply wp_asl_. unfold wp. rewrite (headBlocked_repr _ _ _ (kv_repr _ _ _ _ _ V)). by destruct k.
Qed.

Lemma wp_kheadASL Q X : Q (if decide (blocked x = []) then FALSE else TRUE) k -> wp (asl_ headASL) k Q X.
Proof.
  intros HQ. apply wp_asl_. unfold wp. rewrite (headASL_repr _ _ _ (kv_repr _ _ _ _ _ V)). by destruct k.
Qed.

Lemma wp_kload a v Q X : m !! a = Some v -> Q v k -> wp (asl_ (load a)) k Q X.
Proof.
  intros Hv HQ. apply wp_asl_. rewrite <- (kv_mem _ _ _ _ _ V) in Hv. eapply wp_load; [done |]. by destruct k.
Qed.

Lemma wp_kstore a v Q X :
  is_Some (m !! a) -> (forall k', kview k' x (<[a := v]> m) c r -> Q tt k') ->
  wp (asl_ (store a v)) k Q X.
Proof.
  destruct V as [V1 V2 V3 V4]. intros Hv HQ. apply wp_asl_. rewrite <- V2 in Hv. apply wp_store; [done |].
  apply HQ. split; [| simpl; by rewrite V2 | done | by rewrite <- V4].
  destruct V1 as (rq & A & H1 & H2 & H3 & Hb & F & [I1 I2 I3]). exists rq, A. split_and!; [done | done | done |].
  split; [done |]. exists F. split; [done | | done]. by apply (semds_frame (k_asl k)).
Qed.

Lemma wp_deref p cp Q X :
  c p = Some cp ->
  (forall pr, core pr = cp -> qcount pr = Z.of_nat (in_queues p x) -> Q pr k) ->
  wp (pq_ (deref p)) k Q X.
Proof.
  intros Hc HQ. assert (0 <= p < MAXPROC) as Hp by (apply kview_valid; by rewrite Hc).
  pose proof (repr_qcount _ _ _ _ (kv_repr _ _ _ _ _ V) Hp) as Hq.
  pose proof (kv_core _ _ _ _ _ V p) as Hcp. rewrite Hc in Hcp. unfold pcore, qc in *.
  destruct (proc_table (a_pq (k_asl k)) !! p) as [pr|] eqn:Hpr; [| done]. simpl in *.
  apply wp_asl_, wp_pq. unfold deref. eapply wp_gets_opt; [exact Hpr |]. rewrite set_a_pq_id.
  replace (set_k_asl (k_asl k) k) with k by by destruct k. apply HQ; congruence.
Qed.

Lemma wp_update p f Q X :
  CoreUpd f -> is_Some (c p) ->
  (forall k', kview k' x m (upd p f c) r -> Q tt k') -> wp (pq_ (update p f)) k Q X.
Proof.
  intros Hf [cp Hc] HQ. destruct V as [V1 V2 V3 V4].
  pose proof (V3 p) as Hcp. rewrite Hc in Hcp. unfold pcore in Hcp.
  destruct (proc_table (a_pq (k_asl k)) !! p) as [pr|] eqn:Hpr; [| done].
  apply wp_asl_, wp_pq. unfold update, deref. wp_step. eapply wp_gets_opt; [exact Hpr |]. wp_step.
  rewrite (insert_is_alter f) by done. apply HQ.
  split; [| done | | by rewrite <- V4].
  - apply (same_queues_repr _ (upd_core p f (a_pq (k_asl k)))); [by apply upd_core_same | done].
  - intros q. change (pcore (upd_core p f (a_pq (k_asl k))) q = upd p f c q).
    rewrite upd_core_pcore by done. unfold upd. by rewrite V3.
Qed.

(** the rest of the state *)
Lemma kview_rest (f : kernel -> kernel) :
  (forall k, k_asl (f k) = k_asl k) -> (forall k, running_queue (f k) = running_queue k) ->
  krest (f k) = f (krest k) -> kview (f k) x m c (f r).
Proof.
  intros H1 H2 H3. destruct V as [V1 V2 V3 V4].
  split; [by rewrite H1, H2 | by rewrite H1 | intros; by rewrite H1 | by rewrite H3, V4].
Qed.

Lemma states_rest : states k = states r.
Proof. by rewrite <- (kv_rest _ _ _ _ _ V). Qed.

Lemma wp_state_at a st Q X : states r !! a = Some st -> Q st k -> wp (state_at a) k Q X.
Proof. rewrite <- states_rest. intros Ha HQ. unfold state_at. by eapply wp_gets_opt. Qed.

Lemma wp_put_state a st Q X :
  is_Some (states r !! a) ->
  (forall k', kview k' x m c (set_states (<[a := st]> (states r)) r) -> Q tt k') ->
  wp (put_state a st) k Q X.
Proof.
  intros [old Ho] HQ. unfold put_state. wp_step. eapply wp_state_at; [done |]. wp_step.
  rewrite states_rest. apply HQ. by apply (kview_rest (set_states (<[a := st]> (states r)))).
Qed.

Lemma wp_put_state_reg a i v st Q X :
  states r !! a = Some st ->
  (forall k', kview k' x m c (set_states (<[a := set_reg i v st]> (states r)) r) -> Q tt k') ->
  wp (put_state_reg a i v) k Q X.
Proof.
  intros Ha HQ. unfold put_state_reg. wp_step. eapply wp_state_at; [done |].
  apply wp_put_state; [by rewrite Ha | done].
Qed.

Lemma devregs_rest : devregs k = devregs r.
Proof. by rewrite <- (kv_rest _ _ _ _ _ V). Qed.

Lemma wp_devreg a d Q X : devregs r !! a = Some d -> Q d k -> wp (devreg a) k Q X.
Proof. rewrite <- devregs_rest. intros Ha HQ. unfold devreg. by eapply wp_gets_opt. Qed.

Lemma wp_put_devreg a f d Q X :
  devregs r !! a = Some d ->
  (forall k', kview k' x m c (set_devregs (<[a := f d]> (devregs r)) r) -> Q tt k') ->
  wp (put_devreg a f) k Q X.
Proof.
  intros Ha HQ. unfold put_devreg. wp_step. eapply wp_devreg; [done |]. wp_step.
  rewrite devregs_rest. apply HQ. by apply (kview_rest (set_devregs (<[a := f d]> (devregs r)))).
Qed.

Lemma wp_STCK `{Machine} Q X :
  (forall k', kview k' x m c (set_readings (S (readings r)) r) -> Q (clk (readings r)) k') ->
  wp STCK k Q X.
Proof.
  intros HQ. unfold STCK. wp_steps. replace (readings k) with (readings r) by by rewrite <- (kv_rest _ _ _ _ _ V).
  apply HQ. by apply (kview_rest (set_readings (S (readings r)))).
Qed.
End ops.
