(* ===== verification/NucleusSpec.v ===== *)
(** * The nucleus: the dispatcher, semaphores and interrupts

    What [schedule], [intdeadlock], [intsemop], [wake], the wait calls and the
    interrupt handlers do to the abstract state of [KernelSpec.v]. *)

From S2P Require Export KernelSpec Nucleus.
Local Open Scope kernel_scope.

(** the semaphores of the nucleus are above the vectors, the areas and the device
    registers, and distinct *)
Class MachineOk `{Machine} : Prop := {
  mo_dev : 0x1500 <= addr_dev_sem;
  mo_clock : 0x1500 <= addr_clock_lock;
  mo_distinct : forall i, 0 <= i < 15 -> addr_clock_lock <> addr_dev_sem + 4 * i }.

(** [m] does not return: it leaves with [X] *)
Abbreviation leaves_with m k X := (wp m k (fun _ _ => False) X).

(** a step of symbolic execution, [V] being the view of the current state *)
Ltac k_step V :=
  lazymatch goal with
  | |- wp head_running _ _ _ => eapply (wp_head_running _ _ _ _ _ V)
  | |- wp (asl_ (headBlocked _)) _ _ _ => eapply (wp_kheadBlocked _ _ _ _ _ V)
  | |- wp (asl_ headASL) _ _ _ => eapply (wp_kheadASL _ _ _ _ _ V)
  | |- wp (asl_ (load _)) _ _ _ => eapply (wp_kload _ _ _ _ _ V); [try eassumption |]
  | |- wp (state_at _) _ _ _ => eapply (wp_state_at _ _ _ _ _ V); [try eassumption |]
  | |- wp (devreg _) _ _ _ => eapply (wp_devreg _ _ _ _ _ V); [try eassumption |]
  | _ => wp_step
  end; cbv beta.

Lemma head_or_null l : (forall p, p ∈ l -> 0 <= p) -> head_or l = ENULL <-> l = [].
Proof.
  intros Hl. destruct l as [|p l]; [done |]. split; [| done]. simpl. intros ->.
  pose proof (Hl ENULL ltac:(left)). by unfold ENULL in *.
Qed.

Lemma ready_valid x p : awf x -> p ∈ ready x -> 0 <= p < MAXPROC /\ p ∉ free_procs x.
Proof. intros W Hp. destruct (aw_queue _ W (ready x)) as [_ Hq]; [left | by apply Hq]. Qed.

Lemma waiters_in a B p : p ∈ waiters a B -> waiters a B ∈ snd <$> B.
Proof.
  induction B as [|[b q] B IH]; simpl; [by intros ?%elem_of_nil |]. case_Z; intros Hp; [left | right; by apply IH].
Qed.

Lemma waiters_valid x a p : awf x -> p ∈ waiters a (blocked x) -> 0 <= p < MAXPROC /\ p ∉ free_procs x.
Proof.
  intros W Hp. destruct (aw_queue _ W (waiters a (blocked x))) as [_ Hq]; [| by apply Hq].
  right. by eapply waiters_in.
Qed.

Lemma head_ready x : awf x -> head_or (ready x) = ENULL <-> ready x = [].
Proof. intros W. apply head_or_null. intros p Hp. by apply (ready_valid x p W). Qed.
Lemma head_waiters x a : awf x -> head_or (waiters a (blocked x)) = ENULL <-> waiters a (blocked x) = [].
Proof. intros W. apply head_or_null. intros p Hp. by apply (waiters_valid x a p W). Qed.

(** a process that waits or is ready is in some queue *)
Lemma in_queues_zero p x :
  in_queues p x = 0%nat <-> p ∉ ready x /\ forall q, q ∈ snd <$> blocked x -> p ∉ q.
Proof.
  unfold in_queues. rewrite filter_cons. split.
  - case_decide as Hr; simpl; [lia |]. intros Hl. split; [done |]. intros q Hq Hp.
    apply nil_length_inv in Hl.
    assert (q ∈ filter (fun q => p ∈ q) (snd <$> blocked x)) as Hin by by apply list_elem_of_filter.
    rewrite Hl in Hin. by apply elem_of_nil in Hin.
  - intros [Hr Hq]. rewrite decide_False by done.
    destruct (filter (fun q => p ∈ q) (snd <$> blocked x)) as [|q l] eqn:E; [done |]. exfalso.
    assert (q ∈ filter (fun q => p ∈ q) (snd <$> blocked x)) as Hin by (rewrite E; left).
    apply list_elem_of_filter in Hin as [Hp Hin]. by apply (Hq q).
Qed.

Section nucleus.
Context `{MachineOk}.

(** ** [printer] *)

(** the device registers and the buffer after a message is printed *)
Definition printed (msg : string) (d : Z) (r : kernel) : kernel :=
  set_devregs (<[d := mk_devreg IOWRITE (Z.of_nat (String.length msg)) addr_message NORMAL]> (devregs r))
    (set_chars (<[addr_message := msg]> (chars r)) r).

(** the printer is there, and is ready in time *)
Record printer_ok (r : kernel) (d : Z) : Prop := {
  po_arr : dev_arr r !! 5 = Some d;
  po_reg : is_Some (devregs r !! d);
  po_ready : exists n, (n < poll_fuel)%nat /\ prn_stat n = NORMAL }.

Lemma dev_arr_rest k x m c r : kview k x m c r -> dev_arr k = dev_arr r.
Proof. intros V. by rewrite <- (kv_rest _ _ _ _ _ V). Qed.

Lemma wp_dev_reg k x m c r i d Q X :
  kview k x m c r -> dev_arr r !! i = Some d -> Q d k -> wp (dev_reg i) k Q X.
Proof. intros V Hd HQ. rewrite <- (dev_arr_rest _ _ _ _ _ V) in Hd. unfold dev_reg. by eapply wp_gets_opt. Qed.

Lemma poll_printer_spec x m c d op da ba Q X :
  forall fuel n k r st, kview k x m c r -> dev_arr r !! 5 = Some d ->
  devregs r !! d = Some (mk_devreg op da ba st) ->
  (exists i, (i < fuel)%nat /\ prn_stat (n + i) = NORMAL) ->
  (forall k', kview k' x m c (set_devregs (<[d := mk_devreg op da ba NORMAL]> (devregs r)) r) -> Q tt k') ->
  wp (poll_printer fuel n) k Q X.
Proof.
  induction fuel as [|fuel IH]; intros n k r st V Hd Hr (i & Hi & Hs) HQ; [lia |].
  simpl. wp_step. eapply wp_dev_reg; [exact V | exact Hd |]. wp_step.
  eapply (wp_put_devreg _ _ _ _ _ V); [exact Hr |]. intros k1 V1. simpl in V1.
  wp_step. eapply (wp_devreg _ _ _ _ _ V1); [apply lookup_insert_eq |]. simpl.
  case_Z; simpl.
  - apply wp_ret, HQ. by rewrite <- e.
  - eapply (IH (S n) k1 _ (prn_stat n)); [exact V1 | done | apply lookup_insert_eq | |].
    + destruct i as [|i]; [by rewrite Nat.add_0_r in Hs |]. exists i. split; [lia |].
      by rewrite <- Nat.add_succ_comm in Hs.
    + simpl. rewrite insert_insert_eq. apply HQ.
Qed.

Lemma wp_print_message msg k x m c r d Q X :
  kview k x m c r -> printer_ok r d ->
  (forall k', kview k' x m c (printed msg d r) -> Q tt k') -> wp (print_message msg) k Q X.
Proof.
  intros V [Hd [reg Hr] Hready] HQ. unfold print_message. wp_step. wp_step.
  assert (chars k = chars r) as -> by by rewrite <- (kv_rest _ _ _ _ _ V).
  assert (kview (set_chars (<[addr_message := msg]> (chars r)) k) x m c
    (set_chars (<[addr_message := msg]> (chars r)) r)) as V1 by by apply (kview_rest _ _ _ _ _ V (set_chars _)).
  wp_step. eapply wp_dev_reg; [exact V1 | exact Hd |].
  wp_step. eapply (wp_put_devreg _ _ _ _ _ V1); [exact Hr |]. intros k2 V2. simpl in V2.
  wp_step. eapply (wp_put_devreg _ _ _ _ _ V2); [apply lookup_insert_eq |]. intros k3 V3.
  wp_step. eapply (wp_put_devreg _ _ _ _ _ V3); [apply lookup_insert_eq |]. intros k4 V4.
  wp_step. eapply (wp_put_devreg _ _ _ _ _ V4); [apply lookup_insert_eq |]. intros k5 V5.
  simpl in V5. rewrite !insert_insert_eq in V5.
  eapply poll_printer_spec; [exact V5 | exact Hd | apply lookup_insert_eq | |].
  - destruct Hready as (n & Hn & Hs). by exists n.
  - intros k6 V6. apply HQ. simpl in V6. by rewrite insert_insert_eq in V6.
Qed.

(** ** [intdeadlock] *)

Definition dev_waiting (B : blist) : bool :=
  existsb (fun i => negb (bool_decide (waiters (dev_sem i) B = []))) (seqZ 0 15).

Lemma blocked_devices_spec k x m c r Q X :
  kview k x m c r -> awf x ->
  Q (if dev_waiting (blocked x) then 1 else 0) k -> wp (blocked_devices 0 15 0) k Q X.
Proof.
  intros V W HQ.
  assert (forall n i b, wp (blocked_devices i n b) k (fun v k' => k' = k /\
    v = if existsb (fun i => negb (bool_decide (waiters (dev_sem i) (blocked x) = []))) (seqZ i (Z.of_nat n))
        then 1 else b) X) as Hgen.
  { induction n as [|n IH]; intros i b; simpl; [by apply wp_ret |].
    wp_step. k_step V. rewrite seqZ_cons by lia.
    replace (Z.pred (Z.of_nat (S n))) with (Z.of_nat n) by lia. rewrite <- Z.add_1_r. simpl existsb.
    eapply wp_mono; [apply IH | | done]. cbv beta. intros v k' [-> ->]. split; [done |].
    pose proof (head_waiters x (dev_sem i) W) as Hw.
    destruct (existsb _ (seqZ (i + 1) (Z.of_nat n))); [by rewrite orb_true_r |]. rewrite orb_false_r.
    case_bool_decide as Hb; simpl; [rewrite (proj2 Hw Hb); done |].
    rewrite (proj2 (Z.eqb_neq _ _)); [done | tauto]. }
  eapply wp_mono; [apply (Hgen 15%nat 0 0) | | done]. by intros v k' [-> ->].
Qed.

(** how the nucleus waits or halts when no process is ready *)
Definition idle (x : absq) (m : gmap Z Z) (c : Z -> option proc_t) (r : kernel) (e : exn) (k' : kernel) : Prop :=
  if negb (bool_decide (waiters clock_lock (blocked x) = [])) then
    e = Leave STOP /\ kview k' x m c (set_timer quantum r)
  else if dev_waiting (blocked x) then e = Leave STOP /\ kview k' x m c r
  else e = Leave HALT /\ exists d, dev_arr r !! 5 = Some d /\
    kview k' x m c (printed (if bool_decide (blocked x = []) then "nucleus: normal termination"
                             else "nucleus: deadlock termination")%string d r).

Lemma intdeadlock_spec k x m c r d :
  kview k x m c r -> printer_ok r d -> leaves_with intdeadlock k (idle x m c r).
Proof.
  intros V P. pose proof (kview_awf _ _ _ _ _ V) as W. unfold intdeadlock, idle.
  wp_step. eapply blocked_devices_spec; [exact V | done |]. wp_step. k_step V.
  pose proof (head_waiters x clock_lock W) as Hw. case_bool_decide as Hc; simpl.
  - rewrite (proj2 Hw Hc). simpl. destruct (dev_waiting (blocked x)); simpl; [by apply wp_raise |].
    wp_step. k_step V. case_bool_decide as Hb.
    + rewrite decide_True by done. simpl. wp_step. eapply wp_print_message; [exact V | done |].
      intros k' V'. apply wp_raise. split; [done |]. exists d. split; [apply P | done].
    + rewrite decide_False by done. simpl. wp_step. eapply wp_print_message; [exact V | done |].
      intros k' V'. apply wp_raise. split; [done |]. exists d. split; [apply P | done].
  - rewrite (proj2 (Z.eqb_neq _ _)) by tauto. simpl. unfold intschedule, LDIT. wp_step. wp_step. apply wp_raise.
    split; [done |]. by apply (kview_rest _ _ _ _ _ V (set_timer quantum)).
Qed.

(** ** [schedule] *)

(** the running process [p] gets the processor *)
Definition dispatched (p : Z) (x : absq) (m : gmap Z Z) (c : Z -> option proc_t) (r : kernel)
    (e : exn) (k' : kernel) : Prop :=
  exists cp, c p = Some cp /\ e = Leave (LDST (p_s cp)) /\
    kview k' x m (upd p (set_start_time (clk (readings r))) c)
      (set_readings (S (readings r)) (set_timer quantum r)).

Definition scheduled (x : absq) (m : gmap Z Z) (c : Z -> option proc_t) (r : kernel)
    (e : exn) (k' : kernel) : Prop :=
  match ready x with
  | p :: _ => dispatched p x m c r e k'
  | [] => idle x m c r e k'
  end.

Lemma idle_kview x m c r e k : idle x m c r e k -> exists r', kview k x m c r'.
Proof.
  unfold idle. case_bool_decide; simpl; [| intros [_ V]; eauto].
  destruct (dev_waiting (blocked x)); [intros [_ V]; eauto |]. intros (_ & d & _ & V). eauto.
Qed.

Lemma scheduled_awf x m c r e k : scheduled x m c r e k -> awf x.
Proof.
  unfold scheduled. destruct (ready x); [intros (r' & V)%idle_kview | intros (cp & _ & _ & V)]; by eapply kview_awf.
Qed.

Lemma wp_start_time k x m c r p Q X :
  kview k x m c r -> is_Some (c p) ->
  (forall k', kview k' x m (upd p (set_start_time (clk (readings r))) c) (set_readings (S (readings r)) r) -> Q tt k') ->
  wp (start_time p) k Q X.
Proof.
  intros V Hp HQ. unfold start_time. wp_step. eapply (wp_STCK _ _ _ _ _ V). intros k1 V1.
  eapply (wp_update _ _ _ _ _ V1); [apply _ | done | done].
Qed.

Lemma wp_get_interval k x m c r p Q X :
  kview k x m c r -> is_Some (c p) ->
  (forall k', kview k' x m
     (upd p (fun pr => set_cpu_time (i32 (cpu_time pr + i32 (clk (readings r) - Procq.start_time pr))) pr) c)
     (set_readings (S (readings r)) r) -> Q tt k') ->
  wp (get_interval p) k Q X.
Proof.
  intros V Hp HQ. unfold get_interval. wp_step. eapply (wp_STCK _ _ _ _ _ V). intros k1 V1.
  eapply (wp_update _ _ _ _ _ V1); [apply _ | done | done].
Qed.

Lemma ready_core k x m c r p : kview k x m c r -> p ∈ ready x -> is_Some (c p).
Proof. intros V Hp. eapply kview_valid; [exact V |]. eapply ready_valid; [by eapply kview_awf | done]. Qed.

Lemma schedule_spec k x m c r :
  kview k x m c r -> (ready x = [] -> exists d, printer_ok r d) ->
  leaves_with schedule k (scheduled x m c r).
Proof.
  intros V P. pose proof (kview_awf _ _ _ _ _ V) as W. unfold schedule, scheduled. wp_step. k_step V.
  pose proof (head_ready x W) as Hh.
  destruct (ready x) as [|p q] eqn:Hr.
  - simpl. destruct (P eq_refl) as [d Pd]. by eapply intdeadlock_spec.
  - simpl in Hh |- *. rewrite (proj2 (Z.eqb_neq _ _)).
    2: { intros E. by apply Hh in E. }
    unfold intschedule, LDIT. wp_step. wp_step.
    assert (kview (set_timer quantum k) x m c (set_timer quantum r)) as V1
      by by apply (kview_rest _ _ _ _ _ V (set_timer quantum)).
    wp_step. k_step V1. rewrite Hr. simpl. wp_step.
    destruct (ready_core _ _ _ _ _ p V) as [cp Hcp]; [rewrite Hr; left |].
    eapply (wp_start_time _ _ _ _ _ _ _ _ V1); [by rewrite Hcp |]. intros k2 V2. simpl in V2.
    wp_step. eapply (wp_deref _ _ _ _ _ V2); [rewrite upd_eq, Hcp; done |].
    intros pr Hpr _. apply wp_raise. exists cp. split_and!; [done | | done].
    assert (p_s (core pr) = p_s pr) as <- by by destruct pr. rewrite Hpr. by destruct cp.
Qed.

(** ** [wake] and the semaphore operations *)

(** a process leaves its last semaphore queue for the ready queue *)
Definition abs_wake (p : Z) (x : absq) : absq :=
  if decide (p <> ENULL /\ in_queues p x = 0%nat) then set_ready (ready x ++ [p]) x else x.

(** the queues after a V on the semaphore [a] with value [v] *)
Definition abs_V (a v : Z) (x : absq) : absq :=
  if v <? 0 then abs_wake (head_or (waiters a (blocked x))) (set_blocked (resume a (blocked x)) x) else x.

(** [p] blocks on [a]: nothing happens when there is no descriptor left *)
Definition abs_block (a p : Z) (x : absq) : absq :=
  if decide (a ∉ keys (blocked x) /\ length (blocked x) = 20%nat) then x
  else set_blocked (suspend a p (blocked x)) x.

Lemma wp_wake k x m c r p Q X :
  kview k x m c r -> (p <> ENULL -> 0 <= p < MAXPROC /\ p ∉ free_procs x) ->
  (forall k', kview k' (abs_wake p x) m c r -> Q tt k') -> wp (wake p) k Q X.
Proof.
  intros V Hp HQ. unfold wake, abs_wake in *. case_Z; simpl.
  { apply wp_ret, HQ. rewrite decide_False by tauto. done. }
  destruct (Hp n) as [Hv Hf]. destruct (proj2 (kview_valid _ _ _ _ _ V p) Hv) as [cp Hcp].
  wp_step. eapply (wp_deref _ _ _ _ _ V); [exact Hcp |]. intros pr _ Hq. rewrite Hq.
  destruct (decide (in_queues p x = 0%nat)) as [H1|H1].
  - rewrite H1. simpl. apply in_queues_zero in H1 as H2. rewrite decide_True in HQ by done.
    eapply (wp_insert_running _ _ _ _ _ V); [done | done | tauto | lia | done].
  - rewrite (proj2 (Z.eqb_neq _ _)) by lia. apply wp_ret, HQ. by rewrite decide_False by tauto.
Qed.

Lemma wp_incr k x m c r a v Q X :
  kview k x m c r -> m !! a = Some v ->
  (forall k', kview k' x (<[a := i32 (v + 1)]> m) c r -> Q v k') -> wp (incr a) k Q X.
Proof.
  intros V Hv HQ. unfold incr. wp_step. k_step V. wp_step.
  eapply (wp_kstore _ _ _ _ _ V); [by rewrite Hv |]. intros k1 V1. by apply wp_ret, HQ.
Qed.

Lemma wp_decr k x m c r a v Q X :
  kview k x m c r -> m !! a = Some v ->
  (forall k', kview k' x (<[a := i32 (v - 1)]> m) c r -> Q (i32 (v - 1)) k') -> wp (decr a) k Q X.
Proof.
  intros V Hv HQ. unfold decr. wp_step. k_step V. wp_step.
  eapply (wp_kstore _ _ _ _ _ V); [by rewrite Hv |]. intros k1 V1. by apply wp_ret, HQ.
Qed.

Lemma head_waiters_valid x a :
  awf x -> head_or (waiters a (blocked x)) <> ENULL ->
  0 <= head_or (waiters a (blocked x)) < MAXPROC /\ head_or (waiters a (blocked x)) ∉ free_procs x.
Proof.
  intros W Hh. pose proof (waiters_valid x a) as Hw. destruct (waiters a (blocked x)) as [|p q]; [done |].
  apply Hw; [done | left].
Qed.

Lemma wp_wake_waiter k x m c r a Q X :
  kview k x m c r -> a <> ENULL ->
  (forall k', kview k' (abs_wake (head_or (waiters a (blocked x))) (set_blocked (resume a (blocked x)) x)) m c r -> Q tt k') ->
  wp (let! removed := asl_ (removeBlocked a) in wake removed) k Q X.
Proof.
  intros V Ha HQ. wp_step. eapply (wp_removeBlocked _ _ _ _ _ V); [done |]. intros k1 V1.
  eapply wp_wake; [exact V1 | | done]. apply (head_waiters_valid x a). by eapply kview_awf.
Qed.

Lemma wp_V k x m c r a v Q X :
  kview k x m c r -> m !! a = Some v -> a <> ENULL ->
  (forall k', kview k' (abs_V a v x) (<[a := i32 (v + 1)]> m) c r -> Q tt k') ->
  wp (intsemop a UNLOCK) k Q X.
Proof.
  intros V Hv Ha HQ. unfold intsemop. simpl. wp_step. eapply wp_incr; [exact V | exact Hv |].
  intros k1 V1. unfold abs_V in HQ. destruct (v <? 0); [| by apply wp_ret, HQ].
  by eapply wp_wake_waiter.
Qed.

(** the head of the ready queue is in no other queue *)
Definition alone (x : absq) : Prop :=
  match ready x with [] => True | p :: _ => in_queues p x = 1%nat end.

Lemma alone_blocked x p q :
  ready x = p :: q -> alone x ->
  (forall l, l ∈ snd <$> blocked x -> p ∉ l) /\ (awf x -> in_queues p (set_ready q x) = 0%nat).
Proof.
  unfold alone, in_queues. intros Hr. rewrite Hr. rewrite filter_cons_True by left. simpl.
  intros [= Hl]. apply nil_length_inv in Hl.
  assert (forall l, l ∈ snd <$> blocked x -> p ∉ l) as Hb.
  { intros l Hin Hp. assert (l ∈ filter (fun q => p ∈ q) (snd <$> blocked x)) as Hf by by apply list_elem_of_filter.
    rewrite Hl in Hf. by apply elem_of_nil in Hf. }
  split; [done |]. intros W. apply (in_queues_zero p (set_ready q x)). simpl. split; [| done].
  destruct (aw_queue _ W (ready x)) as [Hnd _]; [left |]. rewrite Hr in Hnd. by apply NoDup_cons in Hnd as [? _].
Qed.

Lemma alone_waiters x p q a : ready x = p :: q -> alone x -> p ∉ waiters a (blocked x).
Proof.
  intros Hr Ha Hp. destruct (alone_blocked x p q Hr Ha) as [Hb _].
  apply (Hb (waiters a (blocked x))); [by eapply waiters_in | done].
Qed.

Lemma wp_block {A} k x m c r a p q (mk : MK A) Q X :
  kview k x m c r -> ready x = p :: q -> alone x -> a <> ENULL ->
  (forall k', kview k' (abs_block a p (set_ready q x)) m c r -> wp mk k' Q X) ->
  wp (let! removed := remove_running in
      (if negb (removed =? ENULL) then
         let! _ := asl_ (insertBlocked a removed) in ret tt
       else ret tt) ;; mk) k Q X.
Proof.
  intros V Hr Hal Ha HQ. pose proof (kview_awf _ _ _ _ _ V) as W.
  destruct (alone_blocked x p q Hr Hal) as [_ Hc]. specialize (Hc W).
  destruct (ready_valid x p W) as [Hp Hf]; [rewrite Hr; left |].
  pose proof (alone_waiters x p q a Hr Hal) as Hw.
  wp_step. eapply (wp_remove_running _ _ _ _ _ V). intros k1 V1. rewrite Hr in V1 |- *. simpl in V1 |- *.
  rewrite (proj2 (Z.eqb_neq _ _)) by (unfold ENULL; lia). simpl. wp_step. wp_step. unfold abs_block in HQ.
  eapply (wp_insertBlocked _ _ _ _ _ V1); [done | done | done | done | lia | |].
  - intros H1 H2 k2 V2. apply wp_ret, HQ. by rewrite decide_True.
  - intros Hroom k2 V2. apply wp_ret, HQ. rewrite decide_False; [done |].
    intros [H1 H2]. simpl in *. destruct Hroom; [done | lia].
Qed.

Lemma leaves_schedule {A} k x m c r d (Q : A -> kernel -> Prop) (X : exn -> kernel -> Prop) :
  kview k x m c r -> printer_ok r d -> (forall e k', scheduled x m c r e k' -> X e k') ->
  forall mk : MK A, wp (schedule ;; mk) k Q X.
Proof.
  intros V P HX mk. wp_step. eapply wp_mono; [eapply schedule_spec; [exact V | by exists d] | by intros | done].
Qed.

Lemma wp_P k x m c r d a p q v Q X :
  kview k x m c r -> printer_ok r d -> ready x = p :: q -> alone x -> a <> ENULL -> m !! a = Some v ->
  (0 <= i32 (v - 1) -> forall k', kview k' x (<[a := i32 (v - 1)]> m) c r -> Q tt k') ->
  (i32 (v - 1) < 0 -> forall e k',
    scheduled (abs_block a p (set_ready q x)) (<[a := i32 (v - 1)]> m) c r e k' -> X e k') ->
  wp (intsemop a LOCK) k Q X.
Proof.
  intros V P Hr Hal Ha Hv HQ HX. unfold intsemop. change (LOCK =? LOCK) with true. cbv iota. wp_step.
  eapply wp_decr; [exact V | exact Hv |]. intros k1 V1. case_Z; [| by apply wp_ret, HQ].
  eapply wp_block; [exact V1 | done | done | done |]. intros k2 V2.
  eapply wp_mono; [eapply schedule_spec; [exact V2 | by exists d] | by intros | by apply HX].
Qed.

(** ** SYS7 and SYS8 *)

Lemma ready_head_core k x m c r p q : kview k x m c r -> ready x = p :: q -> is_Some (c p).
Proof. intros V Hr. eapply ready_core; [exact V |]. rewrite Hr. left. Qed.

Lemma dev_sem_ne i : 0 <= i < 15 -> dev_sem i <> ENULL.
Proof. unfold dev_sem, ENULL. destruct H0 as [Hd _ _]. lia. Qed.
Lemma clock_lock_ne : clock_lock <> ENULL.
Proof. unfold clock_lock, ENULL. destruct H0 as [_ Hd _]. lia. Qed.

Lemma waitforpclock_spec k x m c r d p q old st v :
  kview k x m c r -> printer_ok r d -> ready x = p :: q -> alone x ->
  states r !! old = Some st -> m !! clock_lock = Some v -> - 2 ^ 31 < v <= 0 ->
  leaves_with (waitforpclock old) k
    (scheduled (abs_block clock_lock p (set_ready q x)) (<[clock_lock := v - 1]> m) (upd p (set_p_s st) c) r).
Proof.
  intros V P Hr Hal Hst Hv Hle. unfold waitforpclock. wp_step. k_step V. wp_step. k_step V. wp_step.
  rewrite Hr. simpl head_or. unfold put_p_s.
  eapply (wp_update _ _ _ _ _ V); [apply _ | by eapply ready_head_core |]. intros k1 V1.
  assert (i32 (v - 1) = v - 1) as E by (apply i32_id; unfold in_i32; lia).
  eapply (wp_P _ _ _ _ _ d _ p q v _ _ V1); [done | done | done | apply clock_lock_ne | done | |]; rewrite E.
  - lia.
  - done.
Qed.

(** the state saved for a device whose interrupt came before the wait *)
Definition give_saved (sv : saved_info) (st : state_t) : state_t :=
  set_reg 3%fin (stat sv) (set_reg 2%fin (amnt sv) st).

Lemma save_arr_rest k x m c r : kview k x m c r -> save_arr k = save_arr r.
Proof. intros V. by rewrite <- (kv_rest _ _ _ _ _ V). Qed.

Lemma wp_saved k x m c r i sv Q X :
  kview k x m c r -> save_arr r !! i = Some sv -> Q sv k -> wp (saved i) k Q X.
Proof. intros V Hd HQ. rewrite <- (save_arr_rest _ _ _ _ _ V) in Hd. unfold saved. by eapply wp_gets_opt. Qed.

Lemma wp_put_saved k x m c r i sv Q X :
  kview k x m c r -> is_Some (save_arr r !! i) ->
  (forall k', kview k' x m c (set_save_arr (<[i := sv]> (save_arr r)) r) -> Q tt k') ->
  wp (put_saved i sv) k Q X.
Proof.
  intros V [old Ho] HQ. unfold put_saved. wp_step. eapply wp_saved; [exact V | exact Ho |]. wp_step.
  rewrite (save_arr_rest _ _ _ _ _ V). apply HQ. by apply (kview_rest _ _ _ _ _ V (set_save_arr _)).
Qed.

Lemma waitforio_saved k x m c r old st sv :
  let dev := s_r st !!! 4%fin in
  kview k x m c r -> states r !! old = Some st -> m !! dev_sem dev = Some 1 ->
  save_arr r !! dev = Some sv ->
  returns (waitforio old) k (fun _ k' =>
    kview k' x (<[dev_sem dev := 0]> m) c (set_states (<[old := give_saved sv st]> (states r)) r)).
Proof.
  intros dev V Hst Hv Hsv. unfold waitforio. wp_step. k_step V. fold dev. wp_step. k_step V. simpl.
  wp_step. eapply (wp_kstore _ _ _ _ _ V); [by rewrite Hv |]. intros k1 V1.
  wp_step. eapply wp_saved; [exact V1 | exact Hsv |]. wp_step.
  eapply (wp_put_state_reg _ _ _ _ _ V1); [exact Hst |]. intros k2 V2.
  wp_step. eapply wp_saved; [exact V2 | exact Hsv |].
  eapply (wp_put_state_reg _ _ _ _ _ V2); [apply lookup_insert_eq |]. intros k3 V3.
  simpl in V3. by rewrite insert_insert_eq in V3.
Qed.

Lemma waitforio_waits k x m c r d p q old st v :
  let dev := s_r st !!! 4%fin in
  kview k x m c r -> printer_ok r d -> ready x = p :: q -> alone x -> 0 <= dev < 15 ->
  states r !! old = Some st -> m !! dev_sem dev = Some v -> - 2 ^ 31 < v <= 0 ->
  leaves_with (waitforio old) k
    (scheduled (abs_block (dev_sem dev) p (set_ready q x)) (<[dev_sem dev := v - 1]> m) (upd p (set_p_s st) c) r).
Proof.
  intros dev V P Hr Hal Hdev Hst Hv Hle. unfold waitforio. wp_step. k_step V. fold dev. wp_step. k_step V.
  rewrite (proj2 (Z.eqb_neq v 1)) by lia. wp_step. k_step V. wp_step. k_step V. wp_step.
  rewrite Hr. simpl head_or. unfold put_p_s.
  eapply (wp_update _ _ _ _ _ V); [apply _ | by eapply ready_head_core |]. intros k1 V1.
  assert (i32 (v - 1) = v - 1) as E by (apply i32_id; unfold in_i32; lia).
  eapply (wp_P _ _ _ _ _ d _ p q v _ _ V1); [done | done | done | by apply dev_sem_ne | done | |]; rewrite E.
  - lia.
  - done.
Qed.

(** ** [inthandler] *)

Lemma kview_core_ext k x m c c' r : (forall q, c' q = c q) -> kview k x m c r -> kview k x m c' r.
Proof. intros Hc [V1 V2 V3 V4]. split; [done | done | intros q; by rewrite Hc | done]. Qed.

Lemma upd_upd p f g c q : upd p f (upd p g c) q = upd p (fun pr => f (g pr)) c q.
Proof. unfold upd. case_decide; by destruct (c q). Qed.

(** the device registers in d2 and d3 of a process *)
Definition io_state (dr : devreg_t) (st : state_t) : state_t :=
  set_reg 3%fin (i32 (d_stat dr)) (set_reg 2%fin (i32 (d_amnt dr)) st).
Definition io_result (dr : devreg_t) (pr : proc_t) : proc_t := set_p_s (io_state dr (p_s pr)) pr.

(** the device at position [pos] is there *)
Record device_ok (r : kernel) (pos : Z) (dr : devreg_t) : Prop := {
  do_pos : 0 <= pos < 15;
  do_reg : exists d, dev_arr r !! pos = Some d /\ devregs r !! d = Some dr;
  do_saved : is_Some (save_arr r !! pos) }.

(** the interrupt comes after the wait: the first waiter gets the registers *)
Lemma inthandler_waiting k x m c r type dev dr p q :
  let pos := dev_pos type dev in
  kview k x m c r -> device_ok r pos dr -> m !! dev_sem pos = Some (-1) ->
  waiters (dev_sem pos) (blocked x) = p :: q ->
  returns (inthandler type dev) k (fun _ k' =>
    kview k' (abs_V (dev_sem pos) (-1) x) (<[dev_sem pos := 0]> m) (upd p (io_result dr) c) r).
Proof.
  intros pos V [Hpos (d & Hd & Hdr) _] Hv Hw. unfold inthandler. cbv zeta. fold pos. wp_step. k_step V.
  change (-1 =? -1) with true. cbv iota. wp_step. k_step V. rewrite Hw. simpl head_or.
  wp_step. eapply wp_dev_reg; [exact V | exact Hd |]. wp_step. k_step V. wp_step.
  assert (is_Some (c p)) as Hc.
  { eapply kview_valid; [exact V |]. eapply waiters_valid; [by eapply kview_awf | rewrite Hw; left]. }
  unfold put_p_s_reg.
  eapply (wp_update _ _ _ _ _ V); [apply (core_map_p_s (set_reg 2%fin (i32 (d_amnt dr)))) | done |]. intros k1 V1.
  wp_step. k_step V1. wp_step.
  eapply (wp_update _ _ _ _ _ V1); [apply (core_map_p_s (set_reg 3%fin (i32 (d_stat dr)))) | |].
  { rewrite upd_eq. by apply fmap_is_Some. }
  intros k2 V2. eapply wp_V; [exact V2 | exact Hv | by apply dev_sem_ne |].
  intros k3 V3. eapply kview_core_ext; [| exact V3]. intros q'. rewrite upd_upd.
  unfold upd. destruct (decide (q' = p)) as [->|]; [| done]. destruct (c p) as [[]|]; done.
Qed.

(** the interrupt comes before the wait: the registers are saved *)
Lemma inthandler_saves k x m c r type dev dr v :
  let pos := dev_pos type dev in
  kview k x m c r -> device_ok r pos dr -> m !! dev_sem pos = Some v -> v <> -1 ->
  returns (inthandler type dev) k (fun _ k' =>
    kview k' x (<[dev_sem pos := i32 (v + 1)]> m) c
      (set_save_arr (<[pos := mk_saved (i32 (d_amnt dr)) (i32 (d_stat dr))]> (save_arr r)) r)).
Proof.
  intros pos V [Hpos (d & Hd & Hdr) [sv Hsv]] Hv Hne. unfold inthandler. cbv zeta. fold pos. wp_step. k_step V.
  rewrite (proj2 (Z.eqb_neq _ _)) by done. wp_step.
  eapply (wp_kstore _ _ _ _ _ V); [by rewrite Hv |]. intros k1 V1.
  wp_step. eapply wp_dev_reg; [exact V1 | exact Hd |]. wp_step. k_step V1.
  wp_step. eapply wp_saved; [exact V1 | exact Hsv |]. wp_step.
  eapply wp_put_saved; [exact V1 | by rewrite Hsv |]. intros k2 V2.
  wp_step. k_step V2. wp_step. eapply wp_saved; [exact V2 | apply lookup_insert_eq |].
  eapply wp_put_saved; [exact V2 | simpl; by rewrite lookup_insert_eq |]. intros k3 V3.
  simpl in V3. by rewrite insert_insert_eq in V3.
Qed.

(** what [inthandler] does, in both cases; the semaphore protocol is that a value
    of -1 means a waiter *)
Definition interrupted (pos : Z) (dr : devreg_t) (v : Z) (x : absq) (m : gmap Z Z)
    (c : Z -> option proc_t) (r : kernel) (k' : kernel) : Prop :=
  let m' := <[dev_sem pos := i32 (v + 1)]> m in
  if v =? -1 then
    kview k' (abs_V (dev_sem pos) v x) m' (upd (head_or (waiters (dev_sem pos) (blocked x))) (io_result dr) c) r
  else kview k' x m' c
    (set_save_arr (<[pos := mk_saved (i32 (d_amnt dr)) (i32 (d_stat dr))]> (save_arr r)) r).

Lemma inthandler_spec k x m c r type dev dr v :
  let pos := dev_pos type dev in
  kview k x m c r -> device_ok r pos dr -> m !! dev_sem pos = Some v ->
  (v = -1 -> waiters (dev_sem pos) (blocked x) <> []) ->
  returns (inthandler type dev) k (fun _ k' => interrupted pos dr v x m c r k').
Proof.
  intros pos V D Hv Hprot. unfold interrupted. case_Z.
  - subst v. destruct (waiters (dev_sem pos) (blocked x)) as [|p q] eqn:Hw; [by destruct Hprot |].
    by eapply inthandler_waiting.
  - by apply inthandler_saves.
Qed.

(** ** The handlers *)

(** a device interrupt: the interrupted process goes on; when there is none, the
    nucleus dispatches *)
Lemma device_handler_running k x m c r type old st dr v p q :
  let pos := dev_pos type (in_dno (s_tmp st)) in
  kview k x m c r -> states r !! old k = Some st -> ready x = p :: q ->
  device_ok r pos dr -> m !! dev_sem pos = Some v ->
  (v = -1 -> waiters (dev_sem pos) (blocked x) <> []) ->
  leaves_with (device_handler type old) k (fun e k' =>
    e = Leave (LDST st) /\ interrupted pos dr v x m c r k').
Proof.
  intros pos V Hst Hr D Hv Hprot. pose proof (kview_awf _ _ _ _ _ V) as W.
  unfold device_handler. wp_step. k_step V. rewrite Hr. simpl head_or. wp_step. wp_step. wp_step. k_step V.
  wp_step. wp_apply (inthandler_spec _ _ _ _ _ _ _ _ _ V D Hv Hprot). intros [] k1 HI.
  destruct (ready_valid x p W) as [Hp _]; [rewrite Hr; left |].
  rewrite (proj2 (Z.eqb_neq _ _)) by (unfold ENULL; lia). simpl. wp_step.
  fold pos in HI. pose proof HI as HI'. unfold interrupted in HI'. destruct (v =? -1).
  - eapply (wp_state_at _ _ _ _ _ HI'); [exact Hst |]. by apply wp_raise.
  - eapply (wp_state_at _ _ _ _ _ HI'); [exact Hst |]. by apply wp_raise.
Qed.

Lemma device_handler_idle k x m c r type old st dr v d :
  let pos := dev_pos type (in_dno (s_tmp st)) in
  kview k x m c r -> printer_ok r d -> states r !! old k = Some st -> ready x = [] ->
  device_ok r pos dr -> m !! dev_sem pos = Some v ->
  (v = -1 -> waiters (dev_sem pos) (blocked x) <> []) ->
  leaves_with (device_handler type old) k (fun e k' =>
    let m' := <[dev_sem pos := i32 (v + 1)]> m in
    if v =? -1 then
      scheduled (abs_V (dev_sem pos) v x) m'
        (upd (head_or (waiters (dev_sem pos) (blocked x))) (io_result dr) c) r e k'
    else scheduled x m' c
      (set_save_arr (<[pos := mk_saved (i32 (d_amnt dr)) (i32 (d_stat dr))]> (save_arr r)) r) e k').
Proof.
  intros pos V P Hst Hr D Hv Hprot.
  unfold device_handler. wp_step. k_step V. rewrite Hr. simpl head_or. wp_step. wp_step. wp_step. k_step V.
  wp_step. wp_apply (inthandler_spec _ _ _ _ _ _ _ _ _ V D Hv Hprot). intros [] k1 HI.
  change (negb (ENULL =? ENULL)) with false. cbv iota. fold pos in HI. unfold interrupted in HI.
  destruct (v =? -1).
  - eapply schedule_spec; [exact HI | by exists d].
  - eapply schedule_spec; [exact HI |]. exists d. by destruct P.
Qed.

(** ** The clock interrupt *)

(** the running process goes to the tail, its time is charged, its state saved *)
Definition preempted (t : Z) (st : state_t) (pr : proc_t) : proc_t :=
  set_p_s st (set_cpu_time (i32 (cpu_time pr + i32 (t - Procq.start_time pr))) pr).

(** the V on the pseudo-clock semaphore, of value [v], when it is due *)
Definition clock_due (cnt : Z) (x : absq) : bool :=
  (clock_interrupt_time <=? cnt) && negb (bool_decide (waiters clock_lock (blocked x) = [])).
Definition tick_queues (cnt v : Z) (x : absq) : absq :=
  if clock_due cnt x then abs_V clock_lock v x else x.
Definition tick_mem (cnt v : Z) (x : absq) (m : gmap Z Z) : gmap Z Z :=
  if clock_due cnt x then <[clock_lock := i32 (v + 1)]> m else m.
Definition tick_count (cnt : Z) : Z := if clock_interrupt_time <=? cnt then 0 else cnt.

(** the second part of the clock handler *)
Definition clock_tail : MK unit :=
  let! c := gets clock_count in
  (if clock_interrupt_time <=? c then
     modify (set_clock_count 0) ;;
     let! h := asl_ (headBlocked clock_lock) in
     (if negb (h =? ENULL) then intsemop clock_lock UNLOCK else ret tt)
   else ret tt) ;;
  schedule.

Lemma clock_tail_spec k x m c r d v :
  kview k x m c r -> printer_ok r d -> m !! clock_lock = Some v ->
  leaves_with clock_tail k
    (scheduled (tick_queues (clock_count r) v x) (tick_mem (clock_count r) v x m) c
       (set_clock_count (tick_count (clock_count r)) r)).
Proof.
  intros V P Hv. pose proof (kview_awf _ _ _ _ _ V) as W. unfold clock_tail. wp_step. wp_step.
  assert (clock_count k = clock_count r) as -> by by rewrite <- (kv_rest _ _ _ _ _ V).
  assert (forall cnt, kview (set_clock_count cnt k) x m c (set_clock_count cnt r)) as V1.
  { intros cnt. by apply (kview_rest _ _ _ _ _ V (set_clock_count cnt)). }
  assert (forall r, set_clock_count (clock_count r) r = r) as Hsame by by intros [].
  unfold tick_queues, tick_mem, tick_count, clock_due. wp_step. case_Z; cbn [andb].
  - wp_step. wp_step. wp_step. k_step (V1 0). pose proof (head_waiters x clock_lock W) as Hw.
    case_bool_decide as Hb; simpl.
    + rewrite (proj2 Hw Hb). simpl. apply wp_ret. eapply schedule_spec; [apply V1 | by exists d; destruct P].
    + rewrite (proj2 (Z.eqb_neq _ _)) by tauto. simpl.
      eapply wp_V; [apply V1 | exact Hv | apply clock_lock_ne |]. intros k2 V2.
      eapply schedule_spec; [exact V2 | by exists d; destruct P].
  - apply wp_ret. rewrite Hsame. eapply schedule_spec; [exact V | by exists d].
Qed.

Lemma intclockhandler_running k x m c r d p q st v :
  kview k x m c r -> printer_ok r d -> ready x = p :: q -> alone x ->
  states r !! old_clock_state r = Some st -> m !! clock_lock = Some v ->
  let x1 := set_ready (q ++ [p]) x in
  let cnt := i32 (clock_count r + quantum) in
  leaves_with intclockhandler k
    (scheduled (tick_queues cnt v x1) (tick_mem cnt v x1 m) (upd p (preempted (clk (readings r)) st) c)
       (set_clock_count (tick_count cnt) (set_readings (S (readings r)) r))).
Proof.
  intros V P Hr Hal Hst Hv x1 cnt. pose proof (kview_awf _ _ _ _ _ V) as W.
  destruct (alone_blocked x p q Hr Hal) as [_ Hc]. specialize (Hc W).
  destruct (ready_valid x p W) as [Hp Hf]; [rewrite Hr; left |].
  destruct (ready_head_core _ _ _ _ _ _ _ V Hr) as [cp Hcp].
  unfold intclockhandler. wp_step. k_step V. wp_step. wp_step.
  assert (clock_count k = clock_count r) as -> by by rewrite <- (kv_rest _ _ _ _ _ V).
  assert (kview (set_clock_count cnt k) x m c (set_clock_count cnt r)) as V1
    by by apply (kview_rest _ _ _ _ _ V (set_clock_count cnt)).
  rewrite Hr. simpl head_or. rewrite (proj2 (Z.eqb_neq _ _)) by (unfold ENULL; lia). cbn [negb].
  wp_step. wp_step. eapply (wp_remove_running _ _ _ _ _ V1). intros k2 V2. rewrite Hr in V2 |- *. simpl in V2 |- *.
  wp_step. eapply wp_get_interval; [exact V2 | by rewrite Hcp |]. intros k3 V3. simpl in V3.
  wp_step. wp_step. wp_step.
  assert (old_clock_state k3 = old_clock_state r) as -> by exact (f_equal old_clock_state (kv_rest _ _ _ _ _ V3)).
  eapply (wp_state_at _ _ _ _ _ V3); [exact Hst |]. wp_step.
  eapply (wp_update _ _ _ _ _ V3); [apply _ | by rewrite upd_eq, Hcp |]. intros k4 V4.
  apply in_queues_zero in Hc as Hc2. simpl in Hc2.
  eapply (wp_insert_running _ _ _ _ _ V4); [done | done | tauto | lia |]. intros k5 V5. simpl in V5.
  assert (kview k5 x1 m (upd p (preempted (clk (readings r)) st) c)
    (set_readings (S (readings r)) (set_clock_count cnt r))) as V6.
  { eapply kview_core_ext; [| exact V5]. intros q'. by rewrite upd_upd. }
  eapply (clock_tail_spec _ _ _ _ _ d _ V6); [by destruct P | exact Hv].
Qed.

Lemma intclockhandler_idle k x m c r d v :
  kview k x m c r -> printer_ok r d -> ready x = [] -> m !! clock_lock = Some v ->
  let cnt := i32 (clock_count r + quantum) in
  leaves_with intclockhandler k
    (scheduled (tick_queues cnt v x) (tick_mem cnt v x m) c (set_clock_count (tick_count cnt) r)).
Proof.
  intros V P Hr Hv cnt. unfold intclockhandler. wp_step. k_step V. wp_step. wp_step.
  assert (clock_count k = clock_count r) as -> by by rewrite <- (kv_rest _ _ _ _ _ V).
  assert (kview (set_clock_count cnt k) x m c (set_clock_count cnt r)) as V1
    by by apply (kview_rest _ _ _ _ _ V (set_clock_count cnt)).
  rewrite Hr. simpl head_or. change (negb (ENULL =? ENULL)) with false. cbv iota. wp_step. wp_step.
  eapply (clock_tail_spec _ _ _ _ _ d _ V1); [by destruct P | exact Hv].
Qed.
End nucleus.
