(* ===== verification/SyscallSpec.v ===== *)
(** * The nucleus: the system calls and traps *)

From S2P Require Export NucleusSpec Syscall.
Local Open Scope kernel_scope.

Section syscall.
Context `{MachineOk}.

(** ** SYS3

    The vector of operations as a list of pairs (operation, semaphore), and the
    run of the operations on the queues, the semaphores and the flag.  [None] is a
    vector the code does not handle: a semaphore outside memory, a second P on a
    semaphore the process already waits for, an eleventh queue. *)

Record sem_state := mk_ss { ss_queues : absq; ss_mem : gmap Z Z; ss_flag : bool }.

Definition sem_step (cur : Z) (oa : Z * Z) (ss : sem_state) : option sem_state :=
  let 'mk_ss x m flag := ss in
  let a := oa.2 in
  match m !! a with
  | None => None
  | Some v =>
      if oa.1 =? LOCK then
        if i32 (v - 1) <? 0 then
          if bool_decide (a <> ENULL /\ cur ∉ waiters a (blocked x) /\ (in_queues cur x < 10)%nat)
          then Some (mk_ss (abs_block a cur x) (<[a := i32 (v - 1)]> m) true)
          else None
        else Some (mk_ss x (<[a := i32 (v - 1)]> m) flag)
      else if bool_decide (a <> ENULL) then Some (mk_ss (abs_V a v x) (<[a := i32 (v + 1)]> m) flag)
      else None
  end.

Fixpoint sem_run (cur : Z) (ops : list (Z * Z)) (ss : sem_state) : option sem_state :=
  match ops with
  | [] => Some ss
  | oa :: ops' =>
      match sem_step cur oa ss with
      | Some ss' => sem_run cur ops' ss'
      | None => None
      end
  end.

(** [m] holds the vector [ops] at [addr] *)
Fixpoint vector_at (m : gmap Z Z) (addr : Z) (ops : list (Z * Z)) : Prop :=
  match ops with
  | [] => True
  | (op, a) :: ops' =>
      m !! addr = Some op /\ m !! (addr + 4) = Some a /\ vector_at m (addr + VPOP_SIZE) ops'
  end.

(** no semaphore of [ops] is a cell of the vector *)
Definition apart (addr n : Z) (ops : list (Z * Z)) : Prop :=
  forall oa, oa ∈ ops -> ~ addr <= oa.2 < addr + VPOP_SIZE * n.

Lemma vector_at_insert m addr ops a v n :
  0 <= n -> Z.of_nat (length ops) <= n -> ~ addr <= a < addr + VPOP_SIZE * n ->
  vector_at m addr ops -> vector_at (<[a := v]> m) addr ops.
Proof.
  revert addr n. induction ops as [|[op b] ops IH]; intros addr n Hn Hl Ha; [done |].
  simpl in *. unfold VPOP_SIZE in *. intros (H1 & H2 & H3).
  rewrite !lookup_insert_ne by lia. split_and!; [done | done |].
  apply (IH _ (n - 1)); [lia | lia | lia | done].
Qed.

(** the effect of one iteration *)
Definition sem_core (cur : Z) (st : state_t) (flag : bool) (c : Z -> option proc_t) : Z -> option proc_t :=
  if flag then upd cur (set_p_s st) c else c.

Lemma sem_core_again cur st c q : upd cur (set_p_s st) (upd cur (set_p_s st) c) q = upd cur (set_p_s st) c q.
Proof. rewrite upd_upd. unfold upd. case_decide; [| done]. by destruct (c q) as [[]|]. Qed.

Lemma sem_core_some cur st flag c : is_Some (c cur) -> is_Some (sem_core cur st flag c cur).
Proof. intros Hc. unfold sem_core. destruct flag; [| done]. rewrite upd_eq. by apply fmap_is_Some. Qed.

Definition flag_Z (b : bool) : Z := if b then 1 else 0.

Lemma Sem_OP_step_spec k x m c r old st cur addr op a flag ss' :
  kview k x m (sem_core cur st flag c) r -> states r !! old = Some st -> is_Some (c cur) ->
  cur ∉ free_procs x ->
  m !! addr = Some op -> m !! (addr + 4) = Some a -> a <> addr + 4 ->
  sem_step cur (op, a) (mk_ss x m flag) = Some ss' ->
  returns (Sem_OP_step old cur addr (flag_Z flag)) k (fun f k' =>
    f = flag_Z (ss_flag ss') /\
    kview k' (ss_queues ss') (ss_mem ss') (sem_core cur st (ss_flag ss') c) r).
Proof.
  intros V Hst Hc Hf Hop Ha Hne Hs. unfold sem_step in Hs. cbn [fst snd] in Hs.
  destruct (m !! a) as [v|] eqn:Hv; [| done].
  assert (forall w, <[a := w]> m !! (addr + 4) = Some a) as Ha' by (intros w; by rewrite lookup_insert_ne).
  unfold Sem_OP_step. wp_step. k_step V. wp_step. k_step V. destruct (op =? LOCK).
  - wp_step. eapply wp_decr; [exact V | exact Hv |]. intros k1 V1. destruct (i32 (v - 1) <? 0).
    + case_bool_decide as Hok; [| done]. destruct Hok as (Ha0 & Hw & Hq). injection Hs as <-. simpl.
      wp_step. eapply (wp_state_at _ _ _ _ _ V1); [exact Hst |]. wp_step.
      eapply (wp_update _ _ _ _ _ V1); [apply _ | by apply sem_core_some |]. intros k2 V2.
      wp_step. eapply (wp_kload _ _ _ _ _ V2); [apply Ha' |].
      assert (kview k2 x (<[a := i32 (v - 1)]> m) (upd cur (set_p_s st) c) r) as V3.
      { eapply kview_core_ext; [| exact V2]. intros q. destruct flag; [symmetry; apply sem_core_again | done]. }
      wp_step. destruct (kview_valid _ _ _ _ _ V3 cur) as [Hv1 _].
      eapply (wp_insertBlocked _ _ _ _ _ V3); [apply Hv1; rewrite upd_eq; by apply fmap_is_Some | done | done | done | done | |];
        unfold abs_block.
      * intros H1 H2 k4 V4. apply wp_ret. by rewrite decide_True.
      * intros Hroom k4 V4. apply wp_ret. split; [done |]. rewrite decide_False; [done |].
        intros [H1 H2]. destruct Hroom; [done | lia].
    + injection Hs as <-. by apply wp_ret.
  - case_bool_decide as Hok; [| done]. injection Hs as <-. simpl.
    wp_step. eapply wp_incr; [exact V | exact Hv |]. intros k1 V1. unfold abs_V.
    destruct (v <? 0); [| by apply wp_ret].
    wp_step. eapply (wp_kload _ _ _ _ _ V1); [apply Ha' |]. wp_step.
    eapply (wp_removeBlocked _ _ _ _ _ V1); [done |]. intros k2 V2. wp_step.
    eapply wp_wake; [exact V2 | | intros k3 V3; by apply wp_ret].
    apply (head_waiters_valid x a). by eapply kview_awf.
Qed.

Lemma sem_step_mem cur oa ss ss' :
  sem_step cur oa ss = Some ss' -> exists w, ss_mem ss' = <[oa.2 := w]> (ss_mem ss).
Proof.
  destruct ss as [x m flag]. unfold sem_step. destruct (m !! oa.2); [| done].
  intros Hs. simpl. repeat case_match; try done; injection Hs as <-; simpl; eauto.
Qed.

Lemma abs_wake_free p x : free_procs (abs_wake p x) = free_procs x.
Proof. unfold abs_wake. by case_decide. Qed.
Lemma abs_V_free a v x : free_procs (abs_V a v x) = free_procs x.
Proof. unfold abs_V. destruct (v <? 0); [by rewrite abs_wake_free | done]. Qed.
Lemma abs_block_free a p x : free_procs (abs_block a p x) = free_procs x.
Proof. unfold abs_block. by case_decide. Qed.

Lemma sem_step_free cur oa ss ss' :
  sem_step cur oa ss = Some ss' -> free_procs (ss_queues ss') = free_procs (ss_queues ss).
Proof.
  destruct ss as [x m flag]. unfold sem_step. destruct (m !! oa.2); [| done].
  intros Hs. simpl. repeat case_match; try done; injection Hs as <-; simpl;
    by rewrite ?abs_V_free, ?abs_block_free.
Qed.

Lemma Sem_OP_loop_spec old st cur r c : states r !! old = Some st -> is_Some (c cur) ->
  forall ops k x m addr flag ss',
  kview k x m (sem_core cur st flag c) r -> cur ∉ free_procs x -> vector_at m addr ops ->
  apart addr (Z.of_nat (length ops)) ops -> sem_run cur ops (mk_ss x m flag) = Some ss' ->
  returns (Sem_OP_loop (length ops) old cur addr (flag_Z flag)) k (fun f k' =>
    f = flag_Z (ss_flag ss') /\
    kview k' (ss_queues ss') (ss_mem ss') (sem_core cur st (ss_flag ss') c) r).
Proof.
  intros Hst Hc. induction ops as [|[op a] ops IH]; intros k x m addr flag ss' V Hf Hvec Hap Hrun.
  { injection Hrun as <-. by apply wp_ret. }
  cbn [sem_run] in Hrun. destruct (sem_step cur (op, a) (mk_ss x m flag)) as [ss1|] eqn:Hs; [| done].
  destruct Hvec as (Hop & Ha & Hvec). pose proof (Hap (op, a) ltac:(left)) as Hout. simpl in Hout. unfold VPOP_SIZE in Hout.
  simpl Sem_OP_loop. wp_step.
  wp_apply (Sem_OP_step_spec _ _ _ _ _ _ _ _ _ _ _ _ _ V Hst Hc Hf Hop Ha); [lia | exact Hs |].
  intros f k1 (-> & V1). destruct (sem_step_mem _ _ _ _ Hs) as [w Hm]. simpl in Hm.
  pose proof (sem_step_free _ _ _ _ Hs) as Hfr. simpl in Hfr. destruct ss1 as [x1 m1 flag1]. simpl in *.
  eapply (IH k1 x1 m1 (addr + VPOP_SIZE) flag1 ss'); [exact V1 | by rewrite Hfr | | | done].
  - rewrite Hm. apply (vector_at_insert _ _ _ _ _ (Z.of_nat (length ops))); [lia | lia | | done].
    unfold VPOP_SIZE. lia.
  - intros oa Hin. pose proof (Hap oa ltac:(by right)) as Ho. unfold VPOP_SIZE in *. lia.
Qed.

Lemma Sem_OP_spec k x m c r d old st p q ops ss' :
  kview k x m c r -> printer_ok r d -> ready x = p :: q -> states r !! old = Some st ->
  s_r st !!! 3%fin = Z.of_nat (length ops) -> vector_at m (s_r st !!! 4%fin) ops ->
  apart (s_r st !!! 4%fin) (Z.of_nat (length ops)) ops ->
  sem_run p ops (mk_ss x m false) = Some ss' ->
  let x' := ss_queues ss' in
  wp (Sem_OP old) k
    (fun _ k' => ss_flag ss' = false /\ kview k' x' (ss_mem ss') c r)
    (fun e k' => ss_flag ss' = true /\
       scheduled (set_ready (List.tl (ready x')) x') (ss_mem ss') (upd p (set_p_s st) c) r e k').
Proof.
  intros V P Hr Hst Hn Hvec Hap Hrun x'. unfold Sem_OP. wp_step. k_step V. rewrite Hr. simpl head_or.
  wp_step. k_step V. wp_step. rewrite Hn, Nat2Z.id.
  destruct (ready_valid x p (kview_awf _ _ _ _ _ V)) as [_ Hf]; [rewrite Hr; left |].
  wp_apply (Sem_OP_loop_spec old st p r c Hst (ready_head_core _ _ _ _ _ _ _ V Hr) ops k x m _ false ss' V Hf Hvec Hap Hrun).
  intros f k1 (-> & V1). destruct (ss_flag ss'); simpl in *; [| by apply wp_ret].
  wp_step. eapply (wp_remove_running _ _ _ _ _ V1). intros k2 V2.
  eapply wp_mono; [eapply schedule_spec; [exact V2 | by exists d] | by intros | done].
Qed.

(** ** SYS5 and SYS6 *)

(** two computations that satisfy the same postconditions are the same *)
Lemma wp_same {E S A} (m m' : M E S A) s :
  (forall Q X, wp m' s Q X -> wp m s Q X) -> m s = m' s.
Proof.
  intros Hw. specialize (Hw (fun a t => m' s = Ret a t) (fun e t => m' s = Exn e t)).
  unfold wp in Hw. destruct (m' s), (m s); try (by specialize (Hw eq_refl)); symmetry; by apply Hw.
Qed.

(** the trap vector of type [t]: the old and the new area *)
Definition trap_areas (t : Z) (pr : proc_t) : Z * Z :=
  if t =? 0 then (prog_old pr, prog_new pr)
  else if t =? 1 then (memory_management_old pr, memory_management_new pr)
  else (system_call_old pr, system_call_new pr).
Definition set_trap_areas (t o n : Z) (pr : proc_t) : proc_t :=
  if t =? 0 then set_prog o n pr else if t =? 1 then set_memory_management o n pr else set_system_call o n pr.

Lemma trap_areas_set t o n pr : trap_areas t (set_trap_areas t o n pr) = (o, n).
Proof. destruct pr. unfold trap_areas, set_trap_areas. by destruct (t =? 0), (t =? 1). Qed.

Lemma three t : 0 <= t <= 2 -> t = 0 \/ t = 1 \/ t = 2.
Proof. lia. Qed.

Lemma core_areas t pr : trap_areas t (core pr) = trap_areas t pr.
Proof. by destruct pr. Qed.

Lemma specify_fresh k x m c r p q cp old st :
  let t := s_r st !!! 2%fin in
  kview k x m c r -> ready x = p :: q -> c p = Some cp -> states r !! old = Some st ->
  0 <= t <= 2 -> (trap_areas t cp).1 = ENULL ->
  returns (Specify_Trap_State_Vector old) k (fun _ k' =>
    kview k' x m (upd p (set_trap_areas t (s_r st !!! 3%fin) (s_r st !!! 4%fin)) c) r).
Proof.
  intros t V Hr Hcp Hst Ht Hold. unfold Specify_Trap_State_Vector. wp_step. k_step V. rewrite Hr. simpl head_or.
  wp_step. k_step V. fold t. wp_step. eapply (wp_deref _ _ _ _ _ V); [exact Hcp |]. intros pr Hpr _.
  rewrite <- Hpr, core_areas in Hold. unfold trap_areas, set_trap_areas in *.
  clearbody t. destruct (three t Ht) as [-> | [-> | ->]]; simpl in *; rewrite Hold;
    (eapply (wp_update _ _ _ _ _ V); [apply _ | by rewrite Hcp | done]).
Qed.

(** a second SYS5 for the same type of trap terminates the process *)
Lemma specify_again k x m c r p q cp old st :
  let t := s_r st !!! 2%fin in
  kview k x m c r -> ready x = p :: q -> c p = Some cp -> states r !! old = Some st ->
  0 <= t <= 2 -> (trap_areas t cp).1 <> ENULL ->
  Specify_Trap_State_Vector old k = Terminate_Process k.
Proof.
  intros t V Hr Hcp Hst Ht Hold. apply wp_same. intros Q X HT. unfold Specify_Trap_State_Vector.
  wp_step. k_step V. rewrite Hr. simpl head_or.
  wp_step. k_step V. fold t. wp_step. eapply (wp_deref _ _ _ _ _ V); [exact Hcp |]. intros pr Hpr _.
  rewrite <- Hpr, core_areas in Hold. unfold trap_areas in Hold.
  clearbody t. destruct (three t Ht) as [-> | [-> | ->]]; simpl in *;
    rewrite (proj2 (Z.eqb_neq _ _)) by done; exact HT.
Qed.

Lemma specify_other k x m c r p q cp old st :
  kview k x m c r -> ready x = p :: q -> c p = Some cp -> states r !! old = Some st ->
  ~ 0 <= s_r st !!! 2%fin <= 2 -> Specify_Trap_State_Vector old k = Ret tt k.
Proof.
  intros V Hr Hcp Hst Ht. apply (wp_same _ (ret tt)). intros Q X HT. unfold Specify_Trap_State_Vector.
  wp_step. k_step V. rewrite Hr. simpl head_or.
  wp_step. k_step V. wp_step. eapply (wp_deref _ _ _ _ _ V); [exact Hcp |]. intros pr Hpr _.
  by rewrite !(proj2 (Z.eqb_neq (s_r st !!! 2%fin) _)) by lia.
Qed.

Lemma core_cpu_time_eq pr : cpu_time (core pr) = cpu_time pr.
Proof. by destruct pr. Qed.

Lemma get_cpu_time_spec k x m c r p q cp old st :
  kview k x m c r -> ready x = p :: q -> c p = Some cp -> states r !! old = Some st ->
  returns (Get_CPU_Time old) k (fun _ k' =>
    kview k' x m c (set_states (<[old := set_reg 2%fin (cpu_time cp) st]> (states r)) r)).
Proof.
  intros V Hr Hcp Hst. unfold Get_CPU_Time. wp_step. k_step V. rewrite Hr. simpl head_or. wp_step.
  eapply (wp_deref _ _ _ _ _ V); [exact Hcp |]. intros pr <- _. rewrite core_cpu_time_eq.
  eapply (wp_put_state_reg _ _ _ _ _ V); [exact Hst | done].
Qed.

(** ** [pass_up] *)

(** a trap is passed up to the handler the process named: the state goes to the
    old area, and the new area is loaded *)
Definition passed_up (p a o n : Z) (st : state_t) (x : absq) (m : gmap Z Z) (c : Z -> option proc_t)
    (r : kernel) (e : exn) (k' : kernel) : Prop :=
  exists st', <[o := st]> (states r) !! n = Some st' /\ e = Leave (LDST st') /\
    kview k' x m (upd p (set_start_time (clk (readings r))) c)
      (set_readings (S (readings r)) (set_states (<[o := st]> (states r)) r)).

Lemma wp_pass_to k x m c r p a o n st (X : exn -> kernel -> Prop) :
  kview k x m c r -> is_Some (c p) -> states r !! a = Some st -> is_Some (states r !! o) -> is_Some (states r !! n) ->
  (forall e k', passed_up p a o n st x m c r e k' -> X e k') ->
  leaves_with (pass_to p a o n) k X.
Proof.
  intros V Hc Ha Ho Hn HX. unfold pass_to. wp_step. k_step V. wp_step.
  eapply (wp_put_state _ _ _ _ _ V); [done |]. intros k1 V1. wp_step.
  eapply wp_start_time; [exact V1 | done |]. intros k2 V2. simpl in V2. wp_step.
  assert (is_Some (<[o := st]> (states r) !! n)) as [st' Hst'].
  { rewrite lookup_insert. by case_decide. }
  eapply (wp_state_at _ _ _ _ _ V2); [exact Hst' |]. apply wp_raise, HX. by exists st'.
Qed.

Lemma pass_up_spec k x m c r p q cp a t st :
  kview k x m c r -> ready x = p :: q -> c p = Some cp -> states r !! a = Some st -> 0 <= t <= 2 ->
  (trap_areas t cp).2 <> ENULL ->
  is_Some (states r !! (trap_areas t cp).1) -> is_Some (states r !! (trap_areas t cp).2) ->
  leaves_with (pass_up a t) k (passed_up p a (trap_areas t cp).1 (trap_areas t cp).2 st x m c r).
Proof.
  intros V Hr Hcp Ha Ht Hnew Ho Hn. unfold pass_up. wp_step. k_step V. rewrite Hr. simpl head_or.
  wp_step. eapply (wp_deref _ _ _ _ _ V); [exact Hcp |]. intros pr Hpr _.
  rewrite <- Hpr, core_areas in Hnew, Ho, Hn |- *. unfold trap_areas in *.
  destruct (three t Ht) as [-> | [-> | ->]]; simpl in *; rewrite (proj2 (Z.eqb_neq _ _)) by done;
    (eapply wp_pass_to; [exact V | by rewrite Hcp | done | done | done | done]).
Qed.

(** a trap without a handler terminates the process *)
Lemma pass_up_none k x m c r p q cp a t :
  kview k x m c r -> ready x = p :: q -> c p = Some cp -> 0 <= t <= 2 ->
  (trap_areas t cp).2 = ENULL -> pass_up a t k = Terminate_Process k.
Proof.
  intros V Hr Hcp Ht Hnew. apply wp_same. intros Q X HT. unfold pass_up. wp_step. k_step V.
  rewrite Hr. simpl head_or. wp_step. eapply (wp_deref _ _ _ _ _ V); [exact Hcp |]. intros pr Hpr _.
  rewrite <- Hpr, core_areas in Hnew. unfold trap_areas in *.
  destruct (three t Ht) as [-> | [-> | ->]]; simpl in *; rewrite Hnew; exact HT.
Qed.

(** ** [trapsyshandler] *)

(** the time since the last dispatch is charged *)
Definition charged (t : Z) (pr : proc_t) : proc_t :=
  set_cpu_time (i32 (cpu_time pr + i32 (t - Procq.start_time pr))) pr.

Lemma areas_charged t v cp : trap_areas t (charged v cp) = trap_areas t cp.
Proof. by destruct cp. Qed.

Lemma sys_area k x m c r : kview k x m c r -> old_sys_call_state k = old_sys_call_state r.
Proof. intros V. by rewrite <- (kv_rest _ _ _ _ _ V). Qed.

(** the two ways through the handler *)
Definition in_user_mode (st : state_t) : bool :=
  negb (ps_s (s_sr st) =? 1) && (1 <=? sys_no (s_tmp st)) && (sys_no (s_tmp st) <=? 8).

Definition as_privileged (st : state_t) : state_t := set_tmp (set_pr_typ PRIVILEGE (s_tmp st)) st.

(** a nucleus call in user mode is a program trap, the privileged instruction *)
Lemma trapsys_user k x m c r p q st (X : exn -> kernel -> Prop) :
  let a := old_sys_call_state r in
  kview k x m c r -> ready x = p :: q -> is_Some (c p) -> states r !! a = Some st -> in_user_mode st = true ->
  (forall k1, kview k1 x m (upd p (charged (clk (readings r))) c)
     (set_states (<[a := as_privileged st]> (states r)) (set_readings (S (readings r)) r)) ->
   leaves_with (pass_up a 0) k1 X) ->
  leaves_with trapsyshandler k X.
Proof.
  intros a V Hr Hcp Hst Hu HP. unfold trapsyshandler. wp_step. k_step V. rewrite Hr. simpl head_or.
  wp_step. eapply wp_get_interval; [exact V | done |]. intros k1 V1. wp_step. wp_step.
  rewrite (sys_area _ _ _ _ _ V1). change (old_sys_call_state (set_readings (S (readings r)) r)) with a.
  wp_step. eapply (wp_state_at _ _ _ _ _ V1); [exact Hst |]. wp_step. unfold in_user_mode in Hu. rewrite Hu.
  wp_step. eapply (wp_put_state _ _ _ _ _ V1); [exact (mk_is_Some _ _ Hst) |]. intros k2 V2.
  eapply wp_mono; [by apply HP | by intros | done].
Qed.

Lemma trapsys_privileged k x m c r p q cp st :
  let a := old_sys_call_state r in
  kview k x m c r -> ready x = p :: q -> c p = Some cp -> states r !! a = Some st ->
  in_user_mode st = true -> prog_new cp <> ENULL ->
  is_Some (states r !! prog_old cp) -> is_Some (states r !! prog_new cp) ->
  leaves_with trapsyshandler k
    (passed_up p a (prog_old cp) (prog_new cp) (as_privileged st) x m
       (upd p (charged (clk (readings r))) c)
       (set_states (<[a := as_privileged st]> (states r)) (set_readings (S (readings r)) r))).
Proof.
  intros a V Hr Hcp Hst Hu Hnew Ho Hn. eapply trapsys_user; [exact V | exact Hr | by rewrite Hcp | exact Hst | done |].
  intros k1 V1. assert (upd p (charged (clk (readings r))) c p = Some (charged (clk (readings r)) cp)) as Hcp2
    by by rewrite upd_eq, Hcp.
  pose proof (areas_charged 0 (clk (readings r)) cp) as Har.
  eapply wp_mono; [eapply (pass_up_spec _ _ _ _ _ p q _ a 0 _ V1 Hr Hcp2) | done |].
  - simpl. apply lookup_insert_eq.
  - lia.
  - by rewrite Har.
  - rewrite Har. simpl. rewrite lookup_insert. by case_decide.
  - rewrite Har. simpl. rewrite lookup_insert. by case_decide.
  - rewrite Har. done.
Qed.

Lemma pr_typ_privileged st : pr_typ (s_tmp (as_privileged st)) = PRIVILEGE.
Proof. destruct st. unfold as_privileged, pr_typ. simpl. unfold set_pr_typ. by rewrite bits_set_bits. Qed.

(** the caller goes on from the state in the old area *)
Definition resumed (p a : Z) (x : absq) (m : gmap Z Z) (c : Z -> option proc_t) (r : kernel)
    (e : exn) (k' : kernel) : Prop :=
  exists st, states r !! a = Some st /\ e = Leave (LDST st) /\
    kview k' x m (upd p (set_start_time (clk (readings r))) c) (set_readings (S (readings r)) r).

(** a call from the nucleus's own mode, or a call above 8, runs the call and goes on *)
Lemma trapsys_call k x m c r p q cp st (X : exn -> kernel -> Prop) :
  let a := old_sys_call_state r in
  kview k x m c r -> ready x = p :: q -> c p = Some cp -> states r !! a = Some st ->
  in_user_mode st = false ->
  (forall k1, kview k1 x m (upd p (charged (clk (readings r))) c) (set_readings (S (readings r)) r) ->
    wp (syscall (sys_no (s_tmp st)) a) k1 (fun _ k2 => exists x2 m2 c2 r2,
      kview k2 x2 m2 c2 r2 /\ is_Some (c2 p) /\ is_Some (states r2 !! a) /\
      forall e k3, resumed p a x2 m2 c2 r2 e k3 -> X e k3) X) ->
  leaves_with trapsyshandler k X.
Proof.
  intros a V Hr Hcp Hst Hu Hcall. unfold trapsyshandler. wp_step. k_step V. rewrite Hr. simpl head_or.
  wp_step. eapply wp_get_interval; [exact V | by rewrite Hcp |]. intros k1 V1. wp_step. wp_step.
  rewrite (sys_area _ _ _ _ _ V1). change (old_sys_call_state (set_readings (S (readings r)) r)) with a.
  wp_step. eapply (wp_state_at _ _ _ _ _ V1); [exact Hst |]. wp_step. unfold in_user_mode in Hu. rewrite Hu.
  wp_step. wp_step. eapply (wp_state_at _ _ _ _ _ V1); [exact Hst |]. wp_step.
  eapply wp_mono; [by apply Hcall | | done]. intros [] k2 (x2 & m2 & c2 & r2 & V2 & Hc2 & [st2 Hst2] & HX).
  cbv beta. wp_step. eapply wp_start_time; [exact V2 | done |]. intros k3 V3. wp_step.
  eapply (wp_state_at _ _ _ _ _ V3); [exact Hst2 |]. apply wp_raise, HX. by exists st2.
Qed.

(** the other two handlers charge the process and pass the trap up *)
Lemma trapmm_passes k x m c r p q (X : exn -> kernel -> Prop) :
  kview k x m c r -> ready x = p :: q -> is_Some (c p) ->
  (forall k1, kview k1 x m (upd p (charged (clk (readings r))) c) (set_readings (S (readings r)) r) ->
   leaves_with (pass_up (old_mm_state r) 1) k1 X) ->
  leaves_with trapmmhandler k X.
Proof.
  intros V Hr Hcp HP. unfold trapmmhandler. wp_step. k_step V. rewrite Hr. simpl head_or.
  wp_step. eapply wp_get_interval; [exact V | done |]. intros k1 V1. wp_step. wp_step.
  assert (old_mm_state k1 = old_mm_state r) as -> by exact (f_equal old_mm_state (kv_rest _ _ _ _ _ V1)).
  by apply HP.
Qed.

Lemma trapprog_passes k x m c r p q (X : exn -> kernel -> Prop) :
  kview k x m c r -> ready x = p :: q -> is_Some (c p) ->
  (forall k1, kview k1 x m (upd p (charged (clk (readings r))) c) (set_readings (S (readings r)) r) ->
   leaves_with (pass_up (old_pro_state r) 0) k1 X) ->
  leaves_with trapproghandler k X.
Proof.
  intros V Hr Hcp HP. unfold trapproghandler. wp_step. k_step V. rewrite Hr. simpl head_or.
  wp_step. eapply wp_get_interval; [exact V | done |]. intros k1 V1. wp_step. wp_step.
  assert (old_pro_state k1 = old_pro_state r) as -> by exact (f_equal old_pro_state (kv_rest _ _ _ _ _ V1)).
  by apply HP.
Qed.

Lemma charged_pass_up k1 x m c r p q cp a ty st t :
  let cp' := charged t cp in
  kview k1 x m (upd p (charged t) c) r -> ready x = p :: q -> c p = Some cp -> states r !! a = Some st ->
  0 <= ty <= 2 -> (trap_areas ty cp).2 <> ENULL ->
  is_Some (states r !! (trap_areas ty cp).1) -> is_Some (states r !! (trap_areas ty cp).2) ->
  leaves_with (pass_up a ty) k1
    (passed_up p a (trap_areas ty cp).1 (trap_areas ty cp).2 st x m (upd p (charged t) c) r).
Proof.
  intros cp' V1 Hr Hcp Hst Hty Hnew Ho Hn.
  assert (upd p (charged t) c p = Some cp') as Hcp2 by by rewrite upd_eq, Hcp.
  rewrite <- (areas_charged ty t cp) in *. by eapply (pass_up_spec _ _ _ _ _ p q _ a ty st V1 Hr Hcp2).
Qed.

Lemma trapmm_spec k x m c r p q cp st :
  let a := old_mm_state r in
  kview k x m c r -> ready x = p :: q -> c p = Some cp -> states r !! a = Some st ->
  memory_management_new cp <> ENULL ->
  is_Some (states r !! memory_management_old cp) -> is_Some (states r !! memory_management_new cp) ->
  leaves_with trapmmhandler k
    (passed_up p a (memory_management_old cp) (memory_management_new cp) st x m
       (upd p (charged (clk (readings r))) c) (set_readings (S (readings r)) r)).
Proof.
  intros a V Hr Hcp Hst Hnew Ho Hn. eapply trapmm_passes; [exact V | exact Hr | by rewrite Hcp |].
  intros k1 V1. by eapply (charged_pass_up k1 x m c _ p q cp a 1 st _ V1).
Qed.

Lemma trapprog_spec k x m c r p q cp st :
  let a := old_pro_state r in
  kview k x m c r -> ready x = p :: q -> c p = Some cp -> states r !! a = Some st ->
  prog_new cp <> ENULL -> is_Some (states r !! prog_old cp) -> is_Some (states r !! prog_new cp) ->
  leaves_with trapproghandler k
    (passed_up p a (prog_old cp) (prog_new cp) st x m
       (upd p (charged (clk (readings r))) c) (set_readings (S (readings r)) r)).
Proof.
  intros a V Hr Hcp Hst Hnew Ho Hn. eapply trapprog_passes; [exact V | exact Hr | by rewrite Hcp |].
  intros k1 V1. by eapply (charged_pass_up k1 x m c _ p q cp a 0 st _ V1).
Qed.
End syscall.
