(* ===== verification/Boot.v ===== *)
(** * Start-up

    [init] and [main] of [src/nucleus/traps/main.c]: the vectors, the new areas,
    the semaphores and the queues the nucleus starts from, and the first process. *)

From S2P Require Export SyscallSpec.
Local Open Scope kernel_scope.

Section boot.
Context `{MachineOk}.

(** ** The vectors *)

Definition with_vectors (l : list (Z * symbol)) (m : gmap Z Z) : gmap Z Z :=
  foldl (fun m af => <[af.1 := sym af.2]> m) m l.

Lemma wp_put_vectors l : forall k x m c r Q X,
  kview k x m c r -> (forall a f, (a, f) ∈ l -> is_Some (m !! a)) ->
  (forall k', kview k' x (with_vectors l m) c r -> Q tt k') ->
  wp (put_vectors l) k Q X.
Proof.
  induction l as [|[a f] l IH]; intros k x m c r Q X V Hm HQ; [by apply wp_ret, HQ |].
  simpl. wp_step. unfold put_vector. eapply (wp_kstore _ _ _ _ _ V); [by apply (Hm a f); left |].
  intros k1 V1. eapply IH; [exact V1 | | exact HQ]. intros b g Hin. rewrite lookup_insert.
  case_decide; [done |]. apply (Hm b g). by right.
Qed.

Lemma with_vectors_other l m a : a ∉ fst <$> l -> with_vectors l m !! a = m !! a.
Proof.
  revert m. induction l as [|[b f] l IH]; intros m; [done |]. simpl.
  intros [Hne Hni]%not_elem_of_cons. unfold with_vectors in *. simpl. rewrite IH by done.
  by rewrite lookup_insert_ne.
Qed.

Lemma with_vectors_in l m a f : NoDup (fst <$> l) -> (a, f) ∈ l -> with_vectors l m !! a = Some (sym f).
Proof.
  revert m. induction l as [|[b g] l IH]; intros m; simpl; [by intros _ ?%elem_of_nil |].
  intros [Hb Hnd]%NoDup_cons [[= <- <-]|Hin]%elem_of_cons.
  - change (with_vectors l (<[a := sym f]> m) !! a = Some (sym f)).
    rewrite with_vectors_other by done. apply lookup_insert_eq.
  - by apply IH.
Qed.

(** ** The areas *)

Lemma wp_init_area k x m c r area h st Q X :
  kview k x m c r -> states r !! (area + STATE_SIZE) = Some st ->
  (forall k', kview k' x m c (set_states (<[area + STATE_SIZE := new_area (sym h) (s_sp (init_state r)) st]> (states r)) r) -> Q tt k') ->
  wp (init_area area h) k Q X.
Proof.
  intros V Hst HQ. unfold init_area. wp_step. wp_step.
  assert (init_state k = init_state r) as -> by by rewrite <- (kv_rest _ _ _ _ _ V).
  wp_step. k_step V. eapply (wp_put_state _ _ _ _ _ V); [exact (mk_is_Some _ _ Hst) | done].
Qed.

(** the handler of a new area runs in the nucleus's mode, with interrupts masked
    and without memory mapping, on the nucleus's stack *)
Lemma new_area_spec h sp st :
  let st' := new_area h sp st in
  s_pc st' = h /\ s_sp st' = sp /\ ps_s (s_sr st') = 1 /\ ps_m (s_sr st') = 0 /\ ps_int (s_sr st') = 7.
Proof.
  assert (forall v st, s_r (set_sr v st) = s_r st) as Hr by by intros ? [].
  unfold s_pc, s_sp, new_area, set_sp, set_pc. rewrite !Hr. split_and!.
  - rewrite reg_set_ne by done. apply reg_set_eq.
  - apply reg_set_eq.
  - by destruct st as [? [] ? ?].
  - by destruct st as [? [] ? ?].
  - by destruct st as [? [] ? ?].
Qed.

Definition interrupt_areas : list (Z * symbol) :=
  [ (0x9c8, sym_intterminalhandler); (0xa60, sym_intprinterhandler); (0xaf8, sym_intdiskhandler);
    (0xb90, sym_intfloppyhandler); (0xc28, sym_intclockhandler) ].
Definition trap_area_list : list (Z * symbol) :=
  [ (0x800, sym_trapproghandler); (0x898, sym_trapmmhandler); (0x930, sym_trapsyshandler) ].
Definition all_areas : list (Z * symbol) := trap_area_list ++ interrupt_areas.

(** ** The device semaphores *)

Definition dev_loop : MK unit :=
  for_ 0 15 (fun i =>
    asl_ (store (dev_sem i) 0) ;;
    let! old := dev_reg i in
    modify (fun k => set_dev_arr (<[i := 0x1400 + i * 0x10]> (dev_arr k)) k)).

Record devs_below (i : Z) (m m' : gmap Z Z) (da da' : array Z) : Prop := {
  db_sem : forall j, 0 <= j < i -> m' !! dev_sem j = Some 0;
  db_other : forall a, (forall j, 0 <= j < i -> a <> dev_sem j) -> m' !! a = m !! a;
  db_arr : forall j, 0 <= j < i -> da' !! j = Some (0x1400 + j * 0x10);
  db_rest : forall j, ~ 0 <= j < i -> da' !! j = da !! j }.

Lemma wp_dev_loop k x m c r Q X :
  kview k x m c r -> (forall i, 0 <= i < 15 -> is_Some (m !! dev_sem i) /\ is_Some (dev_arr r !! i)) ->
  (forall k' m' da', devs_below 15 m m' (dev_arr r) da' -> kview k' x m' c (set_dev_arr da' r) -> Q tt k') ->
  wp dev_loop k Q X.
Proof.
  intros V Hok HQ. apply (wp_for (fun i k' => exists m' da',
    devs_below i m m' (dev_arr r) da' /\ kview k' x m' c (set_dev_arr da' r))).
  - done.
  - exists m, (dev_arr r). split; [| by destruct r]. split; intros; [lia | done | lia | done].
  - intros i k1 Hi (m1 & da1 & [D1 D2 D3 D4] & V1). destruct (Hok i Hi) as [Hm Hd].
    assert (forall j, 0 <= j < i -> dev_sem i <> dev_sem j) as Hne by (intros j Hj; unfold dev_sem; lia).
    wp_step. eapply (wp_kstore _ _ _ _ _ V1); [by rewrite D2 |]. intros k2 V2.
    wp_step. destruct Hd as [d Hd]. eapply wp_dev_reg; [exact V2 | simpl; rewrite D4 by lia; exact Hd |].
    wp_step. assert (dev_arr k2 = da1) as -> by exact (f_equal dev_arr (kv_rest _ _ _ _ _ V2)).
    exists (<[dev_sem i := 0]> m1), (<[i := 0x1400 + i * 0x10]> da1). split.
    + split.
      * intros j Hj. destruct (decide (j = i)) as [->|]; [apply lookup_insert_eq |].
        rewrite lookup_insert_ne by (unfold dev_sem; lia). apply D1. lia.
      * intros a Ha. rewrite lookup_insert_ne by (symmetry; apply Ha; lia). apply D2.
        intros j Hj. apply Ha. lia.
      * intros j Hj. destruct (decide (j = i)) as [->|]; [apply lookup_insert_eq |].
        rewrite lookup_insert_ne by lia. apply D3. lia.
      * intros j Hj. rewrite lookup_insert_ne by lia. apply D4. lia.
    + by apply (kview_rest _ _ _ _ _ V2 (set_dev_arr (<[i := 0x1400 + i * 0x10]> da1))).
  - intros k1 (m1 & da1 & D & V1). by eapply HQ.
Qed.

(** ** [init] *)

Lemma wp_asl_seq {A B C} (m1 : MA A) (m2 : MA B) (m3 : MK C) k Q X :
  returns (m1 ;; m2) (k_asl k) (fun _ s => wp m3 (set_k_asl s k) Q X) ->
  wp (asl_ m1 ;; asl_ m2 ;; m3) k Q X.
Proof.
  unfold wp, bind, asl_, zoom. destruct (m1 (k_asl k)) as [a s|]; [| done]. simpl.
  destruct (m2 s) as [b s'|]; [| done]. by destruct k.
Qed.

(** what the linker and the loader must provide *)
Record loaded (k : kernel) : Prop := {
  ld_procs : pwf (a_pq (k_asl k));
  ld_semds : semd_dom (k_asl k);
  ld_vectors : forall a f, (a, f) ∈ trap_vectors -> is_Some (ints (k_asl k) !! a);
  ld_clock : is_Some (ints (k_asl k) !! clock_lock);
  ld_devs : forall i, 0 <= i < 15 -> is_Some (ints (k_asl k) !! dev_sem i) /\ is_Some (dev_arr k !! i);
  ld_areas : forall a h, (a, h) ∈ all_areas -> is_Some (states k !! (a + STATE_SIZE)) }.

(** the state after [init], [sp] being the nucleus's stack pointer *)
Record initial (k : kernel) (st : state_t) (m : gmap Z Z) (r : kernel) : Prop := {
  ii_vectors : forall a f, (a, f) ∈ trap_vectors -> m !! a = Some (sym f);
  ii_clock : m !! clock_lock = Some 0;
  ii_devs : forall i, 0 <= i < 15 -> m !! dev_sem i = Some 0;
  ii_arr : forall i, 0 <= i < 15 -> dev_arr r !! i = Some (0x1400 + i * 0x10);
  ii_areas : forall a h, (a, h) ∈ all_areas -> exists st0, states k !! (a + STATE_SIZE) = Some st0 /\
    states r !! (a + STATE_SIZE) = Some (new_area (sym h) (s_sp st) st0);
  ii_pointers : (old_pro_state r, old_mm_state r, old_sys_call_state r) = (0x800, 0x898, 0x930) /\
    (old_terminal_state r, old_printer_state r, old_disk_state r, old_floppy_state r, old_clock_state r)
    = (0x9c8, 0xa60, 0xaf8, 0xb90, 0xc28);
  ii_kept : forall b, is_Some (states k !! b) -> is_Some (states r !! b);
  ii_init : init_state r = st;
  ii_same : devregs r = devregs k /\ save_arr r = save_arr k /\ clock_count r = clock_count k /\
    readings r = readings k /\ ststs r = S (ststs k) }.

Lemma trap_vectors_low a f : (a, f) ∈ trap_vectors -> 0 <= a < 0x200.
Proof.
  assert (Forall (fun af => 0 <= af.1 < 0x200) trap_vectors) as Hall.
  { apply List.Forall_forall. intros [b g] Hb. cbv in Hb. repeat destruct Hb as [[= <- <-]|Hb]; try done. }
  rewrite Forall_forall in Hall. intros Hin. apply (Hall (a, f) Hin).
Qed.

Lemma trap_vectors_nodup : NoDup (fst <$> trap_vectors).
Proof. by apply (bool_decide_unpack (NoDup (fst <$> trap_vectors))). Qed.

(** the state after the area of one handler is set up *)
Record areas_done (k : kernel) (st : state_t) (l : list (Z * symbol)) (ss : gmap Z state_t) : Prop := {
  ad_set : forall a h, (a, h) ∈ l -> exists st0, states k !! (a + STATE_SIZE) = Some st0 /\
    ss !! (a + STATE_SIZE) = Some (new_area (sym h) (s_sp st) st0);
  ad_other : forall b, (forall a h, (a, h) ∈ l -> b <> a + STATE_SIZE) -> ss !! b = states k !! b }.

Lemma areas_kept k st l ss b : areas_done k st l ss -> is_Some (states k !! b) -> is_Some (ss !! b).
Proof.
  intros [A1 A2] Hb. destruct (decide (Exists (fun ah => b = ah.1 + STATE_SIZE) l)) as [He | Hn].
  - apply Exists_exists in He as ([a h] & Hin & ->). destruct (A1 a h Hin) as (st0 & _ & E). cbn. by rewrite E.
  - rewrite A2; [done |]. intros a h Hin ->. apply Hn, Exists_exists. by exists (a, h).
Qed.

Lemma areas_none k st : areas_done k st [] (states k).
Proof. split; [by intros a h ?%elem_of_nil | done]. Qed.

Lemma areas_step k x m c r kk st l a h Q X :
  kview k x m c r -> areas_done kk st l (states r) -> init_state r = st ->
  a ∉ fst <$> l -> is_Some (states kk !! (a + STATE_SIZE)) ->
  (forall k' ss, areas_done kk st (l ++ [(a, h)]) ss -> kview k' x m c (set_states ss r) -> Q tt k') ->
  wp (init_area a h) k Q X.
Proof.
  intros V [A1 A2] Hi Hni [st0 Hst0] HQ.
  assert (forall b g, (b, g) ∈ l -> a <> b) as Hne.
  { intros b g Hin ->. apply Hni, list_elem_of_fmap. by exists (b, g). }
  assert (states r !! (a + STATE_SIZE) = Some st0) as Hst.
  { rewrite A2; [done |]. intros b g Hin E. apply (Hne b g Hin). lia. }
  eapply wp_init_area; [exact V | exact Hst |]. intros k' V'. eapply HQ; [| exact V']. split.
  - intros b g [Hin|Hin]%elem_of_app.
    + destruct (A1 b g Hin) as (st1 & H1 & H2). exists st1. split; [done |].
      rewrite lookup_insert_ne; [done |]. intros E. apply (Hne b g Hin). lia.
    + apply list_elem_of_singleton in Hin as [= -> ->]. exists st0. split; [done |].
      rewrite lookup_insert_eq. by rewrite Hi.
  - intros b Hb. rewrite lookup_insert_ne.
    + apply A2. intros a' h' Hin. apply (Hb a' h'). apply elem_of_app. by left.
    + intros E. apply (Hb a h); [apply elem_of_app; right; left | done].
Qed.

(** [modify] on the rest of the state *)
Lemma wp_modify_rest (f : kernel -> kernel) k x m c r Q (X : exn -> kernel -> Prop) :
  kview k x m c r ->
  (forall k, k_asl (f k) = k_asl k) -> (forall k, running_queue (f k) = running_queue k) ->
  krest (f k) = f (krest k) -> (forall k', kview k' x m c (f r) -> Q tt k') -> wp (modify f) k Q X.
Proof. intros V H1 H2 H3 HQ. apply wp_modify, HQ. by apply (kview_rest _ _ _ _ _ V f). Qed.

Local Ltac solve_in := apply list_elem_of_In; simpl; repeat first [left; reflexivity | right].

(** one old-area pointer and its new area *)
Local Ltac init_one LD V A :=
  wp_step; eapply wp_modify_rest; [exact V | done | done | done |]; clear V; intros ? V; cbv beta;
  first [wp_step; eapply (areas_step _ _ _ _ _ _ _ _ _ _ _ _ V A) | eapply (areas_step _ _ _ _ _ _ _ _ _ _ _ _ V A)];
  [done | match goal with |- ?P => exact (bool_decide_unpack P I) end | eapply (ld_areas _ LD); solve_in |];
  clear V A; intros ? ? A V; simpl app in A.

Lemma init_spec k :
  loaded k ->
  returns init k (fun _ k' => exists m r,
    kview k' (mk_absq (seqZ 0 MAXPROC) [] []) m (fun q => reset_core <$> pcore (a_pq (k_asl k)) q) r /\
    initial k (stst (ststs k)) m r).
Proof.
  intros LD. unfold init, STST. do 10 wp_step.
  set (st := stst (ststs k)). set (k1 := set_init_state st (set_ststs (S (ststs k)) (set_running_queue elink k))).
  apply wp_asl_seq. eapply wp_mono; [apply (init_repr (k_asl k1)); apply LD | | done].
  intros [] s (HR & Hi & Hc). cbv beta.
  set (x := mk_absq (seqZ 0 MAXPROC) [] []) in *. set (c := fun q => reset_core <$> pcore (a_pq (k_asl k)) q).
  assert (kview (set_k_asl s k1) x (ints (k_asl k)) c (krest k1)) as V by by split.
  unfold trapinit. wp_step. wp_step.
  eapply (wp_put_vectors _ _ _ _ _ _ _ _ V); [apply LD |]. intros k2 V2. clear V. rename V2 into V.
  set (m2 := with_vectors trap_vectors (ints (k_asl k))) in *.
  pose proof (areas_none k st) as A.
  init_one LD V A. init_one LD V A. init_one LD V A.
  assert (forall a, 0x1500 <= a -> m2 !! a = ints (k_asl k) !! a) as Hhigh.
  { intros a Ha. apply with_vectors_other. intros ([b f] & -> & Hin)%list_elem_of_fmap.
    pose proof (trap_vectors_low b f Hin). simpl in Ha. lia. }
  destruct H0 as [Hdev Hclock Hdist].
  unfold intinit. cbv beta. wp_step.
  eapply (wp_kstore _ _ _ _ _ V); [rewrite Hhigh by done; apply LD |]. clear V. intros ? V. cbv beta. wp_step.
  eapply (wp_dev_loop _ _ _ _ _ _ _ V).
  { intros i Hi'. destruct (ld_devs _ LD i Hi') as [D1 D2]. split; [| exact D2].
    rewrite lookup_insert_ne by (apply Hdist; lia). rewrite Hhigh; [done |]. unfold dev_sem. lia. }
  clear V. intros ? m4 da D V. cbv beta.
  init_one LD V A. init_one LD V A. init_one LD V A. init_one LD V A. init_one LD V A.
  match type of V with kview _ _ _ _ ?r => exists m4, r end. split; [exact V |].
  assert (forall a, (forall i, 0 <= i < 15 -> a <> dev_sem i) -> a <> clock_lock -> m4 !! a = m2 !! a) as Hm4.
  { intros a Ha Hac. rewrite (db_other _ _ _ _ _ D) by done. by apply lookup_insert_ne. }
  split.
  - intros a f Hin. pose proof (trap_vectors_low a f Hin). rewrite Hm4.
    + apply with_vectors_in; [apply trap_vectors_nodup | done].
    + intros i Hi'. unfold dev_sem. lia.
    + unfold clock_lock. lia.
  - rewrite (db_other _ _ _ _ _ D); [apply lookup_insert_eq |]. intros i Hi'. by apply Hdist.
  - intros i Hi'. by apply (db_sem _ _ _ _ _ D).
  - intros i Hi'. simpl. by apply (db_arr _ _ _ _ _ D).
  - intros a h Hin. simpl. apply (ad_set _ _ _ _ A). exact Hin.
  - done.
  - intros b Hb. cbn [states set_states set_old_clock_state]. by eapply areas_kept.
  - done.
  - done.
Qed.

(** ** [main] *)

(** the state the first process starts in *)
Definition first_state (st0 st : state_t) : state_t :=
  set_pc (sym sym_p1) (set_sp (s_sp st0 - 512 * 2) st).

Lemma first_state_spec st0 st :
  s_pc (first_state st0 st) = sym sym_p1 /\ s_sp (first_state st0 st) = s_sp st0 - 1024.
Proof.
  unfold first_state, s_pc, s_sp, set_pc, set_sp. split; [apply reg_set_eq |].
  rewrite reg_set_ne by done. apply reg_set_eq.
Qed.

(** the first process, process 0, is dispatched; the others are free *)
Lemma main_spec k :
  loaded k ->
  let st0 := stst (ststs k) in
  leaves_with main k (fun e k' => exists m r c cp,
    initial k st0 m r /\
    c = upd 0 (set_p_s (first_state st0 (stst (S (ststs k))))) (fun q => reset_core <$> pcore (a_pq (k_asl k)) q) /\
    c 0 = Some cp /\ p_s cp = first_state st0 (stst (S (ststs k))) /\
    dispatched 0 (mk_absq (seqZ 1 (MAXPROC - 1)) [0] []) m c (set_ststs (S (S (ststs k))) r) e k').
Proof.
  intros LD st0. unfold main. wp_step. wp_apply (init_spec k LD). intros [] k1 (m & r & V & HI).
  wp_step. eapply (wp_alloc _ _ _ _ _ V); [done |]. intros p fl Heq k2 V2.
  assert (p :: fl = 0 :: seqZ 1 (MAXPROC - 1)) as E by by rewrite <- Heq.
  assert (p = 0) as -> by congruence. assert (fl = seqZ 1 (MAXPROC - 1)) as -> by congruence. clear E Heq.
  wp_step. unfold STST. do 5 wp_step.
  assert (ststs k2 = S (ststs k)) as ->.
  { rewrite <- (proj2 (proj2 (proj2 (proj2 (ii_same _ _ _ _ HI))))). exact (f_equal ststs (kv_rest _ _ _ _ _ V2)). }
  assert (kview (set_ststs (S (S (ststs k))) k2) (set_free_procs (seqZ 1 (MAXPROC - 1)) (mk_absq (seqZ 0 MAXPROC) [] [])) m
    (fun q => reset_core <$> pcore (a_pq (k_asl k)) q) (set_ststs (S (S (ststs k))) r)) as V3
    by by apply (kview_rest _ _ _ _ _ V2 (set_ststs _)).
  assert (is_Some (pcore (a_pq (k_asl k)) 0)) as [cp Hcp].
  { unfold pcore. apply fmap_is_Some. by apply (pwf_table _ (ld_procs _ LD)). }
  set (c0 := fun q => reset_core <$> pcore (a_pq (k_asl k)) q) in *.
  assert (c0 0 = Some (reset_core cp)) as Hc0 by (unfold c0; by rewrite Hcp).
  wp_step. eapply (wp_update _ _ _ _ _ V3); [apply _ | exact (mk_is_Some _ _ Hc0) |]. intros k4 V4.
  wp_step. wp_step. assert (init_state k4 = st0) as ->.
  { transitivity (init_state r); [exact (f_equal init_state (kv_rest _ _ _ _ _ V4)) | apply HI]. }
  wp_step. eapply (wp_update _ _ _ _ _ V4); [apply (core_map_p_s (set_sp (s_sp st0 - 512 * 2))) | rewrite upd_eq; apply fmap_is_Some; exact (mk_is_Some _ _ Hc0) |].
  intros k5 V5. wp_step.
  eapply (wp_update _ _ _ _ _ V5); [apply (core_map_p_s (set_pc (sym sym_p1))) | rewrite !upd_eq, !fmap_is_Some; exact (mk_is_Some _ _ Hc0) |].
  intros k6 V6. wp_step.
  eapply (wp_insert_running _ _ _ _ _ V6); [done | | by apply not_elem_of_nil | vm_compute; lia |].
  { simpl. rewrite elem_of_seqZ. lia. }
  intros k7 V7. set (c := upd 0 (set_p_s (first_state st0 (stst (S (ststs k))))) c0).
  assert (kview k7 (mk_absq (seqZ 1 (MAXPROC - 1)) [0] []) m c (set_ststs (S (S (ststs k))) r)) as V8.
  { eapply kview_core_ext; [| exact V7]. intros q. rewrite !upd_upd. unfold c, upd.
    case_decide; [| done]. by destruct (c0 q) as [[]|]. }
  eapply wp_mono; [eapply schedule_spec; [exact V8 | done] | done |].
  intros e k8 HS. exists m, r, c. assert (c 0 = Some (set_p_s (first_state st0 (stst (S (ststs k)))) (reset_core cp))) as Hc.
  { unfold c. by rewrite upd_eq, Hc0. }
  eexists. split_and!; [done | done | exact Hc | by destruct cp | exact HS].
Qed.
End boot.
