(* ===== verification/Family.v ===== *)
(** * Process families

    The process tree as a rose tree: a process and, in the order of creation, the
    trees of its children.  [src/nucleus/traps/syscall.c] represents it with three
    pointers: a process points to its first child, a child to its next brother,
    and only the last child points to its parent. *)

From S2P Require Export Procq.

Inductive ptree : Type := Node (p : Z) (ts : list ptree).

Definition root (t : ptree) : Z := let 'Node p _ := t in p.
Definition subtrees (t : ptree) : list ptree := let 'Node _ ts := t in ts.

Fixpoint nodes (t : ptree) : list Z :=
  let 'Node p ts := t in p :: concat (List.map nodes ts).

(** the processes with the list of their children *)
Fixpoint edges (t : ptree) : list (Z * list Z) :=
  let 'Node p ts := t in (p, List.map root ts) :: concat (List.map edges ts).

Fixpoint height (t : ptree) : nat :=
  let 'Node _ ts := t in
  match ts with [] => 0%nat | _ => S (List.list_max (List.map height ts)) end.

(** the order in which the entries of a family are freed *)
Fixpoint postorder (t : ptree) : list Z :=
  let 'Node p ts := t in concat (List.map postorder ts) ++ [p].

Lemma ptree_ind' (P : ptree -> Prop) :
  (forall p ts, Forall P ts -> P (Node p ts)) -> forall t, P t.
Proof.
  intros HP. fix IH 1. intros [p ts]. apply HP. induction ts as [|t ts IHts]; constructor; [apply IH | exact IHts].
Qed.

(** ** Trees and edges *)

Lemma edges_fst t : fst <$> edges t = nodes t.
Proof.
  induction t as [p ts IH] using ptree_ind'. cbn [edges nodes]. rewrite fmap_cons. f_equal.
  induction IH as [|t ts Ht _ IHts]; [done |]. cbn [List.map concat]. by rewrite fmap_app, Ht, IHts.
Qed.

Lemma root_in t : root t ∈ nodes t.
Proof. destruct t. left. Qed.

(** every process but the root is a child, once *)
Lemma edges_snd t : root t :: concat (snd <$> edges t) ≡ₚ nodes t.
Proof.
  induction t as [p ts IH] using ptree_ind'. cbn [edges nodes root]. rewrite fmap_cons. cbn [concat snd]. f_equiv.
  induction IH as [|t ts Ht _ IHts]; [done |]. cbn [List.map concat].
  rewrite fmap_app, concat_app. rewrite <- Ht, <- IHts. cbn [app]. f_equiv.
  rewrite !app_assoc. f_equiv. apply Permutation_app_comm.
Qed.

Lemma edges_nodup_fst t : NoDup (nodes t) -> NoDup (fst <$> edges t).
Proof. by rewrite edges_fst. Qed.

Lemma edge_node t p l : (p, l) ∈ edges t -> p ∈ nodes t.
Proof. intros H. rewrite <- edges_fst. apply list_elem_of_fmap. by exists (p, l). Qed.

Lemma NoDup_concat_in {A} (ls : list (list A)) l : NoDup (concat ls) -> l ∈ ls -> NoDup l.
Proof.
  induction ls as [|m ls IH]; simpl; [by intros _ ?%elem_of_nil |].
  intros (H1 & _ & H2)%NoDup_app [->|Hin]%elem_of_cons; [done | by apply IH].
Qed.

Lemma elem_concat {A} (ls : list (list A)) l a : l ∈ ls -> a ∈ l -> a ∈ concat ls.
Proof.
  induction ls as [|m ls IH]; simpl; [by intros ?%elem_of_nil |].
  rewrite elem_of_app. intros [->|Hin]%elem_of_cons Ha; [by left | right; by apply IH].
Qed.

(** a process has one list of children, and is a child of one process *)
Lemma edges_fun t p l l' : NoDup (nodes t) -> (p, l) ∈ edges t -> (p, l') ∈ edges t -> l = l'.
Proof.
  rewrite <- edges_fst. generalize (edges t). intros E. induction E as [|[q m] E IH]; [by intros _ ?%elem_of_nil |].
  rewrite fmap_cons. intros [Hq Hnd]%NoDup_cons [[= -> ->]|H1]%elem_of_cons [[= ->]|H2]%elem_of_cons; try done.
  - destruct Hq. apply list_elem_of_fmap. by exists (q, l').
  - subst. destruct Hq. apply list_elem_of_fmap. by exists (q, l).
  - by apply IH.
Qed.

Lemma edge_child t p l q : NoDup (nodes t) -> (p, l) ∈ edges t -> q ∈ l -> q ∈ nodes t /\ q <> root t.
Proof.
  intros Hnd He Hq. assert (q ∈ concat (snd <$> edges t)) as Hin.
  { apply (elem_concat _ l); [| done]. apply list_elem_of_fmap. by exists (p, l). }
  rewrite <- edges_snd in Hnd |- *. apply NoDup_cons in Hnd as [Hr _].
  split; [by right | by intros ->].
Qed.

Lemma edge_nodup t p l : NoDup (nodes t) -> (p, l) ∈ edges t -> NoDup l.
Proof.
  intros Hnd He. rewrite <- edges_snd in Hnd. apply NoDup_cons in Hnd as [_ Hnd].
  eapply NoDup_concat_in; [exact Hnd |]. apply list_elem_of_fmap. by exists (p, l).
Qed.

Lemma edges_parent t p p' l l' q :
  NoDup (nodes t) -> (p, l) ∈ edges t -> (p', l') ∈ edges t -> q ∈ l -> q ∈ l' -> p = p' /\ l = l'.
Proof.
  intros Hnd H1 H2 Hq Hq'. destruct (decide (p = p')) as [->|Hne].
  { split; [done | by eapply edges_fun]. }
  exfalso. rewrite <- edges_snd in Hnd. apply NoDup_cons in Hnd as [_ Hnd]. revert Hnd H1 H2.
  generalize (edges t). intros E. induction E as [|[r m] E IH]; [by intros _ ?%elem_of_nil |].
  rewrite fmap_cons. simpl. intros (Hm & Hd & Hnd)%NoDup_app.
  assert (forall p0 l0, (p0, l0) ∈ E -> q ∈ l0 -> q ∈ m -> False) as Hx.
  { intros p0 l0 Hin Hq0 Hqm. apply (Hd q Hqm). apply (elem_concat _ l0); [| done].
    apply list_elem_of_fmap. by exists (p0, l0). }
  intros [[= -> ->]|H1]%elem_of_cons [[= -> ->]|H2]%elem_of_cons; [done | by eapply Hx | by eapply Hx | by apply IH].
Qed.

(** ** Subtrees *)

Inductive subtree : ptree -> ptree -> Prop :=
  | sub_refl t : subtree t t
  | sub_kid p ts t s : t ∈ ts -> subtree t s -> subtree (Node p ts) s.

Lemma elem_concat_map {A B} (f : A -> list B) (l : list A) b :
  b ∈ concat (List.map f l) <-> exists a, a ∈ l /\ b ∈ f a.
Proof.
  induction l as [|a l IH]; simpl.
  - split; [by intros ?%elem_of_nil | by intros (a & ?%elem_of_nil & _)].
  - rewrite elem_of_app, IH. setoid_rewrite elem_of_cons. naive_solver.
Qed.

Lemma subtree_of t p : p ∈ nodes t -> exists s, subtree t s /\ root s = p.
Proof.
  induction t as [q ts IH] using ptree_ind'. simpl. intros [->|Hin]%elem_of_cons.
  - exists (Node q ts). split; [constructor | done].
  - apply elem_concat_map in Hin as (t & Ht & Hp). rewrite Forall_forall in IH.
    destruct (IH t Ht Hp) as (s & Hs & Hr). exists s. split; [by eapply sub_kid | done].
Qed.

Lemma subtree_edges t s : subtree t s -> forall e, e ∈ edges s -> e ∈ edges t.
Proof.
  induction 1 as [|p ts t s Ht _ IH]; [done |]. intros e He. simpl. right.
  apply elem_concat_map. exists t. split; [done | by apply IH].
Qed.

Lemma subtree_nodes t s : subtree t s -> forall q, q ∈ nodes s -> q ∈ nodes t.
Proof.
  intros Hs q. rewrite <- !edges_fst, !list_elem_of_fmap. intros (e & -> & He). exists e.
  split; [done | by eapply subtree_edges].
Qed.

Lemma NoDup_concat_map {A B} (f : A -> list B) (l : list A) a :
  NoDup (concat (List.map f l)) -> a ∈ l -> NoDup (f a).
Proof.
  intros Hnd Ha. eapply NoDup_concat_in; [exact Hnd |]. apply list_elem_of_In, in_map, list_elem_of_In, Ha.
Qed.

Lemma subtree_nodup t s : subtree t s -> NoDup (nodes t) -> NoDup (nodes s).
Proof.
  induction 1 as [|p ts t s Ht _ IH]; [done |]. simpl. intros [_ Hnd]%NoDup_cons.
  apply IH. by eapply NoDup_concat_map.
Qed.

Lemma list_max_in l n : (forall m, m ∈ l -> (m <= n)%nat) -> (List.list_max l <= n)%nat.
Proof. intros Hl. apply List.list_max_le, List.Forall_forall. intros m Hm. apply Hl. by apply list_elem_of_In. Qed.

Lemma in_list_max l m : m ∈ l -> (m <= List.list_max l)%nat.
Proof.
  intros Hm. pose proof (proj1 (List.list_max_le l (List.list_max l)) (Nat.le_refl _)) as Hall.
  rewrite List.Forall_forall in Hall. apply Hall. by apply list_elem_of_In.
Qed.

Lemma height_child p ts t : t ∈ ts -> (height t < height (Node p ts))%nat.
Proof.
  intros Ht. destruct ts as [|t0 ts0]; [by apply elem_of_nil in Ht |]. cbn [height].
  apply le_n_S, in_list_max. apply list_elem_of_In, in_map, list_elem_of_In, Ht.
Qed.

(** a tree is lower than it is large *)
Lemma height_nodes t : (height t < length (nodes t))%nat.
Proof.
  induction t as [p ts IH] using ptree_ind'. simpl. destruct ts as [|t0 ts0]; [simpl; lia |].
  apply le_n_S, (Nat.lt_le_trans _ (S (List.list_max (List.map height (t0 :: ts0))))); [lia |].
  assert (forall m, m ∈ List.map height (t0 :: ts0) -> (m < length (concat (List.map nodes (t0 :: ts0))))%nat) as Hm.
  { intros m (t & <- & Ht)%list_elem_of_In%in_map_iff. apply list_elem_of_In in Ht.
    rewrite Forall_forall in IH. eapply Nat.lt_le_trans; [by apply IH |].
    revert Ht. generalize (t0 :: ts0). clear. intros l. induction l as [|u l IH]; [by intros ?%elem_of_nil |].
    simpl. rewrite length_app. intros [->|Ht]%elem_of_cons; [lia |]. specialize (IH Ht). lia. }
  destruct (length (concat (List.map nodes (t0 :: ts0)))) as [|n] eqn:E.
  { specialize (Hm (height t0) ltac:(simpl; left)). lia. }
  apply le_n_S, list_max_in. intros m Hin. specialize (Hm m Hin). lia.
Qed.

Lemma subtree_height t s : subtree t s -> (height s <= height t)%nat.
Proof.
  induction 1 as [|p ts t s Ht _ IH]; [lia |]. pose proof (height_child p ts t Ht). lia.
Qed.

(** ** Cutting a family off *)

(** [t] without the family of [cur] *)
Fixpoint prune (cur : Z) (t : ptree) : ptree :=
  let 'Node p ts := t in
  Node p (concat (List.map (fun u => if root u =? cur then [] else [prune cur u]) ts)).

Lemma prune_root cur t : root (prune cur t) = root t.
Proof. by destruct t. Qed.

Lemma parent_edge t q : q ∈ nodes t -> q <> root t -> exists p l, (p, l) ∈ edges t /\ q ∈ l.
Proof.
  rewrite <- edges_snd. intros [->|Hq]%elem_of_cons Hne; [done |]. clear Hne.
  induction (edges t) as [|[p l] E IH]; [by apply elem_of_nil in Hq |].
  rewrite fmap_cons in Hq. simpl in Hq. apply elem_of_app in Hq as [Hq|Hq].
  - exists p, l. split; [left | done].
  - destruct (IH Hq) as (p' & l' & Hin & Hq'). exists p', l'. split; [by right | done].
Qed.

Lemma subtree_root t s : NoDup (nodes t) -> subtree t s -> root s = root t -> s = t.
Proof.
  intros Hnd Hs. destruct Hs as [|p ts t s Ht Hs]; [done |]. simpl. intros Hr. exfalso.
  simpl in Hnd. apply NoDup_cons in Hnd as [Hp _]. apply Hp, elem_concat_map. exists t.
  split; [done |]. rewrite <- Hr. eapply subtree_nodes; [exact Hs | apply root_in].
Qed.

Lemma prune_none cur t : cur ∉ nodes t -> prune cur t = t.
Proof.
  induction t as [p ts IH] using ptree_ind'. cbn [nodes prune]. intros [_ Hni]%not_elem_of_cons. f_equal.
  induction IH as [|u ts Hu _ IHts]; [done |]. cbn [List.map concat] in *.
  apply not_elem_of_app in Hni as [Hni1 Hni2]. rewrite (proj2 (Z.eqb_neq _ _)).
  - rewrite Hu by done. cbn [app]. f_equal. by apply IHts.
  - intros E. apply Hni1. rewrite <- E. apply root_in.
Qed.

Lemma prune_roots cur (ts : list ptree) :
  List.map root (concat (List.map (fun u => if root u =? cur then [] else [prune cur u]) ts))
  = filter (fun q => q <> cur) (List.map root ts).
Proof.
  induction ts as [|u ts IH]; [done |]. cbn [List.map concat]. rewrite List.map_app, IH, filter_cons.
  destruct (Z.eqb_spec (root u) cur) as [E|E].
  - by rewrite decide_False by tauto.
  - rewrite decide_True by done. cbn. by rewrite prune_root.
Qed.

Lemma prune_edges cur t p l' :
  (p, l') ∈ edges (prune cur t) -> exists l, (p, l) ∈ edges t /\ l' = filter (fun q => q <> cur) l.
Proof.
  induction t as [r ts IH] using ptree_ind'. cbn [prune edges]. intros [[= -> ->]|Hin]%elem_of_cons.
  - eexists. split; [left | apply prune_roots].
  - apply elem_concat_map in Hin as (u' & Hu' & Hin). apply elem_concat_map in Hu' as (u & Hu & Hu').
    destruct (root u =? cur); [by apply elem_of_nil in Hu' |]. apply list_elem_of_singleton in Hu' as ->.
    rewrite Forall_forall in IH. destruct (IH u Hu Hin) as (l & Hl & ->). exists l. split; [| done].
    right. apply elem_concat_map. by exists u.
Qed.

(** the processes are those that stay and those that go *)
Lemma prune_nodes cur t s :
  NoDup (nodes t) -> subtree t s -> root s = cur -> cur <> root t ->
  nodes t ≡ₚ nodes (prune cur t) ++ nodes s.
Proof.
  revert s. induction t as [r ts IH] using ptree_ind'. intros s Hnd Hs Hr Hne.
  inversion Hs as [|p0 ts0 u s0 Hu Hus]; subst; [done |]. clear Hs.
  cbn [nodes prune]. cbn [app]. f_equiv. cbn [nodes] in Hnd. apply NoDup_cons in Hnd as [_ Hnd].
  apply list_elem_of_split in Hu as (l1 & l2 & ->).
  rewrite List.map_app, concat_app in Hnd. cbn [List.map concat] in Hnd.
  apply NoDup_app in Hnd as (Hnd1 & Hd1 & (Hndu & Hd2 & Hnd2)%NoDup_app).
  assert (root s ∈ nodes u) as Hin by (eapply subtree_nodes; [exact Hus | apply root_in]).
  assert (forall l, (forall v, v ∈ l -> root s ∉ nodes v) ->
    concat (List.map (fun u => if root u =? root s then [] else [prune (root s) u]) l) = l) as Hid.
  { clear. intros l. induction l as [|v l IHl]; intros Hl; [done |]. cbn [List.map concat].
    assert (root s ∉ nodes v) as Hv by (apply Hl; left). rewrite (proj2 (Z.eqb_neq _ _)).
    - rewrite prune_none by done. cbn [app]. f_equal. apply IHl. intros w Hw. apply Hl. by right.
    - intros E. apply Hv. rewrite <- E. apply root_in. }
  assert (forall v, v ∈ l1 -> root s ∉ nodes v) as H1.
  { intros v Hv Hc. apply (Hd1 (root s)); [apply elem_concat_map; eauto |]. apply elem_of_app. by left. }
  assert (forall v, v ∈ l2 -> root s ∉ nodes v) as H2.
  { intros v Hv Hc. apply (Hd2 (root s)); [done |]. apply elem_concat_map. eauto. }
  rewrite !List.map_app, !concat_app. cbn [List.map concat]. rewrite (Hid l1 H1), (Hid l2 H2).
  rewrite List.map_app, concat_app, List.map_app, concat_app.
  rewrite Forall_forall in IH.
  destruct (Z.eqb_spec (root u) (root s)) as [E|E]; cbn [List.map concat app].
  - rewrite (subtree_root u s Hndu Hus) by done. rewrite <- app_assoc. f_equiv. apply Permutation_app_comm.
  - rewrite app_nil_r. rewrite (IH u ltac:(apply elem_of_app; right; left) s Hndu Hus eq_refl) by congruence.
    rewrite <- !app_assoc. do 2 f_equiv. apply Permutation_app_comm.
Qed.

(** ** A new child *)

(** [t] with the process [n], the last child of [p] *)
Fixpoint add_child (p n : Z) (t : ptree) : ptree :=
  let 'Node r ts := t in
  Node r (List.map (add_child p n) ts ++ if r =? p then [Node n []] else []).

Lemma add_child_root p n t : root (add_child p n t) = root t.
Proof. by destruct t. Qed.

Lemma add_child_roots p n ts : List.map root (List.map (add_child p n) ts) = List.map root ts.
Proof. rewrite List.map_map. apply List.map_ext. apply add_child_root. Qed.

Lemma add_child_edges p n t a l' :
  (a, l') ∈ edges (add_child p n t) ->
  (a = n /\ l' = []) \/ exists l, (a, l) ∈ edges t /\ l' = l ++ if a =? p then [n] else [].
Proof.
  induction t as [r ts IH] using ptree_ind'. cbn [add_child edges]. intros [[= -> ->]|Hin]%elem_of_cons.
  - right. exists (List.map root ts). split; [left |]. rewrite List.map_app, add_child_roots. by case_Z.
  - rewrite List.map_app, concat_app in Hin. apply elem_of_app in Hin as [Hin|Hin].
    + apply elem_concat_map in Hin as (u' & Hu' & Hin).
      apply list_elem_of_In, in_map_iff in Hu' as (u & <- & Hu%list_elem_of_In).
      rewrite Forall_forall in IH. destruct (IH u Hu Hin) as [|(l & Hl & ->)]; [by left | right].
      exists l. split; [| done]. right. apply elem_concat_map. by exists u.
    + left. revert Hin. case_Z; simpl; [| by intros ?%elem_of_nil]. by intros [= -> ->]%list_elem_of_singleton.
Qed.

Lemma add_child_none p n t : p ∉ nodes t -> nodes (add_child p n t) = nodes t.
Proof.
  induction t as [r ts IH] using ptree_ind'. cbn [nodes add_child]. intros [Hpr Hni]%not_elem_of_cons.
  rewrite (proj2 (Z.eqb_neq r p)), app_nil_r by done. f_equal.
  induction IH as [|u ts Hu _ IHts]; [done |]. cbn [List.map concat] in *.
  apply not_elem_of_app in Hni as [Hni1 Hni2]. by rewrite Hu, IHts.
Qed.

Lemma add_child_nodes p n t :
  NoDup (nodes t) -> p ∈ nodes t -> nodes (add_child p n t) ≡ₚ nodes t ++ [n].
Proof.
  assert (forall ts, p ∉ concat (List.map nodes ts) ->
    concat (List.map nodes (List.map (add_child p n) ts)) = concat (List.map nodes ts)) as Hnone.
  { induction ts as [|u ts IH]; [done |]. cbn [List.map concat]. intros [Hu Hts]%not_elem_of_app.
    by rewrite add_child_none, IH. }
  induction t as [r ts IH] using ptree_ind'. cbn [nodes add_child]. intros [Hr Hnd]%NoDup_cons.
  rewrite List.map_app, concat_app. cbn [app]. destruct (Z.eqb_spec r p) as [->|Hne].
  - intros _. by rewrite Hnone.
  - intros [->|Hp]%elem_of_cons; [done |]. cbn [List.map concat]. rewrite app_nil_r. f_equiv.
    induction IH as [|u ts Hu _ IHts]; cbn [List.map concat] in *; [by apply elem_of_nil in Hp |].
    apply NoDup_app in Hnd as (Hndu & Hd & Hnd). apply elem_of_app in Hp as [Hp|Hp].
    + rewrite Hu, Hnone by (done || by apply Hd). rewrite <- !app_assoc. f_equiv. apply Permutation_app_comm.
    + rewrite add_child_none by by intros Hc; apply (Hd p). rewrite <- app_assoc. f_equiv.
      apply IHts; [| done | done]. intros Hc. apply Hr, elem_of_app. by right.
Qed.
