(* ===== verification/FamilySpec.v ===== *)
(** * Process families: joining and leaving

    [link_child] (the family part of [Create_Process]) appends a child;
    [unlink_family] (the first part of [Terminate_Process]) takes a process, with
    its own family, out of its parent's list. *)

From S2P Require Export Family SyscallSpec.
Local Open Scope kernel_scope.

(** an entry without its family pointers *)
Definition strip (pr : proc_t) : proc_t := set_parent 0 (set_child 0 (set_brother 0 pr)).
Definition same_strip (c c' : Z -> option proc_t) : Prop := forall q, strip <$> c' q = strip <$> c q.

Lemma same_strip_refl c : same_strip c c.
Proof. done. Qed.
Lemma same_strip_trans c1 c2 c3 : same_strip c1 c2 -> same_strip c2 c3 -> same_strip c1 c3.
Proof. intros H1 H2 q. by rewrite H2, H1. Qed.
Lemma same_strip_upd p f c : (forall pr, strip (f pr) = strip pr) -> same_strip c (upd p f c).
Proof. intros Hf q. unfold upd. case_decide; destruct (c q); simpl; by rewrite ?Hf. Qed.

(** the family pointers of an entry *)
Definition links (c : Z -> option proc_t) (q : Z) : option (Z * Z * Z) :=
  (fun pr => (parent pr, child pr, brother pr)) <$> c q.

Lemma links_upd_parent p v c q :
  links (upd p (set_parent v) c) q =
  (if decide (q = p) then fun l => (v, l.1.2, l.2) else id) <$> links c q.
Proof. unfold links, upd. case_decide; by destruct (c q) as [[]|]. Qed.
Lemma links_upd_child p v c q :
  links (upd p (set_child v) c) q =
  (if decide (q = p) then fun l => (l.1.1, v, l.2) else id) <$> links c q.
Proof. unfold links, upd. case_decide; by destruct (c q) as [[]|]. Qed.
Lemma links_upd_brother p v c q :
  links (upd p (set_brother v) c) q =
  (if decide (q = p) then fun l => (l.1.1, l.1.2, v) else id) <$> links c q.
Proof. unfold links, upd. case_decide; by destruct (c q) as [[]|]. Qed.

(** other fields of an entry *)
Lemma links_upd_keep p f c q :
  (forall pr, (parent (f pr), child (f pr), brother (f pr)) = (parent pr, child pr, brother pr)) ->
  links (upd p f c) q = links c q.
Proof. intros Hf. unfold links, upd. case_decide; destruct (c q) as [pr|]; simpl; by rewrite ?Hf. Qed.

Create Rewrite HintDb family.
#[export] Hint Rewrite links_upd_parent links_upd_child links_upd_brother : family.

Lemma links_some c q pa ch br :
  links c q = Some (pa, ch, br) -> exists cq, c q = Some cq /\ parent cq = pa /\ child cq = ch /\ brother cq = br.
Proof. unfold links. destruct (c q) as [cq|]; [| done]. intros [= <- <- <-]. by exists cq. Qed.

Lemma links_of c q cq : c q = Some cq -> links c q = Some (parent cq, child cq, brother cq).
Proof. unfold links. by intros ->. Qed.

(** [l] are the children of [p] from the first one, [h], on *)
Fixpoint sibs (L : Z -> option (Z * Z * Z)) (p h : Z) (l : list Z) : Prop :=
  match l with
  | [] => h = ENULL
  | q :: l' => h = q /\ exists ch br, L q = Some (match l' with [] => p | _ => ENULL end, ch, br) /\ sibs L p br l'
  end.

Lemma sibs_frame L L' p h l :
  (forall q, q ∈ l -> (fun x => (x.1.1, x.2)) <$> L' q = (fun x => (x.1.1, x.2)) <$> L q) ->
  sibs L p h l -> sibs L' p h l.
Proof.
  revert h. induction l as [|q l IH]; intros h Hf; [done |]. cbn [sibs].
  intros [-> (ch & br & Hq & Hl)]. split; [done |]. pose proof (Hf q ltac:(left)) as Hq'. rewrite Hq in Hq'.
  destruct (L' q) as [[[pa ch'] br']|]; [| done]. simpl in Hq'. injection Hq' as -> ->.
  exists ch', br. split; [done |]. apply IH; [| done]. intros u Hu. apply Hf. by right.
Qed.

(** the pointers represent the edges [E] *)
Definition family (L : Z -> option (Z * Z * Z)) (E : list (Z * list Z)) : Prop :=
  forall p l, (p, l) ∈ E -> exists pa ch br, L p = Some (pa, ch, br) /\ sibs L p ch l.

(** the pointers of the children [l1 ++ cur :: l2] around [cur] *)
Lemma sibs_mid L p h l1 cur l2 :
  sibs L p h (l1 ++ cur :: l2) ->
  exists ch, L cur = Some (match l2 with [] => p | _ => ENULL end, ch, List.hd ENULL l2) /\
    sibs L p (List.hd ENULL l2) l2.
Proof.
  revert h. induction l1 as [|u l1 IH]; intros h; cbn [app sibs].
  - intros [_ (ch & br & Hc & Hl)]. exists ch.
    assert (br = List.hd ENULL l2) as -> by (destruct l2; [done | by destruct Hl]). done.
  - intros [_ (ch & br & _ & Hl)]. by eapply IH.
Qed.

(** taking [cur] out *)
Lemma sibs_remove_first L L' p cur l2 :
  sibs L p cur (cur :: l2) -> cur ∉ l2 ->
  (forall q, q ∈ l2 -> (fun x => (x.1.1, x.2)) <$> L' q = (fun x => (x.1.1, x.2)) <$> L q) ->
  sibs L' p (List.hd ENULL l2) l2.
Proof.
  intros Hl _ Hf. destruct (sibs_mid L p cur [] cur l2 Hl) as (ch & _ & Hl2). by apply (sibs_frame L).
Qed.

Lemma sibs_remove L L' p h l1 e cur l2 :
  sibs L p h (l1 ++ e :: cur :: l2) ->
  (forall q, q ∈ l1 ++ l2 -> (fun x => (x.1.1, x.2)) <$> L' q = (fun x => (x.1.1, x.2)) <$> L q) ->
  (exists ch, L' e = Some (match l2 with [] => p | _ => ENULL end, ch, List.hd ENULL l2)) ->
  sibs L' p h (l1 ++ e :: l2).
Proof.
  revert h. induction l1 as [|u l1 IH]; intros h; cbn [app].
  - intros [-> (ch & br & _ & _ & ch' & br' & _ & Hl2)] Hf (che & He). split; [done |].
    exists che, (List.hd ENULL l2). split; [done |]. apply (sibs_frame L); [done |].
    assert (br' = List.hd ENULL l2) as -> by (destruct l2; [done | by destruct Hl2]). done.
  - intros [-> (ch & br & Hu & Hl)] Hf He. split; [done |]. pose proof (Hf u ltac:(left)) as Hu'. rewrite Hu in Hu'.
    destruct (L' u) as [[[pa ch'] br']|] eqn:E; [| done]. simpl in Hu'. injection Hu' as -> ->. exists ch', br.
    split; [by destruct l1 |]. apply IH; [done | | done]. intros q Hq. apply Hf. by right.
Qed.

(** appending a last child *)
Lemma sibs_append L L' p h l z new :
  sibs L p h (l ++ [z]) ->
  (forall q, q ∈ l -> (fun x => (x.1.1, x.2)) <$> L' q = (fun x => (x.1.1, x.2)) <$> L q) ->
  (exists ch, L' z = Some (ENULL, ch, new)) -> (exists ch, L' new = Some (p, ch, ENULL)) ->
  sibs L' p h ((l ++ [z]) ++ [new]).
Proof.
  revert h. induction l as [|u l IH]; intros h; cbn [app].
  - intros [-> _] _ (chz & Hz) (chn & Hn). split; [done |]. exists chz, new. split; [done |].
    split; [done |]. by exists chn, ENULL.
  - intros [-> (ch & br & Hu & Hl)] Hf Hz Hn. split; [done |]. pose proof (Hf u ltac:(left)) as Hu'. rewrite Hu in Hu'.
    destruct (L' u) as [[[pa ch'] br']|] eqn:E; [| done]. simpl in Hu'. injection Hu' as -> ->. exists ch', br.
    split; [by destruct l |]. apply IH; [done | | done | done]. intros q Hq. apply Hf. by right.
Qed.

Section walk.
Context `{MachineOk}.

Lemma wp_links k x m c r p pa ch br Q X :
  kview k x m c r -> links c p = Some (pa, ch, br) ->
  (forall pr, parent pr = pa -> child pr = ch -> brother pr = br -> Q pr k) -> wp (pq_ (deref p)) k Q X.
Proof.
  intros V Hl HQ. destruct (links_some _ _ _ _ _ Hl) as (cp & Hc & <- & <- & <-).
  eapply (wp_deref _ _ _ _ _ V); [exact Hc |]. intros pr <- _. apply HQ; by destruct pr.
Qed.

(** the walks over the brothers *)
Lemma wp_last_brother k x m c r p z : kview k x m c r -> p <> ENULL ->
  forall l fuel h Q X, sibs (links c) p h (l ++ [z]) -> (length l < fuel)%nat ->
  ((exists ch, links c z = Some (p, ch, ENULL)) -> Q z k) -> wp (last_brother fuel h) k Q X.
Proof.
  intros V Hp. induction l as [|u l IH]; intros fuel h Q X Hl Hf HQ;
    (destruct fuel as [|fuel]; simpl in Hf; [lia |]); cbn [app sibs] in Hl;
    destruct Hl as [-> (ch & br & Hu & Hl)]; cbn [last_brother]; wp_step;
    (eapply wp_links; [exact V | exact Hu |]); intros pr Hpa Hch Hbr.
  - rewrite Hpa, (proj2 (Z.eqb_neq _ _)) by done. apply wp_ret, HQ. exists ch. simpl in Hl. by rewrite <- Hl.
  - rewrite Hpa. replace (match l ++ [z] with [] => p | _ => ENULL end) with ENULL by by destruct l.
    change (ENULL =? ENULL) with true. cbv iota. rewrite Hbr. apply IH; [done | lia | done].
Qed.

Lemma wp_elder_brother k x m c r p e cur l2 : kview k x m c r ->
  forall l fuel h Q X, sibs (links c) p h (l ++ e :: cur :: l2) -> cur ∉ l -> e <> cur -> (length l < fuel)%nat ->
  NoDup (l ++ e :: cur :: l2) -> Q e k -> wp (elder_brother fuel cur h) k Q X.
Proof.
  intros V. induction l as [|u l IH]; intros fuel h Q X Hl Hni Hec Hf Hnd HQ;
    (destruct fuel as [|fuel]; simpl in Hf; [lia |]); cbn [app] in Hl; pose proof Hl as Hl0; cbn [sibs] in Hl;
    destruct Hl as [-> (ch & br & Hu & Hl)]; cbn [elder_brother]; wp_step;
    (eapply wp_links; [exact V | exact Hu |]); intros pr Hpa Hch Hbr; rewrite Hbr.
  - destruct Hl as [-> _]. rewrite Z.eqb_refl. by apply wp_ret.
  - assert (br <> cur) as Hne.
    { assert (br = List.hd ENULL (l ++ e :: cur :: l2)) as -> by (destruct l; by destruct Hl).
      apply not_elem_of_cons in Hni as [_ Hni]. destruct l as [|v l]; [done |]. simpl. intros ->.
      apply Hni. left. }
    rewrite (proj2 (Z.eqb_neq _ _)) by done. cbn [negb]. apply not_elem_of_cons in Hni as [_ Hni].
    apply NoDup_cons in Hnd as [_ Hnd]. apply IH; [done | done | done | lia | done | done].
Qed.

(** ** [unlink_family] *)

Definition bp (x : Z * Z * Z) : Z * Z := (x.1.1, x.2).

(** [c'] is [c] with [cur] taken out of the children [l1 ++ cur :: l2] of [p] *)
Record unlinked (c c' : Z -> option proc_t) (p : Z) (l1 : list Z) (cur : Z) (l2 : list Z) : Prop := {
  ul_strip : same_strip c c';
  ul_cur : exists ch br pa, links c cur = Some (pa, ch, br) /\ links c' cur = Some (ENULL, ch, ENULL);
  ul_parent : exists pa ch br ch', links c p = Some (pa, ch, br) /\ links c' p = Some (pa, ch', br) /\
    sibs (links c') p ch' (l1 ++ l2);
  ul_other : forall q, q <> p -> q <> cur -> q ∉ l1 -> links c' q = links c q;
  ul_child : forall q, q <> p -> (fun x => x.1.2) <$> links c' q = (fun x => x.1.2) <$> links c q }.

Local Ltac other_links := autorewrite with family; repeat (rewrite decide_False by done); rewrite ?option_fmap_id.

(** the list without its first member [cur], of which the parent [p] drops the pointer *)
Lemma unlinked_first c c' p cur l2 pap chp brp pac chc :
  links c p = Some (pap, chp, brp) -> sibs (links c) p chp (cur :: l2) -> NoDup (cur :: l2) -> p ∉ cur :: l2 ->
  same_strip c c' -> links c cur = Some (pac, chc, List.hd ENULL l2) -> links c' cur = Some (ENULL, chc, ENULL) ->
  links c' p = Some (pap, List.hd ENULL l2, brp) -> (forall q, q <> cur -> q <> p -> links c' q = links c q) ->
  unlinked c c' p [] cur l2.
Proof.
  intros Hp Hs [Hcl _]%NoDup_cons [Hpc Hpl]%not_elem_of_cons Hstrip Hc Hc' Hp' Hother.
  destruct (sibs_mid _ _ _ [] _ _ Hs) as (? & _ & Hs2). split; [done | by exists chc, (List.hd ENULL l2), pac | | |].
  - exists pap, chp, brp, (List.hd ENULL l2). split; [done |]. split; [done |].
    apply (sibs_frame (links c)); [| exact Hs2]. intros q Hq. rewrite Hother; [done | by intros -> | by intros ->].
  - intros q Hqp Hqc _. by apply Hother.
  - intros q Hqp. destruct (decide (q = cur)) as [->|]; [by rewrite Hc, Hc' | by rewrite Hother].
Qed.

Lemma unlink_first k x m c r p cur l2 pap chp brp (X : exn -> kernel -> Prop) :
  kview k x m c r -> links c p = Some (pap, chp, brp) -> sibs (links c) p chp (cur :: l2) ->
  NoDup (cur :: l2) -> p ∉ cur :: l2 -> p <> ENULL -> ENULL ∉ cur :: l2 -> (length l2 < 20)%nat ->
  wp (unlink_family cur) k (fun _ k' => exists c', kview k' x m c' r /\ unlinked c c' p [] cur l2) X.
Proof.
  intros V Hp Hs Hnd Hpn Hp0 [Hc0 Hl0]%not_elem_of_cons Hlen. pose proof Hpn as [Hpc _]%not_elem_of_cons.
  destruct (sibs_mid _ _ _ [] _ _ Hs) as (chc & Hc & Hs2). pose proof Hs as [-> _].
  unfold unlink_family. wp_step. eapply wp_links; [exact V | exact Hc |]. intros pr Hpa Hch Hbr.
  rewrite Hpa, Hbr. destruct l2 as [|z l2 _] using rev_ind.
  - change (ENULL =? ENULL) with true. rewrite (proj2 (Z.eqb_neq p ENULL)) by done. cbn [negb andb List.hd].
    change (ENULL =? ENULL) with true. cbv iota. wp_step.
    eapply wp_links; [exact V | exact Hp |]. intros pa Hpp Hpch Hpbr. rewrite Hpch, Z.eqb_refl.
    wp_step. eapply (wp_update _ _ _ _ _ V); [apply _ | by eapply fmap_is_Some, mk_is_Some, Hp |]. intros k1 V1.
    eapply (wp_update _ _ _ _ _ V1); [apply _ | |]. { rewrite upd_ne by done. by eapply fmap_is_Some, mk_is_Some, Hc. }
    intros k2 V2. eexists. split; [exact V2 |].
    eapply unlinked_first; [done | done | done | done | | exact Hc | | | by intros; other_links].
    + eapply same_strip_trans; apply same_strip_upd; by intros [].
    + autorewrite with family. rewrite (decide_True (P := cur = cur)), decide_False by done. by rewrite Hc.
    + autorewrite with family. rewrite (decide_True (P := p = p)), decide_False by congruence. by rewrite Hp.
  - replace (match l2 ++ [z] with [] => p | _ => ENULL end) with ENULL in * by by destruct l2.
    change (ENULL =? ENULL) with true. cbn [negb andb].
    assert (List.hd ENULL (l2 ++ [z]) <> ENULL) as Hhd.
    { intros E. apply Hl0. destruct l2; simpl in *; rewrite E; left. }
    rewrite (proj2 (Z.eqb_neq _ ENULL)) by done. cbn [negb andb orb]. wp_step.
    rewrite length_app in Hlen. simpl in Hlen.
    eapply (wp_last_brother _ _ _ _ _ p z V Hp0 l2); [exact Hs2 | unfold brother_fuel; lia |]. intros (chz & Hz).
    wp_step. eapply wp_links; [exact V | exact Hz |]. intros fb Hfpa Hfch Hfbr. rewrite Hfpa.
    wp_step. eapply wp_links; [exact V | exact Hp |]. intros pa Hpp Hpch Hpbr. rewrite Hpch, Z.eqb_refl.
    wp_step. eapply (wp_update _ _ _ _ _ V); [apply _ | by eapply fmap_is_Some, mk_is_Some, Hp |]. intros k1 V1.
    eapply (wp_update _ _ _ _ _ V1); [apply _ | |]. { rewrite upd_ne by done. by eapply fmap_is_Some, mk_is_Some, Hc. }
    intros k2 V2. eexists. split; [exact V2 |].
    eapply unlinked_first; [done | done | done | done | | exact Hc | | | by intros; other_links].
    + eapply same_strip_trans; apply same_strip_upd; by intros [].
    + autorewrite with family. rewrite (decide_True (P := cur = cur)), decide_False by done. by rewrite Hc.
    + autorewrite with family. rewrite (decide_True (P := p = p)), decide_False by congruence. by rewrite Hp.
Qed.

(** the list without [cur], once its elder brother [e] has the pointers of [cur] *)
Lemma unlinked_elder c c' p l1 e cur l2 pap chp brp chc che :
  let brc := List.hd ENULL l2 in
  let pac := match l2 with [] => p | _ => ENULL end in
  links c p = Some (pap, chp, brp) -> sibs (links c) p chp (l1 ++ e :: cur :: l2) ->
  NoDup (l1 ++ e :: cur :: l2) -> p ∉ l1 ++ e :: cur :: l2 -> same_strip c c' ->
  links c cur = Some (pac, chc, brc) -> links c e = Some (ENULL, che, cur) ->
  links c' cur = Some (ENULL, chc, ENULL) -> links c' e = Some (pac, che, brc) ->
  (forall q, q <> cur -> q <> e -> links c' q = links c q) ->
  unlinked c c' p (l1 ++ [e]) cur l2.
Proof.
  intros brc pac Hp Hs Hnd Hpn Hstrip Hc He Hc' He' Hother.
  apply NoDup_app in Hnd as (_ & Hd & [Hel [Hcl _]%NoDup_cons]%NoDup_cons).
  apply not_elem_of_cons in Hel as [Hec Hel].
  apply not_elem_of_app in Hpn as [_ [Hpe [Hpc _]%not_elem_of_cons]%not_elem_of_cons].
  split; [done | by exists chc, brc, pac | | |].
  - exists pap, chp, brp, chp. split; [done |]. split; [rewrite Hother; done |].
    rewrite <- app_assoc. cbn [app]. eapply (sibs_remove (links c)); [exact Hs | | by exists che].
    intros q Hq. rewrite Hother; [done | |].
    + intros ->. apply elem_of_app in Hq as [Hq|Hq]; [| done]. apply (Hd cur Hq). right. left.
    + intros ->. apply elem_of_app in Hq as [Hq|Hq]; [| done]. apply (Hd e Hq). left.
  - intros q Hqp Hqc Hql. apply Hother; [done |]. intros ->. apply Hql, elem_of_app. right. left.
  - intros q Hqp. destruct (decide (q = cur)) as [->|]; [by rewrite Hc, Hc' |].
    destruct (decide (q = e)) as [->|]; [by rewrite He, He' | by rewrite Hother].
Qed.

Lemma sibs_elder L p h l1 e cur l2 :
  sibs L p h (l1 ++ e :: cur :: l2) -> exists che, L e = Some (ENULL, che, cur).
Proof. intros Hs. destruct (sibs_mid _ _ _ _ _ _ Hs) as (che & He & _). by exists che. Qed.

Lemma sibs_first L p h l1 e cur l2 : sibs L p h (l1 ++ e :: cur :: l2) -> NoDup (l1 ++ e :: cur :: l2) -> h <> cur.
Proof.
  destruct l1 as [|u l1]; cbn [app sibs]; intros [-> _] [Hni _]%NoDup_cons ->; apply Hni; [left |].
  apply elem_of_app. right. right. left.
Qed.

Lemma is_Some_links c q l : links c q = Some l -> is_Some (c q).
Proof. intros Hl. by eapply fmap_is_Some, mk_is_Some. Qed.

Lemma unlink_elder_last k x m c r p l1 e cur pap chp brp (X : exn -> kernel -> Prop) :
  kview k x m c r -> links c p = Some (pap, chp, brp) -> sibs (links c) p chp (l1 ++ e :: [cur]) ->
  NoDup (l1 ++ e :: [cur]) -> p ∉ l1 ++ e :: [cur] -> p <> ENULL -> (length l1 < 20)%nat ->
  wp (unlink_family cur) k (fun _ k' => exists c', kview k' x m c' r /\ unlinked c c' p (l1 ++ [e]) cur []) X.
Proof.
  intros V Hp Hs Hnd Hpn Hp0 Hlen.
  pose proof Hs as Hs1. replace (l1 ++ e :: [cur]) with ((l1 ++ [e]) ++ cur :: []) in Hs1 by by rewrite <- app_assoc.
  destruct (sibs_mid _ _ _ _ _ _ Hs1) as (chc & Hc & _). destruct (sibs_elder _ _ _ _ _ _ _ Hs) as (che & He).
  pose proof (sibs_first _ _ _ _ _ _ _ Hs Hnd) as Hfirst.
  assert (e <> cur /\ cur ∉ l1) as [Hec Hcl1].
  { apply NoDup_app in Hnd as (_ & Hd & [Hni _]%NoDup_cons). apply not_elem_of_cons in Hni as [Hni _].
    split; [done |]. intros Hin. apply (Hd cur Hin). right. left. }
  unfold unlink_family. wp_step. eapply wp_links; [exact V | exact Hc |]. intros pr Hpa Hch Hbr.
  rewrite Hpa, Hbr. change (ENULL =? ENULL) with true. rewrite (proj2 (Z.eqb_neq p ENULL)) by done. cbn [negb andb List.hd].
  change (ENULL =? ENULL) with true. cbv iota. wp_step.
  eapply wp_links; [exact V | exact Hp |]. intros pa Hpp Hpch Hpbr. rewrite Hpch, (proj2 (Z.eqb_neq _ _)) by done.
  wp_step. eapply (wp_elder_brother _ _ _ _ _ p e cur [] V l1); [exact Hs | done | done | unfold brother_fuel; lia | done |].
  wp_step. eapply (wp_update _ _ _ _ _ V); [apply _ | by eapply is_Some_links |]. intros k1 V1.
  wp_step. eapply (wp_update _ _ _ _ _ V1); [apply _ | rewrite upd_eq; apply fmap_is_Some; by eapply is_Some_links |]. intros k2 V2.
  eapply (wp_update _ _ _ _ _ V2); [apply _ | rewrite !upd_ne by congruence; by eapply is_Some_links |]. intros k3 V3.
  eexists. split; [exact V3 |]. eapply unlinked_elder; [done | done | done | done | | done | done | | |].
  - repeat (eapply same_strip_trans; [| apply same_strip_upd; by intros []]). done.
  - autorewrite with family. rewrite (decide_True (P := cur = cur)), !(decide_False (P := cur = e)) by congruence. by rewrite Hc.
  - autorewrite with family. rewrite !(decide_True (P := e = e)), (decide_False (P := e = cur)) by congruence. by rewrite He.
  - intros q Hqc Hqe. autorewrite with family. rewrite !(decide_False (P := q = e)), (decide_False (P := q = cur)) by done.
    by rewrite !option_fmap_id.
Qed.

Lemma unlink_elder_mid k x m c r p l1 e cur l2 z pap chp brp (X : exn -> kernel -> Prop) :
  kview k x m c r -> links c p = Some (pap, chp, brp) -> sibs (links c) p chp (l1 ++ e :: cur :: (l2 ++ [z])) ->
  NoDup (l1 ++ e :: cur :: (l2 ++ [z])) -> p ∉ l1 ++ e :: cur :: (l2 ++ [z]) -> p <> ENULL ->
  ENULL ∉ l1 ++ e :: cur :: (l2 ++ [z]) -> (length (l1 ++ e :: cur :: (l2 ++ [z])) < 20)%nat ->
  wp (unlink_family cur) k (fun _ k' => exists c', kview k' x m c' r /\ unlinked c c' p (l1 ++ [e]) cur (l2 ++ [z])) X.
Proof.
  intros V Hp Hs Hnd Hpn Hp0 Hne Hlen. rewrite length_app in Hlen. simpl in Hlen. rewrite length_app in Hlen. simpl in Hlen.
  pose proof Hs as Hs1. replace (l1 ++ e :: cur :: (l2 ++ [z])) with ((l1 ++ [e]) ++ cur :: (l2 ++ [z])) in Hs1 by by rewrite <- app_assoc.
  destruct (sibs_mid _ _ _ _ _ _ Hs1) as (chc & Hc & Hs2). destruct (sibs_elder _ _ _ _ _ _ _ Hs) as (che & He).
  pose proof (sibs_first _ _ _ _ _ _ _ Hs Hnd) as Hfirst.
  assert (e <> cur /\ cur ∉ l1) as [Hec Hcl1].
  { apply NoDup_app in Hnd as (_ & Hd & [Hni _]%NoDup_cons). apply not_elem_of_cons in Hni as [Hni _].
    split; [done |]. intros Hin. apply (Hd cur Hin). right. left. }
  assert (List.hd ENULL (l2 ++ [z]) <> ENULL) as Hhd.
  { intros E. apply Hne, elem_of_app. right. right. right. destruct l2; simpl in *; rewrite E; left. }
  replace (match l2 ++ [z] with [] => p | _ => ENULL end) with ENULL in Hc by by destruct l2.
  unfold unlink_family. wp_step. eapply wp_links; [exact V | exact Hc |]. intros pr Hpa Hch Hbr.
  rewrite Hpa, Hbr. change (ENULL =? ENULL) with true. cbn [negb andb].
  rewrite (proj2 (Z.eqb_neq _ ENULL)) by done. cbn [negb andb orb]. wp_step.
  eapply (wp_last_brother _ _ _ _ _ p z V Hp0 l2); [exact Hs2 | unfold brother_fuel; lia |]. intros (chz & Hz).
  wp_step. eapply wp_links; [exact V | exact Hz |]. intros fb Hfpa Hfch Hfbr. rewrite Hfpa.
  wp_step. eapply wp_links; [exact V | exact Hp |]. intros pa Hpp Hpch Hpbr. rewrite Hpch, (proj2 (Z.eqb_neq _ _)) by done.
  wp_step. eapply (wp_elder_brother _ _ _ _ _ p e cur _ V l1); [exact Hs | done | done | unfold brother_fuel; lia | done |].
  wp_step. eapply (wp_update _ _ _ _ _ V); [apply _ | by eapply is_Some_links |]. intros k1 V1.
  eapply (wp_update _ _ _ _ _ V1); [apply _ | rewrite upd_ne by congruence; by eapply is_Some_links |]. intros k2 V2.
  eexists. split; [exact V2 |].
  eapply unlinked_elder; [done | done | done | done | | by destruct l2 | done | | |].
  - repeat (eapply same_strip_trans; [| apply same_strip_upd; by intros []]). done.
  - autorewrite with family. rewrite (decide_True (P := cur = cur)), !(decide_False (P := cur = e)) by congruence. by rewrite Hc.
  - autorewrite with family. rewrite !(decide_True (P := e = e)), (decide_False (P := e = cur)) by congruence.
    rewrite He. by destruct l2.
  - intros q Hqc Hqe. autorewrite with family. rewrite !(decide_False (P := q = e)), (decide_False (P := q = cur)) by done.
    by rewrite !option_fmap_id.
Qed.

(** [cur] is a child of [p] *)
Lemma unlink_child k x m c r p l1 cur l2 pap chp brp (X : exn -> kernel -> Prop) :
  kview k x m c r -> links c p = Some (pap, chp, brp) -> sibs (links c) p chp (l1 ++ cur :: l2) ->
  NoDup (l1 ++ cur :: l2) -> p ∉ l1 ++ cur :: l2 -> p <> ENULL ->
  ENULL ∉ l1 ++ cur :: l2 -> (length (l1 ++ cur :: l2) < 20)%nat ->
  wp (unlink_family cur) k (fun _ k' => exists c', kview k' x m c' r /\ unlinked c c' p l1 cur l2) X.
Proof.
  intros V Hp Hs Hnd Hpn Hp0 Hne Hlen. destruct l1 as [|e l1 _] using rev_ind.
  - simpl in Hlen. eapply unlink_first; [done | done | done | done | done | done | done | lia].
  - rewrite <- app_assoc in *. cbn [app] in *. destruct l2 as [|z l2 _] using rev_ind.
    + rewrite length_app in Hlen. simpl in Hlen. eapply unlink_elder_last; [done | done | done | done | done | done | lia].
    + by eapply unlink_elder_mid.
Qed.

(** the root has no brothers *)
Lemma unlink_root k x m c r cur ch (X : exn -> kernel -> Prop) :
  kview k x m c r -> links c cur = Some (ENULL, ch, ENULL) ->
  wp (unlink_family cur) k (fun _ k' => k' = k) X.
Proof.
  intros V Hc. unfold unlink_family. wp_step. eapply wp_links; [exact V | exact Hc |]. intros pr Hpa Hch Hbr.
  rewrite Hpa, Hbr. change (ENULL =? ENULL) with true. cbn [negb andb orb]. by apply wp_ret.
Qed.
End walk.
