(* ===== verification/Reap.v ===== *)
(** * Killing a family: the abstract operation

    Killing a process takes it out of every queue and performs a V on each
    semaphore it waits for; reaping a tree kills its processes from the root down
    and frees their entries from the leaves up, the order of [check_sibling]. *)

From S2P Require Export Family KernelSpec.

Definition qmem : Type := absq * gmap Z Z.

Definition kill (p : Z) (xm : qmem) : qmem :=
  let '(x, m) := xm in
  (mk_absq (free_procs x) (filter (fun q => q <> p) (ready x)) (leave_all p (blocked x)),
   bumps (waits_for p (blocked x)) m).

Definition free_entry (p : Z) (xm : qmem) : qmem :=
  (set_free_procs (free_procs xm.1 ++ [p]) xm.1, xm.2).

Fixpoint reap (t : ptree) (xm : qmem) : qmem :=
  let 'Node p ts := t in
  free_entry p (List.fold_left (fun xm t => reap t xm) ts (kill p xm)).

Definition reap_all (ts : list ptree) (xm : qmem) : qmem := List.fold_left (fun xm t => reap t xm) ts xm.

Lemma reap_node p ts xm : reap (Node p ts) xm = free_entry p (reap_all ts (kill p xm)).
Proof. done. Qed.

Lemma reap_all_app ts us xm : reap_all (ts ++ us) xm = reap_all us (reap_all ts xm).
Proof. apply List.fold_left_app. Qed.

(** what killing and freeing the processes of a tree preserve *)
Lemma reap_preserves (P : qmem -> Prop) t :
  (forall p xm, p ∈ nodes t -> P xm -> P (kill p xm)) ->
  (forall p xm, p ∈ nodes t -> P xm -> P (free_entry p xm)) ->
  forall xm, P xm -> P (reap t xm).
Proof.
  induction t as [p ts IH] using ptree_ind'. intros Hk Hf xm HP. rewrite reap_node.
  apply Hf; [left |]. assert (P (kill p xm)) as HP1 by (apply Hk; [left | done]). clear HP.
  assert (forall q xm, q ∈ concat (List.map nodes ts) -> P xm -> P (kill q xm)) as Hk1 by (intros; apply Hk; [by right | done]).
  assert (forall q xm, q ∈ concat (List.map nodes ts) -> P xm -> P (free_entry q xm)) as Hf1 by (intros; apply Hf; [by right | done]).
  clear Hk Hf. revert HP1. generalize (kill p xm). induction IH as [|t ts Ht _ IHts]; intros xm' HP; [done |].
  simpl in *. apply IHts.
  - intros q xm1 Hq. apply Hk1. apply elem_of_app. by right.
  - intros q xm1 Hq. apply Hf1. apply elem_of_app. by right.
  - apply Ht; [intros q xm1 Hq; apply Hk1 | intros q xm1 Hq; apply Hf1 | done]; apply elem_of_app; by left.
Qed.

Lemma reap_all_preserves (P : qmem -> Prop) ts :
  (forall p xm, p ∈ concat (List.map nodes ts) -> P xm -> P (kill p xm)) ->
  (forall p xm, p ∈ concat (List.map nodes ts) -> P xm -> P (free_entry p xm)) ->
  forall xm, P xm -> P (reap_all ts xm).
Proof.
  induction ts as [|t ts IH]; intros Hk Hf xm HP; [done |]. cbn [List.map concat] in *. simpl. apply IH.
  - intros p xm1 Hp. apply Hk. apply elem_of_app. by right.
  - intros p xm1 Hp. apply Hf. apply elem_of_app. by right.
  - apply reap_preserves; [intros p xm1 Hp; apply Hk | intros p xm1 Hp; apply Hf | done]; apply elem_of_app; by left.
Qed.

(** ** What the operations leave alone *)

Lemma filter_nil_iff {A} (P : A -> Prop) `{forall x, Decision (P x)} (l : list A) :
  filter P l = [] -> forall a, a ∈ l -> ~ P a.
Proof.
  intros Hf a Ha HP. assert (a ∈ filter P l) as Hin by by apply list_elem_of_filter.
  rewrite Hf in Hin. by apply elem_of_nil in Hin.
Qed.

(** killing another process does not change what a process waits for *)
Lemma waits_for_leave_all p q B : p <> q -> waits_for p (leave_all q B) = waits_for p B.
Proof.
  intros Hne. induction B as [|[a l] B IH]; [done |]. cbn [leave_all].
  rewrite waits_for_app, waits_for_entry_of, waits_for_cons, IH. f_equal.
  apply decide_ext. rewrite list_elem_of_filter. tauto.
Qed.

Lemma waits_for_leave_self p B : waits_for p (leave_all p B) = [].
Proof.
  induction B as [|[a l] B IH]; [done |]. cbn [leave_all].
  rewrite waits_for_app, waits_for_entry_of, IH, decide_False; [done |]. by intros [? _]%list_elem_of_filter.
Qed.

Lemma waits_for_nil p B : waits_for p B = [] <-> forall q, q ∈ snd <$> B -> p ∉ q.
Proof.
  induction B as [|[a l] B IH]; [split; [by intros _ q ?%elem_of_nil | done] |].
  rewrite waits_for_cons, fmap_cons. setoid_rewrite elem_of_cons. case_decide as Hp; simpl.
  - split; [done |]. intros Hq. destruct (Hq l); [by left | done].
  - rewrite IH. naive_solver.
Qed.

(** the process is in no queue *)
Definition idle_proc (p : Z) (x : absq) : Prop := p ∉ ready x /\ waits_for p (blocked x) = [].

Lemma idle_in_queues p x : idle_proc p x <-> in_queues p x = 0%nat.
Proof.
  unfold idle_proc. rewrite waits_for_nil. unfold in_queues. rewrite filter_cons. split.
  - intros [Hr Hq]. rewrite decide_False by done.
    destruct (filter (fun q => p ∈ q) (snd <$> blocked x)) as [|q l] eqn:E; [done |]. exfalso.
    assert (q ∈ filter (fun q => p ∈ q) (snd <$> blocked x)) as Hin by (rewrite E; left).
    apply list_elem_of_filter in Hin as [Hp Hin]. by apply (Hq q).
  - case_decide as Hr; simpl; [lia |]. intros Hl. split; [done |].
    apply nil_length_inv in Hl. intros q Hq. exact (filter_nil_iff _ _ Hl q Hq).
Qed.

Lemma kill_idle_self p xm : idle_proc p (kill p xm).1.
Proof.
  destruct xm as [x m]. split; simpl; [by intros [Hp _]%list_elem_of_filter | apply waits_for_leave_self].
Qed.

Lemma kill_idle p q xm : idle_proc p xm.1 -> idle_proc p (kill q xm).1.
Proof.
  destruct xm as [x m]. intros [Hr Hw]. destruct (decide (p = q)) as [->|Hne]; [apply kill_idle_self |].
  split; simpl; [by intros [_ Hp]%list_elem_of_filter | by rewrite waits_for_leave_all].
Qed.

(** a process that is in exactly one kind of queue, with its semaphores in memory *)
Record alive (p : Z) (xm : qmem) : Prop := {
  al_valid : 0 <= p < MAXPROC;
  al_used : p ∉ free_procs xm.1;
  al_queued : (p ∈ ready xm.1 /\ waits_for p (blocked xm.1) = []) \/
              (p ∉ ready xm.1 /\ waits_for p (blocked xm.1) <> []);
  al_mem : forall a, a ∈ waits_for p (blocked xm.1) -> is_Some (xm.2 !! a) }.

Lemma bumps_is_Some l m a : is_Some (bumps l m !! a) <-> is_Some (m !! a).
Proof.
  revert m. induction l as [|b l IH]; intros m; [done |]. simpl. rewrite IH. unfold bump.
  rewrite lookup_alter. case_decide; [subst; apply fmap_is_Some | done].
Qed.

Lemma alive_kill p q xm : p <> q -> alive p xm -> alive p (kill q xm).
Proof.
  destruct xm as [x m]. intros Hne [H1 H2 H3 H4]. split; simpl in *; rewrite ?waits_for_leave_all by done.
  - done.
  - done.
  - rewrite list_elem_of_filter. tauto.
  - intros a Ha. apply bumps_is_Some, H4, Ha.
Qed.

Lemma alive_free p q xm : p <> q -> alive p xm -> alive p (free_entry q xm).
Proof.
  intros Hne [H1 H2 H3 H4]. split; simpl; [done | | done | done].
  rewrite elem_of_app, list_elem_of_singleton. tauto.
Qed.

Lemma alive_reap p t xm : p ∉ nodes t -> alive p xm -> alive p (reap t xm).
Proof.
  intros Hp. apply (reap_preserves (alive p)).
  - intros q xm' Hq. apply alive_kill. by intros ->.
  - intros q xm' Hq. apply alive_free. by intros ->.
Qed.

(** ** The result of reaping, in closed form *)

Lemma kill_free p xm : free_procs (kill p xm).1 = free_procs xm.1.
Proof. by destruct xm. Qed.

Lemma reap_free t xm : free_procs (reap t xm).1 = free_procs xm.1 ++ postorder t.
Proof.
  revert xm. induction t as [p ts IH] using ptree_ind'. intros xm. rewrite reap_node. simpl.
  rewrite (app_assoc _ _ [p]). f_equal. rewrite <- (kill_free p xm). generalize (kill p xm).
  induction IH as [|t ts Ht _ IHts]; intros xm'; simpl; [by rewrite app_nil_r |].
  by rewrite IHts, Ht, app_assoc.
Qed.

Lemma postorder_nodes t : postorder t ≡ₚ nodes t.
Proof.
  induction t as [p ts IH] using ptree_ind'. simpl. rewrite Permutation_app_comm. simpl. f_equiv.
  induction IH as [|t ts Ht _ IHts]; [done |]. simpl. by rewrite Ht, IHts.
Qed.

(** every process of the tree is in no queue *)
Lemma reap_idle t p xm : p ∈ nodes t -> idle_proc p (reap t xm).1.
Proof.
  revert xm. induction t as [q ts IH] using ptree_ind'. intros xm. rewrite reap_node. cbn [nodes].
  assert (forall r xm, idle_proc r xm.1 -> idle_proc r (reap_all ts xm).1) as Hkeep.
  { intros r. apply (reap_all_preserves (fun xm => idle_proc r xm.1)); [intros; by apply kill_idle | done]. }
  intros [->|Hp]%elem_of_cons; [apply Hkeep, kill_idle_self |].
  change (idle_proc p (reap_all ts (kill q xm)).1). clear Hkeep. generalize (kill q xm). intros xm'. revert xm' Hp.
  induction IH as [|t ts Ht _ IHts]; intros xm'; cbn [List.map concat]; [by intros ?%elem_of_nil |].
  intros [Hp|Hp]%elem_of_app; simpl.
  - apply (reap_all_preserves (fun xm => idle_proc p xm.1)); [intros; by apply kill_idle | done | by apply Ht].
  - by apply IHts.
Qed.

(** *** Leaving the ready queue at the end instead of the beginning *)

Definition drop_ready (p : Z) (xm : qmem) : qmem :=
  (set_ready (filter (fun q => q <> p) (ready xm.1)) xm.1, xm.2).

Lemma filter_comm (p q : Z) (l : list Z) :
  filter (fun r => r <> p) (filter (fun r => r <> q) l) = filter (fun r => r <> q) (filter (fun r => r <> p) l).
Proof. rewrite !list_filter_filter. apply list_filter_iff. intros r. tauto. Qed.

Lemma drop_ready_kill p q xm : drop_ready p (kill q xm) = kill q (drop_ready p xm).
Proof. destruct xm as [x m]. unfold drop_ready, kill, set_ready. simpl. by rewrite filter_comm. Qed.

Lemma drop_ready_free p q xm : drop_ready p (free_entry q xm) = free_entry q (drop_ready p xm).
Proof. done. Qed.

Lemma drop_ready_reap p t xm : drop_ready p (reap t xm) = reap t (drop_ready p xm).
Proof.
  revert xm. induction t as [q ts IH] using ptree_ind'. intros xm.
  rewrite !reap_node, drop_ready_free, <- drop_ready_kill. f_equal. generalize (kill q xm).
  induction IH as [|t ts Ht _ IHts]; intros xm'; [done |]. simpl. by rewrite <- Ht, <- IHts.
Qed.

Lemma drop_ready_reap_all p ts xm : drop_ready p (reap_all ts xm) = reap_all ts (drop_ready p xm).
Proof.
  revert xm. induction ts as [|t ts IH]; intros xm; [done |]. simpl. by rewrite IH, drop_ready_reap.
Qed.

Lemma kill_ready p x m : bwf (blocked x) -> waits_for p (blocked x) = [] -> kill p (x, m) = drop_ready p (x, m).
Proof.
  intros W Hw. unfold kill, drop_ready. simpl. rewrite Hw, leave_all_none by done. by destruct x.
Qed.

(** a process that waits for nothing may leave the ready queue last *)
Lemma reap_drop_ready p ts x m :
  bwf (blocked x) -> waits_for p (blocked x) = [] ->
  reap (Node p ts) (x, m) = free_entry p (drop_ready p (reap_all ts (x, m))).
Proof. intros W Hw. by rewrite reap_node, kill_ready, drop_ready_reap_all. Qed.

(** *** Killing and freeing commute: a family is killed, then freed *)

Definition kills (l : list Z) (xm : qmem) : qmem := foldl (fun xm p => kill p xm) xm l.
Definition free_entries (l : list Z) (xm : qmem) : qmem :=
  (set_free_procs (free_procs xm.1 ++ l) xm.1, xm.2).

Lemma free_entries_nil xm : free_entries [] xm = xm.
Proof. destruct xm as [[] ?]. unfold free_entries, set_free_procs. simpl. by rewrite app_nil_r. Qed.
Lemma free_entries_app l1 l2 xm : free_entries l2 (free_entries l1 xm) = free_entries (l1 ++ l2) xm.
Proof. unfold free_entries, set_free_procs. simpl. by rewrite app_assoc. Qed.
Lemma kills_app l1 l2 xm : kills (l1 ++ l2) xm = kills l2 (kills l1 xm).
Proof. apply foldl_app. Qed.
Lemma kill_free_entries p l xm : kill p (free_entries l xm) = free_entries l (kill p xm).
Proof. by destruct xm as [[] ?]. Qed.
Lemma kills_free_entries l l' xm : kills l (free_entries l' xm) = free_entries l' (kills l xm).
Proof. revert xm. induction l as [|p l IH]; intros xm; [done |]. unfold kills in *. cbn [foldl]. by rewrite kill_free_entries, IH. Qed.

Lemma reap_kills t xm : reap t xm = free_entries (postorder t) (kills (nodes t) xm).
Proof.
  revert xm. induction t as [p ts IH] using ptree_ind'. intros xm. rewrite reap_node. cbn [nodes postorder].
  change (kills (p :: concat (List.map nodes ts)) xm) with (kills (concat (List.map nodes ts)) (kill p xm)).
  rewrite <- free_entries_app. change (free_entry p) with (free_entries [p]). f_equal.
  generalize (kill p xm). induction IH as [|t ts Ht _ IHts]; intros xm'; [by rewrite free_entries_nil |].
  simpl. rewrite IHts, Ht, kills_app, kills_free_entries. by rewrite free_entries_app.
Qed.

(** *** The queues and the semaphores after a list of processes is killed *)

Lemma bwf_leave_all p B : bwf B -> bwf (leave_all p B).
Proof.
  intros [Hnd Hne]. induction B as [|[a q] B IH]; [done |]. cbn [leave_all]. rewrite keys_cons in Hnd.
  apply NoDup_cons in Hnd as [Ha Hnd]. destruct IH as [IH1 IH2]; [done | intros b r Hin; apply (Hne b r); by right |].
  destruct (filter (fun r => r <> p) q) as [|u l] eqn:E; cbn [entry_of app]; [done |]. split.
  - rewrite keys_cons. constructor; [by intros ?%keys_leave_all | done].
  - intros b r [[= -> ->]|Hin]%elem_of_cons; [done | by eapply IH2].
Qed.

Lemma kills_ready l xm : ready (kills l xm).1 = filter (fun q => q ∉ l) (ready xm.1).
Proof.
  revert xm. induction l as [|p l IH]; intros [x m]; simpl.
  - symmetry. apply filter_id. intros q _. apply not_elem_of_nil.
  - rewrite IH. simpl. rewrite list_filter_filter. apply list_filter_iff. intros q. rewrite not_elem_of_cons. tauto.
Qed.

Lemma kills_waiters l b xm : bwf (blocked xm.1) ->
  waiters b (blocked (kills l xm).1) = filter (fun q => q ∉ l) (waiters b (blocked xm.1)).
Proof.
  revert xm. induction l as [|p l IH]; intros [x m] W; simpl in *.
  - symmetry. apply filter_id. intros q _. apply not_elem_of_nil.
  - rewrite IH by by apply bwf_leave_all. simpl. rewrite waiters_leave_all by apply W.
    rewrite list_filter_filter. apply list_filter_iff. intros q. rewrite not_elem_of_cons. tauto.
Qed.

Lemma waits_for_nodup B p : bwf B -> NoDup (waits_for p B).
Proof.
  intros [Hnd _]. unfold waits_for. eapply sublist_NoDup; [exact Hnd | apply fmap_sublist, sublist_filter].
Qed.

(** a semaphore gets a V for every killed process that waits for it *)
Definition v_count (a : Z) (l : list Z) (B : blist) : nat := length (filter (fun p => a ∈ waits_for p B) l).
Definition incr_n (n : nat) (v : Z) : Z := Nat.iter n (fun v => i32 (v + 1)) v.

Lemma kills_mem l a xm : bwf (blocked xm.1) -> NoDup l ->
  (kills l xm).2 !! a = incr_n (v_count a l (blocked xm.1)) <$> xm.2 !! a.
Proof.
  revert xm. induction l as [|p l IH]; intros [x m] W Hnd; simpl in *; [by rewrite option_fmap_id |].
  apply NoDup_cons in Hnd as [Hp Hnd]. rewrite IH by (done || by apply bwf_leave_all). simpl.
  rewrite bumps_lookup by by apply waits_for_nodup.
  assert (v_count a l (leave_all p (blocked x)) = v_count a l (blocked x)) as ->.
  { unfold v_count. f_equal. apply filter_ext_in. intros q Hq.
    by rewrite waits_for_leave_all by by intros ->. }
  unfold v_count at 2. rewrite filter_cons. case_decide as Ha.
  - cbn [length]. unfold incr_n, v_count. rewrite <- option_fmap_compose. destruct (m !! a); simpl; [| done].
    f_equal. symmetry. apply (Nat.iter_succ_r _ _ (fun v => i32 (v + 1))).
  - by rewrite option_fmap_id.
Qed.

(** what reaping the family [t] does to the queues and the semaphores *)
Record reaps (t : ptree) (x : absq) (m : gmap Z Z) (x' : absq) (m' : gmap Z Z) : Prop := {
  rs_free : free_procs x' = free_procs x ++ postorder t;
  rs_ready : ready x' = filter (fun q => q ∉ nodes t) (ready x);
  rs_waiters : forall b, waiters b (blocked x') = filter (fun q => q ∉ nodes t) (waiters b (blocked x));
  rs_mem : forall a, m' !! a = incr_n (v_count a (nodes t) (blocked x)) <$> m !! a }.

Lemma reap_reaps t x m : bwf (blocked x) -> NoDup (nodes t) ->
  reaps t x m (reap t (x, m)).1 (reap t (x, m)).2.
Proof.
  intros W Hnd. rewrite reap_kills. split; simpl.
  - f_equal. change (free_procs x) with (free_procs (x, m).1). generalize (nodes t). intros l. generalize (x, m).
    induction l as [|p l IH]; intros xm; [done |]. simpl. by rewrite IH, kill_free.
  - apply (kills_ready _ (x, m)).
  - intros b. by apply (kills_waiters _ b (x, m)).
  - intros a. by apply (kills_mem _ a (x, m)).
Qed.
