(* ===== verification/Terminate.v ===== *)
(** * Process termination

    [check_sibling] and [Terminate_Process] of [src/nucleus/traps/syscall.c] reap
    the family of a process, as [Reap.v] says, and leave its entries without family
    pointers. *)

From S2P Require Export FamilySpec Reap.
Local Open Scope kernel_scope.

(** the pointers after the tree [t] is reaped: the root keeps its parent and
    brother, the other processes have no family *)
Record reaped (c c' : Z -> option proc_t) (t : ptree) : Prop := {
  rp_strip : same_strip c c';
  rp_other : forall p, p ∉ nodes t -> links c' p = links c p;
  rp_root : exists pa ch br, links c (root t) = Some (pa, ch, br) /\ links c' (root t) = Some (pa, ENULL, br);
  rp_nodes : forall p, p ∈ nodes t -> p <> root t -> links c' p = Some (ENULL, ENULL, ENULL) }.

(** after its children are reaped: [q] keeps its parent and brother *)
Record childless (c c' : Z -> option proc_t) (q : Z) (ts : list ptree) : Prop := {
  cl_strip : same_strip c c';
  cl_other : forall p, p ∉ concat (List.map nodes ts) -> p <> q -> links c' p = links c p;
  cl_root : exists pa ch br, links c q = Some (pa, ch, br) /\ links c' q = Some (pa, ENULL, br);
  cl_nodes : forall p, p ∈ concat (List.map nodes ts) -> links c' p = Some (ENULL, ENULL, ENULL) }.

Lemma sibs_frame_eq L L' p h l : (forall q, q ∈ l -> L' q = L q) -> sibs L p h l -> sibs L' p h l.
Proof. intros Hf. apply sibs_frame. intros q Hq. by rewrite Hf. Qed.

Lemma family_frame L L' t :
  NoDup (nodes t) -> (forall q, q ∈ nodes t -> q <> root t -> L' q = L q) ->
  (forall pa ch br, L (root t) = Some (pa, ch, br) -> exists pa' br', L' (root t) = Some (pa', ch, br')) ->
  family L (edges t) -> family L' (edges t).
Proof.
  intros Hnd Hf Hr HF p l He. destruct (HF p l He) as (pa & ch & br & Hp & Hs).
  assert (sibs L' p ch l) as Hs'.
  { apply (sibs_frame_eq L); [| done]. intros q Hq. destruct (edge_child t p l q Hnd He Hq). by apply Hf. }
  destruct (decide (p = root t)) as [->|Hne].
  - destruct (Hr _ _ _ Hp) as (pa' & br' & Hp'). by exists pa', ch, br'.
  - exists pa, ch, br. rewrite Hf; [done | by eapply edge_node | done].
Qed.

Lemma family_frame_eq L L' t :
  (forall q, q ∈ nodes t -> L' q = L q) -> NoDup (nodes t) -> family L (edges t) -> family L' (edges t).
Proof. intros Hf Hnd. apply family_frame; [done | by intros; apply Hf |]. rewrite Hf by apply root_in. eauto. Qed.

Lemma family_child L p ts t : family L (edges (Node p ts)) -> t ∈ ts -> family L (edges t).
Proof. intros HF Ht q l He. apply HF. simpl. right. apply elem_concat_map. eauto. Qed.

Section reap.
Context `{MachineOk}.

(** the process leaves its queues *)
Lemma wp_kill {A} k x m c r p (mk : Z -> MK A) Q X :
  kview k x m c r -> alive p (x, m) ->
  (forall k', kview k' (kill p (x, m)).1 (kill p (x, m)).2 c r -> wp (mk p) k' Q X) ->
  wp (let! removed := asl_ (outBlocked p) in
      let! removed := (if removed =? ENULL then out_running p else ret removed) in mk removed) k Q X.
Proof.
  intros V [Hv Hf Hq Hm] HQ. simpl in *. pose proof (kview_awf _ _ _ _ _ V) as W.
  wp_step. eapply (wp_outBlocked _ _ _ _ _ V); [done | done |]. intros k1 m1 Hm1 V1.
  assert (m1 = bumps (waits_for p (blocked x)) m) as ->.
  { apply map_eq. intros a. rewrite Hm1, bumps_lookup by by apply waits_for_nodup, aw_blocked. done. }
  wp_step. destruct Hq as [[Hr Hw]|[Hr Hw]].
  - rewrite (decide_True (P := waits_for p (blocked x) = [])) by done. change (ENULL =? ENULL) with true. cbv iota.
    eapply (wp_out_running _ _ _ _ _ V1); [lia |]. intros k2 V2. simpl in V2 |- *. rewrite decide_True by done. by apply HQ.
  - rewrite decide_False by done. rewrite (proj2 (Z.eqb_neq _ _)) by (unfold ENULL; lia). apply wp_ret, HQ.
    unfold kill. simpl. by rewrite filter_not_in.
Qed.

(** the recursive call [rec] does its work on the family of [q] *)
Definition rec_ok (rec : Z -> MK unit) (q : Z) (ts : list ptree) : Prop :=
  forall k x m c r, kview k x m c r -> family (links c) (edges (Node q ts)) ->
    NoDup (nodes (Node q ts)) -> (forall p, p ∈ concat (List.map nodes ts) -> alive p (x, m)) ->
    returns (rec q) k (fun _ k' => exists c',
      kview k' (reap_all ts (x, m)).1 (reap_all ts (x, m)).2 c' r /\ childless c c' q ts).

Lemma kview_pair k (xm : qmem) c r x m : xm = (x, m) -> kview k xm.1 xm.2 c r -> kview k x m c r.
Proof. by intros ->. Qed.

Lemma remove_family_spec rec q ts k x m c r :
  kview k x m c r -> family (links c) (edges (Node q ts)) -> NoDup (nodes (Node q ts)) ->
  (forall p, p ∈ nodes (Node q ts) -> alive p (x, m)) -> (ts <> [] -> rec_ok rec q ts) ->
  returns (remove_family rec q) k (fun _ k' => exists c',
    kview k' (reap (Node q ts) (x, m)).1 (reap (Node q ts) (x, m)).2 c' r /\ reaped c c' (Node q ts)).
Proof.
  intros V HF Hnd Hal Hrec. pose proof (Hal q ltac:(left)) as Hq.
  destruct (HF q (List.map root ts) ltac:(simpl; left)) as (pa & ch & br & Hl & Hs).
  pose proof Hnd as [Hqn Hndt]%NoDup_cons.
  unfold remove_family. eapply wp_kill; [exact V | exact Hq |]. intros k1 V1. wp_step.
  eapply wp_links; [exact V1 | exact Hl |]. intros pr Hpa Hch Hbr. rewrite Hch.
  assert (forall k' c', kview k' (reap_all ts (kill q (x, m))).1 (reap_all ts (kill q (x, m))).2 c' r ->
    reaped c c' (Node q ts) ->
    returns (pq_ (freeProc q)) k' (fun _ k' => exists c',
      kview k' (reap (Node q ts) (x, m)).1 (reap (Node q ts) (x, m)).2 c' r /\ reaped c c' (Node q ts))) as Hfree.
  { intros k' c' V' HR. eapply (wp_free _ _ _ _ _ V'); [apply Hq | | |].
    - assert (q ∉ free_procs (kill q (x, m)).1) as Hf by apply Hq. revert Hf.
      apply (reap_all_preserves (fun xm => q ∉ free_procs xm.1)); intros p xm Hp Hfr.
      + by rewrite kill_free.
      + simpl. rewrite elem_of_app, list_elem_of_singleton. intros [ | ->]; done.
    - apply idle_in_queues. pose proof (kill_idle_self q (x, m)) as Hid. revert Hid.
      apply (reap_all_preserves (fun xm => idle_proc q xm.1)); intros p xm _; [apply kill_idle | done].
    - intros k2 V2. exists c'. split; [exact V2 | done]. }
  wp_step. destruct ts as [|t ts].
  - simpl in Hs. rewrite Hs. change (ENULL =? ENULL) with true. cbn [negb]. apply wp_ret.
    apply (Hfree _ c); [exact V1 |]. split; [done | done | exists pa, ch, br | ].
    + split; [done |]. cbn [root]. by rewrite Hl, Hs.
    + intros p Hp. simpl in Hp. by apply list_elem_of_singleton in Hp as ->.
  - assert (ch <> ENULL) as Hch0.
    { destruct Hs as [-> _]. assert (alive (root t) (x, m)) as [Hv _ _ _].
      { apply Hal. right. simpl. apply elem_of_app. left. apply root_in. }
      unfold ENULL. lia. }
    rewrite (proj2 (Z.eqb_neq _ _)) by done. cbn [negb].
    destruct (kill q (x, m)) as [x1 m1] eqn:E1. cbn [fst snd] in V1.
    wp_apply (Hrec ltac:(done) k1 x1 m1 c r V1 HF Hnd).
    { intros p Hp. rewrite <- E1. apply alive_kill; [by intros -> | apply Hal; by right]. }
    intros [] k2 (c2 & V2 & [C1 C2 C3 C4]). apply (Hfree _ c2); [exact V2 |]. split; [done | | done |].
    + intros p Hp. apply not_elem_of_cons in Hp as [Hpq Hp]. by apply C2.
    + intros p Hp Hpq. simpl in Hpq. apply elem_of_cons in Hp as [->|Hp]; [done | by apply C4].
Qed.


(** the pointers after the trees with the processes [l] are reaped and detached *)
Record orphaned (c c' : Z -> option proc_t) (l : list Z) : Prop := {
  or_strip : same_strip c c';
  or_other : forall p, p ∉ l -> links c' p = links c p;
  or_nodes : forall p, p ∈ l -> links c' p = Some (ENULL, ENULL, ENULL) }.

Lemma alive_reap_all p ts xm : p ∉ concat (List.map nodes ts) -> alive p xm -> alive p (reap_all ts xm).
Proof.
  intros Hp. apply (reap_all_preserves (alive p)).
  - intros q xm' Hq. apply alive_kill. by intros ->.
  - intros q xm' Hq. apply alive_free. by intros ->.
Qed.

Lemma reap_all_cons t ts xm : reap_all (t :: ts) xm = reap_all ts (reap t xm).
Proof. done. Qed.

Lemma node_eta t : Node (root t) (subtrees t) = t.
Proof. by destruct t. Qed.

Lemma remove_family_tree rec t k x m c r :
  kview k x m c r -> family (links c) (edges t) -> NoDup (nodes t) ->
  (forall p, p ∈ nodes t -> alive p (x, m)) -> (subtrees t <> [] -> rec_ok rec (root t) (subtrees t)) ->
  returns (remove_family rec (root t)) k (fun _ k' => exists c',
    kview k' (reap t (x, m)).1 (reap t (x, m)).2 c' r /\ reaped c c' t).
Proof. destruct t as [q ts]. apply remove_family_spec. Qed.

Lemma nodes_in t ts p : t ∈ ts -> p ∈ nodes t -> p ∈ concat (List.map nodes ts).
Proof. intros. apply elem_concat_map. eauto. Qed.

(** one round of the loop: the first child goes *)
Lemma remove_brother rec q t z ts k x m c r :
  kview k x m c r -> sibs (links c) q (root t) (List.map root (t :: ts ++ [z])) ->
  family (links c) (edges t) -> NoDup (nodes t) -> (forall p, p ∈ nodes t -> alive p (x, m)) ->
  (subtrees t <> [] -> rec_ok rec (root t) (subtrees t)) ->
  returns (pq_ (update (root t) (set_brother ENULL)) ;; remove_family rec (root t)) k (fun _ k' => exists c',
    kview k' (reap t (x, m)).1 (reap t (x, m)).2 c' r /\ orphaned c c' (nodes t)).
Proof.
  intros V [_ (ch & br & Hl & _)] HF Hnd Hal Hrec. wp_step.
  eapply (wp_update _ _ _ _ _ V); [apply _ | by eapply is_Some_links |]. intros k1 V1.
  assert (links (upd (root t) (set_brother ENULL) c) (root t) = Some (ENULL, ch, ENULL)) as Hl1.
  { autorewrite with family. rewrite decide_True, Hl by done. by destruct ts. }
  assert (forall p, p <> root t -> links (upd (root t) (set_brother ENULL) c) p = links c p) as Hl2.
  { intros p Hp. autorewrite with family. by rewrite decide_False, option_fmap_id by done. }
  wp_apply (remove_family_tree rec t k1 x m _ r V1); [| done | done | done |].
  - apply (family_frame (links c)); [done | by intros; apply Hl2 | | done].
    intros pa ch' br' E. rewrite Hl in E. injection E as <- <- <-. eauto.
  - intros [] k2 (c2 & V2 & [R1 R2 R3 R4]). exists c2. split; [done |]. split.
    + eapply same_strip_trans; [| exact R1]. apply same_strip_upd. by intros [].
    + intros p Hp. rewrite R2 by done. apply Hl2. intros ->. apply Hp, root_in.
    + intros p Hp. destruct (decide (p = root t)) as [->|Hne]; [| by apply R4].
      destruct R3 as (pa & ch' & br' & E1 & E2). rewrite Hl1 in E1. by injection E1 as <- <- <-.
Qed.

Lemma orphaned_trans c1 c2 c3 l1 l2 :
  orphaned c1 c2 l1 -> orphaned c2 c3 l2 -> orphaned c1 c3 (l1 ++ l2).
Proof.
  intros [A1 A2 A3] [B1 B2 B3]. split.
  - by eapply same_strip_trans.
  - intros p [H1 H2]%not_elem_of_app. by rewrite B2, A2.
  - intros p Hp. destruct (decide (p ∈ l2)) as [Hin|Hni]; [by apply B3 |].
    rewrite B2 by done. apply A3. apply elem_of_app in Hp. tauto.
Qed.

Lemma sibs_cons_hd L q h t ts : sibs L q h (List.map root (t :: ts)) -> h = root t.
Proof. by intros [-> _]. Qed.

(** the loop: all children but the last go *)
Lemma remove_brothers_spec rec q z ts : forall fuel h k x m c r,
  kview k x m c r -> sibs (links c) q h (List.map root (ts ++ [z])) ->
  (forall t, t ∈ ts -> family (links c) (edges t)) -> NoDup (concat (List.map nodes (ts ++ [z]))) ->
  (forall p, p ∈ concat (List.map nodes ts) -> alive p (x, m)) -> alive (root z) (x, m) ->
  (length ts < fuel)%nat -> (forall t, t ∈ ts -> subtrees t <> [] -> rec_ok rec (root t) (subtrees t)) ->
  returns (remove_brothers rec fuel h) k (fun rv k' => rv = root z /\ exists c',
    kview k' (reap_all ts (x, m)).1 (reap_all ts (x, m)).2 c' r /\ orphaned c c' (concat (List.map nodes ts))).
Proof.
  induction ts as [|t ts IH]; intros fuel h k x m c r V Hs HF Hnd Hal Hz Hf Hrec;
    (destruct fuel as [|fuel]; simpl in Hf; [lia |]); cbn [remove_brothers]; wp_step.
  - destruct Hs as [-> (ch & br & Hl & ->)]. eapply wp_links; [exact V | exact Hl |].
    intros pr _ _ Hbr. rewrite Hbr. change (negb (ENULL =? ENULL)) with false. cbv iota. apply wp_ret.
    split; [done |]. exists c. split; [done |]. split; [done | done |]. by intros p ?%elem_of_nil.
  - cbn [List.map concat app] in Hnd. apply NoDup_app in Hnd as (Hndt & Hd & Hnd).
    pose proof (sibs_cons_hd _ _ _ t (ts ++ [z]) Hs) as ->.
    pose proof Hs as [_ (ch & br & Hl & Hs2)]. eapply wp_links; [exact V | exact Hl |].
    intros pr _ _ Hbr. rewrite Hbr.
    assert (br <> ENULL) as Hb0.
    { assert (exists u, u ∈ ts ++ [z] /\ br = root u) as (u & Hu & ->).
      { clear -Hs2. destruct ts as [|u ts]; destruct Hs2 as [-> _]; eexists; (split; [left | done]). }
      assert (alive (root u) (x, m)) as [Hv _ _ _].
      { apply elem_of_app in Hu as [Hu|Hu%list_elem_of_singleton]; [| by subst].
        apply Hal, elem_of_app. right. eapply nodes_in; [done | apply root_in]. }
      unfold ENULL. lia. }
    rewrite (proj2 (Z.eqb_neq _ _)) by done. cbn [negb].
    apply wp_bind_assoc, wp_bind.
    wp_apply (remove_brother rec q t z ts k x m c r V Hs); [apply HF; left | done | | apply Hrec; left |].
    { intros p Hp. apply Hal, elem_of_app. by left. }
    intros [] k1 (c1 & V1 & O1). destruct (reap t (x, m)) as [x1 m1] eqn:E1. cbn [fst snd] in V1.
    assert (forall p, p ∈ concat (List.map nodes (ts ++ [z])) -> p ∉ nodes t) as Hout by (intros p Hp Hpt; by apply (Hd p)).
    assert (forall p, p ∈ concat (List.map nodes (ts ++ [z])) -> links c1 p = links c p) as Hl1
      by (intros p Hp; apply O1; auto).
    assert (forall u, u ∈ ts -> u ∈ ts ++ [z]) as Hinl by (intros u Hu; apply elem_of_app; by left).
    assert (z ∈ ts ++ [z]) as Hinz by (apply elem_of_app; right; left).
    wp_apply (IH fuel br k1 x1 m1 c1 r V1); [ | | done | | | lia | |].
    + apply (sibs_frame_eq (links c)); [| done]. intros p Hp. apply Hl1.
      apply list_elem_of_In, in_map_iff in Hp as (u & <- & Hu%list_elem_of_In).
      eapply nodes_in; [exact Hu | apply root_in].
    + intros u Hu. eapply (family_frame_eq (links c)); [ | | apply HF; by right].
      * intros p Hp. apply Hl1. by eapply nodes_in; [apply Hinl |].
      * eapply NoDup_concat_map; [exact Hnd | by apply Hinl].
    + intros p Hp. rewrite <- E1. apply alive_reap; [| apply Hal, elem_of_app; by right].
      apply Hout. apply elem_concat_map in Hp as (u & Hu & Hp). eapply nodes_in; [by apply Hinl | done].
    + rewrite <- E1. apply alive_reap; [| done]. apply Hout. eapply nodes_in; [done | apply root_in].
    + intros u Hu. apply Hrec. by right.
    + intros rv k2 (-> & c2 & V2 & O2). split; [done |]. exists c2. rewrite reap_all_cons, E1. split; [done |].
      by eapply orphaned_trans.
Qed.

Lemma alive_length l xm : NoDup l -> (forall p, p ∈ l -> alive p xm) -> (length l <= 20)%nat.
Proof.
  intros Hnd Hl. change 20%nat with (length (seqZ 0 20)). apply submseteq_length, NoDup_submseteq; [done |].
  intros p Hp. destruct (Hl p Hp) as [Hv _ _ _]. apply elem_of_seqZ. unfold MAXPROC in Hv. lia.
Qed.

Lemma length_concat_nodes ts : (length ts <= length (concat (List.map nodes ts)))%nat.
Proof.
  induction ts as [|t ts IH]; [done |]. simpl. rewrite length_app. pose proof (root_in t) as Hr.
  destruct (nodes t); [by apply elem_of_nil in Hr |]. simpl. lia.
Qed.

Lemma nodes_snoc ts z p :
  p ∈ concat (List.map nodes (ts ++ [z])) <-> p ∈ concat (List.map nodes ts) \/ p ∈ nodes z.
Proof. rewrite List.map_app, concat_app. cbn [List.map concat]. by rewrite app_nil_r, elem_of_app. Qed.

Lemma nodup_snoc q ts z : NoDup (q :: concat (List.map nodes (ts ++ [z]))) ->
  (q <> root z /\ q ∉ concat (List.map nodes ts)) /\ NoDup (concat (List.map nodes ts)) /\
  (forall p, p ∈ concat (List.map nodes ts) -> p ∉ nodes z) /\ NoDup (nodes z).
Proof.
  intros [Hqn Hnd]%NoDup_cons. split.
  - split; [intros -> | intros Hq]; apply Hqn, nodes_snoc; [right; apply root_in | by left].
  - rewrite List.map_app, concat_app in Hnd. cbn [List.map concat] in Hnd. rewrite app_nil_r in Hnd.
    by apply NoDup_app in Hnd.
Qed.

(** the recursion: the children of [q] are reaped, the last one last *)
Lemma check_sibling_spec : forall fuel q ts, ts <> [] -> (height (Node q ts) <= fuel)%nat ->
  rec_ok (check_sibling fuel) q ts.
Proof.
  induction fuel as [|fuel IH]; intros q ts Hts Hh k x m c r V HF Hnd Hal; [destruct ts; [done | simpl in Hh; lia] |].
  destruct (HF q (List.map root ts) ltac:(simpl; left)) as (pa & ch & br & Hl & Hs).
  destruct ts as [|z ts _] using rev_ind; [done |]. clear Hts.
  assert (forall t, t ∈ ts ++ [z] -> subtrees t <> [] -> rec_ok (check_sibling fuel) (root t) (subtrees t)) as Hrec.
  { intros t Ht Hsub. apply IH; [done |]. rewrite node_eta. pose proof (height_child q _ t Ht). lia. }
  assert (forall t, t ∈ ts -> t ∈ ts ++ [z]) as Hin by (intros t Ht; apply elem_of_app; by left).
  assert (z ∈ ts ++ [z]) as Hz by (apply elem_of_app; right; left).
  pose proof Hnd as [Hqn Hndt]%NoDup_cons.
  assert (length (concat (List.map nodes (ts ++ [z]))) <= 20)%nat as Hlen by exact (alive_length _ _ Hndt Hal).
  assert (length ts < 20)%nat as Hlen2.
  { pose proof (length_concat_nodes (ts ++ [z])) as Hle. rewrite length_app in Hle. cbn [length] in Hle. clear -Hle Hlen. lia. }
  destruct (nodup_snoc _ _ _ Hnd) as ([Hqz Hqts] & Hnd1 & Hd & Hndz). pose proof (nodes_snoc ts z) as Hmem.
  cbn [check_sibling]. wp_step. eapply wp_links; [exact V | exact Hl |]. intros pr _ Hch _. rewrite Hch. wp_step.
  wp_apply (remove_brothers_spec _ q z ts brother_fuel ch k x m c r V Hs); [ | done | | | | |].
  { intros t Ht. eapply family_child; [exact HF | by apply Hin]. }
  { intros p Hp. apply Hal, Hmem. by left. }
  { apply Hal, Hmem. right. apply root_in. }
  { unfold brother_fuel. lia. }
  { intros t Ht. by apply Hrec, Hin. }
  intros rv k1 (-> & c1 & V1 & [O1 O2 O3]). destruct (reap_all ts (x, m)) as [x1 m1] eqn:E1. cbn [fst snd] in V1. wp_step.
  assert (forall p, p ∈ nodes z -> links c1 p = links c p) as Hlz by (intros p Hp; apply O2; intros Hp'; by apply (Hd p)).
  assert (exists chz, links c1 (root z) = Some (q, chz, ENULL)) as (chz & Hz1).
  { rewrite Hlz by apply root_in. rewrite List.map_app in Hs. destruct (sibs_mid _ _ _ _ _ _ Hs) as (chz & Hz1 & _). by exists chz. }
  wp_apply (remove_family_tree _ z k1 x1 m1 c1 r V1); [ | done | | by apply Hrec |].
  { eapply family_frame_eq; [exact Hlz | done |]. by eapply family_child; [exact HF |]. }
  { intros p Hp. rewrite <- E1. apply alive_reap_all; [intros Hp'; by apply (Hd p) | apply Hal, Hmem; by right]. }
  intros [] k2 (c2 & V2 & [R1 R2 R3 R4]). destruct R3 as (pa' & ch' & br' & E & Hz2).
  rewrite Hz1 in E. injection E as <- <- <-.
  assert (links c2 q = Some (pa, ch, br)) as Hq2.
  { rewrite R2 by (intros Hq; apply Hqn, Hmem; by right). by rewrite O2. }
  wp_step. eapply (wp_update _ _ _ _ _ V2); [apply _ | by eapply is_Some_links |]. intros k3 V3.
  eapply (wp_update _ _ _ _ _ V3); [apply _ | rewrite upd_ne by done; by eapply is_Some_links |]. intros k4 V4.
  eexists. split.
  { unfold reap_all in *. rewrite List.fold_left_app. simpl. rewrite E1. exact V4. }
  split.
  - do 2 (eapply same_strip_trans; [| apply same_strip_upd; by intros []]). by eapply same_strip_trans.
  - intros p Hp Hpq. assert (p <> root z) by (intros ->; apply Hp, Hmem; right; apply root_in).
    autorewrite with family. rewrite !decide_False, !option_fmap_id by done.
    rewrite R2, O2; [done | |]; intros Hp'; apply Hp, Hmem; tauto.
  - exists pa, ch, br. split; [done |]. autorewrite with family. by rewrite decide_True, decide_False, Hq2 by done.
  - intros p Hp. autorewrite with family. rewrite (decide_False (P := p = q)) by (intros ->; done). rewrite option_fmap_id.
    case_decide as Hpz; [subst p; by rewrite Hz2 |]. rewrite option_fmap_id.
    destruct (decide (p ∈ nodes z)); [by apply R4 |]. rewrite R2 by done. apply O3. by apply Hmem in Hp as [?|?].
Qed.
End reap.
