(* ===== verification/Tree.v ===== *)
(** * The process tree of the nucleus

    The invariant that the family pointers of the used entries represent a tree,
    and its preservation by SYS1 ([Create_Process]) and SYS2
    ([Terminate_Process]). *)

From S2P Require Export Terminate.
Local Open Scope kernel_scope.

(** the used entries are the processes of the tree [t], each of them alive; the
    free ones have no family *)
Record tree_inv (x : absq) (m : gmap Z Z) (c : Z -> option proc_t) (t : ptree) : Prop := {
  ti_family : family (links c) (edges t);
  ti_root : exists ch, links c (root t) = Some (ENULL, ch, ENULL);
  ti_nodes : nodes t ++ free_procs x ≡ₚ seqZ 0 MAXPROC;
  ti_alive : forall p, p ∈ nodes t -> alive p (x, m);
  ti_free : forall p, p ∈ free_procs x -> links c p = Some (ENULL, ENULL, ENULL) }.

Lemma ti_nodup x m c t : tree_inv x m c t -> NoDup (nodes t).
Proof.
  intros I. pose proof (NoDup_seqZ 0 MAXPROC) as Hnd. rewrite <- (ti_nodes _ _ _ _ I) in Hnd.
  by apply NoDup_app in Hnd as [? _].
Qed.

Lemma ti_valid x m c t p : tree_inv x m c t -> p ∈ nodes t -> 0 <= p < MAXPROC /\ p ∉ free_procs x.
Proof. intros I Hp. destruct (ti_alive _ _ _ _ I p Hp). done. Qed.

Lemma edge_irrefl t p l : NoDup (nodes t) -> (p, l) ∈ edges t -> p ∉ l.
Proof.
  induction t as [q ts IH] using ptree_ind'. intros [Hq Hnd]%NoDup_cons. cbn [edges].
  intros [[= -> ->]|He]%elem_of_cons.
  - intros Hp. apply Hq. apply list_elem_of_In, in_map_iff in Hp as (u & <- & Hu%list_elem_of_In).
    eapply nodes_in; [exact Hu | apply root_in].
  - apply elem_concat_map in He as (u & Hu & He). rewrite Forall_forall in IH.
    apply (IH u Hu); [| done]. by eapply NoDup_concat_map.
Qed.

(** the children of a process, with what the walks over them need *)
Lemma ti_children x m c t p l :
  tree_inv x m c t -> (p, l) ∈ edges t ->
  NoDup l /\ p ∉ l /\ p <> ENULL /\ ENULL ∉ l /\ (length l < 20)%nat.
Proof.
  intros I He. pose proof (ti_nodup _ _ _ _ I) as Hnd. pose proof (edge_nodup _ _ _ Hnd He) as Hl.
  pose proof (edge_irrefl _ _ _ Hnd He) as Hp.
  assert (forall q, q ∈ p :: l -> q ∈ nodes t) as Hin.
  { intros q [->|Hq]%elem_of_cons; [by eapply edge_node | by eapply edge_child]. }
  assert (forall q, q ∈ p :: l -> q <> ENULL) as Hne.
  { intros q Hq. destruct (ti_valid _ _ _ _ q I (Hin q Hq)). unfold ENULL. lia. }
  split_and!; [done | done | apply Hne; left | |].
  - intros H0. by apply (Hne ENULL); [right |].
  - assert (length (p :: l) <= 20)%nat as Hlen; [| simpl in Hlen; lia].
    apply (alive_length _ (x, m)); [by constructor |]. intros q Hq. by eapply ti_alive, Hin.
Qed.

Lemma ti_height x m c t s : tree_inv x m c t -> subtree t s -> (height s < 20)%nat.
Proof.
  intros I Hs. pose proof (subtree_height _ _ Hs). pose proof (height_nodes t).
  pose proof (alive_length (nodes t) (x, m) (ti_nodup _ _ _ _ I) (ti_alive _ _ _ _ I)). lia.
Qed.

(** ** Taking a family out *)

Lemma filter_split (p : Z) (l1 l2 : list Z) :
  p ∉ l1 -> p ∉ l2 -> filter (fun q => q <> p) (l1 ++ p :: l2) = l1 ++ l2.
Proof.
  intros H1 H2. rewrite filter_app, filter_cons_False by auto. by rewrite !filter_not_in.
Qed.

Lemma family_prune c c1 c2 t s P l1 p l2 :
  NoDup (nodes t) -> family (links c) (edges t) -> (P, l1 ++ p :: l2) ∈ edges t ->
  subtree t s -> root s = p -> unlinked c c1 P l1 p l2 ->
  (forall q, q ∉ nodes s -> links c2 q = links c1 q) ->
  family (links c2) (edges (prune p t)).
Proof.
  intros Hnd HF HP Hs Hr [_ _ U3 U4 U5] Hc2 a l' He.
  destruct (edge_child _ _ _ p Hnd HP) as [Hp Hpr]; [apply elem_of_app; right; left |].
  assert (forall q, q ∈ nodes (prune p t) -> links c2 q = links c1 q) as Hc.
  { intros q Hq. apply Hc2. intros Hqs. rewrite (prune_nodes p t s Hnd Hs Hr Hpr) in Hnd.
    apply NoDup_app in Hnd as (_ & Hd & _). by apply (Hd q). }
  assert (NoDup (nodes (prune p t))) as Hndp.
  { pose proof Hnd as Hnd'. rewrite (prune_nodes p t s Hnd Hs Hr Hpr) in Hnd'. by apply NoDup_app in Hnd' as [? _]. }
  assert (forall ch, sibs (links c1) a ch l' -> sibs (links c2) a ch l') as Hsib.
  { intros ch. apply sibs_frame_eq. intros q Hq. apply Hc. by eapply edge_child. }
  rewrite Hc by by eapply edge_node.
  destruct (prune_edges _ _ _ _ He) as (l & Hl & ->). destruct (HF a l Hl) as (pa & ch & br & Ha & Hsa).
  destruct (decide (a = P)) as [->|Hne].
  - pose proof (edges_fun _ _ _ _ Hnd HP Hl) as <-. destruct U3 as (pa' & ch' & br' & ch1 & E & HP1 & Hs1).
    exists pa', ch1, br'. split; [done |]. apply Hsib. rewrite filter_split; [done | |];
      pose proof (edge_nodup _ _ _ Hnd Hl) as (_ & Hd & [Hni _]%NoDup_cons)%NoDup_app; [| done].
    intros Hin. apply (Hd p Hin). left.
  - assert (forall q, q ∈ l -> q <> p /\ q ∉ l1) as Hq.
    { intros q Hq. assert (q ∉ l1 ++ p :: l2) as Hni.
      { intros Hq'. by destruct (edges_parent t P a _ _ q Hnd HP Hl Hq' Hq). }
      split; [intros ->; apply Hni | intros Hq1; apply Hni]; apply elem_of_app; [right; left | by left]. }
    assert (filter (fun q => q <> p) l = l) as Hfl by (apply filter_id; intros q Hin; by apply Hq).
    rewrite Hfl in Hsib. rewrite Hfl.
    pose proof (U5 a Hne) as Hch. rewrite Ha in Hch. destruct (links c1 a) as [[[pa1 ch1] br1]|]; [| done].
    simpl in Hch. injection Hch as ->. exists pa1, ch, br1. split; [done |]. apply Hsib.
    apply (sibs_frame (links c)); [| done]. intros q Hin. destruct (Hq q Hin) as [Hqp Hq1].
    destruct (decide (q = P)) as [->|HqP]; [| by rewrite U4].
    destruct U3 as (pa' & ch' & br' & ch2 & E1 & E2 & _). by rewrite E1, E2.
Qed.

(** the parent and the brothers of the root of a subtree are outside *)
Lemma outside_sub t s P l p :
  NoDup (nodes t) -> (P, l) ∈ edges t -> p ∈ l -> subtree t s -> root s = p ->
  P ∉ nodes s /\ forall q, q ∈ l -> q <> p -> q ∉ nodes s.
Proof.
  intros Hnd HP Hp Hs <-. pose proof (subtree_nodup _ _ Hs Hnd) as Hnds.
  assert (forall l', (P, l') ∈ edges s -> False) as Hno.
  { intros l' Hl'. assert (l' = l) as -> by (eapply edges_fun; [exact Hnd | exact (subtree_edges _ _ Hs _ Hl') | done]).
    by destruct (edge_child s P l (root s) Hnds Hl' Hp). }
  split.
  - intros HPs. rewrite <- edges_fst in HPs. apply list_elem_of_fmap in HPs as ([a l'] & -> & Hin). by eapply Hno.
  - intros q Hq Hne Hqs. destruct (parent_edge s q Hqs Hne) as (a & l' & Ha & Hq').
    destruct (edges_parent t P a l l' q Hnd HP (subtree_edges _ _ Hs _ Ha) Hq Hq') as [-> _]. exact (Hno _ Ha).
Qed.

Lemma family_unlinked c c1 t s P l1 p l2 :
  NoDup (nodes t) -> family (links c) (edges t) -> (P, l1 ++ p :: l2) ∈ edges t ->
  subtree t s -> root s = p -> unlinked c c1 P l1 p l2 -> family (links c1) (edges s).
Proof.
  intros Hnd HF HP Hs Hr [_ (ch & br & pa & Hp1 & Hp2) _ U4 _].
  destruct (outside_sub t s P _ p Hnd HP) as [HPs Hout]; [apply elem_of_app; right; left | done | done |].
  assert (p ∉ l1) as Hpl1.
  { pose proof (edge_nodup _ _ _ Hnd HP) as (_ & Hd & _)%NoDup_app. intros Hin. apply (Hd p Hin). left. }
  apply (family_frame (links c)); [exact (subtree_nodup _ _ Hs Hnd) | | |].
  - intros q Hq Hne. rewrite Hr in Hne. apply U4; [by intros -> | done |].
    intros Hq1. apply (Hout q); [apply elem_of_app; by left | done | done].
  - intros pa' ch' br' E. rewrite Hr in E |- *. rewrite Hp1 in E. injection E as <- <- <-. eauto.
  - intros a l Ha. apply HF. exact (subtree_edges _ _ Hs _ Ha).
Qed.

Section terminate.
Context `{MachineOk}.

(** the second part of [Terminate_Process]: the family of the running process [p],
    detached from the tree, is reaped *)
Lemma exit_spec k x m c r d p q ts :
  kview k x m c r -> printer_ok r d -> ready x = p :: q ->
  family (links c) (edges (Node p ts)) -> NoDup (nodes (Node p ts)) ->
  (forall a, a ∈ nodes (Node p ts) -> alive a (x, m)) ->
  let xm := reap (Node p ts) (x, m) in
  leaves_with (
    let! pr := pq_ (deref p) in
    (if child pr =? ENULL then let! a := out_running p in pq_ (freeProc a)
     else check_sibling tree_fuel p ;; let! a := out_running p in pq_ (freeProc a)) ;;
    schedule) k (fun e k' => exists c', childless c c' p ts /\ scheduled xm.1 xm.2 c' r e k').
Proof.
  intros V P Hr HF Hnd Hal xm. pose proof (Hal p ltac:(left)) as [Hv Hf Hq _]. cbn [fst snd] in Hf, Hq.
  destruct Hq as [[Hp Hw]|[Hp _]]; [| rewrite Hr in Hp; destruct Hp; left].
  pose proof (aw_blocked _ (kview_awf _ _ _ _ _ V)) as W.
  assert (forall k1 c', kview k1 (reap_all ts (x, m)).1 (reap_all ts (x, m)).2 c' r -> childless c c' p ts ->
    wp (let! a := out_running p in pq_ (freeProc a)) k1 (fun _ k' => exists c', childless c c' p ts /\
      kview k' xm.1 xm.2 c' r) (fun _ _ => False)) as Hend.
  { intros k1 c' V1 C. pose proof Hnd as [Hpn _]%NoDup_cons.
    destruct (alive_reap_all p ts (x, m) Hpn (Hal p ltac:(left))) as [_ Hf1 Hq1 _].
    assert (p ∈ ready (reap_all ts (x, m)).1 /\ waits_for p (blocked (reap_all ts (x, m)).1) = []) as [Hp1 Hw1].
    { revert Hpn. clear -Hp Hw. intros Hpn. apply (reap_all_preserves (fun xm => p ∈ ready xm.1 /\ waits_for p (blocked xm.1) = [])).
      - intros q [x1 m1] Hq [H1 H2]. simpl in *. assert (p <> q) by by intros ->. split.
        + by apply list_elem_of_filter.
        + by rewrite waits_for_leave_all.
      - by intros q xm1 _.
      - done. }
    wp_step. eapply (wp_out_running _ _ _ _ _ V1); [lia |]. intros k2 V2. rewrite decide_True by done.
    eapply (wp_free _ _ _ _ _ V2); [done | done | |].
    - apply idle_in_queues. split; simpl; [by intros [? _]%list_elem_of_filter | done].
    - intros k3 V3. exists c'. split; [done |]. unfold xm. by rewrite reap_drop_ready by done. }
  destruct (HF p (List.map root ts) ltac:(simpl; left)) as (pa & ch & br & Hl & Hs).
  wp_step. eapply wp_links; [exact V | exact Hl |]. intros pr _ Hch _. rewrite Hch. wp_step.
  assert (forall k1, (exists c', childless c c' p ts /\ kview k1 xm.1 xm.2 c' r) ->
    leaves_with schedule k1 (fun e k' => exists c', childless c c' p ts /\ scheduled xm.1 xm.2 c' r e k')) as Hsch.
  { intros k1 (c' & C & V1). eapply wp_mono; [eapply schedule_spec; [exact V1 | by exists d] | done |].
    intros e k' HS. by exists c'. }
  destruct ts as [|t ts].
  - rewrite Hs. change (ENULL =? ENULL) with true. cbv iota.
    eapply wp_mono; [eapply (Hend k c); [exact V |] | intros [] k1; apply Hsch | done].
    split; [done | done | | by intros ? ?%elem_of_nil]. exists pa, ch, br. by rewrite Hl, Hs.
  - pose proof Hs as [-> _]. assert (alive (root t) (x, m)) as [Hv' _ _ _].
    { apply Hal. right. eapply nodes_in; [left | apply root_in]. }
    rewrite (proj2 (Z.eqb_neq _ _)) by (unfold ENULL; lia).
    pose proof (alive_length _ _ Hnd Hal) as Hlen. pose proof (height_nodes (Node p (t :: ts))) as Hh.
    wp_step. wp_apply (check_sibling_spec tree_fuel p (t :: ts) ltac:(done) ltac:(unfold tree_fuel; lia) k x m c r V HF Hnd).
    { intros a Ha. apply Hal. by right. }
    intros [] k1 (c1 & V1 & C). eapply wp_mono; [eapply Hend; [exact V1 | done] | intros [] k2; apply Hsch | done].
Qed.

Lemma Terminate_Process_unfold k p q x m c r Q X :
  kview k x m c r -> ready x = p :: q ->
  wp (unlink_family p) k (fun _ k1 => wp (
    let! pr := pq_ (deref p) in
    (if child pr =? ENULL then let! a := out_running p in pq_ (freeProc a)
     else check_sibling tree_fuel p ;; let! a := out_running p in pq_ (freeProc a)) ;;
    schedule) k1 Q X) X -> wp Terminate_Process k Q X.
Proof. intros V Hr HQ. unfold Terminate_Process. wp_step. k_step V. rewrite Hr. wp_step. exact HQ. Qed.

(** the first process terminates: every entry is free *)
Lemma terminate_root k x m c r d t q :
  kview k x m c r -> printer_ok r d -> tree_inv x m c t -> ready x = root t :: q ->
  leaves_with Terminate_Process k (fun e k' => exists c',
    scheduled (reap t (x, m)).1 (reap t (x, m)).2 c' r e k').
Proof.
  intros V P I Hr. destruct (ti_root _ _ _ _ I) as (ch & Hl).
  eapply Terminate_Process_unfold; [exact V | exact Hr |].
  wp_apply (unlink_root k x m c r (root t) ch _ V Hl). intros [] k1 ->.
  pose proof (ti_nodup _ _ _ _ I) as Hnd. pose proof (ti_family _ _ _ _ I) as HF. pose proof (ti_alive _ _ _ _ I) as Hal.
  destruct t as [p ts]. eapply wp_mono; [eapply (exit_spec k x m c r d p q ts); done | done |].
  intros e k' (c' & _ & HS). by exists c'.
Qed.

(** the invariant after the family [s] of [p], a child of [P], is gone *)
Lemma tree_inv_prune x m c c1 c2 t s P l1 p l2 :
  tree_inv x m c t -> (P, l1 ++ p :: l2) ∈ edges t -> subtree t s -> root s = p ->
  unlinked c c1 P l1 p l2 -> childless c1 c2 p (subtrees s) ->
  tree_inv (reap s (x, m)).1 (reap s (x, m)).2 c2 (prune p t).
Proof.
  intros I HP Hs Hr U [C1 C2 C3 C4]. pose proof (ti_nodup _ _ _ _ I) as Hnd.
  assert (p ∈ l1 ++ p :: l2) as Hin by (apply elem_of_app; right; left).
  destruct (edge_child _ _ _ p Hnd HP Hin) as [Hp Hpr].
  pose proof (prune_nodes p t s Hnd Hs Hr Hpr) as Hperm.
  assert (forall a, a ∈ nodes s <-> a = p \/ a ∈ concat (List.map nodes (subtrees s))) as Hns.
  { intros a. destruct s as [p' ts]. simpl in Hr |- *. subst. by rewrite elem_of_cons. }
  assert (forall a, a ∉ nodes s -> links c2 a = links c1 a) as Hc2.
  { intros a Ha. apply C2; [intros Hx | intros ->]; apply Ha, Hns; tauto. }
  assert (forall a, a ∈ nodes (prune p t) -> a ∈ nodes t /\ a ∉ nodes s) as Hpn.
  { intros a Ha. split; [rewrite Hperm; apply elem_of_app; by left |]. intros Has.
    rewrite Hperm in Hnd. apply NoDup_app in Hnd as (_ & Hd & _). by apply (Hd a). }
  pose proof U as [_ (chp & br & pa & Hp1 & Hp2) (pa' & ch & br' & ch' & HP1 & HP2 & _) U4 _]. split.
  - eapply family_prune; [done | apply I | exact HP | exact Hs | done | exact U | done].
  - rewrite prune_root. destruct (ti_root _ _ _ _ I) as (ch0 & Hr0). rewrite Hc2.
    2: { apply Hpn. rewrite <- (prune_root p t). apply root_in. }
    destruct (decide (root t = P)) as [<-|HrP].
    + rewrite Hr0 in HP1. injection HP1 as <- <- <-. by exists ch'.
    + exists ch0. rewrite U4; [done | done | done |]. intros Hc.
      destruct (edge_child _ _ _ (root t) Hnd HP); [apply elem_of_app; by left | done].
  - rewrite reap_free. simpl. rewrite <- (ti_nodes _ _ _ _ I), Hperm, postorder_nodes.
    rewrite <- !app_assoc. f_equiv. apply Permutation_app_comm.
  - intros a Ha. destruct (Hpn a Ha) as [Hat Has].
    destruct (reap s (x, m)) as [x' m'] eqn:E. cbn [fst snd]. rewrite <- E. apply alive_reap; [done |]. by apply (ti_alive _ _ _ _ I).
  - intros a. rewrite reap_free, elem_of_app. cbn [fst]. intros [Ha|Ha].
    + assert (a ∉ nodes t) as Hat.
      { intros Hat. by destruct (ti_valid _ _ _ _ a I Hat). }
      assert (a <> P) by (intros ->; apply Hat; by eapply edge_node).
      rewrite Hc2, U4; [by apply (ti_free _ _ _ _ I) | done | by intros -> | |].
      * intros Hl1. destruct (edge_child _ _ _ a Hnd HP); [apply elem_of_app; by left | done].
      * intros Has. by eapply Hat, subtree_nodes.
    + rewrite postorder_nodes in Ha. apply Hns in Ha as [->|Ha]; [| by apply C4].
      destruct C3 as (pa1 & ch1 & br1 & E1 & E2). rewrite Hp2 in E1. by injection E1 as <- <- <-.
Qed.

(** another process terminates: its family leaves the tree *)
Lemma terminate_child k x m c r d t s p q :
  kview k x m c r -> printer_ok r d -> tree_inv x m c t -> ready x = p :: q ->
  subtree t s -> root s = p -> p <> root t ->
  leaves_with Terminate_Process k (fun e k' => exists c',
    tree_inv (reap s (x, m)).1 (reap s (x, m)).2 c' (prune p t) /\ same_strip c c' /\
    scheduled (reap s (x, m)).1 (reap s (x, m)).2 c' r e k').
Proof.
  intros V P I Hr Hs Hp Hpr. pose proof (ti_nodup _ _ _ _ I) as Hnd.
  assert (p ∈ nodes t) as Hpt by (rewrite <- Hp; eapply subtree_nodes; [exact Hs | apply root_in]).
  destruct (parent_edge t p Hpt Hpr) as (P' & l & HP & Hl).
  apply list_elem_of_split in Hl as (l1 & l2 & ->).
  destruct (ti_children _ _ _ _ _ _ I HP) as (Hl & HPl & HP0 & Hl0 & Hlen).
  destruct (ti_family _ _ _ _ I P' _ HP) as (pa & ch & br & HlP & Hsib).
  eapply Terminate_Process_unfold; [exact V | exact Hr |].
  wp_apply (unlink_child k x m c r P' l1 p l2 pa ch br _ V HlP Hsib); [done | done | done | done | done |].
  intros [] k1 (c1 & V1 & U).
  pose proof (family_unlinked _ _ _ _ _ _ _ _ Hnd (ti_family _ _ _ _ I) HP Hs Hp U) as HF.
  pose proof (subtree_nodup _ _ Hs Hnd) as Hnds.
  assert (forall a, a ∈ nodes s -> alive a (x, m)) as Hal.
  { intros a Ha. eapply ti_alive; [exact I | by eapply subtree_nodes]. }
  destruct s as [p' ts]. simpl in Hp. subst p'.
  eapply wp_mono; [eapply (exit_spec k1 x m c1 r d p q ts); done | done |].
  intros e k' (c2 & C & HS). exists c2. split; [| split; [| exact HS]].
  - by eapply (tree_inv_prune x m c c1 c2 t (Node p ts)).
  - eapply same_strip_trans; [apply U | apply C].
Qed.

(** when every entry is free, no queue has a process *)
Lemma all_free_empty x : awf x -> (forall p, 0 <= p < MAXPROC -> p ∈ free_procs x) -> ready x = [] /\ blocked x = [].
Proof.
  intros W Hall.
  assert (forall q, q ∈ ready x :: (snd <$> blocked x) -> q = []) as Hq.
  { intros q Hq. destruct (aw_queue _ W q Hq) as [_ Hv]. destruct q as [|p q]; [done |].
    destruct (Hv p ltac:(left)) as [Hp Hf]. destruct Hf. by apply Hall. }
  split; [apply Hq; left |]. destruct (blocked x) as [|[a q] B] eqn:E; [done |].
  destruct (aw_blocked _ W) as [_ Hne]. destruct (Hne a q); [rewrite E; left |]. apply Hq. right. left.
Qed.

(** the first process terminates: the machine halts *)
Lemma terminate_root_final k x m c r d t q :
  kview k x m c r -> printer_ok r d -> tree_inv x m c t -> ready x = root t :: q ->
  leaves_with Terminate_Process k (fun e k' => e = Leave HALT /\ exists x' m' c',
    free_procs x' = free_procs x ++ postorder t /\ free_procs x' ≡ₚ seqZ 0 MAXPROC /\
    ready x' = [] /\ blocked x' = [] /\
    kview k' x' m' c' (printed "nucleus: normal termination" d r)).
Proof.
  intros V P I Hr. pose proof (po_arr _ _ P) as Hd.
  assert (free_procs (reap t (x, m)).1 ≡ₚ seqZ 0 MAXPROC) as Hall.
  { rewrite reap_free. simpl. rewrite postorder_nodes, Permutation_app_comm. apply I. }
  eapply wp_mono; [by eapply (terminate_root k x m c r d t q) | done |].
  intros e k' (c' & HS).
  destruct (all_free_empty (reap t (x, m)).1) as [Hr' Hb']; [by eapply scheduled_awf | |].
  { intros p Hp. rewrite Hall. apply elem_of_seqZ. lia. }
  unfold scheduled in HS. rewrite Hr' in HS. unfold idle, dev_waiting in HS. rewrite Hb' in HS.
  rewrite bool_decide_true in HS by done. cbn [negb] in HS.
  destruct HS as (-> & d' & Hd' & V'). rewrite Hd in Hd'. injection Hd' as <-. split; [done |].
  exists (reap t (x, m)).1, (reap t (x, m)).2, c'. split_and!; [apply reap_free | done | done | done | exact V'].
Qed.
End terminate.
