(* ===== verification/Create.v ===== *)
(** * Process creation

    [Create_Process] of [src/nucleus/traps/syscall.c] takes an entry from the free
    list, links it as the last child of the running process and puts it at the
    tail of the ready queue. *)

From S2P Require Export Tree Boot.
Local Open Scope kernel_scope.

(** [c'] is [c] with [n] appended to the children [l] of [p] *)
Record linked (c c' : Z -> option proc_t) (p : Z) (l : list Z) (n : Z) : Prop := {
  lk_strip : same_strip c c';
  lk_new : links c' n = Some (p, ENULL, ENULL);
  lk_parent : exists pa ch br ch', links c p = Some (pa, ch, br) /\ links c' p = Some (pa, ch', br) /\
    sibs (links c') p ch' (l ++ [n]);
  lk_other : forall q, q <> p -> q <> n -> q ∉ l -> links c' q = links c q;
  lk_child : forall q, q <> p -> (fun x => x.1.2) <$> links c' q = (fun x => x.1.2) <$> links c q }.

Section create.
Context `{MachineOk}.

(** the children [l ++ [z]], once [z] points to the new process [n] *)
Lemma linked_last c c' p l z n pap chp brp chz :
  links c p = Some (pap, chp, brp) -> links c n = Some (ENULL, ENULL, ENULL) -> sibs (links c) p chp (l ++ [z]) ->
  NoDup (l ++ [z]) -> p ∉ l ++ [z] -> n ∉ l ++ [z] -> n <> p -> same_strip c c' ->
  links c z = Some (p, chz, ENULL) -> links c' n = Some (p, ENULL, ENULL) -> links c' z = Some (ENULL, chz, n) ->
  (forall q, q <> z -> q <> n -> links c' q = links c q) -> linked c c' p (l ++ [z]) n.
Proof.
  intros Hp Hn Hs Hnd Hpl Hnl Hnp Hstrip Hz Hn' Hz' Hother.
  assert (forall q, q ∈ l ++ [z] -> q <> n /\ q <> p) as Hne by (intros q Hq; split; by intros ->).
  assert (z ∈ l ++ [z]) as Hzin by (apply elem_of_app; right; left).
  apply NoDup_app in Hnd as (_ & Hd & _). split; [exact Hstrip | exact Hn' | | |].
  - exists pap, chp, brp, chp. split; [done |]. split; [rewrite Hother; [done | | done]; intros ->; by apply (Hne z) |].
    eapply (sibs_append (links c)); [exact Hs | | by exists chz | by exists ENULL].
    intros q Hq. rewrite Hother; [done | | apply Hne, elem_of_app; by left].
    intros ->. apply (Hd z Hq). left.
  - intros q _ Hqn Hql. apply Hother; [| done]. by intros ->.
  - intros q _. destruct (decide (q = n)) as [->|]; [by rewrite Hn', Hn |].
    destruct (decide (q = z)) as [->|]; [by rewrite Hz', Hz | by rewrite Hother].
Qed.

Lemma link_child_spec k x m c r p n l pap chp brp (X : exn -> kernel -> Prop) :
  kview k x m c r -> links c p = Some (pap, chp, brp) -> links c n = Some (ENULL, ENULL, ENULL) ->
  sibs (links c) p chp l -> NoDup l -> p ∉ l -> n ∉ l -> n <> p -> p <> ENULL -> ENULL ∉ l -> (length l < 20)%nat ->
  wp (link_child p n) k (fun _ k' => exists c', kview k' x m c' r /\ linked c c' p l n) X.
Proof.
  intros V Hp Hn Hs Hnd Hpl Hnl Hnp Hp0 Hl0 Hlen. unfold link_child. wp_step.
  eapply wp_links; [exact V | exact Hp |]. intros pr _ Hch _. rewrite Hch.
  destruct l as [|z l _] using rev_ind.
  - rewrite Hs. change (ENULL =? ENULL) with true. cbv iota. wp_step.
    eapply (wp_update _ _ _ _ _ V); [apply _ | by eapply is_Some_links |]. intros k1 V1.
    eapply (wp_update _ _ _ _ _ V1); [apply _ | rewrite upd_ne by done; by eapply is_Some_links |]. intros k2 V2.
    eexists. split; [exact V2 |]. split.
    + eapply same_strip_trans; apply same_strip_upd; by intros [].
    + autorewrite with family. by rewrite decide_True, decide_False, Hn by done.
    + exists pap, chp, brp, n. split; [done |]. autorewrite with family.
      rewrite (decide_False (P := p = n)), (decide_True (P := p = p)), Hp by done. split; [done |]. split; [done |].
      exists ENULL, ENULL. split; [| done]. autorewrite with family. by rewrite decide_True, decide_False, Hn by done.
    + intros q Hqp Hqn _. autorewrite with family. by rewrite !decide_False, !option_fmap_id by done.
    + intros q Hqp. autorewrite with family. rewrite (decide_False (P := q = p)), option_fmap_id by done.
      case_decide; by destruct (links c q).
  - rewrite length_app in Hlen. simpl in Hlen.
    assert (z <> n /\ z <> p) as [Hzn Hzp] by (split; intros ->; [apply Hnl | apply Hpl]; apply elem_of_app; right; left).
    assert (chp <> ENULL) as Hc0.
    { assert (chp = List.hd z l) as -> by (destruct l; by destruct Hs as [-> _]).
      intros E. apply Hl0. rewrite <- E. destruct l; left. }
    rewrite (proj2 (Z.eqb_neq _ _)) by done. wp_step.
    eapply (wp_last_brother _ _ _ _ _ p z V Hp0 l); [exact Hs | unfold brother_fuel; lia |]. intros (chz & Hz).
    wp_step. eapply (wp_update _ _ _ _ _ V); [apply _ | by eapply is_Some_links |]. intros k1 V1.
    wp_step. eapply (wp_update _ _ _ _ _ V1); [apply _ | rewrite upd_eq; apply fmap_is_Some; by eapply is_Some_links |]. intros k2 V2.
    eapply (wp_update _ _ _ _ _ V2); [apply _ | rewrite !upd_ne by done; by eapply is_Some_links |]. intros k3 V3.
    eexists. split; [exact V3 |]. eapply linked_last; try done.
    + repeat (eapply same_strip_trans; [| apply same_strip_upd; by intros []]). done.
    + autorewrite with family. by rewrite !(decide_False (P := n = z)), (decide_True (P := n = n)), Hn by done.
    + autorewrite with family. by rewrite (decide_False (P := z = n)), !(decide_True (P := z = z)), Hz by done.
    + intros q Hqz Hqn. autorewrite with family.
      by rewrite !(decide_False (P := q = z)), (decide_False (P := q = n)), !option_fmap_id by done.
Qed.


(** a free process is in no queue *)
Lemma free_idle x n : awf x -> n ∈ free_procs x -> n ∉ ready x /\ forall q, q ∈ snd <$> blocked x -> n ∉ q.
Proof.
  intros W Hn. split; [intros Hr | intros q Hq Hr].
  - destruct (aw_queue _ W (ready x)) as [_ Hx]; [left |]. by destruct (Hx n Hr).
  - destruct (aw_queue _ W q) as [_ Hx]; [by right |]. by destruct (Hx n Hr).
Qed.

(** the queues after a process is created *)
Definition created (n : Z) (fl : list Z) (x : absq) : absq := mk_absq fl (ready x ++ [n]) (blocked x).

Lemma family_add c c' t p l n :
  NoDup (nodes t) -> n ∉ nodes t -> family (links c) (edges t) -> (p, l) ∈ edges t ->
  linked c c' p l n -> family (links c') (edges (add_child p n t)).
Proof.
  intros Hnd Hn HF Hp [_ L2 L3 L4 L5] a l' Ha. destruct (add_child_edges _ _ _ _ _ Ha) as [[-> ->]|(l0 & Hl0 & ->)].
  { exists p, ENULL, ENULL. done. }
  assert (forall q, q ∈ nodes t -> q <> n) as Hne by by intros q Hq ->.
  case_Z; [subst a | rewrite app_nil_r].
  - pose proof (edges_fun _ _ _ _ Hnd Hp Hl0) as <-. destruct L3 as (pa & ch & br & ch' & _ & E & Hs). by exists pa, ch', br.
  - destruct (HF a l0 Hl0) as (pa & ch & br & Hl & Hs). pose proof (L5 a n0) as Hch. rewrite Hl in Hch.
    destruct (links c' a) as [[[pa1 ch1] br1]|]; [| done]. simpl in Hch. injection Hch as ->.
    exists pa1, ch, br1. split; [done |]. apply (sibs_frame (links c)); [| done]. intros q Hq.
    assert (q ∉ l) as Hql by (intros Hql; by destruct (edges_parent t p a _ _ q Hnd Hp Hl0 Hql Hq)).
    destruct (decide (q = p)) as [->|Hqp].
    + destruct L3 as (pa' & ch' & br' & ch2 & E1 & E2 & _). by rewrite E1, E2.
    + rewrite L4; [done | done | apply Hne; by eapply edge_child | done].
Qed.

Lemma tree_inv_add x m c c' t p l n fl :
  awf x -> tree_inv x m c t -> free_procs x = n :: fl -> (p, l) ∈ edges t -> linked c c' p l n ->
  tree_inv (created n fl x) m c' (add_child p n t).
Proof.
  intros W I Hfree Hp L. pose proof (ti_nodup _ _ _ _ I) as Hnd. pose proof L as [_ L2 L3 L4 _].
  pose proof (aw_free _ W) as Hndf. rewrite Hfree in Hndf. apply NoDup_cons in Hndf as [Hnfl _].
  assert (n ∈ free_procs x) as Hnf by (rewrite Hfree; left). destruct (free_idle x n W Hnf) as [Hnr Hnb].
  assert (forall q, q ∈ nodes t -> q ∉ free_procs x) as Hused by (intros q Hq; by destruct (ti_valid _ _ _ _ q I Hq)).
  assert (n ∉ nodes t) as Hnt by (intros Hq; by apply (Hused n)).
  pose proof (edge_node _ _ _ Hp) as Hpt.
  assert (forall q, q ∈ nodes (add_child p n t) <-> q ∈ nodes t \/ q = n) as Hin.
  { intros q. rewrite add_child_nodes by done. by rewrite elem_of_app, list_elem_of_singleton. }
  split.
  - eapply family_add; [done | done | apply I | exact Hp | done].
  - rewrite add_child_root. destruct (ti_root _ _ _ _ I) as (ch0 & Hr0).
    destruct (decide (root t = p)) as [E|Hrp].
    + subst p. destruct L3 as (pa & ch & br & ch' & E1 & E2 & _). rewrite Hr0 in E1. injection E1 as <- <- <-. by exists ch'.
    + exists ch0. rewrite L4; [done | done | |].
      * intros E. apply Hnt. rewrite <- E. apply root_in.
      * intros Hc. by destruct (edge_child _ _ _ (root t) Hnd Hp Hc).
  - rewrite add_child_nodes by done. cbn [created free_procs]. rewrite <- (ti_nodes _ _ _ _ I), Hfree.
    by rewrite <- app_assoc.
  - intros q [Hq| ->]%Hin.
    + destruct (ti_alive _ _ _ _ I q Hq) as [A1 A2 A3 A4]. split; simpl in *; [done | | | done].
      * rewrite Hfree in A2. by apply not_elem_of_cons in A2 as [_ ?].
      * assert (q <> n) by by intros ->. rewrite elem_of_app, list_elem_of_singleton. tauto.
    + assert (waits_for n (blocked x) = []) as Hw by by apply waits_for_nil.
      split; simpl; [by apply (aw_free_valid _ W) | done | | rewrite Hw; by intros a ?%elem_of_nil].
      left. split; [| done]. apply elem_of_app. right. left.
  - intros q Hq. simpl in Hq. assert (q ∈ free_procs x) as Hqf by (rewrite Hfree; by right).
    assert (q ∉ nodes t) as Hqt by (intros Hqt; by apply (Hused q)).
    rewrite L4; [by apply (ti_free _ _ _ _ I) | by intros -> | by intros -> |].
    intros Hc. by destruct (edge_child _ _ _ q Hnd Hp Hc).
Qed.

Lemma tree_inv_links x m c c' t : (forall q, links c' q = links c q) -> tree_inv x m c t -> tree_inv x m c' t.
Proof.
  intros Hl [I1 I2 I3 I4 I5]. split; [| by rewrite Hl | done | done | intros; rewrite Hl; by apply I5].
  intros p l Hp. destruct (I1 p l Hp) as (pa & ch & br & E & Hs). exists pa, ch, br. rewrite Hl. split; [done |].
  by apply (sibs_frame_eq (links c)).
Qed.

(** no entry is left: the process is told so *)
Lemma create_none k x m c r old st :
  kview k x m c r -> free_procs x = [] -> states r !! old = Some st ->
  returns (Create_Process old) k (fun _ k' =>
    kview k' x m c (set_states (<[old := set_reg 2%fin (-1) st]> (states r)) r)).
Proof.
  intros V Hf Hst. unfold Create_Process. wp_step. eapply (wp_alloc _ _ _ _ _ V); [| by rewrite Hf].
  intros _ k1 V1. wp_step. k_step V1. change (ENULL =? ENULL) with true. cbv iota.
  by eapply (wp_put_state_reg _ _ _ _ _ V1).
Qed.

Lemma create_spec k x m c r t n fl p q old st st' :
  kview k x m c r -> tree_inv x m c t -> free_procs x = n :: fl -> ready x = p :: q -> p ∈ nodes t ->
  states r !! old = Some st -> states r !! (s_r st !!! 4%fin) = Some st' ->
  returns (Create_Process old) k (fun _ k' => exists c',
    kview k' (created n fl x) m c' (set_states (<[old := set_reg 2%fin 0 st]> (states r)) r) /\
    tree_inv (created n fl x) m c' (add_child p n t) /\ same_strip (upd n (set_p_s st') c) c').
Proof.
  intros V I Hf Hr Hp Hst Hst'. pose proof (kview_awf _ _ _ _ _ V) as W.
  assert (n ∈ free_procs x) as Hnf by (rewrite Hf; left). destruct (free_idle x n W Hnf) as [Hnr Hnb].
  pose proof (aw_free_valid _ W n Hnf) as Hnv.
  pose proof (aw_free _ W) as Hndf. rewrite Hf in Hndf. apply NoDup_cons in Hndf as [Hnfl _].
  unfold Create_Process. wp_step. eapply (wp_alloc _ _ _ _ _ V); [by rewrite Hf |].
  rewrite Hf. intros n' fl' [= <- <-] k1 V1. wp_step. k_step V1. cbn [ready set_free_procs]. rewrite Hr. cbn [head_or].
  rewrite (proj2 (Z.eqb_neq _ _)) by (unfold ENULL; lia). wp_step. k_step V1. wp_step. k_step V1. wp_step.
  unfold put_p_s. eapply (wp_update _ _ _ _ _ V1); [apply _ | eapply kview_valid; [exact V1 | done] |]. intros k2 V2.
  set (c2 := upd n (set_p_s st') c) in *.
  assert (tree_inv x m c2 t) as I2 by (eapply tree_inv_links; [intros; apply links_upd_keep; by intros [] | done]).
  assert (p ∈ fst <$> edges t) as Hpe by by rewrite edges_fst.
  apply list_elem_of_fmap in Hpe as ([p' l] & E & Hpl). simpl in E. subst p'.
  destruct (ti_children _ _ _ _ _ _ I2 Hpl) as (Hl & Hpni & Hp0 & Hl0 & Hlen).
  destruct (ti_family _ _ _ _ I2 p l Hpl) as (pa & ch & br & HlP & Hsib).
  assert (forall a, a ∈ nodes t -> a <> n) as Hne.
  { intros a Ha ->. by destruct (ti_valid _ _ _ _ n I2 Ha). }
  wp_step. wp_apply (link_child_spec k2 _ m c2 r p n l pa ch br _ V2 HlP); [ | done | done | done | | | done | done | done |].
  { by apply (ti_free _ _ _ _ I2). }
  { intros Hin. apply (Hne n); [by eapply edge_child; [eapply ti_nodup | |] | done]. }
  { intros ->. by apply (Hne p). }
  intros [] k3 (c3 & V3 & L). wp_step.
  eapply (wp_insert_running _ _ _ _ _ V3); [done | done | done | |].
  { pose proof (proj2 (in_queues_zero n x) (conj Hnr Hnb)) as Hz. unfold in_queues in *. cbn [ready blocked set_free_procs]. lia. }
  intros k4 V4. eapply (wp_put_state_reg _ _ _ _ _ V4); [exact Hst |]. intros k5 V5.
  exists c3. split; [exact V5 |]. split; [by eapply tree_inv_add | apply L].
Qed.
End create.

(** ** The first process *)

Lemma tree_inv_upd x m c t p f :
  (forall pr, (parent (f pr), child (f pr), brother (f pr)) = (parent pr, child pr, brother pr)) ->
  tree_inv x m c t -> tree_inv x m (upd p f c) t.
Proof. intros Hf. apply tree_inv_links. intros q. by apply links_upd_keep. Qed.

Lemma seqZ_tail : seqZ 0 MAXPROC = 0 :: seqZ 1 (MAXPROC - 1).
Proof. done. Qed.

(** after [initProc] the entry 0, taken from the free list, is a tree *)
Lemma tree_inv_first s m :
  pwf s -> tree_inv (mk_absq (seqZ 1 (MAXPROC - 1)) [0] []) m (fun q => reset_core <$> pcore s q) (Node 0 []).
Proof.
  intros W.
  assert (forall p, 0 <= p < MAXPROC -> links (fun q => reset_core <$> pcore s q) p = Some (ENULL, ENULL, ENULL)) as Hl.
  { intros p Hp. apply (pwf_table _ W) in Hp as [pr Hpr]. unfold links, pcore. rewrite Hpr. by destruct pr. }
  assert (links (fun q => reset_core <$> pcore s q) 0 = Some (ENULL, ENULL, ENULL)) as H0 by by apply Hl.
  split.
  - intros p l [= -> ->]%list_elem_of_singleton. exists ENULL, ENULL, ENULL. done.
  - by exists ENULL.
  - by rewrite seqZ_tail.
  - intros p ->%list_elem_of_singleton. split; simpl; [done | | | by intros a ?%elem_of_nil].
    + rewrite elem_of_seqZ. lia.
    + left. split; [left | done].
  - intros p Hp. simpl in Hp. apply elem_of_seqZ in Hp. apply Hl. unfold MAXPROC in *. lia.
Qed.
