(* ===== verification/Alive.v ===== *)
(** * Liveness of the processes across the queue operations

    Every process of the tree is ready or waits for a semaphore: no operation of
    the nucleus loses one. *)

From S2P Require Export Create.
Local Open Scope kernel_scope.

(** ** The semaphores of a process, by their queues *)

Lemma waits_for_iff p b B : bwf B -> b ∈ waits_for p B <-> p ∈ waiters b B.
Proof.
  intros [Hnd Hne]. unfold waits_for. rewrite list_elem_of_fmap. split.
  - intros ([a q] & -> & [Hp Hin]%list_elem_of_filter). by rewrite (waiters_some a q).
  - intros Hp. pose proof (waiters_in b B p Hp) as Hq. exists (b, waiters b B). split; [done |].
    apply list_elem_of_filter. split; [done |]. clear Hnd Hne Hq.
    induction B as [|[c q] B IH]; simpl in *; [by apply elem_of_nil in Hp |].
    case_Z; [subst; left | right; by apply IH].
Qed.

Lemma waits_for_none p B : bwf B -> waits_for p B = [] <-> forall b, p ∉ waiters b B.
Proof.
  intros W. split.
  - intros Hw b Hp. apply (waits_for_iff p b B W) in Hp. rewrite Hw in Hp. by apply elem_of_nil in Hp.
  - intros Hb. destruct (waits_for p B) as [|b l] eqn:E; [done |]. destruct (Hb b).
    apply (waits_for_iff p b B W). rewrite E. left.
Qed.

Lemma waits_for_some p B : bwf B -> waits_for p B <> [] <-> exists b, p ∈ waiters b B.
Proof.
  intros W. split.
  - intros Hw. destruct (waits_for p B) as [|b l] eqn:E; [done |]. exists b.
    apply (waits_for_iff p b B W). rewrite E. left.
  - intros [b Hb] Hw. by apply (proj1 (waits_for_none p B W) Hw b).
Qed.

(** [alive], by the queues *)
Record lives (p : Z) (x : absq) (m : gmap Z Z) : Prop := {
  lv_valid : 0 <= p < MAXPROC;
  lv_used : p ∉ free_procs x;
  lv_queued : (p ∈ ready x /\ forall b, p ∉ waiters b (blocked x)) \/
              (p ∉ ready x /\ exists b, p ∈ waiters b (blocked x));
  lv_mem : forall a, p ∈ waiters a (blocked x) -> is_Some (m !! a) }.

Lemma alive_lives p x m : awf x -> alive p (x, m) <-> lives p x m.
Proof.
  intros W. pose proof (aw_blocked _ W) as B.
  pose proof (waits_for_none p _ B) as Hn. pose proof (waits_for_some p _ B) as Hs.
  split; intros [H1 H2 H3 H4]; split; simpl in *; try done.
  - tauto.
  - intros a Ha. by apply H4, waits_for_iff.
  - tauto.
  - intros a Ha. by apply H4, waits_for_iff.
Qed.

(** the operations keep the cells of memory *)
Definition same_cells (m m' : gmap Z Z) : Prop := forall a, is_Some (m !! a) -> is_Some (m' !! a).

Lemma same_cells_refl m : same_cells m m.
Proof. by intros a. Qed.
Lemma same_cells_insert a v m : same_cells m (<[a := v]> m).
Proof. intros b Hb. rewrite lookup_insert. by case_decide. Qed.
#[export] Hint Resolve same_cells_refl same_cells_insert : kernel.

(** the ready queue is permuted *)
Lemma lives_rotate p x m l : l ≡ₚ ready x -> lives p x m -> lives p (set_ready l x) m.
Proof. intros Hl [H1 H2 H3 H4]. split; simpl; [done | done | by rewrite Hl | done]. Qed.

Lemma lives_cells p x m m' : same_cells m m' -> lives p x m -> lives p x m'.
Proof. intros Hm [H1 H2 H3 H4]. split; [done | done | done | auto]. Qed.

(** the running process [q] blocks on [a] *)
Lemma lives_block p x m a q l :
  ready x = q :: l -> q ∉ l -> (forall b, q ∉ waiters b (blocked x)) -> is_Some (m !! a) ->
  (a ∈ keys (blocked x) \/ (length (blocked x) < 20)%nat) ->
  lives p x m -> lives p (abs_block a q (set_ready l x)) m.
Proof.
  intros Hr Hl Hw Hm Hroom [H1 H2 H3 H4]. unfold abs_block.
  rewrite decide_False by (simpl; intros [? ?]; destruct Hroom; [done | lia]).
  split; simpl; [done | done | |].
  - setoid_rewrite waiters_suspend. setoid_rewrite elem_of_app. destruct (decide (p = q)) as [->|Hne].
    + right. split; [done |]. exists a. right. rewrite Z.eqb_refl. left.
    + rewrite Hr in H3. rewrite elem_of_cons in H3.
      assert (forall b, p ∉ (if b =? a then [q] else [])) as Hno.
      { intros b. case_Z; [by rewrite list_elem_of_singleton | apply not_elem_of_nil]. }
      destruct H3 as [[[?|Hp] Hb]|[Hp [b Hb]]]; [done | left | right].
      * split; [done |]. intros b [?|?]; [by apply (Hb b) | by apply (Hno b)].
      * split; [tauto |]. exists b. by left.
  - intros b. rewrite waiters_suspend, elem_of_app. intros [Hb|Hb]; [by apply H4 |].
    revert Hb. case_Z; [by subst | by intros ?%elem_of_nil].
Qed.

Lemma in_queues_lives p x : bwf (blocked x) ->
  in_queues p x = 0%nat <-> p ∉ ready x /\ forall b, p ∉ waiters b (blocked x).
Proof.
  intros B. rewrite <- idle_in_queues. unfold idle_proc. by rewrite waits_for_none.
Qed.

Lemma bwf_resume a B : bwf B -> bwf (resume a B).
Proof.
  intros [Hnd Hne]. induction B as [|[b q] B IH]; [done |]. cbn [resume]. rewrite keys_cons in Hnd.
  apply NoDup_cons in Hnd as [Hb Hnd]. case_Z.
  - destruct (List.tl q) as [|u l]; cbn [entry_of app].
    + split; [done | intros c r Hin; apply (Hne c r); by right].
    + split; [by rewrite keys_cons; constructor |].
      intros c r [[= -> ->]|Hin]%elem_of_cons; [done | apply (Hne c r); by right].
  - destruct IH as [IH1 IH2]; [done | intros c r Hin; apply (Hne c r); by right |]. split.
    + rewrite keys_cons. constructor; [| done]. intros Hin. apply Hb. clear -Hin.
      induction B as [|[c r] B IH]; simpl in *; [done |]. destruct (c =? a).
      * rewrite keys_app, elem_of_app in Hin. rewrite keys_cons, elem_of_cons.
        destruct Hin as [Hin|Hin]; [| by right]. left. destruct (List.tl r); simpl in Hin; [by apply elem_of_nil in Hin |].
        by apply list_elem_of_singleton in Hin.
      * rewrite keys_cons, elem_of_cons in Hin |- *. tauto.
    + intros c r [[= -> ->]|Hin]%elem_of_cons; [apply (Hne b q); left | by eapply IH2].
Qed.

Lemma waiters_nodup x a : awf x -> NoDup (waiters a (blocked x)).
Proof.
  intros W. destruct (waiters a (blocked x)) as [|p q] eqn:E; [constructor |]. rewrite <- E.
  destruct (aw_queue _ W (waiters a (blocked x))) as [Hnd _]; [| done].
  right. apply (waiters_in a _ p). rewrite E. left.
Qed.

(** the first waiter of [a] becomes ready, unless it waits for something else *)
Lemma lives_V p x m a v : awf x -> lives p x m -> lives p (abs_V a v x) m.
Proof.
  intros W L. unfold abs_V. case_Z; [| done]. pose proof (aw_blocked _ W) as B. pose proof B as [Hnd _].
  pose proof (waiters_nodup x a W) as Hndw. destruct L as [H1 H2 H3 H4].
  set (x1 := set_blocked (resume a (blocked x)) x). set (h := head_or (waiters a (blocked x))).
  assert (forall b, waiters b (blocked x1) = if b =? a then List.tl (waiters b (blocked x)) else waiters b (blocked x)) as Hw
    by (intros b; by apply waiters_resume).
  assert (forall b, p ∈ waiters b (blocked x1) -> p ∈ waiters b (blocked x)) as Hsub.
  { intros b. rewrite Hw. case_Z; [| done]. destruct (waiters b (blocked x)); [done | by right]. }
  assert (p <> h -> forall b, p ∈ waiters b (blocked x) -> p ∈ waiters b (blocked x1)) as Hkeep.
  { intros Hph b. rewrite Hw. case_Z; [| done]. subst b. unfold h in Hph.
    destruct (waiters a (blocked x)); [done |]. by intros [->|?]%elem_of_cons. }
  unfold abs_wake. case_decide as Hd.
  - apply proj2 in Hd as Hq. apply in_queues_lives in Hq as [Hq1 Hq2]; [| by apply bwf_resume].
    split; simpl; [done | done | |].
    + rewrite elem_of_app, list_elem_of_singleton. destruct (decide (p = h)) as [->|Hne]; [left; by split; [right |] |].
      destruct H3 as [[Hp Hb]|[Hp [b Hb]]]; [left | right].
      * split; [by left |]. intros b Hb'. by apply (Hb b), Hsub.
      * split; [tauto |]. exists b. by apply Hkeep.
    + intros b Hb. by apply H4, Hsub.
  - split; [done | done | | intros b Hb; by apply H4, Hsub].
    destruct H3 as [[Hp Hb]|[Hp [b Hb]]]; [left; split; [done |]; intros b Hb'; by apply (Hb b), Hsub |].
    right. split; [done |]. destruct (decide (p = h)) as [->|Hne]; [| exists b; by apply Hkeep].
    destruct (decide (in_queues h x1 = 0%nat)) as [Hz|Hnz].
    + destruct Hd. split; [| done]. unfold ENULL. lia.
    + apply (waits_for_some h (blocked x1)); [by apply bwf_resume |]. intros Hw0.
      apply Hnz, idle_in_queues. by split.
Qed.

(** the tree does not change when no process of it is lost *)
Lemma tree_inv_queues x m x' m' c t :
  awf x -> awf x' -> free_procs x' = free_procs x -> (forall p, lives p x m -> lives p x' m') ->
  tree_inv x m c t -> tree_inv x' m' c t.
Proof.
  intros W W' Hf Hl [I1 I2 I3 I4 I5]. split; [done | done | by rewrite Hf | | by rewrite Hf].
  intros p Hp. apply alive_lives, Hl, alive_lives; [done | done |]. by apply I4.
Qed.

Lemma lives_requeue p x m q l : ready x = q :: l -> lives p x m -> lives p (set_ready (l ++ [q]) x) m.
Proof. intros Hr. apply lives_rotate. rewrite Hr. symmetry. apply Permutation_cons_append. Qed.

Lemma awf_permute x l : l ≡ₚ ready x -> awf x -> awf (set_ready l x).
Proof.
  intros Hl [W1 W2 W3 W4 W5 W6 W7]. split; [done | done | | done | done | done |].
  - intros q [->|Hq]%elem_of_cons; [| by apply W3; right]. destruct (W3 (ready x)) as [N1 N2]; [left |].
    simpl. rewrite Hl. split; [done |]. intros p. rewrite Hl. apply N2.
  - intros p. specialize (W7 p). unfold in_queues in *. cbn [ready blocked set_ready].
    rewrite filter_cons in W7 |- *. assert (p ∈ l <-> p ∈ ready x) as E by by rewrite Hl.
    by destruct (decide (p ∈ l)), (decide (p ∈ ready x)); try tauto.
Qed.

(** ** The effect of a V *)

Lemma waits_only p a B : bwf B -> p ∈ waiters a B ->
  waits_for p B = [a] <-> forall b, b <> a -> p ∉ waiters b B.
Proof.
  intros W Hp. pose proof (waits_for_nodup B p W) as Hnd. pose proof (waits_for_iff p a B W) as Ha.
  split.
  - intros E b Hb Hpb. apply (waits_for_iff p b B W) in Hpb. rewrite E in Hpb.
    by apply list_elem_of_singleton in Hpb.
  - intros Hno. assert (forall b, b ∈ waits_for p B -> b = a) as Hall.
    { intros b Hb. destruct (decide (b = a)); [done |]. destruct (Hno b); [done |]. by apply (waits_for_iff p b B W). }
    apply Ha in Hp. destruct (waits_for p B) as [|b l]; [by apply elem_of_nil in Hp |].
    pose proof (Hall b ltac:(left)) as ->. destruct l as [|d l]; [done |].
    pose proof (Hall d ltac:(right; left)) as ->. apply NoDup_cons in Hnd as [Hni _]. destruct Hni. left.
Qed.

(** the queues [x'] are [x] with the first waiter [w] of [a] resumed: it is ready
    when it waits for nothing else *)
Record resumes (a w : Z) (ws : list Z) (x x' : absq) : Prop := {
  re_free : free_procs x' = free_procs x;
  re_waiters : forall b, waiters b (blocked x') = if b =? a then ws else waiters b (blocked x);
  re_ready : ready x' = ready x ++ (if bool_decide (waits_for w (blocked x) = [a]) then [w] else []) }.

Lemma abs_V_wakes x a v w ws :
  awf x -> v < 0 -> waiters a (blocked x) = w :: ws -> w ∉ ready x -> resumes a w ws x (abs_V a v x).
Proof.
  intros W Hv Hw Hr. pose proof (aw_blocked _ W) as B. pose proof B as [Hnd _].
  pose proof (waiters_nodup x a W) as Hndw. rewrite Hw in Hndw. apply NoDup_cons in Hndw as [Hww _].
  destruct (waiters_valid x a w W) as [Hv0 _]; [rewrite Hw; left |].
  unfold abs_V. rewrite (proj2 (Z.ltb_lt _ _)), Hw by done.  change (head_or (w :: ws)) with w.
  assert (forall b, waiters b (resume a (blocked x)) = if b =? a then ws else waiters b (blocked x)) as Hws.
  { intros b. rewrite waiters_resume by done. case_Z; [by subst; rewrite Hw | done]. }
  set (x1 := set_blocked (resume a (blocked x)) x).
  assert (in_queues w x1 = 0%nat <-> waits_for w (blocked x) = [a]) as Hq.
  { rewrite in_queues_lives by by apply bwf_resume. rewrite waits_only by (done || (rewrite Hw; left)). simpl. split.
    - intros [_ Hb] b Hba Hin. apply (Hb b). rewrite Hws. by rewrite (proj2 (Z.eqb_neq _ _)).
    - intros Hb. split; [done |]. intros b. rewrite Hws. case_Z; [done | by apply Hb]. }
  unfold abs_wake. destruct (decide (waits_for w (blocked x) = [a])) as [E|E].
  - rewrite decide_True by (split; [unfold ENULL; lia | by apply Hq]).
    split; [done | exact Hws | by rewrite bool_decide_true].
  - rewrite decide_False by (intros [_ ?]; by apply E, Hq).
    split; [done | exact Hws | by rewrite bool_decide_false, app_nil_r].
Qed.
