(* ===== verification/Invariant.v ===== *)
(** * The invariant of the nucleus

    What holds between any two exceptions: the process tree, one semaphore at most
    for each process, the counts of the nucleus's own semaphores, the credits of the
    semaphores that programs use by P and V only, the exception vectors, the areas and
    the device registers. *)

From S2P Require Export Alive.
Local Open Scope kernel_scope.

(** the declared semaphores, on which only P and V act: a program that holds no unit of
    one can take as many as its credit before it waits *)
Class Credits : Type := credit : Z -> option Z.

Section invariant.
Context `{MachineOk} {CR : Credits}.

(** ** The parts *)

(** the vectors are as [trapinit] made them *)
Definition vectors_ok (m : gmap Z Z) : Prop := forall a f, (a, f) ∈ trap_vectors -> m !! a = Some (sym f).

(** the cells of the nucleus that no program may use *)
Definition owned (a : Z) : Prop := a = clock_lock \/ exists i, 0 <= i < 15 /\ a = dev_sem i.

(** a semaphore of a program *)
Record user_sem (m : gmap Z Z) (a : Z) : Prop := {
  us_cell : is_Some (m !! a);
  us_null : a <> ENULL;
  us_vector : a ∉ fst <$> trap_vectors;
  us_owned : ~ owned a }.

(** an area of a program, to which the nucleus may write a processor state *)
Definition user_area (ss : gmap Z state_t) (a : Z) : Prop :=
  is_Some (ss !! a) /\ forall b h, (b, h) ∈ all_areas -> a <> b + STATE_SIZE.

(** the areas, the devices and the printer *)
Record areas_ok (r : kernel) : Prop := {
  ao_old : forall a h, (a, h) ∈ all_areas -> is_Some (states r !! a);
  ao_new : forall a h, (a, h) ∈ all_areas -> exists st, states r !! (a + STATE_SIZE) = Some st /\ s_pc st = sym h;
  ao_pointers : (old_pro_state r, old_mm_state r, old_sys_call_state r) = (0x800, 0x898, 0x930) /\
    (old_terminal_state r, old_printer_state r, old_disk_state r, old_floppy_state r, old_clock_state r)
    = (0x9c8, 0xa60, 0xaf8, 0xb90, 0xc28);
  ao_devs : forall i, 0 <= i < 15 -> exists dr, device_ok r i dr;
  ao_printer : exists d, printer_ok r d }.

(** the areas an entry names for its traps can be used *)
Definition entry_ok (ss : gmap Z state_t) (cp : proc_t) : Prop :=
  forall t, (trap_areas t cp).2 <> ENULL ->
    user_area ss (trap_areas t cp).1 /\ is_Some (ss !! (trap_areas t cp).2).

(** the value of a semaphore and the number of its waiters: for a semaphore on which
    only P and V act the sum is the number of the V's that found no waiter, less that
    of the P's that did not wait *)
Definition counted (n a : Z) (x : absq) (m : gmap Z Z) : Prop :=
  exists v, m !! a = Some v /\ 0 <= v + Z.of_nat (length (waiters a (blocked x))) <= n.

(** the value of a declared semaphore is its credit, or minus the number of its waiters *)
Definition guarded (c0 a : Z) (x : absq) (m : gmap Z Z) : Prop :=
  exists v, m !! a = Some v /\ c0 = Z.max 0 v /\ Z.of_nat (length (waiters a (blocked x))) = Z.max 0 (- v).

(** a process waits for one semaphore at most *)
Definition single (x : absq) : Prop :=
  forall p a b, p ∈ waiters a (blocked x) -> p ∈ waiters b (blocked x) -> a = b.

(** the invariant after at most [n] device interrupts *)
Record nuc (n : Z) (x : absq) (m : gmap Z Z) (c : Z -> option proc_t) (r : kernel) (t : ptree) : Prop := {
  nu_tree : tree_inv x m c t;
  nu_single : single x;
  nu_vectors : vectors_ok m;
  nu_unused : forall a, a ∈ fst <$> trap_vectors -> waiters a (blocked x) = [];
  nu_devs : forall i, 0 <= i < 15 -> counted n (dev_sem i) x m;
  nu_clock : counted 0 clock_lock x m;
  nu_areas : areas_ok r;
  nu_entries : forall p cp, c p = Some cp -> entry_ok (states r) cp;
  nu_credits : forall a c0, credit a = Some c0 -> user_sem m a /\ guarded c0 a x m }.

(** [busy] says that a process is ready, and the queues are as [Q] says *)
Definition sound_as (Q : absq -> Prop) (n : Z) (busy : bool) (k : kernel) : Prop :=
  exists x m c r t, kview k x m c r /\ nuc n x m c r t /\ (ready x = [] <-> busy = false) /\ Q x.
Definition sound : Z -> bool -> kernel -> Prop := sound_as (fun _ => True).

(** the ways an exception ends: a state is loaded, the processor waits, the machine
    halts; and never a fault, a panic or a loop *)
Definition ends_as (Q : absq -> Prop) (n : Z) (e : exn) (k : kernel) : Prop :=
  match e with
  | Leave (LDST _) => sound_as Q n true k
  | Leave STOP => sound_as Q n false k
  | Leave HALT => True
  | _ => False
  end.
Definition ends : Z -> exn -> kernel -> Prop := ends_as (fun _ => True).

Lemma ends_weaken Q n e k : ends_as Q n e k -> ends n e k.
Proof.
  assert (forall b, sound_as Q n b k -> sound n b k) as HS by (intros b (x & m & c & r & t & ? & ? & ? & _); by exists x, m, c, r, t).
  destruct e as [| | | []]; try done; apply HS.
Qed.

(** ** Consequences *)

Lemma dev_sem_inj i j : dev_sem i = dev_sem j -> i = j.
Proof. unfold dev_sem. lia. Qed.
Lemma clock_dev i : 0 <= i < 15 -> clock_lock <> dev_sem i.
Proof. unfold clock_lock, dev_sem. apply mo_distinct. Qed.
Lemma owned_vector a : owned a -> a ∉ fst <$> trap_vectors.
Proof.
  intros Ha ([b f] & -> & Hb)%list_elem_of_fmap. pose proof (trap_vectors_low _ _ Hb) as Hl. cbn in *.
  pose proof mo_dev. pose proof mo_clock. destruct Ha as [-> | (i & Hi & ->)]; unfold clock_lock, dev_sem in *; lia.
Qed.
Lemma owned_null a : owned a -> a <> ENULL.
Proof. intros [-> | (i & Hi & ->)]; [apply clock_lock_ne | by apply dev_sem_ne]. Qed.

Lemma vectors_insert m a v : vectors_ok m -> a ∉ fst <$> trap_vectors -> vectors_ok (<[a := v]> m).
Proof.
  intros Hm Ha b f Hb. rewrite lookup_insert_ne; [by apply Hm |]. intros ->. apply Ha.
  apply list_elem_of_fmap. by exists (b, f).
Qed.

Lemma counted_frame n a x x' m m' :
  waiters a (blocked x') = waiters a (blocked x) -> m' !! a = m !! a -> counted n a x m -> counted n a x' m'.
Proof. intros Hw Hm (v & Hv & Hr). exists v. by rewrite Hw, Hm. Qed.

Lemma counted_le n n' a x m : n <= n' -> counted n a x m -> counted n' a x m.
Proof. intros Hn (v & Hv & Hr). exists v. split; [done | lia]. Qed.

(** the sum of value and waiters is kept *)
Lemma counted_step n a x x' m v k :
  m !! a = Some v -> in_i32 (v + k) ->
  k + Z.of_nat (length (waiters a (blocked x'))) = Z.of_nat (length (waiters a (blocked x))) ->
  counted n a x m -> counted n a x' (<[a := i32 (v + k)]> m).
Proof.
  intros Hv Hk Hw (v' & Hv' & Hr). assert (v' = v) as -> by congruence. exists (v + k). rewrite lookup_insert_eq, i32_id by done.
  split; [done | lia].
Qed.

Lemma waiters_length x a : awf x -> (length (waiters a (blocked x)) <= 20)%nat.
Proof.
  intros W. pose proof (waiters_nodup x a W) as Hnd.
  assert (length (waiters a (blocked x)) <= length (seqZ 0 MAXPROC))%nat as Hl; [| exact Hl].
  apply submseteq_length, NoDup_submseteq; [done |]. intros p Hp. apply elem_of_seqZ.
  destruct (waiters_valid x a p W Hp). lia.
Qed.

Lemma user_sem_cells m m' a : same_cells m m' -> user_sem m a -> user_sem m' a.
Proof. intros Hm [U1 U2 U3 U4]. split; [by apply Hm | done..]. Qed.

Lemma guarded_frame c0 a x x' m m' :
  waiters a (blocked x') = waiters a (blocked x) -> m' !! a = m !! a -> guarded c0 a x m -> guarded c0 a x' m'.
Proof. intros Hw Hm (v & Hv & Hc & Hl). exists v. by rewrite Hw, Hm. Qed.

Section state.
Context (n : Z) (x : absq) (m : gmap Z Z) (c : Z -> option proc_t) (r : kernel) (t : ptree).
Hypotheses (N : nuc n x m c r t) (W : awf x).

Lemma nuc_node p : 0 <= p < MAXPROC -> p ∉ free_procs x -> p ∈ nodes t.
Proof.
  intros Hp Hf. assert (p ∈ nodes t ++ free_procs x) as Hin.
  { rewrite (ti_nodes _ _ _ _ (nu_tree _ _ _ _ _ _ N)). apply elem_of_seqZ. lia. }
  apply elem_of_app in Hin as [?|?]; done.
Qed.

Lemma nuc_lives p : p ∈ nodes t -> lives p x m.
Proof. intros Hp. apply alive_lives; [done |]. by apply (ti_alive _ _ _ _ (nu_tree _ _ _ _ _ _ N)). Qed.

(** the running process waits for nothing *)
Lemma nuc_running p q : ready x = p :: q ->
  p ∈ nodes t /\ p ∉ q /\ (forall b, p ∉ waiters b (blocked x)) /\ 0 <= p < MAXPROC.
Proof.
  intros Hr. destruct (ready_valid x p W) as [Hp Hf]; [rewrite Hr; left |].
  pose proof (nuc_node p Hp Hf) as Hn. destruct (nuc_lives p Hn) as [_ _ [[_ Hw] | [Hw _]] _].
  - split; [done |]. split; [| by split]. destruct (aw_queue _ W (ready x)) as [Hnd _]; [left |].
    rewrite Hr in Hnd. by apply NoDup_cons in Hnd as [? _].
  - destruct Hw. rewrite Hr. left.
Qed.

Lemma nuc_alone : alone x.
Proof.
  unfold alone. destruct (ready x) as [|p q] eqn:Hr; [done |].
  destruct (nuc_running p q Hr) as (_ & Hq & Hw & _).
  assert (in_queues p (set_ready q x) = 0%nat) as H0' by by apply in_queues_lives; [apply W |].
  unfold in_queues in *. rewrite Hr. cbn [ready blocked set_ready] in H0'.
  rewrite filter_cons_True by left. rewrite filter_cons_False in H0' by done. cbn. by rewrite H0'.
Qed.

Lemma nuc_waiter a p : p ∈ waiters a (blocked x) -> p ∈ nodes t /\ p ∉ ready x.
Proof.
  intros Hp. destruct (waiters_valid x a p W Hp) as [Hv Hf]. pose proof (nuc_node p Hv Hf) as Hn.
  split; [done |]. destruct (nuc_lives p Hn) as [_ _ [[_ Hw] | [Hw _]] _]; [by destruct (Hw a) | done].
Qed.

(** while a process runs a descriptor is free *)
Lemma nuc_room p q : ready x = p :: q -> (length (blocked x) < 20)%nat.
Proof.
  intros Hr. destruct (nuc_running p q Hr) as (_ & _ & Hw & Hp).
  pose proof (aw_blocked _ W) as B. pose proof B as [Hnd Hne].
  set (heads := (fun a => head_or (waiters a (blocked x))) <$> keys (blocked x)).
  assert (forall a, a ∈ keys (blocked x) -> head_or (waiters a (blocked x)) ∈ waiters a (blocked x)) as Hhead.
  { intros a Ha. destruct (waiters a (blocked x)) eqn:E; [by apply (waiters_nil_iff a _ B) in E | left]. }
  assert (NoDup (p :: heads)) as Hh.
  { apply NoDup_cons. split.
    - intros (a & -> & Ha)%list_elem_of_fmap. by apply (Hw a), Hhead.
    - apply NoDup_fmap_2_strong; [| done]. intros a b Ha Hb E.
      apply (nu_single _ _ _ _ _ _ N (head_or (waiters a (blocked x)))); [by apply Hhead | rewrite E; by apply Hhead]. }
  assert (length (p :: heads) <= length (seqZ 0 MAXPROC))%nat as Hl.
  { apply submseteq_length, NoDup_submseteq; [done |]. intros u [->|Hu]%elem_of_cons; apply elem_of_seqZ; [lia |].
    apply list_elem_of_fmap in Hu as (a & -> & Ha). destruct (waiters_valid x a _ W (Hhead a Ha)). lia. }
  unfold heads, keys in Hl. cbn [length] in Hl. rewrite !length_fmap in Hl. change (length (seqZ 0 MAXPROC)) with 20%nat in Hl. lia.
Qed.

(** no semaphore of the nucleus is declared *)
Lemma owned_credit a : owned a -> credit a = None.
Proof.
  intros Ho. destruct (credit a) as [c0|] eqn:E; [| done]. destruct (nu_credits _ _ _ _ _ _ N a c0 E) as [[_ _ _ Hn] _]. done.
Qed.
End state.
End invariant.
