(* ===== verification/InvariantOps.v ===== *)
(** * The invariant of the nucleus: changes of the abstract state

    Each change that the operations of the nucleus make to the abstract state keeps
    the invariant of [Invariant.v]. *)

From S2P Require Export Invariant.
Local Open Scope kernel_scope.

(** ** Credits *)

Section credits.
Context {CR : Credits}.

(** the credit of a semaphore with the value [v] *)
Definition credit_of (v : Z) : option Z := if bool_decide (in_i32 v) then Some (Z.max 0 v) else None.
(** the credits when [a] gets the value [v], by a P or a V *)
Definition recredit (a v : Z) : Credits := fun b => if decide (b = a) then credit a ≫= fun _ => credit_of v else credit b.
Definition same_credits (CR' CR'' : Z -> option Z) : Prop := forall a, CR' a = CR'' a.

Lemma recredit_none a v : credit a = None -> same_credits CR (recredit a v).
Proof.
  intros Ha b. unfold recredit. case_decide as E; [| done]. subst b. change (CR a) with (credit a). rewrite Ha. reflexivity.
Qed.

Lemma recredit_some (CR' : Z -> option Z) a v c0 : same_credits CR' (recredit a v) -> CR' a = Some c0 ->
  is_Some (credit a) /\ in_i32 v /\ c0 = Z.max 0 v.
Proof.
  intros Hs Hc. rewrite (Hs a) in Hc. unfold recredit in Hc. rewrite decide_True in Hc by done.
  destruct (credit a) as [c1 |]; [| done]. cbn in Hc. unfold credit_of in Hc. case_bool_decide; [| done]. injection Hc as <-.
  split; [exists c1; reflexivity | split; [done | done]].
Qed.
End credits.

Section ops.
Context `{MachineOk} {CR : Credits}.

(** ** Entries *)

(** a change of an entry that keeps its family and its areas *)
Class Quiet (f : proc_t -> proc_t) : Prop := {
  qu_links : forall pr, (parent (f pr), child (f pr), brother (f pr)) = (parent pr, child pr, brother pr);
  qu_areas : forall t pr, trap_areas t (f pr) = trap_areas t pr }.

Ltac solve_quiet := split; [by intros [] | by intros ? []].
#[export] Instance quiet_p_s st : Quiet (set_p_s st).
Proof. solve_quiet. Qed.
#[export] Instance quiet_start_time v : Quiet (set_start_time v).
Proof. solve_quiet. Qed.
#[export] Instance quiet_charged v : Quiet (charged v).
Proof. solve_quiet. Qed.
#[export] Instance quiet_preempted v st : Quiet (preempted v st).
Proof. solve_quiet. Qed.
#[export] Instance quiet_io dr : Quiet (io_result dr).
Proof. solve_quiet. Qed.

(** the areas of each type after SYS5 *)
Lemma trap_areas_cases ty t o nw pr :
  trap_areas ty (set_trap_areas t o nw pr) = (o, nw) \/ trap_areas ty (set_trap_areas t o nw pr) = trap_areas ty pr.
Proof. unfold trap_areas, set_trap_areas. destruct (t =? 0), (t =? 1), (ty =? 0), (ty =? 1), pr; cbn; auto. Qed.

Lemma nuc_upd n x m c r t p f : Quiet f -> nuc n x m c r t -> nuc n x m (upd p f c) r t.
Proof.
  intros Q [N1 N2 N3 N4 N5 N6 N7 N8 N9]. split; try done.
  - apply tree_inv_upd; [apply Q | done].
  - intros u cp Hu. unfold upd in Hu. destruct (c u) as [cu|] eqn:E; [| done]. injection Hu as <-.
    pose proof (N8 u cu E) as Hok. case_decide; [| done]. intros ty. rewrite qu_areas. apply Hok.
Qed.

(** ** The rest of the state *)

Definition keeps_areas (r r' : kernel) : Prop := forall a, is_Some (states r !! a) -> is_Some (states r' !! a).

Lemma user_area_mono r r' a : keeps_areas r r' -> user_area (states r) a -> user_area (states r') a.
Proof. intros HK [Ha Hn]. split; [by apply HK | done]. Qed.

Lemma entry_ok_mono r r' cp : keeps_areas r r' -> entry_ok (states r) cp -> entry_ok (states r') cp.
Proof. intros HK He t Ht. destruct (He t Ht). split; [by eapply user_area_mono | by apply HK]. Qed.

Lemma nuc_rest n x m c r r' t : keeps_areas r r' -> areas_ok r' -> nuc n x m c r t -> nuc n x m c r' t.
Proof.
  intros HK HA [N1 N2 N3 N4 N5 N6 N7 N8 N9]. split; try done.
  intros p cp Hp. eapply entry_ok_mono; [exact HK | by apply (N8 p)].
Qed.

Definition pointers (r : kernel) :=
  ((old_pro_state r, old_mm_state r, old_sys_call_state r),
   (old_terminal_state r, old_printer_state r, old_disk_state r, old_floppy_state r, old_clock_state r)).

(** changes of the other fields *)
Lemma areas_ok_same r r' :
  states r' = states r -> pointers r' = pointers r -> dev_arr r' = dev_arr r -> devregs r' = devregs r ->
  save_arr r' = save_arr r -> areas_ok r -> areas_ok r'.
Proof.
  intros E1 E2 E3 E4 E5 [A1 A2 A3 A4 A5]. unfold pointers in E2. injection E2 as F1 F2 F3 F4 F5 F6 F7 F8. split.
  - by rewrite E1.
  - by rewrite E1.
  - by rewrite F1, F2, F3, F4, F5, F6, F7, F8.
  - intros i Hi. destruct (A4 i Hi) as [dr [D1 D2 D3]]. exists dr. split; by rewrite ?E3, ?E4, ?E5.
  - destruct A5 as [d [P1 P2 P3]]. exists d. split; by rewrite ?E3, ?E4.
Qed.

Lemma nuc_same n x m c r r' t :
  states r' = states r -> pointers r' = pointers r -> dev_arr r' = dev_arr r -> devregs r' = devregs r ->
  save_arr r' = save_arr r -> nuc n x m c r t -> nuc n x m c r' t.
Proof.
  intros E1 E2 E3 E4 E5 N. eapply nuc_rest; [| by eapply areas_ok_same, N | exact N]. intros a. by rewrite E1.
Qed.

Lemma keeps_insert r a st : keeps_areas r (set_states (<[a := st]> (states r)) r).
Proof. intros b Hb. cbn. rewrite lookup_insert. by case_decide. Qed.

(** a state is stored in an area that is not a new area of the nucleus *)
Lemma nuc_store_state n x m c r t a st :
  (forall b h, (b, h) ∈ all_areas -> a <> b + STATE_SIZE) -> nuc n x m c r t ->
  nuc n x m c (set_states (<[a := st]> (states r)) r) t.
Proof.
  intros Ha N. eapply nuc_rest; [apply keeps_insert | | exact N]. destruct (nu_areas _ _ _ _ _ _ N) as [A1 A2 A3 A4 A5].
  split; [| | done | |].
  - intros b h Hb. by eapply keeps_insert, A1.
  - intros b h Hb. cbn. rewrite lookup_insert_ne; [by apply A2 | by eapply Ha].
  - intros i Hi. destruct (A4 i Hi) as [dr [D1 D2 D3]]. by exists dr.
  - destruct A5 as [d [P1 P2 P3]]. by exists d.
Qed.

(** the old areas are not new areas *)
Lemma old_not_new a h : (a, h) ∈ all_areas -> forall b h', (b, h') ∈ all_areas -> a <> b + STATE_SIZE.
Proof.
  intros Ha b h' Hb. assert (Forall (fun ah => Forall (fun bh => ah.1 <> bh.1 + STATE_SIZE) all_areas) all_areas) as HF.
  { apply (bool_decide_unpack _). vm_compute. exact I. }
  pose proof (proj1 (Forall_forall _ _) HF _ Ha) as HF'. by apply (proj1 (Forall_forall _ _) HF' _ Hb).
Qed.

Lemma nuc_save n x m c r t i sv :
  nuc n x m c r t -> nuc n x m c (set_save_arr (<[i := sv]> (save_arr r)) r) t.
Proof.
  intros N. eapply (nuc_rest n x m c r); [by intros a | | exact N]. destruct (nu_areas _ _ _ _ _ _ N) as [A1 A2 A3 A4 A5].
  split; [done | done | done | |].
  - intros j Hj. destruct (A4 j Hj) as [dr [D1 D2 D3]]. exists dr. split; [done | done |].
    cbn. rewrite lookup_insert. by case_decide.
  - destruct A5 as [d [P1 P2 P3]]. by exists d.
Qed.

(** ** One cell and the queues *)

(** the cell [a], with its queue and its credit, is all that changes *)
Lemma nuc_cell (CR' : Z -> option Z) n n' x x' m c r t a w :
  n <= n' -> nuc n x m c r t -> awf x -> awf x' -> free_procs x' = free_procs x -> single x' ->
  a ∉ fst <$> trap_vectors -> (forall p, lives p x m -> lives p x' (<[a := w]> m)) ->
  (forall b, b <> a -> waiters b (blocked x') = waiters b (blocked x) /\ CR' b = credit b) ->
  (forall k, owned a -> counted k a x m -> counted (k + (n' - n)) a x' (<[a := w]> m)) ->
  (a = clock_lock -> n' = n) ->
  (forall c0, CR' a = Some c0 -> user_sem m a /\ guarded c0 a x' (<[a := w]> m)) ->
  nuc (CR := CR') n' x' (<[a := w]> m) c r t.
Proof.
  intros Hn [N1 N2 N3 N4 N5 N6 N7 N8 N9] W W' Hf Hs Ha Hl Hw Hc Hclock Hcr. split; [| done | | | | | done | done |].
  - by eapply (tree_inv_queues x m).
  - by apply vectors_insert.
  - intros b Hb. destruct (decide (b = a)) as [-> |]; [done |]. rewrite (proj1 (Hw b ltac:(done))). by apply N4.
  - intros i Hi. destruct (decide (dev_sem i = a)) as [<- | Hne].
    + replace n' with (n + (n' - n)) by lia. apply Hc; [right; by exists i | by apply N5].
    + eapply counted_frame; [by apply Hw | by rewrite lookup_insert_ne | eapply counted_le; [exact Hn | by apply N5]].
  - destruct (decide (clock_lock = a)) as [<- | Hne].
    + rewrite (Hclock eq_refl) in Hc. replace 0 with (0 + (n - n)) by lia. apply Hc; [by left | done].
    + eapply counted_frame; [by apply Hw | by rewrite lookup_insert_ne | done].
  - intros b c0 Hb. destruct (decide (b = a)) as [-> | Hne].
    + destruct (Hcr c0 Hb) as [Hu Hg]. split; [| done]. eapply user_sem_cells; [apply same_cells_insert | done].
    + destruct (Hw b Hne) as [Hwb Hcb]. unfold credit in Hb. rewrite Hcb in Hb. destruct (N9 b c0 Hb) as [Hu Hg].
      split; [eapply user_sem_cells; [apply same_cells_insert | done] |].
      eapply guarded_frame; [exact Hwb | by rewrite lookup_insert_ne | done].
Qed.

(** the ready queue is permuted *)
Lemma nuc_rotate n x m c r t l :
  l ≡ₚ ready x -> awf x -> nuc n x m c r t -> nuc n (set_ready l x) m c r t.
Proof.
  intros Hl W [N1 N2 N3 N4 N5 N6 N7 N8 N9]. split; try done.
  eapply (tree_inv_queues x m); [done | by apply awf_permute | done | intros p; by apply lives_rotate | done].
Qed.

Lemma abs_block_ready a p x : ready (abs_block a p x) = ready x.
Proof. unfold abs_block. by case_decide. Qed.
Lemma abs_block_set_ready a p q x : abs_block a p (set_ready q x) = set_ready q (abs_block a p x).
Proof. unfold abs_block. cbn. by case_decide. Qed.

(** the tail of the ready queue *)
Lemma awf_tail x p q : awf x -> ready x = p :: q -> awf (set_ready q x).
Proof.
  intros [W1 W2 W3 W4 W5 W6 W7] Hr. destruct (W3 (ready x)) as [Hnd Hv]; [left |]. rewrite Hr in Hnd, Hv. apply NoDup_cons in Hnd as [_ Hnd].
  split; [done | done | | done | done | done |].
  - intros l [->|Hl]%elem_of_cons; [| by apply W3; right]. split; [done |]. intros u Hu. apply Hv. by right.
  - intros u. eapply Nat.le_trans; [| exact (W7 u)]. unfold in_queues. rewrite Hr. cbn [ready set_ready blocked].
    rewrite !filter_cons. repeat case_decide; cbn; try lia. set_solver.
Qed.

(** a V that wakes another process than the head of the ready queue *)
Lemma abs_V_tail x p q a v :
  awf x -> ready x = p :: q -> p ∉ waiters a (blocked x) ->
  exists q', ready (abs_V a v x) = p :: q' /\ set_ready q' (abs_V a v x) = abs_V a v (set_ready q x).
Proof.
  intros W Hr Hp. unfold abs_V. cbn [blocked set_ready]. case_Z; [| by exists q].
  set (w := head_or (waiters a (blocked x))). set (B := resume a (blocked x)). change (set_blocked B (set_ready q x)) with (set_ready q (set_blocked B x)).
  assert (w <> ENULL -> in_queues w (set_blocked B x) = in_queues w (set_ready q (set_blocked B x))) as HE.
  { intros Hw. assert (w <> p) as Hwp.
    { unfold w in *. destruct (waiters a (blocked x)) as [|u l]; [done |]. cbn in *. intros ->. apply Hp. left. }
    unfold in_queues. cbn [ready blocked set_ready set_blocked]. rewrite Hr, !filter_cons.
    destruct (decide (w ∈ p :: q)) as [[?|?]%elem_of_cons|Hn], (decide (w ∈ q)) as [?|?]; try done; destruct Hn; by right. }
  unfold abs_wake. destruct (decide (w <> ENULL /\ in_queues w (set_blocked B x) = 0%nat)) as [[Hw Hz]|Hn].
  - rewrite decide_True by (rewrite <- HE; done). cbn. rewrite Hr. by exists (q ++ [w]).
  - rewrite decide_False; [cbn; by exists q |]. intros [Hw Hz]. apply Hn. by rewrite HE.
Qed.

Lemma counted_range n a x m v : awf x -> counted n a x m -> m !! a = Some v -> -20 <= v <= n.
Proof. intros W (v' & Hv & Hr) Hv'. simplify_eq. pose proof (waiters_length x a W). lia. Qed.

Section cell.
Context (n : Z) (x : absq) (m : gmap Z Z) (c : Z -> option proc_t) (r : kernel) (t : ptree).
Hypotheses (N : nuc n x m c r t) (W : awf x) (Hn : n < 2 ^ 31 - 1).

Lemma nuc_owned a : owned a -> exists k, counted k a x m /\ 0 <= k <= Z.max 0 n.
Proof.
  intros [-> | (i & Hi & ->)]; [exists 0; split; [apply N | lia] |]. exists n. split; [by apply (nu_devs _ _ _ _ _ _ N) |].
  destruct (nu_devs _ _ _ _ _ _ N i Hi) as (v & _ & Hr). lia.
Qed.

Lemma owned_range a v : owned a -> m !! a = Some v -> -20 <= v < 2 ^ 31 - 1.
Proof.
  intros Ha Hv. destruct (nuc_owned a Ha) as (k & Hk & Hr). pose proof (counted_range _ _ _ _ _ W Hk Hv). lia.
Qed.

(** the credits of the cells that do not change *)
Lemma recredit_ne (CR' : Z -> option Z) a v b : same_credits CR' (recredit a v) -> b <> a -> CR' b = credit b.
Proof. intros Hs Hb. rewrite (Hs b). unfold recredit. by rewrite decide_False. Qed.

Lemma credit_guarded a c0 : credit a = Some c0 -> user_sem m a /\ guarded c0 a x m.
Proof. apply (nu_credits _ _ _ _ _ _ N). Qed.

(** the running process blocks on [a] *)
Lemma nuc_block (CR' : Z -> option Z) a v p q :
  ready x = p :: q -> m !! a = Some v -> a ∉ fst <$> trap_vectors -> i32 (v - 1) < 0 ->
  awf (abs_block a p (set_ready q x)) -> same_credits CR' (recredit a (v - 1)) ->
  nuc (CR := CR') n (abs_block a p (set_ready q x)) (<[a := i32 (v - 1)]> m) c r t.
Proof.
  intros Hr Hv Ha Hneg W' HC. destruct (nuc_running _ _ _ _ _ _ N W p q Hr) as (Hp & Hq & Hw & _).
  pose proof (nuc_room _ _ _ _ _ _ N W p q Hr) as Hroom.
  assert (forall b, waiters b (blocked (abs_block a p (set_ready q x))) =
    waiters b (blocked x) ++ (if b =? a then [p] else [])) as Hws.
  { intros b. unfold abs_block. rewrite decide_False by (cbn; lia). apply waiters_suspend. }
  eapply (nuc_cell CR' n n x); [lia | exact N | done | done | by rewrite abs_block_free | | done | | | | done |].
  - intros u b1 b2. rewrite !Hws, !elem_of_app. pose proof (nu_single _ _ _ _ _ _ N u b1 b2) as Hsg.
    do 2 case_Z; rewrite ?list_elem_of_singleton, ?elem_of_nil; intros [H1|H1] [H2|H2]; subst; try tauto.
    + by destruct (Hw b2).
    + by destruct (Hw b1).
  - intros u Hu. eapply lives_cells; [apply same_cells_insert |]. by eapply lives_block; eauto.
  - intros b Hb. split; [| by eapply recredit_ne]. rewrite Hws, (proj2 (Z.eqb_neq b a)) by done. apply app_nil_r.
  - intros k Ho Hk. rewrite Z.sub_diag, Z.add_0_r. change (v - 1) with (v + -1). eapply counted_step; [done | | | exact Hk].
    + pose proof (owned_range a v Ho Hv). unfold in_i32. lia.
    + rewrite Hws, Z.eqb_refl, length_app. cbn. lia.
  - intros c0 Hc. destruct (recredit_some CR' a (v - 1) c0 HC Hc) as ([c1 Hc1] & Hi & ->).
    destruct (credit_guarded a c1 Hc1) as [Hu (v' & Hv' & _ & Hl)]. simplify_eq. split; [done |].
    rewrite i32_id in Hneg |- * by done. exists (v - 1). rewrite lookup_insert_eq. split; [done |]. split; [done |].
    rewrite Hws, Z.eqb_refl, length_app. cbn. lia.
Qed.

(** a P that does not block *)
Lemma nuc_pass (CR' : Z -> option Z) a v :
  m !! a = Some v -> a ∉ fst <$> trap_vectors -> 0 <= i32 (v - 1) -> same_credits CR' (recredit a (v - 1)) ->
  nuc (CR := CR') n x (<[a := i32 (v - 1)]> m) c r t.
Proof.
  intros Hv Ha Hpos HC. eapply (nuc_cell CR' n n x); [lia | exact N | done | done | done | apply N | done | | | | done |].
  - intros p. apply lives_cells, same_cells_insert.
  - intros b Hb. split; [done | by eapply recredit_ne].
  - intros k Ho (v' & Hv' & Hr). simplify_eq. rewrite Z.sub_diag, Z.add_0_r.
    assert (in_i32 (v - 1)) as Hi by (pose proof (owned_range a v Ho Hv); unfold in_i32; lia).
    rewrite i32_id in Hpos |- * by done. exists (v - 1). rewrite lookup_insert_eq. split; [done | lia].
  - intros c0 Hc. destruct (recredit_some CR' a (v - 1) c0 HC Hc) as ([c1 Hc1] & Hi & ->).
    destruct (credit_guarded a c1 Hc1) as [Hu (v' & Hv' & _ & Hl)]. simplify_eq. split; [done |].
    rewrite i32_id in Hpos |- * by done. exists (v - 1). rewrite lookup_insert_eq. split; [done |]. split; [done | lia].
Qed.

Lemma waiters_V a v b : b <> a -> waiters b (blocked (abs_V a v x)) = waiters b (blocked x).
Proof.
  intros Hb. unfold abs_V, abs_wake. case_Z; [| done].
  assert (waiters b (resume a (blocked x)) = waiters b (blocked x)) as E.
  { rewrite waiters_resume by apply (aw_blocked _ W). by rewrite (proj2 (Z.eqb_neq b a)). }
  case_decide; exact E.
Qed.
Lemma waiters_V_sub a v b p : p ∈ waiters b (blocked (abs_V a v x)) -> p ∈ waiters b (blocked x).
Proof.
  destruct (decide (b = a)) as [-> |]; [| by rewrite waiters_V].
  assert (p ∈ waiters a (resume a (blocked x)) -> p ∈ waiters a (blocked x)) as Hs.
  { rewrite waiters_resume, Z.eqb_refl by apply (aw_blocked _ W). destruct (waiters a (blocked x)); [done | by right]. }
  unfold abs_V, abs_wake. case_Z; [| done]. case_decide; exact Hs.
Qed.

Lemma waiters_V_self a v :
  waiters a (blocked (abs_V a v x)) = if v <? 0 then List.tl (waiters a (blocked x)) else waiters a (blocked x).
Proof.
  unfold abs_V, abs_wake. case_Z; [| done]. pose proof (waiters_resume a a _ (proj1 (aw_blocked _ W))) as E.
  rewrite Z.eqb_refl in E. case_decide; exact E.
Qed.

(** a V; one on a semaphore of the nucleus finds a waiter *)
Lemma nuc_V (CR' : Z -> option Z) a v :
  m !! a = Some v -> a ∉ fst <$> trap_vectors -> (owned a -> v < 0 /\ waiters a (blocked x) <> []) ->
  awf (abs_V a v x) -> same_credits CR' (recredit a (v + 1)) ->
  nuc (CR := CR') n (abs_V a v x) (<[a := i32 (v + 1)]> m) c r t.
Proof.
  intros Hv Ha Hwait W' HC. eapply (nuc_cell CR' n n x); [lia | exact N | done | done | apply abs_V_free | | done | | | | done |].
  - intros p b1 b2 H1%waiters_V_sub H2%waiters_V_sub. by eapply (nu_single _ _ _ _ _ _ N).
  - intros p Hp. eapply lives_cells; [apply same_cells_insert |]. by apply lives_V.
  - intros b Hb. split; [by apply waiters_V | by eapply recredit_ne].
  - intros k Ho Hk. destruct (Hwait Ho) as [Hneg Hw]. rewrite Z.sub_diag, Z.add_0_r.
    destruct (waiters a (blocked x)) as [|w ws] eqn:E; [done |].
    destruct (nuc_waiter _ _ _ _ _ _ N W a w) as [_ Hwr]; [rewrite E; left |].
    destruct (abs_V_wakes x a v w ws W Hneg E Hwr) as [_ R2 _].
    eapply counted_step; [done | | | exact Hk].
    + pose proof (owned_range a v Ho Hv). unfold in_i32. lia.
    + rewrite R2, Z.eqb_refl, E. cbn. lia.
  - intros c0 Hc. destruct (recredit_some CR' a (v + 1) c0 HC Hc) as ([c1 Hc1] & Hi & ->).
    destruct (credit_guarded a c1 Hc1) as [Hu (v' & Hv' & _ & Hl)]. simplify_eq. split; [done |].
    rewrite i32_id by done. exists (v + 1). rewrite lookup_insert_eq. split; [done |]. split; [done |].
    rewrite waiters_V_self. case_Z; [| lia]. destruct (waiters a (blocked x)); cbn in *; lia.
Qed.

Lemma nuc_V_owned a v :
  m !! a = Some v -> owned a -> v < 0 -> waiters a (blocked x) <> [] -> awf (abs_V a v x) ->
  nuc n (abs_V a v x) (<[a := i32 (v + 1)]> m) c r t.
Proof.
  intros Hv Ho Hneg Hw W'. eapply nuc_V; [done | by apply owned_vector | by split | done |].
  by eapply recredit_none, owned_credit.
Qed.

Lemma abs_V_ready a v : ready (abs_V a v x) = [] -> ready x = [].
Proof. unfold abs_V, abs_wake. case_Z; [| done]. case_decide; [| done]. by intros [??]%app_eq_nil. Qed.

(** an interrupt that finds no waiter *)
Lemma nuc_interrupt i v :
  0 <= i < 15 -> m !! dev_sem i = Some v -> nuc (n + 1) x (<[dev_sem i := i32 (v + 1)]> m) c r t.
Proof.
  intros Hi Hv. assert (owned (dev_sem i)) as Ho by (right; by exists i).
  pose proof (owned_credit _ _ _ _ _ _ N (dev_sem i) Ho) as HC.
  eapply (nuc_cell CR n (n + 1) x); [lia | exact N | done | done | done | apply N | by apply owned_vector | | done | | |].
  - intros p. apply lives_cells, same_cells_insert.
  - intros k _ (v' & Hv' & Hr). simplify_eq. exists (v + 1). rewrite lookup_insert_eq, i32_id; [split; [done | lia] |].
    pose proof (owned_range _ v Ho Hv). unfold in_i32. lia.
  - intros E. by destruct (clock_dev i Hi).
  - intros c0 Hc. unfold credit in HC. congruence.
Qed.
End cell.

Lemma nuc_le n n' x m c r t : n <= n' -> nuc n x m c r t -> nuc n' x m c r t.
Proof. intros Hn [N1 N2 N3 N4 N5 N6 N7 N8 N9]. split; try done. intros i Hi. eapply counted_le; [exact Hn | by apply N5]. Qed.

(** ** Processes *)

Lemma strip_areas t pr : trap_areas t (strip pr) = trap_areas t pr.
Proof. by destruct pr. Qed.

Lemma entries_strip ss c c' :
  same_strip c c' -> (forall p cp, c p = Some cp -> entry_ok ss cp) -> forall p cp, c' p = Some cp -> entry_ok ss cp.
Proof.
  intros Hs He p cp' Hp. pose proof (Hs p) as E. rewrite Hp in E. destruct (c p) as [cp|] eqn:Ec; [| done].
  injection E as E. intros t. rewrite <- (strip_areas t cp'), E, strip_areas. by apply (He p).
Qed.

(** a process is created *)
Lemma nuc_create n x m c c' r t p u fl st :
  nuc n x m c r t -> free_procs x = u :: fl -> tree_inv (created u fl x) m c' (add_child p u t) ->
  same_strip (upd u (set_p_s st) c) c' -> nuc n (created u fl x) m c' r (add_child p u t).
Proof.
  intros [N1 N2 N3 N4 N5 N6 N7 N8 N9] Hf I Hs. split; try done.
  eapply entries_strip; [exact Hs |]. intros q cq Hq. unfold upd in Hq.
  destruct (c q) as [cq0|] eqn:E; [| done]. injection Hq as <-. pose proof (N8 q cq0 E) as Hok.
  case_decide; [| done]. intros ty. rewrite qu_areas. apply Hok.
Qed.

Lemma incr_n_add k v : in_i32 v -> in_i32 (v + Z.of_nat k) -> incr_n k v = v + Z.of_nat k.
Proof.
  unfold in_i32. induction k as [|k IH]; intros H1 H2; [cbn; lia |]. unfold incr_n in *. rewrite Nat.iter_succ, IH by lia.
  rewrite i32_id; unfold in_i32; lia.
Qed.

(** the waiters of [a] in a family and the others *)
Lemma waiters_split x a l : awf x -> NoDup l ->
  (v_count a l (blocked x) + length (filter (fun q => q ∉ l) (waiters a (blocked x))) = length (waiters a (blocked x)))%nat.
Proof.
  intros W Hl. pose proof (waiters_nodup x a W) as Hw.
  assert (filter (fun p => a ∈ waits_for p (blocked x)) l ≡ₚ filter (fun q => q ∈ l) (waiters a (blocked x))) as E.
  { apply NoDup_Permutation; [by apply NoDup_filter | by apply NoDup_filter |]. intros p.
    rewrite !list_elem_of_filter, (waits_for_iff p a _ (aw_blocked _ W)). tauto. }
  unfold v_count. rewrite E. clear. induction (waiters a (blocked x)) as [|p q IH]; [done |].
  rewrite !filter_cons. do 2 case_decide; try done; cbn [length]; lia.
Qed.

(** a family ends *)
Lemma nuc_reap n x m c c' r t t' s :
  nuc n x m c r t -> awf x -> n < 2 ^ 31 - 1 -> NoDup (nodes s) ->
  let x' := (reap s (x, m)).1 in let m' := (reap s (x, m)).2 in
  tree_inv x' m' c' t' -> same_strip c c' -> nuc n x' m' c' r t'.
Proof.
  intros N W Hn Hs x' m' I Hc. pose proof N as [N1 N2 N3 N4 N5 N6 N7 N8 N9].
  destruct (reap_reaps s x m (aw_blocked _ W) Hs) as [R1 R2 R3 R4]. fold x' m' in R1, R2, R3, R4.
  assert (forall k a, owned a -> counted k a x m -> counted k a x' m') as Hcount.
  { intros k a Ho (v & Hv & Hr). pose proof (owned_range _ _ _ _ _ _ N W Hn a v Ho Hv) as Hrange.
    pose proof (waiters_split x a (nodes s) W Hs) as Hsp. pose proof (waiters_length x a W).
    exists (v + Z.of_nat (v_count a (nodes s) (blocked x))). rewrite R3, R4, Hv. cbn.
    assert (v + Z.of_nat (v_count a (nodes s) (blocked x)) < 2 ^ 31) by (destruct (nuc_owned _ _ _ _ _ _ N a Ho) as (k' & (v' & Hv' & Hr') & Hk'); simplify_eq; lia).
    rewrite incr_n_add; [split; [done | lia] | |]; unfold in_i32; lia. }
  split; [done | | | | | | done | by eapply entries_strip |].
  - intros p a b. rewrite !R3, !list_elem_of_filter. intros [_ Ha] [_ Hb]. by eapply N2.
  - intros a f Ha. rewrite R4. unfold v_count.
    assert (filter (fun p => a ∈ waits_for p (blocked x)) (nodes s) = []) as ->; [| by rewrite (N3 a f Ha)].
    destruct (filter _ (nodes s)) as [|p l] eqn:E; [done |]. exfalso.
    assert (p ∈ p :: l) as Hp by left. rewrite <- E in Hp. apply list_elem_of_filter in Hp as [Hp _]. apply (waits_for_iff p a _ (aw_blocked _ W)) in Hp.
    rewrite N4 in Hp; [by apply elem_of_nil in Hp |]. apply list_elem_of_fmap. by exists (a, f).
  - intros a Ha. by rewrite R3, N4.
  - intros i Hi. apply Hcount; [right; by exists i | by apply N5].
  - apply Hcount; [by left | done].
  - intros a c0 Ecr. destruct (N9 a c0 Ecr) as [Hu (v & Hv & -> & Hl)].
    pose proof (waiters_split x a (nodes s) W Hs) as Hsp. pose proof (waiters_length x a W).
    assert (m' !! a = Some (incr_n (v_count a (nodes s) (blocked x)) v)) as Hv' by by rewrite R4, Hv.
    split; [destruct Hu as [U1 U2 U3 U4]; split; [by eexists | done..] |].
    exists (incr_n (v_count a (nodes s) (blocked x)) v). rewrite R3. split; [done |].
    destruct (v_count a (nodes s) (blocked x)) as [|j]; [cbn in *; lia |].
    rewrite incr_n_add; [lia | unfold in_i32; lia ..].
Qed.
End ops.
