(* ===== verification/Safety.v ===== *)
(** * The handlers of the nucleus keep the invariant

    Each system call and each handler, from a state with the invariant of
    [Invariant.v], ends by loading a processor state, waiting or halting, in a state
    that has the invariant again. *)

From S2P Require Export InvariantOps.
Local Open Scope kernel_scope.

(** the value of a semaphore after an operation *)
Definition next_value (op v : Z) : Z := if op =? LOCK then v - 1 else v + 1.

(** after an operation a process waits for [b'], if it does; [b] before it *)
Definition blocks_on (b : option Z) (op a v : Z) : option Z :=
  if (op =? LOCK) && (i32 (v - 1) <? 0) then Some a else b.
(** a process that waits already may still do a V on another semaphore, and a P that passes *)
Definition allowed (b : option Z) (op a v : Z) : Prop :=
  match b with Some b0 => a <> b0 /\ (op = LOCK -> 0 <= i32 (v - 1)) | None => True end.

(** the conditions on a vector of operations: its semaphores are semaphores of programs,
    and one P blocks at most, which no later V of the vector undoes *)
Fixpoint proper_from `{Machine} (b : option Z) (m : gmap Z Z) (ops : list (Z * Z)) : Prop :=
  match ops with
  | [] => True
  | (op, a) :: ops' =>
      user_sem m a /\ exists v, m !! a = Some v /\
        allowed b op a v /\ proper_from (blocks_on b op a v) (<[a := i32 (next_value op v)]> m) ops'
  end.
Definition proper_ops `{Machine} : gmap Z Z -> list (Z * Z) -> Prop := proper_from None.

(** the credits and the queues after the operations of the process [p] *)
Fixpoint spend (CR : Credits) (m : gmap Z Z) (ops : list (Z * Z)) : Credits :=
  match ops with
  | [] => CR
  | (op, a) :: ops' =>
      match m !! a with
      | Some v => spend (recredit (CR := CR) a (next_value op v)) (<[a := i32 (next_value op v)]> m) ops'
      | None => CR
      end
  end.
Definition requeue (p op v : Z) (l : list Z) : list Z :=
  if op =? LOCK then (if i32 (v - 1) <? 0 then l ++ [p] else l) else if v <? 0 then List.tl l else l.
Fixpoint queues_after (p : Z) (W : Z -> list Z) (m : gmap Z Z) (ops : list (Z * Z)) : Z -> list Z :=
  match ops with
  | [] => W
  | (op, a) :: ops' =>
      match m !! a with
      | Some v => queues_after p (fun b => if b =? a then requeue p op v (W b) else W b) (<[a := i32 (next_value op v)]> m) ops'
      | None => W
      end
  end.

(** the conditions on a call, [st] being the state that the stub has stored: what a
    program must not do with SYS1, SYS3, SYS5 and SYS8 in the nucleus's own mode *)
Definition proper_vector `{Machine} (st : state_t) (m : gmap Z Z) (ops : list (Z * Z)) : Prop :=
  s_r st !!! 3%fin = Z.of_nat (length ops) /\ vector_at m (s_r st !!! 4%fin) ops /\
  apart (s_r st !!! 4%fin) (Z.of_nat (length ops)) ops /\ proper_ops m ops.
Definition proper_areas (st : state_t) (ss : gmap Z state_t) : Prop :=
  0 <= s_r st !!! 2%fin <= 2 -> user_area ss (s_r st !!! 3%fin) /\ is_Some (ss !! (s_r st !!! 4%fin)).
Definition proper `{Machine} (st : state_t) (ss : gmap Z state_t) (m : gmap Z Z) : Prop :=
  in_user_mode st = false ->
  (sys_no (s_tmp st) = 1 -> is_Some (ss !! (s_r st !!! 4%fin))) /\
  (sys_no (s_tmp st) = 3 -> exists ops, proper_vector st m ops) /\
  (sys_no (s_tmp st) = 5 -> proper_areas st ss) /\
  (sys_no (s_tmp st) = 8 -> 0 <= s_r st !!! 4%fin < 15).

Section ending.
Context `{MachineOk} {CR : Credits} (n : Z).

(** ** How a handler ends *)

Lemma sound_intro_as (Q : absq -> Prop) k x m c r t :
  kview k x m c r -> nuc n x m c r t -> ready x <> [] -> Q x -> sound_as Q n true k.
Proof. intros V N Hr HQ. exists x, m, c, r, t. by split_and!. Qed.
Lemma sound_intro k x m c r t : kview k x m c r -> nuc n x m c r t -> ready x <> [] -> sound n true k.
Proof. intros V N Hr. by eapply sound_intro_as. Qed.

Lemma scheduled_ends_as (Q : absq -> Prop) x m c r t e k :
  nuc n x m c r t -> Q x -> scheduled x m c r e k -> ends_as Q n e k.
Proof.
  intros N HQ HS. unfold scheduled, idle in HS. destruct (ready x) as [|p q] eqn:Hr.
  - assert (forall r', nuc n x m c r' t -> kview k x m c r' -> sound_as Q n false k) as Hidle
      by (intros r' N' V'; by exists x, m, c, r', t; rewrite Hr).
    case_bool_decide; cbn [negb] in HS; [destruct (dev_waiting (blocked x)) |].
    + destruct HS as [-> V]. by eapply Hidle.
    + by destruct HS as [-> _].
    + destruct HS as [-> V]. eapply Hidle; [| exact V]. by eapply nuc_same, N.
  - destruct HS as (cp & _ & -> & V). eapply sound_intro_as; [exact V | | by rewrite Hr | exact HQ].
    apply nuc_upd; [apply _ |]. by eapply nuc_same, N.
Qed.
Lemma scheduled_ends x m c r t e k : nuc n x m c r t -> scheduled x m c r e k -> ends n e k.
Proof. intros N. by eapply scheduled_ends_as. Qed.

Lemma nuc_printer x m c r t : nuc n x m c r t -> exists d, printer_ok r d.
Proof. intros N. apply (ao_printer _ (nu_areas _ _ _ _ _ _ N)). Qed.
(** the caller goes on *)
Lemma resumed_ends (Q : absq -> Prop) p x m c r t e k :
  nuc n x m c r t -> ready x <> [] -> Q x -> resumed p 0x930 x m c r e k -> ends_as Q n e k.
Proof.
  intros N Hr HQ (st & _ & -> & V). eapply sound_intro_as; [exact V | | exact Hr | exact HQ].
  apply nuc_upd; [apply _ |]. by eapply nuc_same, N.
Qed.

Lemma sound_resumes (Q : absq -> Prop) p k : sound_as Q n true k -> 0 <= p < MAXPROC ->
  exists x m c r, kview k x m c r /\ is_Some (c p) /\ is_Some (states r !! 0x930) /\
    forall e k', resumed p 0x930 x m c r e k' -> ends_as Q n e k'.
Proof.
  intros (x & m & c & r & t & V & N & Hbusy & HQ) Hp. exists x, m, c, r. split; [exact V |].
  split; [by apply (proj2 (kview_valid _ _ _ _ _ V p)) |].
  split; [apply (ao_old _ (nu_areas _ _ _ _ _ _ N) _ sym_trapsyshandler); right; right; left |].
  intros e k' HR. eapply resumed_ends; [exact N | | exact HQ | exact HR]. intros E. by apply Hbusy in E.
Qed.

End ending.

Lemma queues_after_ext p ops : forall W W' m, (forall b, W b = W' b) -> forall b, queues_after p W m ops b = queues_after p W' m ops b.
Proof.
  induction ops as [|[op a] ops IH]; intros W W' m HW b; [apply HW |]. cbn [queues_after].
  destruct (m !! a); [| apply HW]. apply IH. intros d. by rewrite HW.
Qed.

(** ** SYS3 *)

Section vector.
Context `{MachineOk} (n : Z) (Hn : n < 2 ^ 31 - 1).

(** between two operations of the running process [p], which waits for [b] already, if
    it does, although it is still the head of the ready queue *)
Definition in_vector (CR : Z -> option Z) (b : option Z) (p : Z) x m c r t : Prop :=
  exists q, ready x = p :: q /\
    match b with
    | None => nuc (CR := CR) n x m c r t
    | Some b0 => p ∈ waiters b0 (blocked x) /\ nuc (CR := CR) n (set_ready q x) m c r t
    end.

Lemma in_vector_pass CR b p x m c r t a v :
  in_vector CR b p x m c r t -> awf x -> m !! a = Some v -> user_sem m a -> 0 <= i32 (v - 1) ->
  in_vector (recredit (CR := CR) a (v - 1)) b p x (<[a := i32 (v - 1)]> m) c r t.
Proof.
  intros (q & Hr & N) W Hv [_ _ Hvec _] Hpos. exists q. split; [done |]. destruct b as [b0|].
  - destruct N as [Hw N]. split; [done |]. pose proof (awf_tail x p q W Hr) as W'. by eapply (nuc_pass n (set_ready q x) m c r t N W' Hn).
  - by eapply (nuc_pass n x m c r t N W Hn).
Qed.

Lemma in_vector_V CR b p x m c r t a v :
  in_vector CR b p x m c r t -> awf x -> awf (abs_V a v x) -> m !! a = Some v -> user_sem m a -> (forall b0, b = Some b0 -> a <> b0) ->
  in_vector (recredit (CR := CR) a (v + 1)) b p (abs_V a v x) (<[a := i32 (v + 1)]> m) c r t.
Proof.
  intros (q & Hr & N) W W' Hv [_ _ Hvec Hown] Hne. destruct b as [b0|].
  - destruct N as [Hw N]. pose proof (awf_tail x p q W Hr) as Wq. specialize (Hne b0 eq_refl).
    assert (p ∉ waiters a (blocked x)) as Hp by (intros Hp; apply Hne; by eapply (nu_single _ _ _ _ _ _ N p)).
    destruct (abs_V_tail x p q a v W Hr Hp) as (q' & Hr' & Hq'). exists q'. split; [done |].
    split; [by rewrite waiters_V |]. rewrite Hq'. eapply (nuc_V n (set_ready q x) m c r t N Wq Hn); [done | done | done | | done].
    rewrite <- Hq'. by eapply awf_tail.
  - assert (exists q', ready (abs_V a v x) = p :: q') as [q' Hq'].
    { unfold abs_V, abs_wake. case_Z; [| by exists q]. case_decide; cbn; rewrite Hr; eauto. }
    exists q'. split; [done |]. by eapply (nuc_V n x m c r t N W Hn).
Qed.

Lemma in_vector_block CR p x m c r t a v :
  in_vector CR None p x m c r t -> awf x -> awf (abs_block a p x) -> m !! a = Some v -> user_sem m a -> i32 (v - 1) < 0 ->
  in_vector (recredit (CR := CR) a (v - 1)) (Some a) p (abs_block a p x) (<[a := i32 (v - 1)]> m) c r t.
Proof.
  intros (q & Hr & N) W W' Hv [_ _ Hvec _] Hneg. pose proof (nuc_room _ _ _ _ _ _ N W p q Hr) as Hroom.
  exists q. rewrite abs_block_ready. split; [done |]. split.
  - unfold abs_block. rewrite decide_False by lia. cbn. rewrite waiters_suspend, Z.eqb_refl. apply elem_of_app. right. left.
  - rewrite <- abs_block_set_ready. eapply (nuc_block n x m c r t N W Hn); [done | done | done | done | | done].
    rewrite abs_block_set_ready. eapply (awf_tail _ p); [done | by rewrite abs_block_ready].
Qed.

(** the queues after one operation *)
Lemma sem_step_nuc (CR : Z -> option Z) b x m c r t p op a v :
  in_vector CR b p x m c r t -> awf x -> m !! a = Some v -> user_sem m a -> allowed b op a v ->
  exists ss', sem_step p (op, a) (mk_ss x m (bool_decide (is_Some b))) = Some ss' /\
    ss_mem ss' = <[a := i32 (next_value op v)]> m /\ ss_flag ss' = bool_decide (is_Some (blocks_on b op a v)) /\
    (awf (ss_queues ss') ->
     in_vector (recredit (CR := CR) a (next_value op v)) (blocks_on b op a v) p (ss_queues ss') (ss_mem ss') c r t) /\
    forall d, waiters d (blocked (ss_queues ss')) = if d =? a then requeue p op v (waiters d (blocked x)) else waiters d (blocked x).
Proof.
  intros IV W Hv U Hal. pose proof U as [_ Hnull _ _].
  cbn [sem_step fst snd]. rewrite Hv. unfold next_value, requeue, blocks_on, allowed in *. destruct (Z.eqb_spec op LOCK) as [El | El]; cbn [andb].
  - destruct (Z.ltb_spec (i32 (v - 1)) 0) as [Hneg | Hpos].
    + destruct b as [b0|]; [specialize (proj2 Hal El); lia |]. destruct IV as (q & Hr & N).
      destruct (nuc_running _ _ _ _ _ _ N W p q Hr) as (_ & Hq & Hwait & _). pose proof (nuc_room _ _ _ _ _ _ N W p q Hr) as Hroom.
      pose proof (nuc_alone _ _ _ _ _ _ N W) as Hone. unfold alone in Hone. rewrite Hr in Hone.
      rewrite bool_decide_true by (split; [done | split; [done | lia]]). eexists. split; [done |]. cbn [ss_mem ss_flag ss_queues].
      split; [done |]. split; [done |]. split.
      * intros W'. eapply in_vector_block; [by exists q | done..].
      * intros d. unfold abs_block. rewrite decide_False by lia. cbn. rewrite waiters_suspend. case_Z; [done | apply app_nil_r].
    + eexists. split; [done |]. cbn [ss_mem ss_flag ss_queues]. split; [done |]. split; [done |]. split; [| intros d; by case_Z].
      intros _. by apply in_vector_pass.
  - rewrite bool_decide_true by done. eexists. split; [done |]. cbn [ss_mem ss_flag ss_queues]. split; [done |]. split; [done |]. split.
    + intros W'. apply in_vector_V; [done | done | done | done | done |]. intros b0 ->. apply Hal.
    + intros d. destruct (Z.eqb_spec d a) as [-> | Hne]; [by apply waiters_V_self | by apply waiters_V].
Qed.

(** the queues after the operations of [p] *)
Definition after_ops (p : Z) (m : gmap Z Z) (ops : list (Z * Z)) (x x' : absq) : Prop :=
  free_procs x' = free_procs x /\
  forall b, waiters b (blocked x') = queues_after p (fun b => waiters b (blocked x)) m ops b.

Lemma Sem_OP_loop_sound st c r t p : states r !! 0x930 = Some st -> is_Some (c p) -> forall ops CR b k x m addr,
  kview k x m (sem_core p st (bool_decide (is_Some b)) c) r -> in_vector CR b p x m c r t -> vector_at m addr ops ->
  apart addr (Z.of_nat (length ops)) ops -> proper_from b m ops ->
  returns (Sem_OP_loop (length ops) 0x930 p addr (flag_Z (bool_decide (is_Some b)))) k (fun f k' => exists b' x' m',
    f = flag_Z (bool_decide (is_Some b')) /\ after_ops p m ops x x' /\
    kview k' x' m' (sem_core p st (bool_decide (is_Some b')) c) r /\ in_vector (spend CR m ops) b' p x' m' c r t).
Proof.
  intros Hst Hc. induction ops as [|[op a] ops IH]; intros CR b k x m addr V IV Hvec Hap Hok.
  { apply wp_ret. exists b, x, m. split; [done |]. split; [by split |]. by split. }
  destruct Hok as (Hu & v & Hv & Hal & Hok). destruct Hvec as (Hop & Ha & Hvec). pose proof (kview_awf _ _ _ _ _ V) as W.
  pose proof (Hap (op, a) ltac:(left)) as Hout. cbn in Hout. unfold VPOP_SIZE in Hout.
  destruct (sem_step_nuc CR b x m c r t p op a v IV W Hv Hu Hal) as (ss' & Hs & Hm & Hflag & IV' & Hw).
  pose proof (sem_step_free _ _ _ _ Hs) as Hfr. cbn [ss_queues] in Hfr. destruct IV as (q & Hr & _).
  cbn [length Sem_OP_loop]. wp_step. destruct (ready_valid x p W) as [_ Hf]; [rewrite Hr; left |].
  wp_apply (Sem_OP_step_spec _ _ _ _ _ _ _ _ _ _ _ _ _ V Hst Hc Hf Hop Ha); [lia | exact Hs |].
  intros f k1 (-> & V1). unfold after_ops. cbn [spend queues_after]. rewrite Hv.
  rewrite Hflag in V1 |- *. specialize (IV' (kview_awf _ _ _ _ _ V1)). rewrite Hm in V1, IV'.
  eapply wp_use; [eapply (IH _ _ k1 _ _ (addr + VPOP_SIZE) V1 IV') | ].
  - apply (vector_at_insert _ _ _ _ _ (Z.of_nat (length ops))); [lia | lia | unfold VPOP_SIZE; cbn [length] in Hout; lia | done].
  - intros oa Hin. pose proof (Hap oa ltac:(by right)) as Ho. unfold VPOP_SIZE in *. cbn [length] in Ho. lia.
  - exact Hok.
  - intros f k2 (b' & x' & m' & -> & [Rf R2] & R3). exists b', x', m'. split; [done |]. split; [| done].
    split; [by rewrite Rf |]. intros d. rewrite R2. apply queues_after_ext. intros e. apply Hw.
Qed.

(** SYS3 returns to its caller or ends in the dispatcher *)
Lemma Sem_OP_sound (CR : Z -> option Z) k x m c r t p q st ops :
  kview k x m c r -> nuc (CR := CR) n x m c r t -> ready x = p :: q ->
  states r !! 0x930 = Some st -> proper_vector st m ops ->
  let Q := after_ops p m ops x in
  wp (Sem_OP 0x930) k (fun _ => sound_as (CR := spend CR m ops) Q n true) (ends_as (CR := spend CR m ops) Q n).
Proof.
  intros V N Hr Hst (Hlen & Hvec & Hap & Hok) Q. destruct (nuc_printer _ _ _ _ _ _ N) as [d P].
  unfold Sem_OP. wp_step. k_step V. rewrite Hr. simpl head_or. wp_step. k_step V. wp_step. rewrite Hlen, Nat2Z.id.
  wp_apply (Sem_OP_loop_sound st c r t p Hst (ready_head_core _ _ _ _ _ _ _ V Hr) ops CR None k x m _ V ltac:(by exists q) Hvec Hap Hok).
  intros f k1 (b' & x' & m' & -> & HQ & V1 & q' & Hr' & N1). destruct b' as [b0|];
    [rewrite (bool_decide_true (is_Some (Some b0))) in * by by eexists | rewrite (bool_decide_false (is_Some None)) in * by by intros []];
    cbn [flag_Z Z.eqb negb].
  2: { apply wp_ret. eapply sound_intro_as; [exact V1 | exact N1 | by rewrite Hr' | exact HQ]. }
  - destruct N1 as [_ N1]. wp_step. eapply (wp_remove_running _ _ _ _ _ V1). rewrite Hr'. cbn [List.tl]. intros k2 V2.
    eapply wp_mono; [eapply schedule_spec; [exact V2 | by exists d] | by intros |].
    intros e k3 HS. eapply scheduled_ends_as; [| | exact HS]; [| exact HQ].
    by apply nuc_upd; [apply _ |].
Qed.
End vector.

Section safety.
Context `{MachineOk} {CR : Credits} (n : Z) (Hn : n < 2 ^ 31 - 1).

Section state.
Context (k : kernel) (x : absq) (m : gmap Z Z) (c : Z -> option proc_t) (r : kernel) (t : ptree) (p : Z) (q : list Z).
Hypotheses (V : kview k x m c r) (N : nuc n x m c r t) (Hr : ready x = p :: q).

Let W : awf x := kview_awf _ _ _ _ _ V.

Lemma busy_ready : ready x <> [].
Proof. by rewrite Hr. Qed.

Lemma running_core : is_Some (c p).
Proof. eapply ready_head_core; [exact V | exact Hr]. Qed.

(** ** SYS2 and the traps that are passed up *)

Lemma terminate_ends : leaves_with Terminate_Process k (ends n).
Proof.
  destruct (nuc_printer _ _ _ _ _ _ N) as [d P]. pose proof (nu_tree _ _ _ _ _ _ N) as I.
  destruct (nuc_running _ _ _ _ _ _ N W p q Hr) as (Hp & _).
  destruct (decide (p = root t)) as [-> | Hne].
  - eapply wp_mono; [by eapply (terminate_root_final k x m c r d t q) | done |]. by intros e k' [-> _].
  - destruct (subtree_of t p Hp) as (s & Hs & Hroot).
    eapply wp_mono; [by eapply (terminate_child k x m c r d t s p q) | done |].
    intros e k' (c' & I' & Hc' & HS). eapply scheduled_ends; [| exact HS].
    eapply nuc_reap; [exact N | exact W | exact Hn | | exact I' | exact Hc'].
    eapply subtree_nodup; [exact Hs | by eapply ti_nodup].
Qed.

Lemma pass_up_ends a ty st :
  states r !! a = Some st -> 0 <= ty <= 2 -> leaves_with (pass_up a ty) k (ends n).
Proof.
  intros Ha Hty. destruct running_core as [cp Hc].
  destruct (decide ((trap_areas ty cp).2 = ENULL)) as [E | Hne].
  - unfold wp. rewrite (pass_up_none k x m c r p q cp a ty V Hr Hc Hty E). exact terminate_ends.
  - destruct (nu_entries _ _ _ _ _ _ N p cp Hc ty Hne) as [[Ho Hnew] Hs].
    eapply wp_mono; [by eapply (pass_up_spec k x m c r p q cp a ty st) | done |].
    intros e k' (st' & _ & -> & V'). eapply sound_intro; [exact V' | | apply busy_ready].
    apply nuc_upd; [apply _ |]. eapply nuc_same; [| | | | | by eapply nuc_store_state, N]; done.
Qed.

(** ** The system calls that return *)

Lemma area_sys : old_sys_call_state r = 0x930.
Proof. destruct (ao_pointers _ (nu_areas _ _ _ _ _ _ N)) as [E _]. by injection E. Qed.
Lemma sys_not_new b h : (b, h) ∈ all_areas -> 0x930 <> b + STATE_SIZE.
Proof. eapply (old_not_new 0x930 sym_trapsyshandler). right; right; left. Qed.

(** an update of the caller's state *)
Lemma nuc_answer x' m' c' t' st : nuc n x' m' c' r t' -> nuc n x' m' c' (set_states (<[0x930 := st]> (states r)) r) t'.
Proof. apply nuc_store_state. intros b h. apply sys_not_new. Qed.

Lemma create_sound st :
  states r !! 0x930 = Some st -> is_Some (states r !! (s_r st !!! 4%fin)) ->
  wp (Create_Process 0x930) k (fun _ => sound n true) (ends n).
Proof.
  intros Hst [st' Hst']. destruct (nuc_running _ _ _ _ _ _ N W p q Hr) as (Hp & _).
  pose proof (nu_tree _ _ _ _ _ _ N) as I. destruct (free_procs x) as [|u fl] eqn:Hf.
  - wp_apply (create_none k x m c r 0x930 st V Hf Hst). intros _ k' V'.
    eapply sound_intro; [exact V' | by apply nuc_answer | apply busy_ready].
  - wp_apply (create_spec k x m c r t u fl p q 0x930 st st' V I Hf Hr Hp Hst Hst').
    intros _ k' (c' & V' & I' & Hs). eapply sound_intro; [exact V' | | by cbn; rewrite Hr].
    apply nuc_answer. by eapply (nuc_create n x m c c' r t).
Qed.

Lemma specify_sound st :
  states r !! 0x930 = Some st -> proper_areas st (states r) ->
  wp (Specify_Trap_State_Vector 0x930) k (fun _ => sound n true) (ends n).
Proof.
  intros Hst Hok. destruct running_core as [cp Hc].
  destruct (decide (0 <= s_r st !!! 2%fin <= 2)) as [Hty | Hty].
  - destruct (decide ((trap_areas (s_r st !!! 2%fin) cp).1 = ENULL)) as [E | Hne].
    + wp_apply (specify_fresh k x m c r p q cp 0x930 st V Hr Hc Hst Hty E). intros _ k' V'.
      eapply sound_intro; [exact V' | | apply busy_ready]. destruct (Hok Hty) as [Ho Hnew].
      destruct N as [N1 N2 N3 N4 N5 N6 N7 N8 N9]. split; try done.
      * apply tree_inv_upd; [intros pr; unfold set_trap_areas; by repeat case_match; destruct pr | done].
      * intros u cu Hu. unfold upd in Hu. destruct (c u) as [cu0|] eqn:Eu; [| done]. injection Hu as <-.
        pose proof (N8 u cu0 Eu) as Hu0. case_decide; [| done]. intros ty Hne.
        destruct (trap_areas_cases ty (s_r st !!! 2%fin) (s_r st !!! 3%fin) (s_r st !!! 4%fin) cu0) as [E1 | E1];
          rewrite E1 in Hne |- *; [done | by apply Hu0].
    + unfold wp. rewrite (specify_again k x m c r p q cp 0x930 st V Hr Hc Hst Hty Hne).
      pose proof terminate_ends as HT. unfold wp in HT. by destruct (Terminate_Process k).
  - unfold wp. rewrite (specify_other k x m c r p q cp 0x930 st V Hr Hc Hst Hty).
    eapply sound_intro; [exact V | exact N | apply busy_ready].
Qed.

Lemma get_cpu_time_sound st :
  states r !! 0x930 = Some st -> wp (Get_CPU_Time 0x930) k (fun _ => sound n true) (ends n).
Proof.
  intros Hst. destruct running_core as [cp Hc].
  wp_apply (get_cpu_time_spec k x m c r p q cp 0x930 st V Hr Hc Hst). intros _ k' V'.
  eapply sound_intro; [exact V' | by apply nuc_answer | apply busy_ready].
Qed.

(** ** SYS3, SYS7 and SYS8 *)

(** what is left of the invariant's uses when the caller has blocked *)
Lemma blocked_ends a v st e k' :
  m !! a = Some v -> owned a -> v <= 0 ->
  scheduled (abs_block a p (set_ready q x)) (<[a := i32 (v - 1)]> m) (upd p (set_p_s st) c) r e k' -> ends n e k'.
Proof.
  intros Hv Ho Hneg HS. eapply scheduled_ends; [| exact HS]. apply nuc_upd; [apply _ |].
  pose proof (owned_range _ _ _ _ _ _ N W Hn a v Ho Hv) as Hrange.
  eapply nuc_block; [exact N | exact W | exact Hn | exact Hr | exact Hv | by apply owned_vector | | by eapply scheduled_awf |].
  - rewrite i32_id; [lia | unfold in_i32; lia].
  - by eapply recredit_none, owned_credit.
Qed.

Lemma waitforpclock_ends st :
  states r !! 0x930 = Some st -> leaves_with (waitforpclock 0x930) k (ends n).
Proof.
  intros Hst. destruct (nuc_printer _ _ _ _ _ _ N) as [d P].
  destruct (nu_clock _ _ _ _ _ _ N) as (v & Hv & Hrange). pose proof (waiters_length x clock_lock W).
  eapply wp_mono; [eapply (waitforpclock_spec k x m c r d p q 0x930 st v); try done | done |].
  - by eapply nuc_alone.
  - lia.
  - intros e k' HS. eapply (blocked_ends clock_lock v st); [exact Hv | by left | |].
    + lia.
    + rewrite i32_id; [exact HS | unfold in_i32; lia].
Qed.

(** SYS8 on a semaphore above one, which takes one saved completion without giving it *)
Lemma waitforio_passes st v :
  let dev := s_r st !!! 4%fin in
  states r !! 0x930 = Some st -> m !! dev_sem dev = Some v -> 1 < v < 2 ^ 31 -> 0 <= dev < 15 ->
  returns (waitforio 0x930) k (fun _ k' =>
    kview k' x (<[dev_sem dev := i32 (v - 1)]> m) (upd p (set_p_s st) c) r).
Proof.
  intros dev Hst Hv Hrange Hdev. destruct (nuc_printer _ _ _ _ _ _ N) as [d P].
  unfold waitforio. wp_step. k_step V. fold dev. wp_step. k_step V.
  rewrite (proj2 (Z.eqb_neq v 1)) by lia. wp_step. k_step V. wp_step. k_step V. wp_step.
  rewrite Hr. simpl head_or. unfold put_p_s. eapply (wp_update _ _ _ _ _ V); [apply _ | exact running_core |]. intros k1 V1.
  eapply (wp_P _ _ _ _ _ d _ p q v _ _ V1); [done | done | by eapply nuc_alone | by apply dev_sem_ne | done | done |].
  rewrite i32_id by (unfold in_i32; lia). lia.
Qed.

Lemma waitforio_sound st :
  states r !! 0x930 = Some st -> 0 <= s_r st !!! 4%fin < 15 ->
  wp (waitforio 0x930) k (fun _ => sound n true) (ends n).
Proof.
  intros Hst Hdev. destruct (nuc_printer _ _ _ _ _ _ N) as [d P]. set (dev := s_r st !!! 4%fin) in *.
  destruct (nu_devs _ _ _ _ _ _ N dev Hdev) as (v & Hv & Hrange). pose proof (waiters_length x (dev_sem dev) W).
  assert (owned (dev_sem dev)) as Ho by (right; by exists dev).
  assert (in_i32 (v - 1)) as Hi by (unfold in_i32; lia).
  destruct (decide (v = 1)) as [-> | Hne]; [| destruct (decide (v <= 0)) as [Hle | Hgt]].
  - destruct (ao_devs _ (nu_areas _ _ _ _ _ _ N) dev Hdev) as [dr [_ _ [sv Hsv]]].
    wp_apply (waitforio_saved k x m c r 0x930 st sv V Hst Hv Hsv). intros _ k' V'.
    eapply sound_intro; [exact V' | | apply busy_ready]. apply nuc_answer. change 0 with (i32 (1 - 1)).
    eapply nuc_pass; [exact N | exact W | exact Hn | exact Hv | by apply owned_vector | done | by eapply recredit_none, owned_credit].
  - eapply wp_mono; [eapply (waitforio_waits k x m c r d p q 0x930 st v); try done; [by eapply nuc_alone | lia] | done |].
    intros e k' HS. eapply (blocked_ends (dev_sem dev) v st); [exact Hv | done | lia | by rewrite i32_id].
  - wp_apply (waitforio_passes st v Hst Hv); [lia | done |]. intros _ k' V'.
    eapply sound_intro; [exact V' | | apply busy_ready]. apply nuc_upd; [apply _ |].
    eapply nuc_pass; [exact N | exact W | exact Hn | exact Hv | by apply owned_vector | | by eapply recredit_none, owned_credit].
    rewrite i32_id by done. lia.
Qed.

(** ** The system call handler *)

Lemma syscall_sound st :
  states r !! 0x930 = Some st -> in_user_mode st = false -> sys_no (s_tmp st) <> 3 -> proper st (states r) m ->
  wp (syscall (sys_no (s_tmp st)) 0x930) k (fun _ => sound n true) (ends n).
Proof.
  intros Hst Hmode Hno Hok. destruct (Hok Hmode) as (H1 & H3 & H5 & H8). unfold syscall.
  assert (forall (mk : MK unit), leaves_with mk k (ends n) -> wp mk k (fun _ => sound n true) (ends n)) as Hleave
    by (intros mk Hmk; eapply wp_mono; [exact Hmk | by intros | done]).
  repeat match goal with |- context [?a =? ?b] => destruct (Z.eqb_spec a b) end.
  - by apply (create_sound st), H1.
  - by apply Hleave, terminate_ends.
  - done.
  - done.
  - by apply (specify_sound st), H5.
  - by apply (get_cpu_time_sound st).
  - by eapply Hleave, waitforpclock_ends.
  - by apply (waitforio_sound st), H8.
  - eapply Hleave, pass_up_ends; [exact Hst | lia].
Qed.
End state.

(** the views of the parts that are charged *)
Lemma nuc_charged x m c r t p v :
  nuc n x m c r t -> nuc n x m (upd p (charged v) c) (set_readings (S (readings r)) r) t.
Proof. intros N. apply nuc_upd; [apply _ |]. by eapply nuc_same, N. Qed.

Lemma sound_pid x m c r p q k :
  kview k x m c r -> ready x = p :: q -> 0 <= p < MAXPROC.
Proof. intros V Hr. apply (ready_valid x p); [by eapply kview_awf | rewrite Hr; left]. Qed.

Lemma trapsyshandler_ends k x m c r t st :
  kview k x m c r -> nuc n x m c r t -> ready x <> [] -> states r !! 0x930 = Some st ->
  proper st (states r) m -> in_user_mode st = true \/ sys_no (s_tmp st) <> 3 -> leaves_with trapsyshandler k (ends n).
Proof.
  intros V N Hne Hst Hok Hcase. destruct (ready x) as [|p q] eqn:Hr; [done |].
  destruct (running_core k x m c r p q V Hr) as [cp Hc]. pose proof (area_sys x m c r t N) as Ea.
  pose proof (nuc_charged x m c r t p (clk (readings r)) N) as N1.
  destruct (in_user_mode st) eqn:Hmode.
  - eapply trapsys_user; [exact V | exact Hr | by rewrite Hc | by rewrite Ea | exact Hmode |].
    rewrite Ea. intros k1 V1. eapply (pass_up_ends k1); [exact V1 | | exact Hr | cbn; apply lookup_insert_eq | lia].
    exact (nuc_answer _ _ _ _ _ (as_privileged st) N1).
  - destruct Hcase as [Hcase | Hcase]; [done |].
    eapply trapsys_call; [exact V | exact Hr | exact Hc | by rewrite Ea | exact Hmode |]. rewrite Ea. intros k1 V1.
    eapply wp_mono; [by eapply (syscall_sound k1) | | done].
    intros [] k2 HS. eapply sound_resumes; [exact HS | by eapply sound_pid].
Qed.

Lemma trapsyshandler_sem k x m c r t st p q ops :
  kview k x m c r -> nuc n x m c r t -> ready x = p :: q -> states r !! 0x930 = Some st ->
  in_user_mode st = false -> sys_no (s_tmp st) = 3 -> proper_vector st m ops ->
  let Q := after_ops p m ops x in
  leaves_with trapsyshandler k (ends_as (CR := spend CR m ops) Q n).
Proof.
  intros V N Hr Hst Hmode Hno Hok Q. destruct (running_core k x m c r p q V Hr) as [cp Hc].
  pose proof (area_sys x m c r t N) as Ea. pose proof (nuc_charged x m c r t p (clk (readings r)) N) as N1.
  eapply trapsys_call; [exact V | exact Hr | exact Hc | by rewrite Ea | exact Hmode |]. rewrite Ea, Hno. intros k1 V1.
  eapply wp_mono; [by eapply (Sem_OP_sound n Hn CR k1) | | done].
  intros [] k2 HS. eapply (sound_resumes (CR := spend CR m ops)); [exact HS | by eapply sound_pid].
Qed.

(** a trap that is not a call *)
Lemma passed_ends (h : MK unit) a ty k x m c r t p q st :
  kview k x m c r -> nuc n x m c r t -> ready x = p :: q -> states r !! a = Some st -> 0 <= ty <= 2 ->
  (forall X, (forall k1, kview k1 x m (upd p (charged (clk (readings r))) c) (set_readings (S (readings r)) r) ->
     leaves_with (pass_up a ty) k1 X) -> leaves_with h k X) ->
  leaves_with h k (ends n).
Proof.
  intros V N Hr Hst Hty Hh. apply Hh. intros k1 V1.
  eapply (pass_up_ends k1); [exact V1 | by apply nuc_charged | exact Hr | exact Hst | exact Hty].
Qed.

Lemma trapmmhandler_ends k x m c r t st :
  kview k x m c r -> nuc n x m c r t -> ready x <> [] -> states r !! 0x898 = Some st ->
  leaves_with trapmmhandler k (ends n).
Proof.
  intros V N Hne Hst. destruct (ready x) as [|p q] eqn:Hr; [done |].
  eapply (passed_ends _ 0x898 1); [exact V | exact N | exact Hr | exact Hst | lia |]. intros X HX.
  eapply trapmm_passes; [exact V | exact Hr | by eapply running_core |].
  destruct (ao_pointers _ (nu_areas _ _ _ _ _ _ N)) as [E _]. injection E as _ -> _. exact HX.
Qed.

Lemma trapproghandler_ends k x m c r t st :
  kview k x m c r -> nuc n x m c r t -> ready x <> [] -> states r !! 0x800 = Some st ->
  leaves_with trapproghandler k (ends n).
Proof.
  intros V N Hne Hst. destruct (ready x) as [|p q] eqn:Hr; [done |].
  eapply (passed_ends _ 0x800 0); [exact V | exact N | exact Hr | exact Hst | lia |]. intros X HX.
  eapply trapprog_passes; [exact V | exact Hr | by eapply running_core |].
  destruct (ao_pointers _ (nu_areas _ _ _ _ _ _ N)) as [E _]. injection E as -> _ _. exact HX.
Qed.

(** ** The interrupt handlers *)

(** the state after [inthandler]; at most one more completion is saved *)
Lemma interrupted_nuc pos dr v x m c r t k' :
  nuc n x m c r t -> awf x -> 0 <= pos < 15 -> m !! dev_sem pos = Some v ->
  (v = -1 -> waiters (dev_sem pos) (blocked x) <> []) ->
  interrupted pos dr v x m c r k' -> exists x' m' c' r',
    kview k' x' m' c' r' /\ nuc (n + 1) x' m' c' r' t /\ (ready x' = [] -> ready x = []).
Proof.
  intros N W Hpos Hv Hwait HI. unfold interrupted in HI. assert (owned (dev_sem pos)) as Ho by (right; by exists pos).
  destruct (Z.eqb_spec v (-1)) as [-> | Hne].
  - eexists _, _, _, _. split; [exact HI |]. split; [| apply abs_V_ready]. apply nuc_upd; [apply _ |].
    apply (nuc_le n); [lia |]. eapply nuc_V_owned; [exact N | exact W | exact Hn | exact Hv | done | lia | by apply Hwait | by eapply kview_awf].
  - eexists _, _, _, _. split; [exact HI |]. split; [| done]. apply nuc_save. by apply nuc_interrupt.
Qed.

(** a device semaphore of -1 has a waiter *)
Lemma counted_waiter k a x m : counted k a x m -> m !! a = Some (-1) -> waiters a (blocked x) <> [].
Proof. intros (v & Hv & Hr) Hv' E. rewrite E in Hr. simplify_eq. cbn in Hr. lia. Qed.
End safety.

Section interrupts.
Context `{MachineOk} {CR : Credits} (n : Z) (Hn : n + 1 < 2 ^ 31 - 1).

Lemma device_handler_ends type old k x m c r t st :
  kview k x m c r -> nuc n x m c r t -> states r !! old k = Some st ->
  0 <= dev_pos type (in_dno (s_tmp st)) < 15 ->
  leaves_with (device_handler type old) k (ends (n + 1)).
Proof.
  intros V N Hst Hpos. set (pos := dev_pos type (in_dno (s_tmp st))) in *. pose proof (kview_awf _ _ _ _ _ V) as W.
  destruct (ao_devs _ (nu_areas _ _ _ _ _ _ N) pos Hpos) as [dr D]. destruct (nuc_printer _ _ _ _ _ _ N) as [d P].
  pose proof (nu_devs _ _ _ _ _ _ N pos Hpos) as HC. pose proof HC as (v & Hv & _).
  assert (v = -1 -> waiters (dev_sem pos) (blocked x) <> []) as Hwait by (intros ->; by eapply counted_waiter).
  assert (n < 2 ^ 31 - 1) as Hn0 by lia.
  destruct (ready x) as [|p q] eqn:Hr.
  - eapply wp_mono; [by eapply (device_handler_idle k x m c r type old st dr v d) | done |]. fold pos.
    intros e k' HS. cbv zeta in HS. destruct (Z.eqb_spec v (-1)) as [-> | Hne].
    + eapply (scheduled_ends _ _ _ _ _ t); [| exact HS]. apply nuc_upd; [apply _ |]. apply (nuc_le n); [lia |].
      eapply nuc_V_owned; [exact N | exact W | exact Hn0 | exact Hv | | lia | by apply Hwait | by eapply scheduled_awf].
      right. by exists pos.
    + eapply (scheduled_ends _ _ _ _ _ t); [| exact HS]. apply nuc_save. by apply nuc_interrupt.
  - eapply wp_mono; [by eapply (device_handler_running k x m c r type old st dr v p q) | done |]. fold pos.
    intros e k' [-> HI]. destruct (interrupted_nuc n Hn0 pos dr v x m c r t k' N W Hpos Hv Hwait HI) as (x' & m' & c' & r' & V' & N' & Hr').
    eapply sound_intro; [exact V' | exact N' |]. intros E. apply Hr' in E. by rewrite Hr in E.
Qed.

(** the second part of the clock interrupt *)
Lemma tick_nuc cnt v x m c r t :
  nuc n x m c r t -> awf x -> m !! clock_lock = Some v -> awf (tick_queues cnt v x) ->
  nuc n (tick_queues cnt v x) (tick_mem cnt v x m) c r t.
Proof.
  intros N W Hv W'. unfold tick_queues, tick_mem in *. destruct (clock_due cnt x) eqn:E; [| done].
  apply andb_true_iff in E as [_ E]. apply negb_true_iff, bool_decide_eq_false in E.
  assert (owned clock_lock) as Ho by by left. destruct (nu_clock _ _ _ _ _ _ N) as (v' & Hv' & Hr). simplify_eq.
  apply nuc_V_owned; [exact N | exact W | lia | exact Hv | done | | done | exact W'].
  destruct (waiters clock_lock (blocked x)); [done |]. cbn in Hr. lia.
Qed.

Lemma intclockhandler_ends k x m c r t st :
  kview k x m c r -> nuc n x m c r t -> states r !! 0xc28 = Some st ->
  leaves_with intclockhandler k (ends (n + 1)).
Proof.
  intros V N Hst. pose proof (kview_awf _ _ _ _ _ V) as W. destruct (nuc_printer _ _ _ _ _ _ N) as [d P].
  destruct (nu_clock _ _ _ _ _ _ N) as (v & Hv & _). destruct (ready x) as [|p q] eqn:Hr.
  - eapply wp_mono; [by eapply (intclockhandler_idle k x m c r d v) | done |].
    cbv zeta. intros e k' HS. eapply (scheduled_ends _ _ _ _ _ t); [| exact HS]. apply (nuc_le n); [lia |].
    apply tick_nuc; [by eapply nuc_same, N | exact W | exact Hv | by eapply scheduled_awf].
  - destruct (ao_pointers _ (nu_areas _ _ _ _ _ _ N)) as [_ E]. injection E as _ _ _ _ Ec.
    eapply wp_mono; [eapply (intclockhandler_running k x m c r d p q st v V P Hr); [by eapply nuc_alone | by rewrite Ec | exact Hv] | done |].
    cbv zeta. intros e k' HS. eapply (scheduled_ends _ _ _ _ _ t); [| exact HS]. apply (nuc_le n); [lia |].
    assert (q ++ [p] ≡ₚ ready x) as Hperm by (rewrite Hr; symmetry; apply Permutation_cons_append).
    apply tick_nuc; [| by apply awf_permute | exact Hv | by eapply scheduled_awf].
    apply nuc_upd; [apply _ |]. apply nuc_rotate; [exact Hperm | exact W |]. by eapply nuc_same, N.
Qed.

(** the end of a quantum: the next process runs *)
Lemma clock_turn k x m c r t st p q :
  kview k x m c r -> nuc n x m c r t -> states r !! 0xc28 = Some st -> ready x = p :: q ->
  leaves_with intclockhandler k (fun e k' => exists x' m' c' r' w,
    kview k' x' m' c' r' /\ nuc n x' m' c' r' t /\ ready x' = q ++ p :: w /\
    exists cp, c' (head_or (ready x')) = Some cp /\ e = Leave (LDST (p_s cp))).
Proof.
  intros V N Hst Hr. pose proof (kview_awf _ _ _ _ _ V) as W. destruct (nuc_printer _ _ _ _ _ _ N) as [d P].
  destruct (nu_clock _ _ _ _ _ _ N) as (v & Hv & _).
  destruct (ao_pointers _ (nu_areas _ _ _ _ _ _ N)) as [_ E]. injection E as _ _ _ _ Ec.
  eapply wp_mono; [eapply (intclockhandler_running k x m c r d p q st v V P Hr); [by eapply nuc_alone | by rewrite Ec | exact Hv] | done |].
  cbv zeta. intros e k' HS. set (cnt := i32 (clock_count r + quantum)) in *.
  assert (q ++ [p] ≡ₚ ready x) as Hperm by (rewrite Hr; symmetry; apply Permutation_cons_append).
  set (x1 := set_ready (q ++ [p]) x) in *.
  assert (exists w, ready (tick_queues cnt v x1) = q ++ p :: w) as [w Hw].
  { unfold tick_queues, abs_V, abs_wake. repeat case_match; cbn; eauto.
    exists [head_or (waiters clock_lock (blocked x))]. by rewrite <- app_assoc. }
  pose proof (scheduled_awf _ _ _ _ _ _ HS) as W2. unfold scheduled in HS.
  destruct (ready (tick_queues cnt v x1)) as [|u l] eqn:Hu; [by destruct q |].
  destruct HS as (cp & Hc & -> & V'). eexists _, _, _, _, w. split; [exact V' |]. split; [| split; [by rewrite Hu |]].
  - apply nuc_upd; [apply _ |]. eapply (nuc_same _ _ _ _ (set_clock_count (tick_count cnt) (set_readings (S (readings r)) r))); [done | done | done | done | done |].
    apply tick_nuc; [| by apply awf_permute | exact Hv | exact W2].
    apply nuc_upd; [apply _ |]. apply nuc_rotate; [exact Hperm | exact W |]. by eapply nuc_same, N.
  - rewrite Hu. change (head_or (u :: l)) with u. rewrite upd_eq, Hc. eexists. split; [done |]. by destruct cp.
Qed.
End interrupts.
