(* ===== verification/Example.v ===== *)
(** * A concrete machine

    An instance of the linker's and the hardware's part and an initial memory, on
    which the nucleus can be run; the witnesses of the properties use it. *)

From S2P Require Export Syscall.
Local Open Scope kernel_scope.

Definition code_of (f : symbol) : Z :=
  match f with
  | STLDMM => 0x10000 | STLDADDRESS => 0x10100 | STLDILLEGAL => 0x10200 | STLDZERO => 0x10300
  | STLDPRIVILEGE => 0x10400 | STLDSYS => 0x10500 | STLDSYS9 => 0x10600 | STLDSYS10 => 0x10700
  | STLDSYS11 => 0x10800 | STLDSYS12 => 0x10900 | STLDSYS13 => 0x10a00 | STLDSYS14 => 0x10b00
  | STLDSYS15 => 0x10c00 | STLDSYS16 => 0x10d00 | STLDSYS17 => 0x10e00 | STLDTERM0 => 0x10f00
  | STLDTERM1 => 0x11000 | STLDTERM2 => 0x11100 | STLDTERM3 => 0x11200 | STLDTERM4 => 0x11300
  | STLDPRINT0 => 0x11400 | STLDDISK0 => 0x11500 | STLDFLOPPY0 => 0x11600 | STLDCLOCK => 0x11700
  | sym_trapproghandler => 0x12000 | sym_trapmmhandler => 0x12100 | sym_trapsyshandler => 0x12200
  | sym_intterminalhandler => 0x12300 | sym_intprinterhandler => 0x12400
  | sym_intdiskhandler => 0x12500 | sym_intfloppyhandler => 0x12600
  | sym_intclockhandler => 0x12700 | sym_p1 => 0x13000
  end.

(** the clock advances by one at each reading; the printer is ready at the third *)
#[export] Instance machine0 : Machine := {|
  sym := code_of; addr_dev_sem := 0x2000; addr_clock_lock := 0x2100; addr_message := 0x2200;
  clk := fun n => Z.of_nat n;
  stst := fun n => set_sp 0x40000 (set_sr (set_ps_s 1 sr0) state0);
  prn_stat := fun n => if (n <? 3)%nat then 15 else NORMAL;
  poll_fuel := 10 |}.

Definition cells (base n : Z) : list (Z * Z) := (fun i => (base + 4 * i, 0)) <$> seqZ 0 n.

(** low memory, the nucleus's semaphores, and 64 words of user memory at 0x5000 *)
Definition ints0 : gmap Z Z :=
  list_to_map (cells 0 88 ++ cells 0x2000 15 ++ cells 0x2100 1 ++ cells 0x5000 64).

(** the old and new areas, and four states of user memory at 0x6000 *)
Definition states0 : gmap Z state_t :=
  list_to_map (((fun i => (0x800 + 76 * i, state0)) <$> seqZ 0 16) ++
               ((fun i => (0x6000 + 76 * i, set_sr (set_ps_s 1 sr0) state0)) <$> seqZ 0 4)).

Definition devregs0 : gmap Z devreg_t :=
  list_to_map ((fun i => (0x1400 + 16 * i, mk_devreg 0 i 0 (100 + i))) <$> seqZ 0 15).

Definition kernel0 : kernel :=
  mk_kernel (asl0 ints0) (mk_link 0 0) state0 0 0 0 0 0 0 0 0 (mk_array 15 0)
    (mk_array 15 (mk_saved 0 0)) 0 states0 devregs0 ∅ 0 0 0.

(** the state and the way a run ended *)
Definition final {A} (r : result exn kernel A) : kernel :=
  match r with Ret _ k => k | Exn _ k => k end.
Definition outcome {A} (r : result exn kernel A) : option exn :=
  match r with Ret _ _ => None | Exn e _ => Some e end.

Definition booted : kernel := final (main kernel0).

(** a trap or interrupt with the old area at [a]: the stub stores the state *)
Definition enter (a : Z) (st : state_t) (k : kernel) : kernel := set_states (<[a := st]> (states k)) k.

(** the running process as it was dispatched, with registers d2-d4 set and the
    temporary word [t] *)
Definition call (t d2 d3 d4 : Z) (st : state_t) : state_t :=
  set_tmp t (set_reg 2%fin d2 (set_reg 3%fin d3 (set_reg 4%fin d4 st))).

Definition supervisor : state_t := set_sr (set_ps_s 1 sr0) state0.
