(* ===== verification/Fixtures.v ===== *)
(** * Concrete states of the nucleus

    A scenario on the machine of [Example.v]: the nucleus boots, the first process
    creates two others, and one of these creates a fourth.  The states it passes
    through are the ones the witnesses use. *)

From S2P Require Export Example Alive Boot.
Local Open Scope kernel_scope.

#[export] Instance machine0_ok : MachineOk.
Proof. split; [done | done |]. intros i Hi E. change (0x2100 = 0x2000 + 4 * i) in E. lia. Qed.

(** the view of a state, its parts read off the state *)
Definition view (k : kernel) (x : absq) : Prop :=
  kview k x (ints (k_asl k)) (pcore (a_pq (k_asl k))) (krest k).

Lemma kview_view k x m c r : kview k x m c r -> view k x.
Proof. intros [V1 V2 V3 V4]. split; done. Qed.

(** the state has the queues [x] and the processes [t] *)
Definition in_state (k : kernel) (x : absq) (t : ptree) : Prop :=
  view k x /\ tree_inv x (ints (k_asl k)) (pcore (a_pq (k_asl k))) t.

Lemma in_state_intro k x m c r t : kview k x m c r -> tree_inv x m c t -> in_state k x t.
Proof.
  intros V I. split; [by eapply kview_view |]. destruct V as [_ <- Hc _].
  eapply tree_inv_links; [| exact I]. intros q. unfold links. by rewrite Hc.
Qed.

Lemma returns_final {A} (m : MK A) k Q : returns m k Q -> exists a, Q a (final (m k)).
Proof. unfold wp. destruct (m k); [eauto | tauto]. Qed.
Lemma leaves_final {A} (m : MK A) k X : leaves_with m k X -> exists e, X e (final (m k)).
Proof. unfold wp. destruct (m k); [tauto | eauto]. Qed.

(** ** Boot *)

Lemma procq0_pwf : pwf procq0.
Proof.
  split; unfold cell, semv; change (proc_table procq0) with (mk_array 20 proc0).
  - intros p. apply mk_array_is_Some.
  - intros n. rewrite mk_array_lookup. unfold valid_link, MAXPROC, SEMMAX. case_decide; cbn [mbind option_bind].
    + change (p_link proc0) with (mk_array 10 (mk_link 0 0)). rewrite mk_array_is_Some. tauto.
    + split; [by intros [] | tauto].
  - intros p i. rewrite mk_array_lookup. unfold MAXPROC, SEMMAX. case_decide; cbn [mbind option_bind].
    + change (semvec proc0) with (mk_array 10 0). rewrite mk_array_is_Some. tauto.
    + split; [by intros [] | tauto].
Qed.

Lemma asl0_semds ints : semd_dom (asl0 ints).
Proof. intros d. change (semd_table (asl0 ints)) with (mk_array 20 semd0). apply mk_array_is_Some. Qed.

Lemma kernel0_loaded : loaded kernel0.
Proof.
  split.
  - apply procq0_pwf.
  - apply asl0_semds.
  - intros a f Hin. assert (Forall (fun af => is_Some (ints0 !! af.1)) trap_vectors) as Hall.
    { apply (bool_decide_unpack _). vm_compute. exact I. }
    rewrite Forall_forall in Hall. by apply (Hall (a, f)).
  - vm_compute. eauto.
  - intros i Hi. assert (Forall (fun i => is_Some (ints0 !! dev_sem i) /\ is_Some (dev_arr kernel0 !! i)) (seqZ 0 15)) as Hall.
    { apply (bool_decide_unpack _). vm_compute. exact I. }
    rewrite Forall_forall in Hall. apply Hall, elem_of_seqZ. lia.
  - intros a h Hin. assert (Forall (fun ah => is_Some (states0 !! (ah.1 + STATE_SIZE))) all_areas) as Hall.
    { apply (bool_decide_unpack _). vm_compute. exact I. }
    rewrite Forall_forall in Hall. by apply (Hall (a, h)).
Qed.

(** ** The scenario *)

Lemma view_enter a st k x : view k x -> view (enter a st k) x.
Proof. intros V. unfold view. by apply (kview_rest _ _ _ _ _ V (fun k' => enter a st k')). Qed.

Lemma in_state_enter a st k x t : in_state k x t -> in_state (enter a st k) x t.
Proof. intros [V I]. split; [by apply view_enter | done]. Qed.

(** the system call [n] with [d4] = [a] *)
Definition sys (n a : Z) : state_t := call n 0 0 a supervisor.

Definition k1 : kernel := final (main kernel0).
Definition k1' : kernel := enter 0x930 (sys 1 0x6000) k1.
Definition k2 : kernel := final (Create_Process 0x930 k1').
Definition k2' : kernel := enter 0x930 (sys 1 0x6000) k2.
Definition k3 : kernel := final (Create_Process 0x930 k2').
Definition k3' : kernel := enter 0xc28 supervisor k3.
Definition k4 : kernel := final (intclockhandler k3').
Definition k4' : kernel := enter 0x930 (sys 1 0x604c) k4.
Definition k5 : kernel := final (Create_Process 0x930 k4').
Definition k5' : kernel := enter 0x930 (sys 8 3) k5.
Definition k6 : kernel := final (waitforio 0x930 k5').

(** process 0 runs *)
Lemma k1_state : in_state k1 (mk_absq (seqZ 1 19) [0] []) (Node 0 []).
Proof.
  destruct (leaves_final _ _ _ (main_spec kernel0 kernel0_loaded)) as (e & m & r & c & cp & _ & Ec & _ & _ & HD).
  destruct HD as (cp' & _ & _ & V). eapply in_state_intro; [exact V |]. rewrite Ec.
  do 2 (apply tree_inv_upd; [by intros [] |]). apply tree_inv_first, kernel0_loaded.
Qed.

(** a creation on concrete states *)
Lemma create_state k x t p n fl q st st' :
  in_state k x t -> free_procs x = n :: fl -> ready x = p :: q -> p ∈ nodes t ->
  states k !! 0x930 = Some st -> states k !! (s_r st !!! 4%fin) = Some st' ->
  in_state (final (Create_Process 0x930 k)) (created n fl x) (add_child p n t).
Proof.
  intros [V I] Hf Hr Hp Hst Hst'.
  destruct (returns_final _ _ _ (create_spec _ _ _ _ _ t n fl p q 0x930 st st' V I Hf Hr Hp Hst Hst')) as (_ & c' & V' & I' & _).
  by eapply in_state_intro.
Qed.

Lemma k2_state : in_state k2 (mk_absq (seqZ 2 18) [0; 1] []) (Node 0 [Node 1 []]).
Proof.
  eapply (create_state k1' _ _ 0 1 (seqZ 2 18) [] (sys 1 0x6000) supervisor (in_state_enter _ _ _ _ _ k1_state));
    [done | done | left | vm_compute; reflexivity | vm_compute; reflexivity].
Qed.

Lemma k3_state : in_state k3 (mk_absq (seqZ 3 17) [0; 1; 2] []) (Node 0 [Node 1 []; Node 2 []]).
Proof.
  eapply (create_state k2' _ _ 0 2 (seqZ 3 17) [1] (sys 1 0x6000) supervisor (in_state_enter _ _ _ _ _ k2_state));
    [done | done | left | vm_compute; reflexivity | vm_compute; reflexivity].
Qed.

Lemma printer_check k : dev_arr k !! 5 = Some 0x1450 -> is_Some (devregs k !! 0x1450) -> printer_ok (krest k) 0x1450.
Proof. intros H1 H2. split; [done | done |]. exists 3%nat. split; [| done]. apply Nat.ltb_lt. reflexivity. Qed.

(** the state after a dispatch *)
Lemma scheduled_state x m c r e k t :
  scheduled x m c r e k -> ready x <> [] -> tree_inv x m c t -> in_state k x t.
Proof.
  unfold scheduled. destruct (ready x); [done |]. intros (cp & _ & _ & V) _ I.
  eapply in_state_intro; [exact V |]. apply tree_inv_upd; [by intros [] | done].
Qed.

(** the clock moves process 0 to the tail *)
Lemma k4_state : in_state k4 (mk_absq (seqZ 3 17) [1; 2; 0] []) (Node 0 [Node 1 []; Node 2 []]).
Proof.
  pose proof (in_state_enter 0xc28 supervisor _ _ _ k3_state : in_state k3' _ _) as [V I].
  assert (printer_ok (krest k3') 0x1450) as P by (apply printer_check; vm_compute; eauto).
  pose proof (intclockhandler_running k3' _ _ _ _ 0x1450 0 [1; 2] supervisor 0 V P eq_refl
    ltac:(vm_compute; reflexivity) ltac:(vm_compute; reflexivity) ltac:(vm_compute; reflexivity)) as HR.
  cbv zeta in HR. apply leaves_final in HR as (e & HS).
  replace (i32 (clock_count (krest k3') + quantum)) with 5000 in HS by (vm_compute; reflexivity).
  change (tick_queues 5000 0 _) with (mk_absq (seqZ 3 17) [1; 2; 0] []) in HS.
  change (tick_mem 5000 0 _ ?m) with m in HS.
  eapply scheduled_state; [exact HS | done |].
  apply tree_inv_upd; [by intros [] |]. eapply tree_inv_queues; [| | | | exact I]; [by eapply kview_awf | exact (scheduled_awf _ _ _ _ _ _ HS) | done |].
  intros p. apply (lives_requeue p (mk_absq (seqZ 3 17) [0; 1; 2] []) _ 0 [1; 2] eq_refl).
Qed.

Lemma k5_state : in_state k5 (mk_absq (seqZ 4 16) [1; 2; 0; 3] []) (Node 0 [Node 1 [Node 3 []]; Node 2 []]).
Proof.
  eapply (create_state k4' _ _ 1 3 (seqZ 4 16) [2; 0] (sys 1 0x604c) supervisor (in_state_enter _ _ _ _ _ k4_state));
    [done | done | right; left | vm_compute; reflexivity | vm_compute; reflexivity].
Qed.

(** process 1 waits for terminal 3 *)
Lemma k6_state : in_state k6 (mk_absq (seqZ 4 16) [2; 0; 3] [(dev_sem 3, [1])]) (Node 0 [Node 1 [Node 3 []]; Node 2 []]).
Proof.
  pose proof (in_state_enter 0x930 (sys 8 3) _ _ _ k5_state : in_state k5' _ _) as [V I].
  assert (printer_ok (krest k5') 0x1450) as P by (apply printer_check; vm_compute; eauto).
  pose proof (waitforio_waits k5' _ _ _ _ 0x1450 1 [2; 0; 3] 0x930 (sys 8 3) 0 V P eq_refl
    ltac:(vm_compute; reflexivity) ltac:(vm_compute; split; congruence) ltac:(vm_compute; reflexivity)
    ltac:(vm_compute; reflexivity) ltac:(lia)) as HR.
  cbv zeta in HR. apply leaves_final in HR as (e & HS).
  change (s_r (sys 8 3) !!! 4%fin) with 3 in HS.
  change (abs_block (dev_sem 3) 1 _) with (mk_absq (seqZ 4 16) [2; 0; 3] [(dev_sem 3, [1])]) in HS.
  eapply scheduled_state; [exact HS | done |]. apply tree_inv_upd; [by intros [] |].
  eapply (tree_inv_queues _ _ _ _ _ _ (kview_awf _ _ _ _ _ V)); [ | done | | exact I].
  - exact (scheduled_awf _ _ _ _ _ _ HS).
  - intros p L. eapply lives_cells; [apply same_cells_insert |].
    eapply (lives_block p (mk_absq (seqZ 4 16) [1; 2; 0; 3] []) _ (dev_sem 3) 1 [2; 0; 3]); [done | | | | | done].
    + by apply (bool_decide_unpack _).
    + intros b. apply not_elem_of_nil.
    + vm_compute. eauto.
    + right. simpl. lia.
Qed.

(** every entry is used *)
Fixpoint fill (n : nat) : MK unit :=
  match n with
  | O => ret tt
  | S n' => let! p := pq_ allocProc in insert_running p ;; fill n'
  end.

Lemma fill_view m c r n : forall k fl rd,
  kview k (mk_absq fl rd []) m c r -> (n <= length fl)%nat ->
  returns (fill n) k (fun _ k' => kview k' (mk_absq (drop n fl) (rd ++ take n fl) []) m c r).
Proof.
  induction n as [|n IH]; intros k fl rd V Hn; cbn [fill].
  - apply wp_ret. by rewrite take_0, app_nil_r.
  - destruct fl as [|p fl]; [simpl in Hn; lia |]. simpl in Hn. pose proof (kview_awf _ _ _ _ _ V) as W.
    assert (p ∈ free_procs (mk_absq (p :: fl) rd [])) as Hp by left.
    destruct (free_idle _ p W Hp) as [Hr _]. pose proof (aw_free _ W) as [Hpf _]%NoDup_cons.
    wp_step. eapply (wp_alloc _ _ _ _ _ V); [done |]. intros p' fl' [= <- <-] k1 V1. wp_step.
    eapply (wp_insert_running _ _ _ _ _ V1); [by apply (aw_free_valid _ W) | done | done | |].
    { rewrite (proj2 (in_queues_zero p _)); [lia |]. split; [done | by intros q ?%elem_of_nil]. }
    intros k2 V2. eapply wp_mono; [apply (IH k2 fl (rd ++ [p])); [exact V2 | lia] | | done].
    intros [] k3 V3. by rewrite <- app_assoc in V3.
Qed.

Definition kfull : kernel := enter 0x930 (sys 1 0x6000) (final (fill 19 k1)).

Lemma kfull_view : view kfull (mk_absq [] (seqZ 0 20) []).
Proof.
  destruct k1_state as [V _].
  assert (19 <= length (seqZ 1 19))%nat as Hlen by (vm_compute; lia).
  pose proof (fill_view (ints (k_asl k1)) (pcore (a_pq (k_asl k1))) (krest k1) 19 k1 (seqZ 1 19) [0] V Hlen) as HR.
  apply returns_final in HR as (_ & V').
  change (drop 19 (seqZ 1 19)) with (@nil Z) in V'. change ([0] ++ take 19 (seqZ 1 19)) with (seqZ 0 20) in V'.
  exact (view_enter _ _ _ _ (kview_view _ _ _ _ _ V')).
Qed.

(** a view after a dispatch *)
Lemma scheduled_view x m c r e k : scheduled x m c r e k -> view k x.
Proof.
  unfold scheduled. destruct (ready x).
  - intros (r' & V)%idle_kview. by eapply kview_view.
  - intros (cp & _ & _ & V). by eapply kview_view.
Qed.

Lemma view_clock_count n k x : view k x -> view (set_clock_count n k) x.
Proof. intros V. unfold view. by apply (kview_rest _ _ _ _ _ V (set_clock_count n)). Qed.

(** process 1 waits for the pseudo-clock, whose period is about to end *)
Definition k5c : kernel := enter 0x930 (sys 7 0) k5.
Definition k7 : kernel := final (waitforpclock 0x930 k5c).
Definition k7' : kernel := enter 0xc28 supervisor (set_clock_count 95000 k7).

Lemma k7_view : view k7' (mk_absq (seqZ 4 16) [2; 0; 3] [(clock_lock, [1])]).
Proof.
  pose proof (in_state_enter 0x930 (sys 7 0) _ _ _ k5_state : in_state k5c _ _) as [V I].
  assert (printer_ok (krest k5c) 0x1450) as P by (apply printer_check; vm_compute; eauto).
  pose proof (waitforpclock_spec k5c _ _ _ _ 0x1450 1 [2; 0; 3] 0x930 (sys 7 0) 0 V P eq_refl
    ltac:(vm_compute; reflexivity) ltac:(vm_compute; reflexivity) ltac:(vm_compute; reflexivity) ltac:(lia)) as HR.
  apply leaves_final in HR as (e & HS).
  change (abs_block clock_lock 1 _) with (mk_absq (seqZ 4 16) [2; 0; 3] [(clock_lock, [1])]) in HS.
  exact (view_enter _ _ _ _ (view_clock_count 95000 _ _ (scheduled_view _ _ _ _ _ _ HS))).
Qed.

(** the only process waits for terminal 3: none is ready *)
Definition k1w : kernel := enter 0x930 (sys 8 3) k1.
Definition k8 : kernel := final (waitforio 0x930 k1w).

Lemma k8_view : view k8 (mk_absq (seqZ 1 19) [] [(dev_sem 3, [0])]).
Proof.
  pose proof (in_state_enter 0x930 (sys 8 3) _ _ _ k1_state : in_state k1w _ _) as [V I].
  assert (printer_ok (krest k1w) 0x1450) as P by (apply printer_check; vm_compute; eauto).
  pose proof (waitforio_waits k1w _ _ _ _ 0x1450 0 [] 0x930 (sys 8 3) 0 V P eq_refl
    ltac:(vm_compute; reflexivity) ltac:(vm_compute; split; congruence) ltac:(vm_compute; reflexivity)
    ltac:(vm_compute; reflexivity) ltac:(lia)) as HR.
  cbv zeta in HR. apply leaves_final in HR as (e & HS). change (s_r (sys 8 3) !!! 4%fin) with 3 in HS.
  change (abs_block (dev_sem 3) 0 _) with (mk_absq (seqZ 1 19) [] [(dev_sem 3, [0])]) in HS.
  exact (scheduled_view _ _ _ _ _ _ HS).
Qed.

(** *** User memory and more waiters *)

(** the words [l] of memory are set *)
Fixpoint pokes (l : list (Z * Z)) : MK unit :=
  match l with
  | [] => ret tt
  | (a, v) :: l' => asl_ (store a v) ;; pokes l'
  end.

Lemma pokes_view l : forall k x,
  view k x -> Forall (fun av => is_Some (ints (k_asl k) !! av.1)) l -> view (final (pokes l k)) x.
Proof.
  induction l as [|[a v] l IH]; intros k x V Hl; [done |]. apply Forall_cons in Hl as [Ha Hl].
  assert (returns (asl_ (store a v)) k (fun _ k' =>
    kview k' x (<[a := v]> (ints (k_asl k))) (pcore (a_pq (k_asl k))) (krest k))) as HR
    by by eapply (wp_kstore _ _ _ _ _ V).
  cbn [pokes]. unfold bind. apply returns_inv in HR as ([] & k' & E & V'). rewrite E. apply IH.
  - by eapply kview_view.
  - rewrite (kv_mem _ _ _ _ _ V'). eapply Forall_impl; [exact Hl |]. intros [b w] Hb. simpl in *.
    rewrite lookup_insert. by case_decide.
Qed.

(** the processes [ps], given with a semaphore, block *)
Fixpoint blocks (l : list (Z * Z)) : MK unit :=
  match l with
  | [] => ret tt
  | (a, p) :: l' => let! b := asl_ (insertBlocked a p) in blocks l'
  end.

Definition can_block (a p : Z) (x : absq) : bool :=
  bool_decide (0 <= p < MAXPROC /\ a <> ENULL /\ p ∉ free_procs x /\ p ∉ waiters a (blocked x) /\
    (in_queues p x < 10)%nat /\ (length (blocked x) < 20)%nat).

Fixpoint blocks_abs (l : list (Z * Z)) (x : absq) : option absq :=
  match l with
  | [] => Some x
  | (a, p) :: l' => if can_block a p x then blocks_abs l' (set_blocked (suspend a p (blocked x)) x) else None
  end.

Lemma blocks_view l : forall k x x', view k x -> blocks_abs l x = Some x' -> view (final (blocks l k)) x'.
Proof.
  induction l as [|[a p] l IH]; intros k x x' V; cbn [blocks blocks_abs]; [by intros [= <-] |].
  destruct (can_block a p x) eqn:E; [| done]. apply bool_decide_eq_true in E as (H1 & H2 & H3 & H4 & H5 & H6).
  intros Hx'.
  assert (returns (asl_ (insertBlocked a p)) k (fun _ k' => view k' (set_blocked (suspend a p (blocked x)) x))) as HR.
  { eapply (wp_insertBlocked _ _ _ _ _ V); [done | done | done | done | done | intros _ H20; lia |].
    intros _ k' V'. by eapply kview_view. }
  unfold bind. apply returns_inv in HR as (b & k' & E & V'). rewrite E. by eapply IH.
Qed.

(** process 0 is about to execute SYS3 with a vector at 0x5010 *)
Definition sem_call (n : Z) : state_t := call 3 0 n 0x5010 supervisor.
Definition k3p : kernel := enter 0x930 (sem_call 1) (final (pokes [(0x5010, LOCK); (0x5014, 0x5000)] k3)).
Definition ss3p : sem_state :=
  mk_ss (mk_absq (seqZ 3 17) [0; 1; 2] [(0x5000, [0])]) (<[0x5000 := -1]> (ints (k_asl k3p))) true.
Definition k3pv : kernel := enter 0x930 (sem_call 2)
  (final (pokes [(0x5010, LOCK); (0x5014, 0x5000); (0x5018, UNLOCK); (0x501c, 0x5000)] k3)).

Lemma k3p_view : view k3p (mk_absq (seqZ 3 17) [0; 1; 2] []).
Proof.
  apply view_enter, pokes_view; [exact (proj1 k3_state) |]. apply (bool_decide_unpack _). vm_compute. exact I.
Qed.
Lemma k3pv_view : view k3pv (mk_absq (seqZ 3 17) [0; 1; 2] []).
Proof.
  apply view_enter, pokes_view; [exact (proj1 k3_state) |]. apply (bool_decide_unpack _). vm_compute. exact I.
Qed.

(** twenty semaphores have a waiter *)
Definition twenty : list (Z * Z) := (fun i => (0x5000 + 4 * i, 1 + i mod 10)) <$> seqZ 0 20.
Definition k20 : kernel := final (blocks twenty kfull).
Definition x20 : absq := mk_absq [] (seqZ 0 20) ((fun ap => (ap.1, [ap.2])) <$> twenty).

Lemma k20_view : view k20 x20.
Proof. apply (blocks_view twenty kfull _ _ kfull_view). vm_compute. reflexivity. Qed.

(** *** Interrupts *)

(** the temporary word of an interrupt of device number [n] *)
Definition interrupt_state (n : Z) : state_t := set_tmp n supervisor.

(** terminal 3 interrupts: while another process runs, while the processor is
    idle, and with two processes waiting for it *)
Definition k6i : kernel := enter 0x9c8 (interrupt_state 3) k6.
Definition k8i : kernel := enter 0x9c8 (interrupt_state 3) k8.
Definition k5t : kernel := final (pokes [(dev_sem 3, -2)] (final (blocks [(dev_sem 3, 0); (dev_sem 3, 3)] k5))).

Lemma k5t_view : view k5t (mk_absq (seqZ 4 16) [1; 2; 0; 3] [(dev_sem 3, [0; 3])]).
Proof.
  apply pokes_view.
  - apply (blocks_view _ k5 _ _ (proj1 k5_state)). vm_compute. reflexivity.
  - apply (bool_decide_unpack _). vm_compute. exact I.
Qed.

Lemma device_check k i dr :
  0 <= i < 15 -> dev_arr k !! i = Some (0x1400 + 16 * i) -> devregs k !! (0x1400 + 16 * i) = Some dr ->
  is_Some (save_arr k !! i) -> device_ok (krest k) i dr.
Proof. intros H1 H2 H3 H4. split; [done | | done]. by exists (0x1400 + 16 * i). Qed.

(** *** Traps *)

(** process 0 names the areas 0x6098 and 0x60e4 for the traps of type [t] *)
Definition sys5 (t : Z) : state_t := call 5 t 0x6098 0x60e4 supervisor.
Definition specify (t : Z) (k : kernel) : kernel :=
  final (Specify_Trap_State_Vector 0x930 (enter 0x930 (sys5 t) k)).

Definition k9 : kernel := specify 2 (specify 1 (specify 0 k1)).

Lemma specify_view t k x p q cp :
  view k x -> ready x = p :: q -> pcore (a_pq (k_asl k)) p = Some cp ->
  states (enter 0x930 (sys5 t) k) !! 0x930 = Some (sys5 t) -> 0 <= t <= 2 -> (trap_areas t cp).1 = ENULL ->
  view (specify t k) x.
Proof.
  intros V Hr Hc Hst Ht Ho. apply (view_enter 0x930 (sys5 t)) in V.
  assert (s_r (sys5 t) !!! 2%fin = t) as E by reflexivity.
  pose proof (specify_fresh (enter 0x930 (sys5 t) k) x _ _ _ p q cp 0x930 (sys5 t) V Hr Hc Hst) as HR.
  cbv zeta in HR. rewrite E in HR. specialize (HR Ht Ho). apply returns_final in HR as (_ & V').
  by eapply kview_view.
Qed.

Ltac specify_next V :=
  match goal with
  | |- view (specify _ ?k) _ =>
      let cp := fresh "cp" in let E := fresh "E" in
      destruct (pcore (a_pq (k_asl k)) 0) as [cp|] eqn:E; [| vm_compute in E; discriminate E];
      apply (specify_view _ _ _ 0 [] cp V); [reflexivity | exact E | vm_compute; reflexivity | lia |];
      vm_compute in E; injection E as <-; vm_compute; reflexivity
  end.

Definition x1 : absq := mk_absq (seqZ 1 19) [0] [].

Lemma k9_view : view k9 x1.
Proof.
  assert (view (specify 0 k1) x1) as V0 by specify_next (proj1 k1_state).
  assert (view (specify 1 (specify 0 k1)) x1) as V1 by specify_next V0.
  unfold k9. specify_next V1.
Qed.
