(* ===== verification/ProcessProps.v ===== *)
(** * Properties: processes are created and terminated

    SYS1 and SYS2 on the process tree. *)

From S2P Require Export Fixtures.
Local Open Scope kernel_scope.

Section process.
Context `{MachineOk}.

(** C12. SYS2 by a process [p] other than the first one ends the whole family of
    [p] and nothing else.  The entries of the family, and only they, join the free
    list, children before parents; its processes leave the ready queue and every
    semaphore queue, the other processes keeping their order; each semaphore gets
    one V for every process of the family that waited for it; the family pointers
    of the entries that stay again represent the tree, without the branch of [p],
    and every process of it is still ready or waiting.  Then the processor is
    given to the next process. *)
Theorem terminate_ends_the_family k x m c r d t s p q :
  kview k x m c r -> printer_ok r d -> tree_inv x m c t -> ready x = p :: q ->
  subtree t s -> root s = p -> p <> root t ->
  leaves_with Terminate_Process k (fun e k' => exists x' m' c',
    reaps s x m x' m' /\ tree_inv x' m' c' (prune p t) /\
    nodes t ≡ₚ nodes (prune p t) ++ nodes s /\ scheduled x' m' c' r e k').
Proof.
  intros V P I Hr Hs Hp Hpr. pose proof (ti_nodup _ _ _ _ I) as Hnd.
  eapply wp_mono; [by eapply (terminate_child k x m c r d t s p q) | done |].
  intros e k' (c' & I' & _ & HS). exists (reap s (x, m)).1, (reap s (x, m)).2, c'. split_and!; [| done | | done].
  - apply reap_reaps; [by eapply aw_blocked, kview_awf | by eapply subtree_nodup].
  - by apply prune_nodes.
Qed.

(** C16. When the first process executes SYS2 every process ends, and the nucleus
    prints its message of normal termination and halts the machine, with all the
    entries on the free list and no queue left. *)
Theorem terminate_root_halts k x m c r d t q :
  kview k x m c r -> printer_ok r d -> tree_inv x m c t -> ready x = root t :: q ->
  leaves_with Terminate_Process k (fun e k' => e = Leave HALT /\ exists x' m' c',
    free_procs x' = free_procs x ++ postorder t /\ free_procs x' ≡ₚ seqZ 0 MAXPROC /\
    ready x' = [] /\ blocked x' = [] /\
    kview k' x' m' c' (printed "nucleus: normal termination" d r)).
Proof. apply terminate_root_final. Qed.

(** C13. SYS1 takes the first free entry, makes it the last child of the caller and
    puts it at the tail of the ready queue with the processor state the caller
    points to in d4; the caller gets 0 in d2.  The family pointers represent the
    tree with the new leaf, no other entry changes but for its family pointers, and
    no process is lost. *)
Theorem create_adds_last_child k x m c r t n fl p q old st st' :
  kview k x m c r -> tree_inv x m c t -> free_procs x = n :: fl -> ready x = p :: q -> p ∈ nodes t ->
  states r !! old = Some st -> states r !! (s_r st !!! 4%fin) = Some st' ->
  returns (Create_Process old) k (fun _ k' => exists c' cn,
    kview k' (mk_absq fl (ready x ++ [n]) (blocked x)) m c'
      (set_states (<[old := set_reg 2%fin 0 st]> (states r)) r) /\
    tree_inv (mk_absq fl (ready x ++ [n]) (blocked x)) m c' (add_child p n t) /\
    c' n = Some cn /\ p_s cn = st' /\ nodes (add_child p n t) ≡ₚ nodes t ++ [n] /\
    forall a, a <> n -> strip <$> c' a = strip <$> c a).
Proof.
  intros V I Hf Hr Hp Hst Hst'. pose proof (kview_awf _ _ _ _ _ V) as W.
  eapply wp_mono; [by eapply (create_spec k x m c r t n fl p q old st st') | | done].
  intros _ k' (c' & V' & I' & Hs).
  assert (is_Some (c n)) as [cn Hn].
  { eapply kview_valid; [exact V |]. apply (aw_free_valid _ W). rewrite Hf. left. }
  pose proof (Hs n) as Hsn. rewrite upd_eq, Hn in Hsn. destruct (c' n) as [cn'|] eqn:Hn'; [| done].
  exists c', cn'. split_and!; [done | done | done | | |].
  - simpl in Hsn. destruct cn, cn'. by injection Hsn.
  - apply add_child_nodes; [by eapply ti_nodup | done].
  - intros a Ha. by rewrite Hs, upd_ne.
Qed.

(** C37. The entry SYS1 hands out keeps the trap areas and the processor time its
    last owner left in it: neither [freeProc] nor [allocProc] nor
    [Create_Process] clears them.  A process in a recycled entry has the trap
    handlers of a process that has ended. *)
Theorem create_keeps_stale_vectors k x m c r t n fl p q old st st' cn :
  kview k x m c r -> tree_inv x m c t -> free_procs x = n :: fl -> ready x = p :: q -> p ∈ nodes t ->
  states r !! old = Some st -> states r !! (s_r st !!! 4%fin) = Some st' -> c n = Some cn ->
  returns (Create_Process old) k (fun _ k' => exists cn',
    pcore (a_pq (k_asl k')) n = Some cn' /\ cpu_time cn' = cpu_time cn /\
    forall ty, trap_areas ty cn' = trap_areas ty cn).
Proof.
  intros V I Hf Hr Hp Hst Hst' Hn.
  eapply wp_mono; [by eapply (create_spec k x m c r t n fl p q old st st') | | done].
  intros _ k' (c' & V' & _ & Hs). pose proof (Hs n) as Hsn. rewrite upd_eq, Hn in Hsn.
  destruct (c' n) as [cn'|] eqn:Hn'; [| done]. exists cn'. split; [by rewrite (kv_core _ _ _ _ _ V') |].
  simpl in Hsn. destruct cn, cn'. injection Hsn as ? ? ? ? ? ? ? ? ? ? ?; subst. done.
Qed.
End process.

(** ** The properties at concrete states *)

Lemma terminate_ends_the_family_witness :
  leaves_with Terminate_Process k5 (fun e k' => exists x' m' c',
    reaps (Node 1 [Node 3 []]) (mk_absq (seqZ 4 16) [1; 2; 0; 3] []) (ints (k_asl k5)) x' m' /\
    tree_inv x' m' c' (Node 0 [Node 2 []]) /\
    [0; 1; 3; 2] ≡ₚ [0; 2] ++ [1; 3] /\ scheduled x' m' c' (krest k5) e k').
Proof.
  destruct k5_state as [V I].
  apply (terminate_ends_the_family k5 _ _ _ _ 0x1450 (Node 0 [Node 1 [Node 3 []]; Node 2 []]) (Node 1 [Node 3 []]) 1 [2; 0; 3] V);
    [apply printer_check; vm_compute; eauto | exact I | reflexivity | | reflexivity | discriminate].
  eapply sub_kid; [left | constructor].
Defined.

Lemma terminate_root_halts_witness :
  leaves_with Terminate_Process k1 (fun e k' => e = Leave HALT /\ exists x' m' c',
    free_procs x' = seqZ 1 19 ++ [0] /\ free_procs x' ≡ₚ seqZ 0 MAXPROC /\
    ready x' = [] /\ blocked x' = [] /\
    kview k' x' m' c' (printed "nucleus: normal termination" 0x1450 (krest k1))).
Proof.
  destruct k1_state as [V I].
  apply (terminate_root_halts k1 _ _ _ _ 0x1450 (Node 0 []) [] V);
    [apply printer_check; vm_compute; eauto | exact I | reflexivity].
Defined.

Lemma create_adds_last_child_witness :
  returns (Create_Process 0x930) k4' (fun _ k' => exists c' cn,
    kview k' (mk_absq (seqZ 4 16) [1; 2; 0; 3] []) (ints (k_asl k4')) c'
      (set_states (<[0x930 := set_reg 2%fin 0 (sys 1 0x604c)]> (states (krest k4'))) (krest k4')) /\
    tree_inv (mk_absq (seqZ 4 16) [1; 2; 0; 3] []) (ints (k_asl k4')) c' (Node 0 [Node 1 [Node 3 []]; Node 2 []]) /\
    c' 3 = Some cn /\ p_s cn = supervisor /\ [0; 1; 3; 2] ≡ₚ [0; 1; 2] ++ [3] /\
    forall a, a <> 3 -> strip <$> c' a = strip <$> pcore (a_pq (k_asl k4')) a).
Proof.
  destruct (in_state_enter 0x930 (sys 1 0x604c) _ _ _ k4_state) as [V I].
  apply (create_adds_last_child k4' _ _ _ _ (Node 0 [Node 1 []; Node 2 []]) 3 (seqZ 4 16) 1 [2; 0] 0x930 (sys 1 0x604c) supervisor V I);
    [reflexivity | reflexivity | right; left | vm_compute; reflexivity | vm_compute; reflexivity].
Defined.

Lemma create_keeps_stale_vectors_witness :
  returns (Create_Process 0x930) k4' (fun _ k' => exists cn',
    pcore (a_pq (k_asl k')) 3 = Some cn' /\ cpu_time cn' = 0 /\
    forall ty, trap_areas ty cn' = (ENULL, ENULL)).
Proof.
  destruct (in_state_enter 0x930 (sys 1 0x604c) _ _ _ k4_state) as [V I].
  destruct (pcore (a_pq (k_asl k4')) 3) as [cn|] eqn:E; [| vm_compute in E; discriminate E].
  assert (cpu_time cn = 0 /\ forall ty, trap_areas ty cn = (ENULL, ENULL)) as [H1 H2].
  { vm_compute in E. injection E as <-. split; [reflexivity |]. intros ty. unfold trap_areas. by destruct (ty =? 0), (ty =? 1). }
  eapply wp_mono; [apply (create_keeps_stale_vectors k4' _ _ _ _ (Node 0 [Node 1 []; Node 2 []]) 3 (seqZ 4 16) 1 [2; 0] 0x930 (sys 1 0x604c) supervisor cn V I);
    [reflexivity | reflexivity | right; left | vm_compute; reflexivity | vm_compute; reflexivity | exact E] | | done].
  intros _ k' (cn' & E' & H3 & H4). exists cn'. split; [exact E' |]. split; [congruence |]. intros ty. by rewrite H4, H2.
Defined.
