(* ===== verification/DispatchProps.v ===== *)
(** * Properties: the dispatcher and the clock

    [schedule], the decision of [intdeadlock] when no process is ready, and the
    clock interrupt. *)

From S2P Require Export Fixtures.
Local Open Scope kernel_scope.

Section dispatch.
Context `{MachineOk}.

(** The dispatcher gives the processor to the head of the ready queue: it loads
    the state saved in its entry, with the timer set to one quantum and the time
    of the dispatch noted in the entry; the queues do not change. *)
Theorem schedule_dispatches_head k x m c r p q :
  kview k x m c r -> ready x = p :: q ->
  leaves_with schedule k (fun e k' => exists cp,
    c p = Some cp /\ e = Leave (LDST (p_s cp)) /\
    kview k' x m (upd p (set_start_time (clk (readings r))) c)
      (set_readings (S (readings r)) (set_timer 5000 r))).
Proof.
  intros V Hr. eapply wp_mono; [eapply schedule_spec; [exact V |] | done |].
  - by rewrite Hr.
  - intros e k'. unfold scheduled. by rewrite Hr.
Qed.

(** With no ready process the nucleus waits when a process waits for the
    pseudo-clock, the timer set, or for a device; when there is neither, it prints
    its message on the printer and halts.  The message tells normal termination
    when no process is blocked, and deadlock when some process is. *)
Theorem schedule_without_ready k x m c r d :
  kview k x m c r -> ready x = [] -> printer_ok r d ->
  leaves_with schedule k (fun e k' =>
    (waiters clock_lock (blocked x) <> [] /\ e = Leave STOP /\ kview k' x m c (set_timer 5000 r)) \/
    (waiters clock_lock (blocked x) = [] /\ (exists i, 0 <= i < 15 /\ waiters (dev_sem i) (blocked x) <> []) /\
       e = Leave STOP /\ kview k' x m c r) \/
    (waiters clock_lock (blocked x) = [] /\ (forall i, 0 <= i < 15 -> waiters (dev_sem i) (blocked x) = []) /\
       e = Leave HALT /\ kview k' x m c (printed
         (if decide (blocked x = []) then "nucleus: normal termination" else "nucleus: deadlock termination") d r))).
Proof.
  intros V Hr P. eapply wp_mono; [eapply schedule_spec; [exact V | by exists d] | done |].
  intros e k'. unfold scheduled, idle. rewrite Hr.
  destruct (bool_decide_reflect (waiters clock_lock (blocked x) = [])) as [Hc|Hc]; cbn [negb]; [| by left].
  right. destruct (dev_waiting (blocked x)) eqn:Hd.
  - left. destruct H1 as [-> V']. split_and!; [done | | done | done].
    apply existsb_exists in Hd as (i & Hi%list_elem_of_In%elem_of_seqZ & Hw%negb_true_iff%bool_decide_eq_false).
    exists i. split; [lia | done].
  - right. destruct H1 as (-> & d' & Hd' & V'). rewrite (po_arr _ _ P) in Hd'. injection Hd' as <-.
    split_and!; [done | | done | by rewrite bool_decide_decide in V'; case_decide].
    intros i Hi. destruct (decide (waiters (dev_sem i) (blocked x) = [])) as [|Hw]; [done |].
    assert (dev_waiting (blocked x) = true) as E; [| congruence].
    apply existsb_exists. exists i. split; [apply list_elem_of_In, elem_of_seqZ; lia |].
    by rewrite bool_decide_false.
Qed.

(** At the end of a quantum that does not end a pseudo-clock period the running
    process goes to the tail of the ready queue, with the interrupted state saved
    in its entry and the time since its dispatch charged to it, and the processor
    is given to the next process. *)
Theorem clock_rotates k x m c r d p q st v :
  kview k x m c r -> printer_ok r d -> ready x = p :: q -> alone x ->
  states r !! old_clock_state r = Some st -> m !! clock_lock = Some v ->
  i32 (clock_count r + 5000) < 100000 ->
  leaves_with intclockhandler k
    (scheduled (set_ready (q ++ [p]) x) m
       (upd p (fun pr => set_p_s st (set_cpu_time (i32 (cpu_time pr + i32 (clk (readings r) - Procq.start_time pr))) pr)) c)
       (set_clock_count (i32 (clock_count r + 5000)) (set_readings (S (readings r)) r))).
Proof.
  intros V P Hr Hal Hst Hv Hlt.
  pose proof (intclockhandler_running k x m c r d p q st v V P Hr Hal Hst Hv) as HR. cbv zeta in HR.
  assert (clock_interrupt_time <=? i32 (clock_count r + quantum) = false) as E by by apply Z.leb_gt.
  unfold tick_queues, tick_mem, tick_count, clock_due in HR. rewrite E in HR. exact HR.
Qed.

(** Every 100000 time units, when a process waits for the pseudo-clock, the
    clock interrupt performs one V on it: the first waiter leaves the clock's
    queue and, waiting for nothing else, joins the ready queue behind the process
    whose quantum ended; the period starts again. *)
Theorem clock_ticks k x m c r d p q st v w ws :
  kview k x m c r -> printer_ok r d -> ready x = p :: q -> alone x ->
  states r !! old_clock_state r = Some st -> m !! clock_lock = Some v -> v < 0 ->
  100000 <= i32 (clock_count r + 5000) ->
  waiters clock_lock (blocked x) = w :: ws -> w ∉ ready x -> waits_for w (blocked x) = [clock_lock] ->
  leaves_with intclockhandler k (fun e k' => exists x' c',
    free_procs x' = free_procs x /\ ready x' = q ++ [p; w] /\
    (forall b, waiters b (blocked x') = if b =? clock_lock then ws else waiters b (blocked x)) /\
    scheduled x' (<[clock_lock := i32 (v + 1)]> m) c'
      (set_clock_count 0 (set_readings (S (readings r)) r)) e k').
Proof.
  intros V P Hr Hal Hst Hv Hneg Hge Hw Hwr Honly.
  pose proof (intclockhandler_running k x m c r d p q st v V P Hr Hal Hst Hv) as HR. cbv zeta in HR.
  assert (clock_interrupt_time <=? i32 (clock_count r + quantum) = true) as E by by apply Z.leb_le.
  unfold tick_queues, tick_mem, tick_count, clock_due in HR. rewrite E in HR. cbn [blocked set_ready] in HR.
  rewrite Hw, bool_decide_false in HR by done. cbn [andb negb] in HR.
  eapply wp_mono; [exact HR | done |]. intros e k' HS. cbv beta in HS.
  assert (q ++ [p] ≡ₚ ready x) as Hperm by (rewrite Hr; symmetry; apply Permutation_cons_append).
  pose proof (awf_permute x _ Hperm (kview_awf _ _ _ _ _ V)) as W'.
  destruct (abs_V_wakes (set_ready (q ++ [p]) x) clock_lock v w ws W' Hneg Hw) as [R1 R2 R3].
  { simpl. by rewrite Hperm. }
  simpl in R3. rewrite bool_decide_true, <- app_assoc in R3 by done.
  eexists _, _. split_and!; [exact R1 | exact R3 | exact R2 | exact HS].
Qed.
End dispatch.

(** ** The properties at concrete states *)

Lemma schedule_dispatches_head_witness :
  leaves_with schedule k6 (fun e k' => exists cp,
    pcore (a_pq (k_asl k6)) 2 = Some cp /\ e = Leave (LDST (p_s cp)) /\
    kview k' (mk_absq (seqZ 4 16) [2; 0; 3] [(dev_sem 3, [1])]) (ints (k_asl k6))
      (upd 2 (set_start_time (clk (readings (krest k6)))) (pcore (a_pq (k_asl k6))))
      (set_readings (S (readings (krest k6))) (set_timer 5000 (krest k6)))).
Proof. apply (schedule_dispatches_head k6 _ _ _ _ 2 [0; 3] (proj1 k6_state)). reflexivity. Defined.

Lemma schedule_without_ready_witness :
  let x := mk_absq (seqZ 1 19) [] [(dev_sem 3, [0])] in
  leaves_with schedule k8 (fun e k' =>
    (waiters clock_lock (blocked x) <> [] /\ e = Leave STOP /\
       kview k' x (ints (k_asl k8)) (pcore (a_pq (k_asl k8))) (set_timer 5000 (krest k8))) \/
    (waiters clock_lock (blocked x) = [] /\ (exists i, 0 <= i < 15 /\ waiters (dev_sem i) (blocked x) <> []) /\
       e = Leave STOP /\ kview k' x (ints (k_asl k8)) (pcore (a_pq (k_asl k8))) (krest k8)) \/
    (waiters clock_lock (blocked x) = [] /\ (forall i, 0 <= i < 15 -> waiters (dev_sem i) (blocked x) = []) /\
       e = Leave HALT /\ kview k' x (ints (k_asl k8)) (pcore (a_pq (k_asl k8))) (printed
         (if decide (blocked x = []) then "nucleus: normal termination" else "nucleus: deadlock termination")
         0x1450 (krest k8)))).
Proof.
  apply (schedule_without_ready k8 _ _ _ _ 0x1450 k8_view); [reflexivity | apply printer_check; vm_compute; eauto].
Defined.

Lemma clock_rotates_witness :
  leaves_with intclockhandler k3'
    (scheduled (mk_absq (seqZ 3 17) [1; 2; 0] []) (ints (k_asl k3'))
       (upd 0 (fun pr => set_p_s supervisor (set_cpu_time (i32 (cpu_time pr +
          i32 (clk (readings (krest k3')) - Procq.start_time pr))) pr)) (pcore (a_pq (k_asl k3'))))
       (set_clock_count (i32 (clock_count (krest k3') + 5000)) (set_readings (S (readings (krest k3'))) (krest k3')))).
Proof.
  pose proof (proj1 (in_state_enter 0xc28 supervisor _ _ _ k3_state)) as V.
  eapply (clock_rotates k3' _ _ _ _ 0x1450 0 [1; 2] supervisor 0 V);
    [apply printer_check; vm_compute; eauto | reflexivity | vm_compute; reflexivity | vm_compute; reflexivity
    | vm_compute; reflexivity | vm_compute; reflexivity].
Defined.

Lemma clock_ticks_witness :
  leaves_with intclockhandler k7' (fun e k' => exists x' c',
    free_procs x' = seqZ 4 16 /\ ready x' = [0; 3; 2; 1] /\
    (forall b, waiters b (blocked x') = if b =? clock_lock then [] else waiters b [(clock_lock, [1])]) /\
    scheduled x' (<[clock_lock := i32 (-1 + 1)]> (ints (k_asl k7'))) c'
      (set_clock_count 0 (set_readings (S (readings (krest k7'))) (krest k7'))) e k').
Proof.
  eapply (clock_ticks k7' _ _ _ _ 0x1450 2 [0; 3] supervisor (-1) 1 [] k7_view);
    [apply printer_check; vm_compute; eauto | reflexivity | vm_compute; reflexivity | vm_compute; reflexivity
    | vm_compute; reflexivity | lia | vm_compute; discriminate | reflexivity | | reflexivity].
  apply (bool_decide_unpack _). vm_compute. exact I.
Defined.
