(* ===== verification/SemProps.v ===== *)
(** * Properties: semaphores

    The nucleus's own P and V ([intsemop]) and SYS3 ([Sem_OP]). *)

From S2P Require Export Fixtures.
Local Open Scope kernel_scope.

Lemma not_blocking x a : a ∈ keys (blocked x) \/ (length (blocked x) < 20)%nat ->
  ~ (a ∉ keys (blocked x) /\ length (blocked x) = 20%nat).
Proof. intros [?|?] [??]; [done | lia]. Qed.

Lemma alone_nowhere x p q : awf x -> ready x = p :: q -> alone x -> in_queues p (set_ready q x) = 0%nat.
Proof. intros W Hr Ha. destruct (alone_blocked x p q Hr Ha) as [_ Hz]. by apply Hz. Qed.

Section semaphores.
Context `{MachineOk}.

(** A V on a semaphore with waiters adds one to it and takes the process that
    has waited longest out of its queue; that process joins the tail of the ready
    queue when it waits for no other semaphore. *)
Theorem V_resumes_first k x m c r a v w ws :
  kview k x m c r -> a <> ENULL -> m !! a = Some v -> v < 0 ->
  waiters a (blocked x) = w :: ws -> w ∉ ready x ->
  returns (intsemop a UNLOCK) k (fun _ k' => exists x',
    kview k' x' (<[a := i32 (v + 1)]> m) c r /\ free_procs x' = free_procs x /\
    (forall b, waiters b (blocked x') = if b =? a then ws else waiters b (blocked x)) /\
    ready x' = ready x ++ (if decide (waits_for w (blocked x) = [a]) then [w] else [])).
Proof.
  intros V Ha Hv Hneg Hw Hr. eapply wp_V; [exact V | exact Hv | done |]. intros k' V'. exists (abs_V a v x).
  destruct (abs_V_wakes x a v w ws (kview_awf _ _ _ _ _ V) Hneg Hw Hr) as [R1 R2 R3].
  split_and!; [done | done | done |]. rewrite R3, bool_decide_decide. by case_decide.
Qed.

(** A P by the running process on a semaphore that is not positive takes it off
    the ready queue and puts it last in the semaphore's queue, and the next process
    is dispatched; a P on a positive semaphore only subtracts one. *)
Theorem P_blocks_or_passes k x m c r d a v p q :
  kview k x m c r -> printer_ok r d -> ready x = p :: q -> alone x -> a <> ENULL -> m !! a = Some v ->
  - 2 ^ 31 < v < 2 ^ 31 -> a ∈ keys (blocked x) \/ (length (blocked x) < 20)%nat ->
  wp (intsemop a LOCK) k
    (fun _ k' => 0 < v /\ kview k' x (<[a := v - 1]> m) c r)
    (fun e k' => v <= 0 /\ exists x', free_procs x' = free_procs x /\ ready x' = q /\
       (forall b, waiters b (blocked x') = waiters b (blocked x) ++ (if b =? a then [p] else [])) /\
       scheduled x' (<[a := v - 1]> m) c r e k').
Proof.
  intros V P Hr Hal Ha Hv Hrange Hroom.
  assert (i32 (v - 1) = v - 1) as E by (apply i32_id; unfold in_i32; lia).
  eapply wp_P; [exact V | exact P | exact Hr | done | done | exact Hv | |]; rewrite E.
  - intros Hpos k' V'. split; [lia | done].
  - intros Hneg e k' HS. split; [lia |]. exists (abs_block a p (set_ready q x)). unfold abs_block in *.
    rewrite decide_False in HS |- * by by apply not_blocking.
    split_and!; [done | done | | done]. intros b. apply waiters_suspend.
Qed.

(** C35. When all twenty descriptors are in use, a P that blocks on a new semaphore
    loses the process: [insertBlocked] fails and [intsemop] ignores it, so that the
    process is in no queue and not free. *)
Theorem P_without_descriptor_loses k x m c r d a v p q :
  kview k x m c r -> printer_ok r d -> ready x = p :: q -> alone x -> a <> ENULL -> m !! a = Some v ->
  - 2 ^ 31 < v <= 0 -> a ∉ keys (blocked x) -> length (blocked x) = 20%nat ->
  leaves_with (intsemop a LOCK) k (fun e k' => exists x',
    scheduled x' (<[a := v - 1]> m) c r e k' /\ in_queues p x' = 0%nat /\ p ∉ free_procs x').
Proof.
  intros V P Hr Hal Ha Hv Hrange Hni Hlen. pose proof (kview_awf _ _ _ _ _ V) as W.
  assert (i32 (v - 1) = v - 1) as E by (apply i32_id; unfold in_i32; lia).
  eapply wp_P; [exact V | exact P | exact Hr | done | done | exact Hv | |]; rewrite E.
  - intros Hpos k' V'. lia.
  - intros Hneg e k' HS. exists (set_ready q x). unfold abs_block in HS. rewrite decide_True in HS by done.
    split_and!; [done | by apply alone_nowhere | ]. apply (ready_valid x p W). rewrite Hr. left.
Qed.

(** C15. SYS3 executes the operations of the vector in order on the semaphores and
    their queues, as [sem_run] does on the abstract queues.  If a P blocked, the
    caller's state is saved, it leaves the ready queue and the next process is
    dispatched; otherwise the caller goes on. *)
Theorem Sem_OP_runs_the_vector k x m c r d old st p q ops ss' :
  kview k x m c r -> printer_ok r d -> ready x = p :: q -> states r !! old = Some st ->
  s_r st !!! 3%fin = Z.of_nat (length ops) -> vector_at m (s_r st !!! 4%fin) ops ->
  apart (s_r st !!! 4%fin) (Z.of_nat (length ops)) ops ->
  sem_run p ops (mk_ss x m false) = Some ss' ->
  wp (Sem_OP old) k
    (fun _ k' => ss_flag ss' = false /\ kview k' (ss_queues ss') (ss_mem ss') c r)
    (fun e k' => ss_flag ss' = true /\
       scheduled (set_ready (List.tl (ready (ss_queues ss'))) (ss_queues ss')) (ss_mem ss')
         (upd p (set_p_s st) c) r e k').
Proof. apply Sem_OP_spec. Qed.

(** C39. SYS3 with the vector P, V on one semaphore whose value is 0 loses the
    caller: the P puts it in the semaphore's queue, the V takes it out again
    without putting it anywhere (it is still counted in the ready queue), and the
    end of the call takes it off the ready queue. *)
Theorem Sem_OP_PV_loses_caller k x m c r d old st p q a :
  kview k x m c r -> printer_ok r d -> ready x = p :: q -> alone x -> states r !! old = Some st ->
  s_r st !!! 3%fin = 2 -> vector_at m (s_r st !!! 4%fin) [(LOCK, a); (UNLOCK, a)] ->
  apart (s_r st !!! 4%fin) 2 [(LOCK, a); (UNLOCK, a)] ->
  a <> ENULL -> m !! a = Some 0 -> waiters a (blocked x) = [] -> (length (blocked x) < 20)%nat ->
  leaves_with (Sem_OP old) k (fun e k' => exists x' m' c',
    scheduled x' m' c' r e k' /\ m' !! a = Some 0 /\ in_queues p x' = 0%nat /\ p ∉ free_procs x').
Proof.
  intros V P Hr Hal Hst Hn Hvec Hap Ha Hv Hw Hroom. pose proof (kview_awf _ _ _ _ _ V) as W.
  pose proof (aw_blocked _ W) as B. destruct (ready_valid x p W) as [Hp Hf]; [rewrite Hr; left |].
  set (x1 := set_blocked (suspend a p (blocked x)) x).
  assert (sem_run p [(LOCK, a); (UNLOCK, a)] (mk_ss x m false)
    = Some (mk_ss (abs_V a (-1) x1) (<[a := 0]> (<[a := -1]> m)) true)) as Hrun.
  { cbn [sem_run sem_step fst snd]. rewrite Hv. change (LOCK =? LOCK) with true. change (i32 (0 - 1)) with (-1).
    change (-1 <? 0) with true. cbv iota. rewrite bool_decide_true.
    2: { split_and!; [done | rewrite Hw; apply not_elem_of_nil |]. unfold alone in Hal. rewrite Hr in Hal. lia. }
    unfold abs_block. rewrite decide_False by (intros [_ ?]; lia). cbn [sem_run sem_step fst snd].
    rewrite lookup_insert_eq. change (UNLOCK =? LOCK) with false. cbv iota. by rewrite bool_decide_true. }
  assert (abs_V a (-1) x1 = x) as EV.
  { unfold abs_V, x1. cbn [blocked set_blocked]. change (-1 <? 0) with true. cbv iota.
    rewrite waiters_suspend, Hw, Z.eqb_refl, resume_suspend by by apply waiters_nil_iff. change (head_or ([] ++ [p])) with p.
    assert (set_blocked (blocked x) (set_blocked (suspend a p (blocked x)) x) = x) as -> by by destruct x.
    unfold abs_wake. rewrite decide_False; [done |]. intros [_ Hz]. unfold alone in Hal. rewrite Hr in Hal. lia. }
  rewrite EV in Hrun.
  eapply wp_mono; [eapply (Sem_OP_spec k x m c r d old st p q [(LOCK, a); (UNLOCK, a)] _ V P Hr Hst Hn Hvec Hap Hrun) | by intros _ k' [? _] |].
  cbn [ss_queues ss_mem]. intros e k' [_ HS]. rewrite Hr in HS. cbn [List.tl] in HS. eexists _, _, _.
  split_and!; [exact HS | by rewrite lookup_insert_eq | by apply alone_nowhere | done].
Qed.
End semaphores.

(** ** The properties at concrete states *)

Lemma V_resumes_first_witness :
  returns (intsemop (dev_sem 3) UNLOCK) k6 (fun _ k' => exists x',
    kview k' x' (<[dev_sem 3 := i32 (-1 + 1)]> (ints (k_asl k6))) (pcore (a_pq (k_asl k6))) (krest k6) /\
    free_procs x' = seqZ 4 16 /\
    (forall b, waiters b (blocked x') = if b =? dev_sem 3 then [] else waiters b [(dev_sem 3, [1])]) /\
    ready x' = [2; 0; 3] ++ (if decide (waits_for 1 [(dev_sem 3, [1])] = [dev_sem 3]) then [1] else [])).
Proof.
  apply (V_resumes_first k6 _ _ _ _ (dev_sem 3) (-1) 1 [] (proj1 k6_state));
    [discriminate | vm_compute; reflexivity | lia | reflexivity |].
  apply (bool_decide_unpack _). vm_compute. exact I.
Defined.

Lemma P_blocks_or_passes_witness :
  wp (intsemop 0x5000 LOCK) k3
    (fun _ k' => 0 < 0 /\ kview k' (mk_absq (seqZ 3 17) [0; 1; 2] []) (<[0x5000 := 0 - 1]> (ints (k_asl k3)))
       (pcore (a_pq (k_asl k3))) (krest k3))
    (fun e k' => 0 <= 0 /\ exists x', free_procs x' = seqZ 3 17 /\ ready x' = [1; 2] /\
       (forall b, waiters b (blocked x') = waiters b [] ++ (if b =? 0x5000 then [0] else [])) /\
       scheduled x' (<[0x5000 := 0 - 1]> (ints (k_asl k3))) (pcore (a_pq (k_asl k3))) (krest k3) e k').
Proof.
  apply (P_blocks_or_passes k3 _ _ _ _ 0x1450 0x5000 0 0 [1; 2] (proj1 k3_state));
    [apply printer_check; vm_compute; eauto | reflexivity | vm_compute; reflexivity | discriminate
    | vm_compute; reflexivity | lia | right; simpl; lia].
Defined.

Lemma P_without_descriptor_loses_witness :
  leaves_with (intsemop 0x5050 LOCK) k20 (fun e k' => exists x',
    scheduled x' (<[0x5050 := 0 - 1]> (ints (k_asl k20))) (pcore (a_pq (k_asl k20))) (krest k20) e k' /\
    in_queues 0 x' = 0%nat /\ 0 ∉ free_procs x').
Proof.
  apply (P_without_descriptor_loses k20 _ _ _ _ 0x1450 0x5050 0 0 (seqZ 1 19) k20_view);
    [apply printer_check; vm_compute; eauto | reflexivity | vm_compute; reflexivity | discriminate
    | vm_compute; reflexivity | lia | | vm_compute; reflexivity].
  apply (bool_decide_unpack _). vm_compute. exact I.
Defined.

Lemma Sem_OP_runs_the_vector_witness :
  wp (Sem_OP 0x930) k3p
    (fun _ k' => ss_flag ss3p = false /\
       kview k' (ss_queues ss3p) (ss_mem ss3p) (pcore (a_pq (k_asl k3p))) (krest k3p))
    (fun e k' => ss_flag ss3p = true /\
       scheduled (set_ready (List.tl (ready (ss_queues ss3p))) (ss_queues ss3p)) (ss_mem ss3p)
         (upd 0 (set_p_s (sem_call 1)) (pcore (a_pq (k_asl k3p)))) (krest k3p) e k').
Proof.
  apply (Sem_OP_runs_the_vector k3p _ _ _ _ 0x1450 0x930 (sem_call 1) 0 [1; 2] [(LOCK, 0x5000)] ss3p k3p_view);
    [apply printer_check; vm_compute; eauto | reflexivity | vm_compute; reflexivity | reflexivity
    | vm_compute; split_and!; reflexivity | | ].
  - intros oa ->%list_elem_of_singleton. vm_compute. intros [Hlo _]. by apply Hlo.
  - cbn [sem_run sem_step fst snd]. replace (ints (k_asl k3p) !! 0x5000) with (Some 0) by (vm_compute; reflexivity).
    reflexivity.
Defined.

Lemma Sem_OP_PV_loses_caller_witness :
  leaves_with (Sem_OP 0x930) k3pv (fun e k' => exists x' m' c',
    scheduled x' m' c' (krest k3pv) e k' /\ m' !! 0x5000 = Some 0 /\ in_queues 0 x' = 0%nat /\ 0 ∉ free_procs x').
Proof.
  apply (Sem_OP_PV_loses_caller k3pv _ _ _ _ 0x1450 0x930 (sem_call 2) 0 [1; 2] 0x5000 k3pv_view);
    [apply printer_check; vm_compute; eauto | reflexivity | vm_compute; reflexivity | vm_compute; reflexivity | reflexivity
    | vm_compute; split_and!; reflexivity | | discriminate | vm_compute; reflexivity | reflexivity | simpl; lia].
  intros oa Hoa. assert (oa.2 = 0x5000) as ->.
  { apply elem_of_cons in Hoa as [->|Hoa%list_elem_of_singleton]; [reflexivity | by subst]. }
  vm_compute. intros [Hlo _]. by apply Hlo.
Defined.
