(* ===== verification/IoProps.v ===== *)
(** * Properties: waiting for devices and for the clock

    SYS7 ([waitforpclock]), SYS8 ([waitforio]) and the device interrupts
    ([inthandler] and the four handlers). *)

From S2P Require Export Fixtures.
Local Open Scope kernel_scope.

(** the queues once the only process that waits for [a] is resumed *)
Lemma abs_V_suspended x a p v :
  bwf (blocked x) -> a ∉ keys (blocked x) -> p <> ENULL -> in_queues p x = 0%nat -> v < 0 ->
  abs_V a v (set_blocked (suspend a p (blocked x)) x) = set_ready (ready x ++ [p]) x.
Proof.
  intros B Hni Hp Hq Hv. unfold abs_V. rewrite (proj2 (Z.ltb_lt _ _)) by done. cbn [blocked set_blocked].
  rewrite waiters_suspend, waiters_none, Z.eqb_refl, resume_suspend by done. change (head_or ([] ++ [p])) with p.
  assert (set_blocked (blocked x) (set_blocked (suspend a p (blocked x)) x) = x) as -> by by destruct x.
  unfold abs_wake. by rewrite decide_True.
Qed.

Section devices.
Context `{MachineOk}.

(** a dispatch, or a wait while a process waits for a device, leaves the devices
    and the saved states alone *)
Lemma scheduled_devices x m c r e k i :
  0 <= i < 15 -> waiters (dev_sem i) (blocked x) <> [] -> scheduled x m c r e k ->
  exists c' r', kview k x m c' r' /\ (dev_arr r', devregs r', save_arr r') = (dev_arr r, devregs r, save_arr r) /\
    forall p, p_s <$> c' p = p_s <$> c p.
Proof.
  intros Hi Hw. unfold scheduled. destruct (ready x) as [|q l].
  - assert (dev_waiting (blocked x) = true) as E.
    { apply existsb_exists. exists i. split; [apply list_elem_of_In, elem_of_seqZ; lia | by rewrite bool_decide_false]. }
    unfold idle. rewrite E. destruct (negb _); intros [_ V]; eexists _, _; (split; [exact V | done]).
  - intros (cp & _ & _ & V). eexists _, _. split; [exact V |]. split; [done |].
    intros p. unfold upd. case_decide; by destruct (c p) as [[]|].
Qed.

(** C14. Wait first: a process that executes SYS8 before the interrupt of its
    device comes blocks, and the interrupt makes it ready again, the amount and
    the status of the device in d2 and d3 of the state it waits with; the
    semaphore is 0 again and no other queue has changed. *)
Theorem io_wait_then_interrupt k x m c r d type dev dr p q old st :
  let pos := dev_pos type dev in
  kview k x m c r -> printer_ok r d -> device_ok r pos dr ->
  ready x = p :: q -> alone x -> states r !! old = Some st -> s_r st !!! 4%fin = pos ->
  m !! dev_sem pos = Some 0 -> waiters (dev_sem pos) (blocked x) = [] -> (length (blocked x) < 20)%nat ->
  leaves_with (waitforio old) k (fun e k1 =>
    returns (inthandler type dev) k1 (fun _ k2 => exists c2 r2 cp,
      kview k2 (set_ready (q ++ [p]) x) (<[dev_sem pos := 0]> m) c2 r2 /\
      c2 p = Some cp /\ p_s cp = io_state dr st)).
Proof.
  intros pos V P D Hr Hal Hst Hd4 Hv Hw Hroom. pose proof (kview_awf _ _ _ _ _ V) as W.
  pose proof (aw_blocked _ W) as B. pose proof (do_pos _ _ _ D) as Hpos.
  assert (dev_sem pos ∉ keys (blocked x)) as Hni by by apply waiters_nil_iff.
  destruct (ready_valid x p W) as [Hp _]; [rewrite Hr; left |].
  set (x1 := set_blocked (suspend (dev_sem pos) p (blocked x)) (set_ready q x)).
  assert (waiters (dev_sem pos) (blocked x1) = [p]) as Hw1 by (simpl; by rewrite waiters_suspend, Hw, Z.eqb_refl).
  pose proof (waitforio_waits k x m c r d p q old st 0 V P Hr Hal) as HR. cbv zeta in HR. rewrite Hd4 in HR.
  specialize (HR Hpos Hst Hv ltac:(lia)). unfold abs_block in HR.
  rewrite decide_False in HR by (simpl; intros [_ ?]; lia). fold x1 in HR.
  eapply wp_mono; [exact HR | done |]. cbv beta. intros e k1 HS.
  assert (waiters (dev_sem pos) (blocked x1) <> []) as Hw2 by by rewrite Hw1.
  destruct (scheduled_devices _ _ _ _ _ _ pos Hpos Hw2 HS) as (c1 & r1 & V1 & Er & Ec).
  injection Er as E1 E2 E3.
  assert (device_ok r1 pos dr) as D1.
  { destruct D as [D1 (a & D2 & D3) D4]. split; [done | | by rewrite E3]. exists a. by rewrite E1, E2. }
  eapply wp_mono; [eapply (inthandler_waiting k1 x1 _ c1 r1 type dev dr p []); [exact V1 | exact D1 | apply lookup_insert_eq | exact Hw1] | | done].
  cbv beta. intros [] k2 V2. fold pos in V2. rewrite insert_insert_eq in V2.
  assert (abs_V (dev_sem pos) (-1) x1 = set_ready (q ++ [p]) x) as EV.
  { apply (abs_V_suspended (set_ready q x)); [done | done | unfold ENULL; lia | | lia]. by apply (alone_blocked x p q). }
  rewrite EV in V2.
  destruct (c1 p) as [cp|] eqn:Hcp.
  2: { exfalso. specialize (Ec p). rewrite Hcp, upd_eq in Ec. destruct (ready_head_core _ _ _ _ _ _ _ V Hr) as [cp E]. by rewrite E in Ec. }
  eexists _, r1, (io_result dr cp). split; [exact V2 |]. rewrite upd_eq, Hcp. split; [done |].
  specialize (Ec p). rewrite Hcp, upd_eq in Ec. destruct (c p) as [cp0|]; [| done]. simpl in Ec. injection Ec as Ec.
  assert (p_s (set_p_s st cp0) = st) as E4 by by destruct cp0. rewrite E4 in Ec.
  assert (p_s (io_result dr cp) = io_state dr (p_s cp)) as -> by by destruct cp. by rewrite Ec.
Qed.

(** Interrupt first: the registers of the device are saved, and SYS8 gives them
    to the process at once, in the same registers, without any change to the
    queues; the semaphore is 0 again. *)
Theorem io_interrupt_then_wait k x m c r type dev dr old st :
  let pos := dev_pos type dev in
  kview k x m c r -> device_ok r pos dr -> states r !! old = Some st -> s_r st !!! 4%fin = pos ->
  m !! dev_sem pos = Some 0 ->
  returns (inthandler type dev ;; waitforio old) k (fun _ k' => exists r',
    kview k' x (<[dev_sem pos := 0]> m) c r' /\ states r' = <[old := io_state dr st]> (states r)).
Proof.
  intros pos V D Hst Hd4 Hv. apply wp_bind.
  wp_apply (inthandler_saves k x m c r type dev dr 0 V D Hv); [done |]. cbv beta. intros [] k1 V1. fold pos in V1.
  eapply wp_mono; [eapply (waitforio_saved k1 x _ c _ old st); [exact V1 | exact Hst | |] | | done]; rewrite Hd4.
  - apply lookup_insert_eq.
  - apply lookup_insert_eq.
  - cbv beta. intros [] k2 V2. rewrite insert_insert_eq in V2. eexists. split; [exact V2 |]. done.
Qed.

(** A device interrupt resumes the interrupted process, with the state it was
    interrupted in; a process that waited for the device becomes ready behind the
    others. *)
Theorem interrupt_resumes_interrupted k x m c r type old st dr p q w :
  let pos := dev_pos type (in_dno (s_tmp st)) in
  kview k x m c r -> states r !! old k = Some st -> ready x = p :: q -> device_ok r pos dr ->
  m !! dev_sem pos = Some (-1) -> waiters (dev_sem pos) (blocked x) = [w] -> w ∉ ready x ->
  waits_for w (blocked x) = [dev_sem pos] ->
  leaves_with (device_handler type old) k (fun e k' => e = Leave (LDST st) /\ exists x' c',
    kview k' x' (<[dev_sem pos := 0]> m) c' r /\ ready x' = p :: q ++ [w] /\
    (forall b, waiters b (blocked x') = if b =? dev_sem pos then [] else waiters b (blocked x)) /\
    c' = upd w (io_result dr) c).
Proof.
  intros pos V Hst Hr D Hv Hw Hni Honly.
  eapply wp_mono; [eapply (device_handler_running k x m c r type old st dr (-1) p q); try done; intros _; fold pos; by rewrite Hw | done |].
  cbv beta. fold pos. intros e k' [-> HI]. split; [done |]. unfold interrupted in HI.
  change (-1 =? -1) with true in HI. cbv iota in HI. rewrite Hw in HI.
  destruct (abs_V_wakes x (dev_sem pos) (-1) w [] (kview_awf _ _ _ _ _ V)) as [R1 R2 R3]; [lia | done | done |].
  rewrite Honly, bool_decide_true, Hr in R3 by done.
  eexists _, _. split; [exact HI |]. split; [exact R3 |]. split; [exact R2 | done].
Qed.

(** C17. A device interrupt that comes while the processor is idle dispatches the
    process that waited for the device. *)
Theorem interrupt_ends_idleness k x m c r d type old st dr w cp :
  let pos := dev_pos type (in_dno (s_tmp st)) in
  kview k x m c r -> printer_ok r d -> states r !! old k = Some st -> ready x = [] -> device_ok r pos dr ->
  m !! dev_sem pos = Some (-1) -> waiters (dev_sem pos) (blocked x) = [w] ->
  waits_for w (blocked x) = [dev_sem pos] -> c w = Some cp ->
  leaves_with (device_handler type old) k (fun e k' =>
    e = Leave (LDST (io_state dr (p_s cp))) /\ exists x' c' r',
      kview k' x' (<[dev_sem pos := 0]> m) c' r' /\ ready x' = [w] /\
      (forall b, waiters b (blocked x') = if b =? dev_sem pos then [] else waiters b (blocked x))).
Proof.
  intros pos V P Hst Hr D Hv Hw Honly Hc.
  eapply wp_mono; [eapply (device_handler_idle k x m c r type old st dr (-1) d); try done; intros _; fold pos; by rewrite Hw | done |].
  cbv beta zeta. fold pos. change (-1 =? -1) with true. cbv iota. rewrite Hw. intros e k' HS.
  destruct (abs_V_wakes x (dev_sem pos) (-1) w [] (kview_awf _ _ _ _ _ V)) as [R1 R2 R3]; [lia | done | |].
  { rewrite Hr. apply not_elem_of_nil. }
  rewrite Honly, bool_decide_true, Hr in R3 by done. unfold scheduled in HS. rewrite R3 in HS.
  destruct HS as (cw & Hcw & -> & V'). change (head_or [w]) with w in Hcw. rewrite upd_eq, Hc in Hcw. injection Hcw as <-.
  assert (p_s (io_result dr cp) = io_state dr (p_s cp)) as -> by by destruct cp. split; [done |].
  eexists _, _, _. split; [exact V' |]. by split.
Qed.

(** C40. The protocol holds for one waiter: when two processes wait for the same
    device (the semaphore is -2), its interrupt wakes neither, is saved as if no
    process waited, and leaves the semaphore at -1 with both processes in its
    queue. *)
Theorem interrupt_with_two_waiters_is_lost k x m c r type dev dr w1 w2 :
  let pos := dev_pos type dev in
  kview k x m c r -> device_ok r pos dr -> m !! dev_sem pos = Some (-2) ->
  waiters (dev_sem pos) (blocked x) = [w1; w2] ->
  returns (inthandler type dev) k (fun _ k' => exists r',
    kview k' x (<[dev_sem pos := -1]> m) c r' /\
    save_arr r' !! pos = Some (mk_saved (i32 (d_amnt dr)) (i32 (d_stat dr)))).
Proof.
  intros pos V D Hv Hw. wp_apply (inthandler_saves k x m c r type dev dr (-2) V D Hv); [done |].
  cbv beta. intros [] k' V'. eexists. split; [exact V' | apply lookup_insert_eq].
Qed.

End devices.

(** ** The properties at concrete states *)

(** the registers of terminal 3 *)
Definition dr3 : devreg_t := mk_devreg 0 3 0 103.

Ltac check_device := apply device_check; [vm_compute; split; [discriminate | reflexivity] | vm_compute; reflexivity | vm_compute; reflexivity | vm_compute; eauto].

Lemma io_wait_then_interrupt_witness :
  leaves_with (waitforio 0x930) k5' (fun e k1 =>
    returns (inthandler TERMINAL 3) k1 (fun _ k2 => exists c2 r2 cp,
      kview k2 (mk_absq (seqZ 4 16) [2; 0; 3; 1] []) (<[dev_sem 3 := 0]> (ints (k_asl k5'))) c2 r2 /\
      c2 1 = Some cp /\ p_s cp = io_state dr3 (sys 8 3))).
Proof.
  pose proof (proj1 (in_state_enter 0x930 (sys 8 3) _ _ _ k5_state) : view k5' _) as V.
  apply (io_wait_then_interrupt k5' _ _ _ _ 0x1450 TERMINAL 3 dr3 1 [2; 0; 3] 0x930 (sys 8 3) V);
    [apply printer_check; vm_compute; eauto | check_device | reflexivity | vm_compute; reflexivity
    | vm_compute; reflexivity | reflexivity | vm_compute; reflexivity | reflexivity | simpl; lia].
Defined.

Lemma io_interrupt_then_wait_witness :
  returns (inthandler TERMINAL 3 ;; waitforio 0x930) k5' (fun _ k' => exists r',
    kview k' (mk_absq (seqZ 4 16) [1; 2; 0; 3] []) (<[dev_sem 3 := 0]> (ints (k_asl k5'))) (pcore (a_pq (k_asl k5'))) r' /\
    states r' = <[0x930 := io_state dr3 (sys 8 3)]> (states (krest k5'))).
Proof.
  pose proof (proj1 (in_state_enter 0x930 (sys 8 3) _ _ _ k5_state) : view k5' _) as V.
  apply (io_interrupt_then_wait k5' _ _ _ _ TERMINAL 3 dr3 0x930 (sys 8 3) V);
    [check_device | vm_compute; reflexivity | reflexivity | vm_compute; reflexivity].
Defined.

Lemma interrupt_resumes_interrupted_witness :
  leaves_with (device_handler TERMINAL old_terminal_state) k6i (fun e k' =>
    e = Leave (LDST (interrupt_state 3)) /\ exists x' c',
    kview k' x' (<[dev_sem 3 := 0]> (ints (k_asl k6i))) c' (krest k6i) /\ ready x' = [2; 0; 3; 1] /\
    (forall b, waiters b (blocked x') = if b =? dev_sem 3 then [] else waiters b [(dev_sem 3, [1])]) /\
    c' = upd 1 (io_result dr3) (pcore (a_pq (k_asl k6i)))).
Proof.
  pose proof (view_enter 0x9c8 (interrupt_state 3) _ _ (proj1 k6_state) : view k6i _) as V.
  apply (interrupt_resumes_interrupted k6i _ _ _ _ TERMINAL old_terminal_state (interrupt_state 3) dr3 2 [0; 3] 1 V);
    [vm_compute; reflexivity | reflexivity | check_device | vm_compute; reflexivity | vm_compute; reflexivity
    | | vm_compute; reflexivity].
  apply (bool_decide_unpack _). vm_compute. exact I.
Defined.

Lemma interrupt_ends_idleness_witness :
  exists cp, pcore (a_pq (k_asl k8i)) 0 = Some cp /\
  leaves_with (device_handler TERMINAL old_terminal_state) k8i (fun e k' =>
    e = Leave (LDST (io_state dr3 (p_s cp))) /\ exists x' c' r',
      kview k' x' (<[dev_sem 3 := 0]> (ints (k_asl k8i))) c' r' /\ ready x' = [0] /\
      (forall b, waiters b (blocked x') = if b =? dev_sem 3 then [] else waiters b [(dev_sem 3, [0])])).
Proof.
  pose proof (view_enter 0x9c8 (interrupt_state 3) _ _ k8_view : view k8i _) as V.
  destruct (pcore (a_pq (k_asl k8i)) 0) as [cp|] eqn:E; [| vm_compute in E; discriminate E].
  exists cp. split; [reflexivity |].
  apply (interrupt_ends_idleness k8i _ _ _ _ 0x1450 TERMINAL old_terminal_state (interrupt_state 3) dr3 0 cp V);
    [apply printer_check; vm_compute; eauto | vm_compute; reflexivity | reflexivity | check_device
    | vm_compute; reflexivity | vm_compute; reflexivity | vm_compute; reflexivity | exact E].
Defined.

Lemma interrupt_with_two_waiters_is_lost_witness :
  returns (inthandler TERMINAL 3) k5t (fun _ k' => exists r',
    kview k' (mk_absq (seqZ 4 16) [1; 2; 0; 3] [(dev_sem 3, [0; 3])]) (<[dev_sem 3 := -1]> (ints (k_asl k5t)))
      (pcore (a_pq (k_asl k5t))) r' /\
    save_arr r' !! 3 = Some (mk_saved (i32 (d_amnt dr3)) (i32 (d_stat dr3)))).
Proof.
  apply (interrupt_with_two_waiters_is_lost k5t _ _ _ _ TERMINAL 3 dr3 0 3 k5t_view);
    [check_device | vm_compute; reflexivity | vm_compute; reflexivity].
Defined.

