(* ===== verification/TrapProps.v ===== *)
(** * Properties: traps and the calls about them

    SYS5 ([Specify_Trap_State_Vector]), SYS6 ([Get_CPU_Time]), [pass_up] and the
    three trap handlers of [src/nucleus/traps/trap.c]. *)

From S2P Require Export Fixtures.
Local Open Scope kernel_scope.

Section traps.
Context `{MachineOk}.

(** C36. After SYS5 names the old area [o] and the new area [n] for the traps of a
    type, a trap of this type stores the state of the process in [o] and loads the
    state of [n]; the clock starts again for the process. *)
Theorem specified_trap_is_passed_up k x m c r p q cp old st a tr o n :
  let t := s_r st !!! 2%fin in
  kview k x m c r -> ready x = p :: q -> c p = Some cp ->
  states r !! old = Some st -> 0 <= t <= 2 -> (trap_areas t cp).1 = ENULL ->
  s_r st !!! 3%fin = o -> s_r st !!! 4%fin = n -> n <> ENULL ->
  states r !! a = Some tr -> is_Some (states r !! o) -> is_Some (states r !! n) ->
  leaves_with (Specify_Trap_State_Vector old ;; pass_up a t) k (fun e k' => exists st',
    <[o := tr]> (states r) !! n = Some st' /\ e = Leave (LDST st') /\
    exists c' r', kview k' x m c' r' /\ states r' = <[o := tr]> (states r)).
Proof.
  intros t V Hr Hc Hst Ht Hfresh Ho Hn Hn0 Ha Hso Hsn. apply wp_bind.
  wp_apply (specify_fresh k x m c r p q cp old st V Hr Hc Hst Ht Hfresh). cbv beta. intros [] k1 V1.
  fold t in V1. rewrite Ho, Hn in V1.
  assert (upd p (set_trap_areas t o n) c p = Some (set_trap_areas t o n cp)) as Hc1 by by rewrite upd_eq, Hc.
  pose proof (pass_up_spec k1 x m _ r p q _ a t tr V1 Hr Hc1 Ha Ht) as HP. rewrite trap_areas_set in HP.
  eapply wp_mono; [by apply HP | done |]. cbv beta. intros e k' (st' & Hst' & -> & V').
  exists st'. split_and!; [done | done |]. eexists _, _. split; [exact V' | done].
Qed.

(** C36. A second SYS5 for the same type of trap ends the process. *)
Theorem specify_twice_terminates k x m c r p q cp old st :
  kview k x m c r -> ready x = p :: q -> c p = Some cp -> states r !! old = Some st ->
  0 <= s_r st !!! 2%fin <= 2 -> (trap_areas (s_r st !!! 2%fin) cp).1 <> ENULL ->
  Specify_Trap_State_Vector old k = Terminate_Process k.
Proof. apply specify_again. Qed.

(** C37. A trap of a type for which the process named no area ends the process. *)
Theorem trap_without_handler_terminates k x m c r p q cp a t :
  kview k x m c r -> ready x = p :: q -> c p = Some cp -> 0 <= t <= 2 ->
  (trap_areas t cp).2 = ENULL -> pass_up a t k = Terminate_Process k.
Proof. apply pass_up_none. Qed.

(** C31. A program trap charges the process for the time since its dispatch, stores
    its state in its old area and loads its new area. *)
Theorem program_trap_is_passed_up k x m c r p q cp st :
  kview k x m c r -> ready x = p :: q -> c p = Some cp -> states r !! old_pro_state r = Some st ->
  prog_new cp <> ENULL -> is_Some (states r !! prog_old cp) -> is_Some (states r !! prog_new cp) ->
  leaves_with trapproghandler k
    (passed_up p (old_pro_state r) (prog_old cp) (prog_new cp) st x m
       (upd p (charged (clk (readings r))) c) (set_readings (S (readings r)) r)).
Proof. apply trapprog_spec. Qed.


(** C35. SYS6 through the whole handler: the process goes on with its processor
    time, the interval since its last dispatch included, in d2. *)
Theorem cpu_time_call k x m c r p q cp st :
  let a := old_sys_call_state r in
  kview k x m c r -> ready x = p :: q -> c p = Some cp -> states r !! a = Some st ->
  ps_s (s_sr st) = 1 -> sys_no (s_tmp st) = 6 ->
  let t := i32 (cpu_time cp + i32 (clk (readings r) - Procq.start_time cp)) in
  leaves_with trapsyshandler k (fun e k' => e = Leave (LDST (set_reg 2%fin t st)) /\
    exists c' r' cp', kview k' x m c' r' /\ c' p = Some cp' /\ cpu_time cp' = t /\
      Procq.start_time cp' = clk (S (readings r))).
Proof.
  intros a V Hr Hc Hst Hs Hno t. eapply (trapsys_call k x m c r p q cp st); [done | done | done | done | |].
  { unfold in_user_mode. by rewrite Hs. }
  intros k1 V1. rewrite Hno. change (syscall 6 ?b) with (Get_CPU_Time b). fold a.
  assert (upd p (charged (clk (readings r))) c p = Some (charged (clk (readings r)) cp)) as Hc1 by by rewrite upd_eq, Hc.
  wp_apply (get_cpu_time_spec k1 x m _ _ p q _ a st V1 Hr Hc1 Hst). cbv beta. intros [] k2 V2.
  assert (cpu_time (charged (clk (readings r)) cp) = t) as Et by by destruct cp.
  rewrite Et in V2. eexists _, _, _, _. split; [exact V2 |]. split; [by rewrite Hc1 |].
  split; [simpl; rewrite lookup_insert_eq; done |].
  intros e k3 (st3 & Hst3 & -> & V3). simpl in Hst3. rewrite lookup_insert_eq in Hst3. injection Hst3 as <-.
  split; [done |]. eexists _, _, _. split; [exact V3 |]. rewrite upd_eq, Hc1. split; [done |].
  split; [| by destruct cp]. rewrite <- Et. by destruct cp.
Qed.

End traps.

(** ** The properties at concrete states *)

(** the processor state of a trap, with the temporary word [t] *)
Definition trap_state (t s : Z) : state_t := set_tmp t (set_sr (set_ps_s s sr0) supervisor).

Definition k1s : kernel := enter 0x800 (trap_state 0 0) (enter 0x930 (sys5 0) k1).
Definition k9p : kernel := enter 0x800 (trap_state 0 0) k9.
Definition k9u : kernel := enter 0x930 (trap_state 3 0) k9.
Definition k9s : kernel := enter 0x930 (trap_state 6 1) k9.
Definition k9a : kernel := enter 0x930 (sys5 1) k9.

Lemma k1s_view : view k1s x1.
Proof. exact (view_enter _ _ _ _ (view_enter _ _ _ _ (proj1 k1_state))). Qed.

(** the entry [p] of the state [k] *)
Definition entry_in (p : Z) (k : kernel) : proc_t := default proc0 (pcore (a_pq (k_asl k)) p).

Lemma specified_trap_is_passed_up_witness :
  leaves_with (Specify_Trap_State_Vector 0x930 ;; pass_up 0x800 0) k1s (fun e k' => exists st',
    <[0x6098 := trap_state 0 0]> (states (krest k1s)) !! 0x60e4 = Some st' /\ e = Leave (LDST st') /\
    exists c' r', kview k' x1 (ints (k_asl k1s)) c' r' /\
      states r' = <[0x6098 := trap_state 0 0]> (states (krest k1s))).
Proof.
  eapply (specified_trap_is_passed_up k1s _ _ _ _ 0 [] (entry_in 0 k1s) 0x930 (sys5 0) 0x800 (trap_state 0 0)
    0x6098 0x60e4 k1s_view);
    [reflexivity | vm_compute; reflexivity | vm_compute; reflexivity | vm_compute; split; discriminate
    | vm_compute; reflexivity | reflexivity | reflexivity | discriminate
    | vm_compute; reflexivity | vm_compute; eauto | vm_compute; eauto].
Defined.

Lemma specify_twice_terminates_witness : Specify_Trap_State_Vector 0x930 k9a = Terminate_Process k9a.
Proof.
  apply (specify_twice_terminates k9a _ _ _ _ 0 [] (entry_in 0 k9a) 0x930 (sys5 1) (view_enter _ _ _ _ k9_view));
    [reflexivity | vm_compute; reflexivity | vm_compute; reflexivity | vm_compute; split; discriminate
    | vm_compute; discriminate].
Defined.

Lemma trap_without_handler_terminates_witness : pass_up 0x800 0 k1 = Terminate_Process k1.
Proof.
  apply (trap_without_handler_terminates k1 _ _ _ _ 0 [] (entry_in 0 k1) 0x800 0 (proj1 k1_state));
    [reflexivity | vm_compute; reflexivity | lia | vm_compute; reflexivity].
Defined.

Lemma program_trap_is_passed_up_witness :
  leaves_with trapproghandler k9p
    (passed_up 0 0x800 (prog_old (entry_in 0 k9p)) (prog_new (entry_in 0 k9p)) (trap_state 0 0) x1 (ints (k_asl k9p))
       (upd 0 (charged (clk (readings (krest k9p)))) (pcore (a_pq (k_asl k9p))))
       (set_readings (S (readings (krest k9p))) (krest k9p))).
Proof.
  apply (program_trap_is_passed_up k9p _ _ _ _ 0 [] (entry_in 0 k9p) (trap_state 0 0) (view_enter _ _ _ _ k9_view));
    [reflexivity | vm_compute; reflexivity | vm_compute; reflexivity | vm_compute; discriminate
    | vm_compute; eauto | vm_compute; eauto].
Defined.


Lemma cpu_time_call_witness :
  let t := i32 (cpu_time (entry_in 0 k9s) + i32 (clk (readings (krest k9s)) - Procq.start_time (entry_in 0 k9s))) in
  leaves_with trapsyshandler k9s (fun e k' => e = Leave (LDST (set_reg 2%fin t (trap_state 6 1))) /\
    exists c' r' cp', kview k' x1 (ints (k_asl k9s)) c' r' /\ c' 0 = Some cp' /\ cpu_time cp' = t /\
      Procq.start_time cp' = clk (S (readings (krest k9s)))).
Proof.
  apply (cpu_time_call k9s _ _ _ _ 0 [] (entry_in 0 k9s) (trap_state 6 1) (view_enter _ _ _ _ k9_view));
    [reflexivity | vm_compute; reflexivity | vm_compute; reflexivity | reflexivity | reflexivity].
Defined.

