(* ===== verification/QueueProps.v ===== *)
(** * Properties: the queues

    The operations of [src/queues/procq.c] and [src/queues/asl.c] refine the
    operations on the abstract queues of [Blocked.v]: [repr s tp x] says that the
    link cells, the descriptors and the semaphore vectors of [s] and the link [tp]
    of the ready queue represent [x]. *)

From S2P Require Export Fixtures.
Local Open Scope kernel_scope.

(** the entry [p] is in ten queues: it has no cell left *)
Lemma full_of_count s fl qs p : queues s fl qs -> pcount p (concat qs) = 10%nat -> full s p.
Proof.
  intros Q Hc. pose proof (qu_links _ _ _ Q) as L. set (F := filter (fun n => next n = p) (concat qs)).
  set (all := (fun j => mk_link j p) <$> seqZ 0 SEMMAX).
  assert (F ≡ₚ all) as HF.
  { apply submseteq_length_Permutation; [| change (10 <= pcount p (concat qs))%nat; lia].
    apply NoDup_submseteq; [apply NoDup_filter, (lo_nodup _ _ _ L) |].
    intros [i q] [Hq Hin]%list_elem_of_filter. simpl in Hq. subst q. destruct (lo_valid _ _ _ L _ Hin) as [_ Hi].
    simpl in Hi. apply list_elem_of_fmap. exists i. split; [done |]. apply elem_of_seqZ. lia. }
  intros i Hi. assert (mk_link i p ∈ F) as Hin.
  { rewrite HF. apply list_elem_of_fmap. exists i. split; [done |]. apply elem_of_seqZ. lia. }
  apply list_elem_of_filter in Hin as [_ Hin]. apply elem_of_concat_iff in Hin as (q & Hq & Hin).
  destruct (queue_content s _ q (mk_link i p) (qu_pwf _ _ _ Q) (qu_queue _ _ _ Q q Hq) Hin) as (l & Hl & _ & [_ Hv]).
  exists l. split; [done |]. unfold ENULL. lia.
Qed.

(** the processes of a queue, taken out one after the other *)
Fixpoint drain (n : nat) (tp : proc_link) : MA (proc_link * list Z) :=
  match n with
  | O => ret (tp, [])
  | S n' =>
      let! '(tp, p) := pq (removeProc tp) in
      let! '(tp, l) := drain n' tp in
      ret (tp, p :: l)
  end.

(** C24. [initProc] and [initSemd] make all twenty entries free, in the order of the
    table, with empty queues, whatever the memory held before. *)
Theorem init_all_free s :
  pwf (a_pq s) -> semd_dom s ->
  returns (pq initProc ;; initSemd) s (fun _ s' =>
    repr s' elink (mk_absq (seqZ 0 MAXPROC) [] []) /\ ints s' = ints s /\
    forall q, pcore (a_pq s') q = reset_core <$> pcore (a_pq s) q).
Proof. apply init_repr. Qed.

Section queues.
Context (s : asl) (tp : proc_link) (x : absq).
Hypothesis R : repr s tp x.


(** C25. [allocProc] hands out the entry that has been free longest, and [ENULL]
    when none is free. *)
Theorem allocProc_takes_first_free :
  returns (pq allocProc) s (fun p s' =>
    match free_procs x with
    | [] => p = ENULL /\ repr s' tp x
    | q :: fl => p = q /\ repr s' tp (set_free_procs fl x)
    end).
Proof. eapply wp_mono; [by apply (allocProc_repr s tp x) | by intros p s' (_ & _ & H) | done]. Qed.

(** C26. [freeProc] puts an entry that is in no queue last on the free list. *)
Theorem freeProc_appends p :
  0 <= p < MAXPROC -> p ∉ free_procs x -> in_queues p x = 0%nat ->
  returns (pq (freeProc p)) s (fun _ s' => repr s' tp (set_free_procs (free_procs x ++ [p]) x)).
Proof.
  intros H1 H2 H3. eapply wp_mono; [by apply (freeProc_repr s tp x R p) | by intros p' s' (_ & _ & H) | done].
Qed.

(** [insertProc] puts the entry at the tail of the queue, and panics with its
    message when the entry is already in ten queues. *)
Theorem insertProc_appends_or_panics p :
  0 <= p < MAXPROC -> p ∉ free_procs x -> p ∉ ready x ->
  wp (pq (insertProc tp p)) s
    (fun tp' s' => (in_queues p x < 10)%nat /\ repr s' tp' (set_ready (ready x ++ [p]) x))
    (fun e s' => e = Panic /\ in_queues p x = 10%nat /\ s' = set_a_pq (set_pncbuf msg_full (a_pq s)) s).
Proof.
  intros H1 H2 H3. pose proof (aw_count _ (repr_awf s tp x R) p) as Hle.
  destruct (decide (in_queues p x = 10%nat)) as [Hq|Hq].
  - destruct R as (rq & A & -> & Hr & Hb & _ & F & HI). pose proof (pi_queues _ _ _ _ _ HI) as Q.
    rewrite <- (in_queues_pcount _ _ _ _ _ _ Q Hr Hb) in Hq |- *. apply wp_pq.
    unfold wp. rewrite insertProc_full; [done | apply Q | done | by eapply full_of_count].
  - assert (in_queues p x < 10)%nat as Hlt by lia.
    eapply wp_mono; [by apply (insertProc_repr s tp x R p) | by intros tp' s' (_ & _ & H) | done].
Qed.

(** [outProc] takes the given entry out of the queue wherever it stands, and
    returns [ENULL], the queue unchanged, when it is not there. *)
Theorem outProc_removes_anywhere p :
  0 <= p ->
  returns (pq (outProc tp p)) s (fun r s' =>
    r.2 = (if decide (p ∈ ready x) then p else ENULL) /\
    repr s' r.1 (set_ready (filter (fun q => q <> p) (ready x)) x)).
Proof. intros Hp. eapply wp_mono; [by apply (outProc_repr s tp x R p) | by intros r s' (_ & _ & H) | done]. Qed.

(** [insertBlocked] puts the entry last in the queue of the semaphore, with a
    new descriptor at the end of the list when the semaphore has none; it returns
    TRUE, the state unchanged, when a descriptor is needed and all are in use. *)
Theorem insertBlocked_appends a p :
  0 <= p < MAXPROC -> a <> ENULL -> p ∉ free_procs x -> p ∉ waiters a (blocked x) -> (in_queues p x < 10)%nat ->
  returns (insertBlocked a p) s (fun b s' => ints s' = ints s /\
    if decide (a ∉ keys (blocked x) /\ length (blocked x) = 20%nat)
    then b = TRUE /\ s' = s
    else b = FALSE /\ repr s' tp (set_blocked (suspend a p (blocked x)) x)).
Proof.
  intros H1 H2 H3 H4 H5. eapply wp_mono; [by apply (insertBlocked_repr s tp x R a p) | | done].
  intros b s' (Hi & _ & H). by split.
Qed.

(** [removeBlocked] takes the first waiter of the semaphore, and its descriptor
    with the last one. *)
Theorem removeBlocked_takes_first a :
  a <> ENULL ->
  returns (removeBlocked a) s (fun p s' => p = List.hd ENULL (waiters a (blocked x)) /\ ints s' = ints s /\
    repr s' tp (set_blocked (resume a (blocked x)) x)).
Proof.
  intros Ha. eapply wp_mono; [by apply (removeBlocked_repr s tp x R a) | | done].
  intros p s' (Hi & _ & -> & HR). done.
Qed.

(** C36. [outBlocked] takes the entry out of the queues of all the semaphores it
    waits for, adds one to each of them and to no other word of memory, and
    returns the entry, or [ENULL] when it waits for none. *)
Theorem outBlocked_leaves_all p :
  0 <= p < MAXPROC -> (forall a, a ∈ waits_for p (blocked x) -> is_Some (ints s !! a)) ->
  returns (outBlocked p) s (fun r s' =>
    r = (if decide (waits_for p (blocked x) = []) then ENULL else p) /\
    (forall a, ints s' !! a =
      (if decide (a ∈ waits_for p (blocked x)) then fun v => i32 (v + 1) else id) <$> ints s !! a) /\
    repr s' tp (set_blocked (leave_all p (blocked x)) x)).
Proof. intros H1 H2. eapply wp_mono; [by apply (outBlocked_repr s tp x R p) | by intros r s' (_ & H) | done]. Qed.

(** C26. [headQueue], [headBlocked] and [headASL] change nothing and give the head
    of the ready queue, the first waiter of the semaphore, and whether any process
    is blocked. *)
Theorem heads_observe a :
  pq (headQueue tp) s = Ret (List.hd ENULL (ready x)) s /\
  headBlocked a s = Ret (List.hd ENULL (waiters a (blocked x))) s /\
  headASL s = Ret (if decide (blocked x = []) then FALSE else TRUE) s.
Proof. split_and!; [by apply headQueue_repr | by eapply headBlocked_repr | by eapply headASL_repr]. Qed.
End queues.

(** C26. The queues are first-in first-out: as many removals as the queue has
    entries give them in the order of their insertion, and empty it. *)
Theorem queue_is_fifo x : forall s tp, repr s tp x ->
  returns (drain (length (ready x)) tp) s (fun r s' => r.2 = ready x /\ repr s' r.1 (set_ready [] x)).
Proof.
  remember (ready x) as l eqn:El. revert x El. induction l as [|p l IH]; intros x El s tp R; cbn [length drain].
  - apply wp_ret. split; [done |]. replace (set_ready [] x) with x; [done |]. rewrite El. by destruct x.
  - wp_step. wp_apply (removeProc_repr s tp x R). rewrite <- El. intros [tp1 p1] s1 (_ & _ & Hp & R1).
    simpl in Hp, R1. subst p1. cbv beta iota. wp_step. wp_apply (IH (set_ready l x) eq_refl s1 tp1 R1).
    intros [tp2 l2] s2 [H2 R2]. simpl in H2, R2. apply wp_ret. split; [simpl; by rewrite H2 | exact R2].
Qed.

(** ** The properties at concrete states *)

Definition s6 : asl := k_asl k6.
Definition tp6 : proc_link := running_queue k6.
Definition x6 : absq := mk_absq (seqZ 4 16) [2; 0; 3] [(dev_sem 3, [1])].

Lemma s6_repr : repr s6 tp6 x6.
Proof. exact (kv_repr _ _ _ _ _ (proj1 k6_state)). Qed.

(** process 4 has been taken from the free list *)
Definition s6a : asl := match pq allocProc s6 with Ret _ s => s | Exn _ s => s end.

Lemma s6a_repr : repr s6a tp6 (set_free_procs (seqZ 5 15) x6).
Proof.
  destruct (returns_inv _ _ _ (allocProc_repr s6 tp6 x6 s6_repr)) as (p & s & E & _ & _ & _ & R).
  unfold s6a. by rewrite E.
Qed.

Lemma init_all_free_witness :
  returns (pq initProc ;; initSemd) (asl0 ints0) (fun _ s' =>
    repr s' elink (mk_absq (seqZ 0 MAXPROC) [] []) /\ ints s' = ints (asl0 ints0) /\
    forall q, pcore (a_pq s') q = reset_core <$> pcore (a_pq (asl0 ints0)) q).
Proof. apply (init_all_free (asl0 ints0)); [exact procq0_pwf | exact (asl0_semds ints0)]. Defined.


Lemma allocProc_takes_first_free_witness :
  returns (pq allocProc) s6 (fun p s' => p = 4 /\ repr s' tp6 (set_free_procs (seqZ 5 15) x6)).
Proof. exact (allocProc_takes_first_free s6 tp6 x6 s6_repr). Defined.

Lemma freeProc_appends_witness :
  returns (pq (freeProc 4)) s6a (fun _ s' =>
    repr s' tp6 (set_free_procs (seqZ 5 15 ++ [4]) (set_free_procs (seqZ 5 15) x6))).
Proof.
  apply (freeProc_appends s6a tp6 _ s6a_repr 4); [unfold MAXPROC; lia | apply (bool_decide_unpack _); vm_compute; exact I | vm_compute; reflexivity].
Defined.

Lemma insertProc_appends_or_panics_witness :
  wp (pq (insertProc tp6 1)) s6
    (fun tp' s' => (in_queues 1 x6 < 10)%nat /\ repr s' tp' (set_ready ([2; 0; 3] ++ [1]) x6))
    (fun e s' => e = Panic /\ in_queues 1 x6 = 10%nat /\ s' = set_a_pq (set_pncbuf msg_full (a_pq s6)) s6).
Proof.
  apply (insertProc_appends_or_panics s6 tp6 x6 s6_repr 1); [unfold MAXPROC; lia | |]; apply (bool_decide_unpack _); vm_compute; exact I.
Defined.

Lemma outProc_removes_anywhere_witness :
  returns (pq (outProc tp6 0)) s6 (fun r s' =>
    r.2 = (if decide (0 ∈ ready x6) then 0 else ENULL) /\
    repr s' r.1 (set_ready (filter (fun q => q <> 0) (ready x6)) x6)).
Proof. apply (outProc_removes_anywhere s6 tp6 x6 s6_repr 0). lia. Defined.

Lemma insertBlocked_appends_witness :
  returns (insertBlocked 0x5000 2) s6 (fun b s' => ints s' = ints s6 /\
    if decide (0x5000 ∉ keys (blocked x6) /\ length (blocked x6) = 20%nat)
    then b = TRUE /\ s' = s6
    else b = FALSE /\ repr s' tp6 (set_blocked (suspend 0x5000 2 (blocked x6)) x6)).
Proof.
  apply (insertBlocked_appends s6 tp6 x6 s6_repr 0x5000 2);
    [unfold MAXPROC; lia | discriminate | apply (bool_decide_unpack _); vm_compute; exact I
    | apply (bool_decide_unpack _); vm_compute; exact I | vm_compute; lia].
Defined.

Lemma removeBlocked_takes_first_witness :
  returns (removeBlocked (dev_sem 3)) s6 (fun p s' =>
    p = List.hd ENULL (waiters (dev_sem 3) (blocked x6)) /\ ints s' = ints s6 /\
    repr s' tp6 (set_blocked (resume (dev_sem 3) (blocked x6)) x6)).
Proof. apply (removeBlocked_takes_first s6 tp6 x6 s6_repr (dev_sem 3)). discriminate. Defined.

Lemma outBlocked_leaves_all_witness :
  returns (outBlocked 1) s6 (fun r s' =>
    r = (if decide (waits_for 1 (blocked x6) = []) then ENULL else 1) /\
    (forall a, ints s' !! a =
      (if decide (a ∈ waits_for 1 (blocked x6)) then fun v => i32 (v + 1) else id) <$> ints s6 !! a) /\
    repr s' tp6 (set_blocked (leave_all 1 (blocked x6)) x6)).
Proof.
  apply (outBlocked_leaves_all s6 tp6 x6 s6_repr 1); [unfold MAXPROC; lia |].
  intros a Ha. assert (a = dev_sem 3) as -> by by apply list_elem_of_singleton in Ha.
  vm_compute. eauto.
Defined.

Lemma heads_observe_witness :
  pq (headQueue tp6) s6 = Ret (List.hd ENULL (ready x6)) s6 /\
  headBlocked (dev_sem 3) s6 = Ret (List.hd ENULL (waiters (dev_sem 3) (blocked x6))) s6 /\
  headASL s6 = Ret (if decide (blocked x6 = []) then FALSE else TRUE) s6.
Proof.
  destruct (heads_observe s6 tp6 x6 s6_repr (dev_sem 3)) as (H1 & H2 & H3).
  split; [exact H1 |]. split; [exact H2 |]. exact H3.
Defined.

Lemma queue_is_fifo_witness :
  returns (drain 3 tp6) s6 (fun r s' => r.2 = [2; 0; 3] /\ repr s' r.1 (set_ready [] x6)).
Proof. exact (queue_is_fifo x6 s6 tp6 s6_repr). Defined.
