(* ===== verification/BootProps.v ===== *)
(** * Properties: start-up and the machine

    [main], and the overlapping fields of the temporary word. *)

From S2P Require Export Fixtures.
Local Open Scope kernel_scope.

Section boot.
Context `{MachineOk}.

(** C35. From any loaded image, [main] installs the exception vectors and, for each
    trap and interrupt, a new area that runs its handler in privileged mode with
    interrupts masked on the nucleus's stack; it clears the semaphores of the
    devices and of the pseudo-clock; and it dispatches the first process, entry 0,
    a tree of its own, at [p1] with its stack two pages below the nucleus's, with
    the other nineteen entries free and no process blocked. *)
Theorem main_boots k :
  loaded k ->
  leaves_with main k (fun e k' => exists m c r st,
    let x := mk_absq (seqZ 1 (MAXPROC - 1)) [0] [] in
    kview k' x m c r /\ tree_inv x m c (Node 0 []) /\
    e = Leave (LDST st) /\ s_pc st = sym sym_p1 /\ s_sp st = s_sp (stst (ststs k)) - 2 * PAGESIZE /\
    (forall a f, (a, f) ∈ trap_vectors -> m !! a = Some (sym f)) /\
    m !! clock_lock = Some 0 /\ (forall i, 0 <= i < 15 -> m !! dev_sem i = Some 0) /\
    forall a h, (a, h) ∈ all_areas -> exists st', states r !! (a + STATE_SIZE) = Some st' /\
      s_pc st' = sym h /\ s_sp st' = s_sp (stst (ststs k)) /\
      ps_s (s_sr st') = 1 /\ ps_m (s_sr st') = 0 /\ ps_int (s_sr st') = 7).
Proof.
  intros LD. eapply wp_mono; [exact (main_spec k LD) | done |].
  intros e k' (m & r & c & cp & HI & Ec & Hc & Hps & (cp' & Hc' & -> & V)).
  rewrite Hc in Hc'. injection Hc' as <-.
  destruct (first_state_spec (stst (ststs k)) (stst (S (ststs k)))) as [Hpc Hsp].
  eexists m, _, _, _. cbv zeta. split; [exact V |]. split.
  { rewrite Ec. do 2 (apply tree_inv_upd; [by intros [] |]). apply tree_inv_first, LD. }
  split; [done |]. rewrite Hps. split; [done |]. split; [done |].
  split; [apply HI |]. split; [apply HI |]. split; [apply HI |].
  intros a h Hah. destruct (ii_areas _ _ _ _ HI a h Hah) as (st0 & _ & Hst). eexists. split; [exact Hst |].
  apply (new_area_spec (sym h) (s_sp (stst (ststs k))) st0).
Qed.
End boot.

(** C38. The fields of the temporary word overlap as in the union of [types.h]:
    writing the type of a program trap sets the number of the system call to the
    same value, and the device number to its last three bits, and leaves the type
    and the segment of a memory management trap alone. *)
Theorem tmp_fields_overlap v t :
  pr_typ (set_pr_typ v t) = v mod 256 /\ sys_no (set_pr_typ v t) = v mod 256 /\
  in_dno (set_pr_typ v t) = v mod 8 /\
  mm_typ (set_pr_typ v t) = mm_typ t /\ mm_seg (set_pr_typ v t) = mm_seg t.
Proof.
  assert (pr_typ (set_pr_typ v t) = v mod 256) as E.
  { unfold pr_typ, set_pr_typ. rewrite bits_set_bits by lia. by rewrite Z.land_ones by lia. }
  split; [done |]. split; [exact E |]. split.
  - assert (in_dno (set_pr_typ v t) = pr_typ (set_pr_typ v t) mod 8) as ->.
    { unfold in_dno, pr_typ, bits. rewrite !Z.shiftr_0_r, !Z.land_ones by lia. change (2 ^ 8) with (2 ^ 3 * 32).
      rewrite Z.rem_mul_r by lia. rewrite Z.mul_comm, Z.mod_add by lia. by rewrite Z.mod_mod. }
    rewrite E. change 256 with (8 * 32). rewrite Z.rem_mul_r by lia.
    by rewrite Z.mul_comm, Z.mod_add, Z.mod_mod by lia.
  - split; by apply bits_set_bits_above.
Qed.

Lemma main_boots_witness :
  leaves_with main kernel0 (fun e k' => exists m c r st,
    let x := mk_absq (seqZ 1 (MAXPROC - 1)) [0] [] in
    kview k' x m c r /\ tree_inv x m c (Node 0 []) /\
    e = Leave (LDST st) /\ s_pc st = sym sym_p1 /\ s_sp st = s_sp (stst (ststs kernel0)) - 2 * PAGESIZE /\
    (forall a f, (a, f) ∈ trap_vectors -> m !! a = Some (sym f)) /\
    m !! clock_lock = Some 0 /\ (forall i, 0 <= i < 15 -> m !! dev_sem i = Some 0) /\
    forall a h, (a, h) ∈ all_areas -> exists st', states r !! (a + STATE_SIZE) = Some st' /\
      s_pc st' = sym h /\ s_sp st' = s_sp (stst (ststs kernel0)) /\
      ps_s (s_sr st') = 1 /\ ps_m (s_sr st') = 0 /\ ps_int (s_sr st') = 7).
Proof. exact (main_boots kernel0 kernel0_loaded). Defined.
