(* ===== verification/P1Test.v ===== *)
(** * The test programs of phase 1

    [src/queues/p1test.c] and [src/queues/p1test2.c], which drive the operations of
    [procq.c] and [asl.c] and trap when one does not do what they expect. *)

From S2P Require Export Asl.
Local Open Scope kernel_scope.

(** the globals of the test programs beside the queues under test *)
Record test := mk_test {
  t_asl : asl;
  okbuf : string;
  errbuf : string;
  procp : array Z;
  t_p : Z; t_q : Z; t_q1 : Z; t_q2 : Z; t_q3 : Z;
  firstproc : Z; lastproc : Z; midproc : Z;
  ql : proc_link }.

Definition set_t_asl v t := mk_test v (okbuf t) (errbuf t) (procp t) (t_p t) (t_q t) (t_q1 t) (t_q2 t) (t_q3 t) (firstproc t) (lastproc t) (midproc t) (ql t).
Definition set_okbuf v t := mk_test (t_asl t) v (errbuf t) (procp t) (t_p t) (t_q t) (t_q1 t) (t_q2 t) (t_q3 t) (firstproc t) (lastproc t) (midproc t) (ql t).
Definition set_errbuf v t := mk_test (t_asl t) (okbuf t) v (procp t) (t_p t) (t_q t) (t_q1 t) (t_q2 t) (t_q3 t) (firstproc t) (lastproc t) (midproc t) (ql t).
Definition set_procp v t := mk_test (t_asl t) (okbuf t) (errbuf t) v (t_p t) (t_q t) (t_q1 t) (t_q2 t) (t_q3 t) (firstproc t) (lastproc t) (midproc t) (ql t).
Definition set_p v t := mk_test (t_asl t) (okbuf t) (errbuf t) (procp t) v (t_q t) (t_q1 t) (t_q2 t) (t_q3 t) (firstproc t) (lastproc t) (midproc t) (ql t).
Definition set_q v t := mk_test (t_asl t) (okbuf t) (errbuf t) (procp t) (t_p t) v (t_q1 t) (t_q2 t) (t_q3 t) (firstproc t) (lastproc t) (midproc t) (ql t).
Definition set_q1 v t := mk_test (t_asl t) (okbuf t) (errbuf t) (procp t) (t_p t) (t_q t) v (t_q2 t) (t_q3 t) (firstproc t) (lastproc t) (midproc t) (ql t).
Definition set_q2 v t := mk_test (t_asl t) (okbuf t) (errbuf t) (procp t) (t_p t) (t_q t) (t_q1 t) v (t_q3 t) (firstproc t) (lastproc t) (midproc t) (ql t).
Definition set_q3 v t := mk_test (t_asl t) (okbuf t) (errbuf t) (procp t) (t_p t) (t_q t) (t_q1 t) (t_q2 t) v (firstproc t) (lastproc t) (midproc t) (ql t).
Definition set_firstproc v t := mk_test (t_asl t) (okbuf t) (errbuf t) (procp t) (t_p t) (t_q t) (t_q1 t) (t_q2 t) (t_q3 t) v (lastproc t) (midproc t) (ql t).
Definition set_lastproc v t := mk_test (t_asl t) (okbuf t) (errbuf t) (procp t) (t_p t) (t_q t) (t_q1 t) (t_q2 t) (t_q3 t) (firstproc t) v (midproc t) (ql t).
Definition set_midproc v t := mk_test (t_asl t) (okbuf t) (errbuf t) (procp t) (t_p t) (t_q t) (t_q1 t) (t_q2 t) (t_q3 t) (firstproc t) (lastproc t) v (ql t).
Definition set_ql v t := mk_test (t_asl t) (okbuf t) (errbuf t) (procp t) (t_p t) (t_q t) (t_q1 t) (t_q2 t) (t_q3 t) (firstproc t) (lastproc t) (midproc t) v.

Definition MT := M exn test.

(** the operations under test *)
Definition ta {A} (m : MA A) : MT A := zoom t_asl set_t_asl m.
Definition tq {A} (m : MQ A) : MT A := ta (pq m).

(** [insertProc(&ql, p)], [removeProc(&ql)], [outProc(&ql, p)], [headQueue(ql)] *)
Definition insert_ql (p : Z) : MT unit :=
  let! l := gets ql in
  let! tp := tq (insertProc l p) in
  modify (set_ql tp).
Definition remove_ql : MT Z :=
  let! l := gets ql in
  let! '(tp, rv) := tq (removeProc l) in
  modify (set_ql tp) ;; ret rv.
Definition out_ql (p : Z) : MT Z :=
  let! l := gets ql in
  let! '(tp, rv) := tq (outProc l p) in
  modify (set_ql tp) ;; ret rv.
Definition head_ql : MT Z :=
  let! l := gets ql in tq (headQueue l).

(** [procp[i]] and [procp[i] = v] *)
Definition get_procp (i : Z) : MT Z := gets_opt Fault (fun t => procp t !! i).
Definition put_procp (i v : Z) : MT unit :=
  let! old := get_procp i in
  modify (fun t => set_procp (<[i := v]> (procp t)) t).

(** a message of progress is appended *)
Definition addokbuf (sp : string) : MT unit := modify (fun t => set_okbuf (okbuf t +:+ sp) t).
(** an error is recorded and the program traps *)
Definition adderrbuf (sp : string) : MT unit := modify (set_errbuf sp) ;; raise Panic.

Definition check (bad : bool) (sp : string) : MT unit := if bad then adderrbuf sp else ret tt.

Section p1test.
(** the addresses of [sem[0]] and of [onesem] *)
Context (addr_sem addr_onesem : Z).

Definition sem (i : Z) : Z := addr_sem + 4 * i.

(** *** [p1test.c]: the process queues (lines 34 to 105) *)

Definition p1_alloc : MT unit :=
  tq initProc ;;
  addokbuf "Initialized process queues   " ;;
  for_ 0 MAXPROC (fun i =>
    let! r := tq allocProc in
    put_procp i r ;;
    check (r =? ENULL) "allocProc: unexpected ENULL   ") ;;
  let! r := tq allocProc in
  check (negb (r =? ENULL)) "allocProc: allocated more than MAXPROC entries   " ;;
  addokbuf "allocProc ok   " ;;
  for_ 10 MAXPROC (fun i => let! r := get_procp i in tq (freeProc r)) ;;
  addokbuf "freed 10 entries   ".

Definition p1_insert : MT unit :=
  modify (fun t => set_ql (mk_link (index (ql t)) ENULL) t) ;;
  modify (fun t => set_ql (mk_link ENULL (next (ql t))) t) ;;
  addokbuf "Inserting...   " ;;
  for_ 0 10 (fun i =>
    let! r := tq allocProc in
    modify (set_q r) ;;
    check (r =? ENULL) "allocProc: unexpected ENULL while insert   " ;;
    (if i =? 0 then modify (set_firstproc r)
     else if i =? 5 then modify (set_midproc r)
     else if i =? 9 then modify (set_lastproc r)
     else ret tt) ;;
    insert_ql r) ;;
  addokbuf "inserted 10 elements   ".

Definition p1_out : MT unit :=
  let! q := head_ql in
  modify (set_q q) ;;
  let! f := gets firstproc in
  check (negb (q =? f)) "headQueue failed   " ;;
  let! q := out_ql f in
  modify (set_q q) ;;
  check ((q =? ENULL) || negb (q =? f)) "outProc failed on first entry   " ;;
  tq (freeProc q) ;;
  let! mid := gets midproc in
  let! q := out_ql mid in
  modify (set_q q) ;;
  check ((q =? ENULL) || negb (q =? mid)) "outProc failed on middle entry   " ;;
  tq (freeProc q) ;;
  let! p0 := get_procp 0 in
  let! r := out_ql p0 in
  check (negb (r =? ENULL)) "outProc failed on nonexistent entry   " ;;
  addokbuf "outProc ok   ".

Definition p1_remove : MT unit :=
  addokbuf "Removing...   " ;;
  for_ 0 8 (fun _ =>
    let! q := remove_ql in
    modify (set_q q) ;;
    check (q =? ENULL) "removeProc: unexpected ENULL   " ;;
    tq (freeProc q)) ;;
  let! q := gets t_q in
  let! l := gets lastproc in
  check (negb (q =? l)) "removeProc: failed on last entry   " ;;
  let! r := remove_ql in
  check (negb (r =? ENULL)) "removeProc: removes too many entries   " ;;
  for_ 0 10 (fun i => let! r := get_procp i in tq (freeProc r)) ;;
  addokbuf "insertProc and removeProc ok   " ;;
  addokbuf "process queue module ok      ".

(** *** [p1test.c]: the semaphore list (lines 108 to 167) *)

Definition p1_block : MT unit :=
  ta initSemd ;;
  addokbuf "Initialized semaphore list   " ;;
  for_ 10 MAXPROC (fun i =>
    let! r := tq allocProc in
    put_procp i r ;;
    let! b := ta (insertBlocked (sem i) r) in
    check (negb (b =? 0)) "insertBlocked(1): unexpected TRUE   ") ;;
  for_ 0 10 (fun i =>
    let! r := tq allocProc in
    put_procp i r ;;
    let! b := ta (insertBlocked (sem i) r) in
    check (negb (b =? 0)) "insertBlocked(2): unexpected TRUE   ").

Definition p1_unblock : MT unit :=
  let! p := ta (removeBlocked (sem 11)) in
  modify (set_p p) ;;
  let! b := ta (insertBlocked (sem 11) p) in
  check (negb (b =? 0)) "removeBlocked: fails to return to free list   " ;;
  let! p9 := get_procp 9 in
  let! b := ta (insertBlocked addr_onesem p9) in
  check (b =? FALSE) "insertBlocked: inserted more than MAXPROC   " ;;
  for_ 10 MAXPROC (fun i =>
    let! q := ta (removeBlocked (sem i)) in
    modify (set_q q) ;;
    check (q =? ENULL) "removeBlocked: wouldn't remove   " ;;
    let! r := get_procp i in
    check (negb (q =? r)) "removeBlocked: removed wrong element   " ;;
    let! b := ta (insertBlocked (sem (i - 10)) q) in
    check (negb (b =? 0)) "insertBlocked(3): unexpected TRUE   ") ;;
  let! r := ta (removeBlocked (sem 11)) in
  check (negb (r =? ENULL)) "removeBlocked: removed nonexistent blocked proc   " ;;
  addokbuf "insertBlocked and removeBlocked ok   ".

Definition p1_head : MT unit :=
  let! r := ta (headBlocked (sem 11)) in
  check (negb (r =? ENULL)) "headBlocked: nonENULL for a nonexistent queue   " ;;
  let! q := ta (headBlocked (sem 9)) in
  modify (set_q q) ;;
  check (q =? ENULL) "headBlocked(1): ENULL for an existent queue   " ;;
  let! p9 := get_procp 9 in
  check (negb (q =? p9)) "headBlocked(1): wrong process returned   " ;;
  let! p := ta (outBlocked q) in
  modify (set_p p) ;;
  check (negb (p =? q)) "outBlocked(1): couldn't remove from valid queue   " ;;
  let! q := ta (headBlocked (sem 9)) in
  modify (set_q q) ;;
  check (q =? ENULL) "headBlocked(2): ENULL for an existent queue   " ;;
  let! p19 := get_procp 19 in
  check (negb (q =? p19)) "headBlocked(2): wrong process returned   " ;;
  let! p := ta (outBlocked q) in
  modify (set_p p) ;;
  check (negb (p =? q)) "outBlocked(2): couldn't remove from valid queue   " ;;
  let! p := ta (outBlocked q) in
  modify (set_p p) ;;
  check (negb (p =? ENULL)) "outBlocked: removed same process twice." ;;
  let! r := ta (headBlocked (sem 9)) in
  check (negb (r =? ENULL)) "out/headBlocked: unexpected nonempty queue   " ;;
  addokbuf "headBlocked and outBlocked ok   " ;;
  addokbuf "ASL module ok   " ;;
  addokbuf "Successful mission Captain Kirk".

Definition p1test : MT unit :=
  p1_alloc ;; p1_insert ;; p1_out ;; p1_remove ;; p1_block ;; p1_unblock ;; p1_head.

(** *** [p1test2.c]: processes in several semaphore queues *)

Definition maxloop : Z := 3.

(** a process blocks on three semaphores; [n] numbers the messages *)
Definition block_three (i : Z) (m0 m1 m2 : string) : MT Z :=
  let! r := tq allocProc in
  put_procp i r ;;
  let! b := ta (insertBlocked (sem i) r) in
  check (negb (b =? 0)) m0 ;;
  let! b := ta (insertBlocked (sem (i + 1)) r) in
  check (negb (b =? 0)) m1 ;;
  let! b := ta (insertBlocked (sem (i + 2)) r) in
  check (negb (b =? 0)) m2 ;;
  ret r.

Definition p2_start : MT unit :=
  tq initProc ;;
  addokbuf "Initialized process queues   " ;;
  ta initSemd ;;
  addokbuf "Initialized semaphore list   " ;;
  for_ 0 maxloop (fun i =>
    let! _ := block_three i "insertBlocked(0): unexpected TRUE   " "insertBlocked(1): unexpected TRUE   "
      "insertBlocked(2): unexpected TRUE   " in ret tt) ;;
  addokbuf "ASL inserted ok   " ;;
  for_ 0 maxloop (fun i =>
    let! q1 := ta (removeBlocked (sem i)) in
    modify (set_q1 q1) ;;
    let! q2 := ta (removeBlocked (sem (i + 1))) in
    modify (set_q2 q2) ;;
    let! q3 := ta (removeBlocked (sem (i + 2))) in
    modify (set_q3 q3) ;;
    check (negb (q1 =? q2) || negb (q1 =? q3)) "removeBlocked: removed procs are not the same" ;;
    check (q1 =? ENULL) "removeBlocked: wouldn't remove   " ;;
    let! r := get_procp i in
    check (negb (q1 =? r)) "removeBlocked: removed wrong element   ") ;;
  addokbuf "ASL removed ok   ".

Definition p2_out : MT unit :=
  for_ 0 maxloop (fun i =>
    let! r := block_three i "insertBlocked(3): unexpected TRUE   " "insertBlocked(4): unexpected TRUE   "
      "insertBlocked(5): unexpected TRUE   " in
    let! h := ta (headBlocked (sem (i + 2))) in
    check (negb (h =? r)) "headBlocked(5): wrong process at the head of the queue   ") ;;
  let! q := get_procp 1 in
  modify (set_q q) ;;
  let! p := ta (outBlocked q) in
  modify (set_p p) ;;
  check (negb (p =? q)) "outBlocked(1): couldn't remove from valid queue   " ;;
  let! p := ta (outBlocked q) in
  modify (set_p p) ;;
  check (negb (p =? ENULL)) "outBlocked: removed nonexistent process.  " ;;
  addokbuf "ASL outBlocked ok   ".

(** the [n] semaphores from [lo] on each release [r] *)
Definition release (lo n r : Z) (msg : string) : MT unit :=
  for_ lo (lo + n) (fun i =>
    let! q1 := ta (removeBlocked (sem i)) in
    modify (set_q1 q1) ;;
    check (negb (q1 =? r)) msg).

Definition p2_end : MT unit :=
  let! p0 := get_procp 0 in
  release 0 maxloop p0 "removeBlocked: did not remove procp[0]" ;;
  let! p2 := get_procp 2 in
  release 2 maxloop p2 "removeBlocked: did not remove procp[2]" ;;
  release 0 (maxloop + 2) ENULL "removeBlocked: removed nonexistent proc " ;;
  addokbuf "ASL module ok   ".

Definition p1test2 : MT unit := p2_start ;; p2_out ;; p2_end.
End p1test.

(** the state before a test: static storage is zero *)
Definition test0 (cells : gmap Z Z) : test :=
  mk_test (asl0 cells) EmptyString EmptyString (mk_array 20 0) 0 0 0 0 0 0 0 0 (mk_link 0 0).
