(* ===== verification/TestProps.v ===== *)
(** * Properties: the test programs of phase 1 succeed *)

From S2P Require Export P1Test.
Local Open Scope kernel_scope.

(** the [int]s [sem[0..19]] at 0x3000 and [onesem] at 0x3100 *)
Definition test_cells : gmap Z Z := list_to_map (((fun i => (0x3000 + 4 * i, 0)) <$> seqZ 0 20) ++ [(0x3100, 0)]).

Definition run_test (m : MT unit) : option (string * string) :=
  match m (test0 test_cells) with
  | Ret _ t => Some (okbuf t, errbuf t)
  | Exn _ _ => None
  end.

(** what [addokbuf] writes on the first terminal during [p1test] *)
Definition p1_messages : string := "Initialized process queues   allocProc ok   freed 10 entries   Inserting...   inserted 10 elements   outProc ok   Removing...   insertProc and removeProc ok   process queue module ok      Initialized semaphore list   insertBlocked and removeBlocked ok   headBlocked and outBlocked ok   ASL module ok   Successful mission Captain Kirk"%string.

(** The test programs [p1test.c] and [p1test2.c] run to their end without an
    error, on the operations as translated: the messages of progress are the ones
    of a correct implementation, and they fit in the 512 bytes of [okbuf]. *)
Theorem phase1_tests_succeed :
  exists ok ok2,
    run_test (p1test 0x3000 0x3100) = Some (ok, EmptyString) /\
    run_test (p1test2 0x3000) = Some (ok2, EmptyString) /\
    (String.length ok < 512)%nat /\ (String.length ok2 < 512)%nat /\ ok = p1_messages.
Proof.
  eexists _, _. split; [vm_compute; reflexivity |]. split; [vm_compute; reflexivity |].
  split; [apply Nat.ltb_lt; vm_compute; reflexivity |]. split; [apply Nat.ltb_lt; vm_compute; reflexivity | reflexivity].
Qed.
