(* ===== verification/User.v ===== *)
(** * Programs that run on the nucleus

    The processes of the test programs and of the support level are C programs
    that read and write memory, registers and device registers, and trap into the
    nucleus.  They are interaction trees: an event is one access ([Atom]) or one
    trap ([Trap]); a program may loop for ever.

    A [machine] executes such programs on the nucleus: a trap or an interrupt goes
    through the exception vector and the stub in it ([src/util/STLD*.s]) to the
    handler that the new area names, the handler of [Nucleus.v] and [Syscall.v]
    runs to its end, and the processor state it loads is resumed.  The program
    counter of a state stands for the rest of the program that was suspended with
    it: each suspension takes a fresh one. *)

From ITree Require Core.ITreeDefinition.
From S2P Require Export Syscall.
Local Open Scope kernel_scope.

(** ** Programs *)

(** memory and devices belong to [kernel]; [u_cpu] is the register file, and [u_g]
    holds the globals of the program that the nucleus never reads *)
Record user {G : Type} := mk_user { u_k : kernel; u_cpu : state_t; u_g : G }.
#[global] Arguments user G : clear implicits.
#[global] Arguments mk_user {G}.
Definition set_u_k {G} v (u : user G) := mk_user v (u_cpu u) (u_g u).
Definition set_u_cpu {G} v (u : user G) := mk_user (u_k u) v (u_g u).
Definition set_u_g {G} (v : G) (u : user G) := mk_user (u_k u) (u_cpu u) v.

Inductive trap : Type :=
  | Sys (n : Z)            (* SYSn *)
  | ZeroDivide
  | MemFault (tmp : Z).    (* a translation that fails, with the word at 0x412 *)

Inductive userE (G : Type) : Type -> Type :=
  | Atom (A : Type) (m : M exn (user G) A) : userE G A
  | Trap (t : trap) : userE G unit.
#[global] Arguments Atom {G A} m.
#[global] Arguments Trap {G} t.

Abbreviation prog G := (ITreeDefinition.itree (userE G)).

Definition pret {G A} (a : A) : prog G A := ITreeDefinition.go (ITreeDefinition.RetF a).
Definition pbind {G A B} (m : prog G A) (k : A -> prog G B) : prog G B := ITreeDefinition.ITree.bind m k.
Definition event {G A} (e : userE G A) : prog G A := ITreeDefinition.ITree.trigger e.

Declare Scope user_scope.
Delimit Scope user_scope with U.
Notation "'let!' x ':=' m 'in' k" := (pbind m (fun x => k))
  (at level 10, x name, m at level 100, k at level 200) : user_scope.
Notation "m ';;' k" := (pbind m (fun _ => k))
  (at level 100, right associativity) : user_scope.

Section programs.
Context {G : Type}.

Definition atom {A} (m : M exn (user G) A) : prog G A := event (Atom m).
(** an access to memory or to a device *)
Definition mem {A} (m : MK A) : prog G A := atom (zoom u_k set_u_k m).

(** [for (i = lo; i < hi; i++) body], and the same with a [break] *)
Fixpoint piterate (lo : Z) (n : nat) (body : Z -> prog G unit) : prog G unit :=
  match n with
  | O => pret tt
  | S n' => (body lo ;; piterate (lo + 1) n' body)%U
  end.
Definition pfor (lo hi : Z) (body : Z -> prog G unit) : prog G unit :=
  piterate lo (Z.to_nat (hi - lo)) body.

Fixpoint pfind (lo : Z) (n : nat) (body : Z -> prog G bool) : prog G unit :=
  match n with
  | O => pret tt
  | S n' => (let! stop := body lo in if stop then pret tt else pfind (lo + 1) n' body)%U
  end.
Definition pfor_break (lo hi : Z) (body : Z -> prog G bool) : prog G unit :=
  pfind lo (Z.to_nat (hi - lo)) body.

(** [while (c) body] *)
Definition pwhile (c : prog G bool) (body : prog G unit) : prog G unit :=
  ITreeDefinition.ITree.iter
    (fun _ : unit => (let! t := c in if t : bool then body ;; pret (inl tt) else pret (inr tt))%U) tt.

(** a loop that only takes time *)
Fixpoint spin (n : nat) : prog G unit :=
  match n with
  | O => pret tt
  | S n' => ITreeDefinition.go (ITreeDefinition.TauF (spin n'))
  end.

(** ** Accesses *)

#[local] Open Scope user_scope.

(** the global register variables [r2], [r3], [r4] and the stack pointer *)
Definition get_reg (i : fin 17) : prog G Z := atom (gets (fun u => s_r (u_cpu u) !!! i)).
Definition put_reg (i : fin 17) (v : Z) : prog G unit := atom (modify (fun u => set_u_cpu (set_reg i v (u_cpu u)) u)).
Definition r2 : prog G Z := get_reg 2%fin.
Definition r3 : prog G Z := get_reg 3%fin.
Definition r4 : prog G Z := get_reg 4%fin.
Definition set_r2 : Z -> prog G unit := put_reg 2%fin.
Definition set_r3 : Z -> prog G unit := put_reg 3%fin.
Definition set_r4 : Z -> prog G unit := put_reg 4%fin.

(** [int] cells, and a cell of the process's stack *)
Definition get_int (a : Z) : prog G Z := mem (asl_ (load a)).
Definition put_int (a v : Z) : prog G unit := mem (asl_ (store a v)).
Definition put_local (a v : Z) : prog G unit :=
  mem (asl_ (modify (fun s => set_ints (<[a := v]> (ints s)) s))).

(** [state_t] variables *)
Definition get_state (a : Z) : prog G state_t := mem (state_at a).
Definition edit_state (a : Z) (f : state_t -> state_t) : prog G unit :=
  mem (bind (state_at a) (fun st => put_state a (f st))).

(** [src/util/STST.s] stores every field but [s_tmp]; [STCK.s], [LDST.s], [HALT.s] *)
Definition stored (cpu old : state_t) : state_t := set_tmp (s_tmp old) cpu.
Definition STST_ (a : Z) : prog G unit :=
  let! cpu := atom (gets u_cpu) in edit_state a (stored cpu).
Definition STCK_ `{Machine} : prog G Z := mem STCK.
Definition LDST_at {A} (a : Z) : prog G A := mem (bind (state_at a) LDST_).
Definition HALT_now {A} : prog G A := mem HALT_.

Definition SYS (n : Z) : prog G unit := event (Trap (Sys n)).

(** [divu %d_i,%d_j]: a division by zero traps, and is tried again when the state is
    reloaded *)
Definition divu (i j : fin 17) : prog G unit :=
  ITreeDefinition.ITree.iter
    (fun _ : unit =>
       let! d := get_reg i in
       if d =? 0 then event (Trap ZeroDivide) ;; pret (inl tt)
       else let! v := get_reg j in put_reg j (v / d) ;; pret (inr tt)) tt.

(** ** [src/util/passeren.c] and [src/util/verhogen.c]: P and V on one semaphore *)

(** [v[i].op = op; v[i].sem = sem] for a [vpop] array at [v] *)
Definition put_vpop (v i op sem : Z) : prog G unit :=
  put_local (v + VPOP_SIZE * i) op ;; put_local (v + VPOP_SIZE * i + 4) sem.

(** the local array [semops[2]] lies below the stack pointer *)
Definition semops : prog G Z := let! sp := get_reg 15%fin in pret (sp - 2 * VPOP_SIZE).

Definition passeren (i : Z) : prog G unit :=
  let! v := semops in
  put_vpop v 0 LOCK i ;;
  set_r3 1 ;;
  set_r4 v ;;
  SYS 3.

Definition verhogen (i : Z) : prog G unit :=
  let! v := semops in
  put_vpop v 0 UNLOCK i ;;
  set_r3 1 ;;
  set_r4 v ;;
  SYS 3.
End programs.
