(* ===== verification/Run.v ===== *)
(** * Programs that run on the nucleus: the machine

    The exception vectors and the stubs of [src/util/STLD*.s], the suspension and
    the resumption of a program, the interrupts, and the run of a program on the
    nucleus from its start-up. *)

From S2P Require Export User.
Local Open Scope kernel_scope.

Section machine.
Context `{Machine} {G : Type}.

(** the program at the address of a function *)
Variable entry : Z -> option (prog G unit).

Inductive status : Type :=
  | Running (p : prog G unit)
  | Idle                    (* the nucleus waits for an interrupt *)
  | Halted
  | Failed (e : exn).

Record machine := mk_machine {
  m_user : user G;
  m_status : status;
  m_code : gmap Z (prog G unit);   (* the suspended programs, by program counter *)
  m_next : Z }.                    (* the next program counter *)

(** ** Exceptions *)

Inductive interrupt : Type :=
  | Term (n : Z) | Printer (n : Z) | Disk (n : Z) | Floppy (n : Z) | Clock.

(** the exception vector the processor uses *)
Definition trap_vector (t : trap) : Z :=
  match t with
  | Sys n => if n <=? 8 then 0x08c else 0x94 + 4 * (n - 9)
  | ZeroDivide => 0x014
  | MemFault _ => 0x008
  end.
Definition interrupt_vector (i : interrupt) : Z :=
  match i with
  | Term n => 0x100 + 4 * n
  | Printer n => 0x114 + 4 * n
  | Disk n => 0x11c + 4 * n
  | Floppy n => 0x12c + 4 * n
  | Clock => 0x140
  end.

(** a stub: the old area it fills, and the temporary word it stores there, [w] being
    the word that the exception itself supplies (the argument of [SYS1] to [SYS8],
    the word at 0x412) *)
Definition stub (w : Z) (f : symbol) : option (Z * Z) :=
  match f with
  | STLDMM => Some (0x898, w)
  | STLDADDRESS => Some (0x800, 3) | STLDILLEGAL => Some (0x800, 4)
  | STLDZERO => Some (0x800, 5) | STLDPRIVILEGE => Some (0x800, 8)
  | STLDSYS => Some (0x930, w)
  | STLDSYS9 => Some (0x930, 9) | STLDSYS10 => Some (0x930, 10) | STLDSYS11 => Some (0x930, 11)
  | STLDSYS12 => Some (0x930, 12) | STLDSYS13 => Some (0x930, 13) | STLDSYS14 => Some (0x930, 14)
  | STLDSYS15 => Some (0x930, 15) | STLDSYS16 => Some (0x930, 16) | STLDSYS17 => Some (0x930, 17)
  | STLDTERM0 => Some (0x9c8, 0) | STLDTERM1 => Some (0x9c8, 1) | STLDTERM2 => Some (0x9c8, 2)
  | STLDTERM3 => Some (0x9c8, 3) | STLDTERM4 => Some (0x9c8, 4)
  | STLDPRINT0 => Some (0xa60, 0) | STLDDISK0 => Some (0xaf8, 0)
  | STLDFLOPPY0 => Some (0xb90, 0) | STLDCLOCK => Some (0xc28, 0)
  | _ => None
  end.
Definition trap_word (t : trap) : Z :=
  match t with Sys n => n | ZeroDivide => 0 | MemFault w => w end.

(** the stub at an address *)
Definition stub_at (a w : Z) : option (Z * Z) :=
  head (omap (fun af => if sym af.2 =? a then stub w af.2 else None) trap_vectors).

(** the handler at an address *)
Definition handler_at (a : Z) : option (MK unit) :=
  if a =? sym sym_trapproghandler then Some trapproghandler
  else if a =? sym sym_trapmmhandler then Some trapmmhandler
  else if a =? sym sym_trapsyshandler then Some trapsyshandler
  else if a =? sym sym_intterminalhandler then Some intterminalhandler
  else if a =? sym sym_intprinterhandler then Some intprinterhandler
  else if a =? sym sym_intdiskhandler then Some intdiskhandler
  else if a =? sym sym_intfloppyhandler then Some intfloppyhandler
  else if a =? sym sym_intclockhandler then Some intclockhandler
  else None.

(** an exception with the vector at [vec] in the processor state [cpu] *)
Definition take (vec w : Z) (cpu : state_t) : MK unit :=
  let! f := asl_ (load vec) in
  let! '(area, tmp) := gets_opt Fault (fun _ => stub_at f w) in
  put_state area (set_tmp tmp cpu) ;;
  let! new := state_at (area + STATE_SIZE) in
  let! h := gets_opt Fault (fun _ => handler_at (s_pc new)) in
  h.

(** ** Suspension and resumption *)

Definition set_status (s : status) (m : machine) : machine :=
  mk_machine (m_user m) s (m_code m) (m_next m).
Definition set_kernel (k : kernel) (m : machine) : machine :=
  mk_machine (set_u_k k (m_user m)) (m_status m) (m_code m) (m_next m).

(** [st] is loaded; a translation that cannot be used is a memory management trap *)
Definition resume_at (st : state_t) (m : machine) : machine :=
  let m' := mk_machine (set_u_cpu st (m_user m)) (m_status m) (m_code m) (m_next m) in
  let p := match m_code m !! s_pc st with Some p => Some p | None => entry (s_pc st) end in
  if (ps_m (s_sr st) =? 1) && (s_crp st =? 0)
  then set_status (Running (pbind (event (Trap (MemFault 0))) (fun _ => default (mem (raise Fault)) p))) m'
  else match p with
       | Some p => set_status (Running p) m'
       | None => set_status (Failed Fault) m'
       end.

(** the way a handler ends *)
Definition leave (r : result exn kernel unit) (m : machine) : machine :=
  match r with
  | Ret _ k => set_status (Failed Fault) (set_kernel k m)
  | Exn (Leave (LDST st)) k => resume_at st (set_kernel k m)
  | Exn (Leave STOP) k => set_status Idle (set_kernel k m)
  | Exn (Leave HALT) k => set_status Halted (set_kernel k m)
  | Exn e k => set_status (Failed e) (set_kernel k m)
  end.

(** the program is suspended and the exception taken *)
Definition suspend_ (p : prog G unit) (vec w : Z) (m : machine) : machine :=
  let pc := m_next m in
  let cpu := set_pc pc (u_cpu (m_user m)) in
  leave (take vec w cpu (u_k (m_user m)))
    (mk_machine (m_user m) (m_status m) (<[pc := p]> (m_code m)) (pc + 1)).

(** an interrupt; a running program may have masked it *)
Definition interrupted (i : interrupt) (m : machine) : machine :=
  match m_status m with
  | Running p =>
      if ps_int (s_sr (u_cpu (m_user m))) =? 0 then suspend_ p (interrupt_vector i) 0 m else m
  | Idle => leave (take (interrupt_vector i) 0 (u_cpu (m_user m)) (u_k (m_user m))) m
  | _ => m
  end.

(** one step of the running program *)
Definition step (m : machine) : machine :=
  match m_status m with
  | Running p =>
      match ITreeDefinition.observe p with
      | ITreeDefinition.RetF _ => set_status (Failed Fault) m
      | ITreeDefinition.TauF p' => set_status (Running p') m
      | ITreeDefinition.VisF e k =>
          match e in userE _ A return (A -> prog G unit) -> machine with
          | Atom a => fun k =>
              match a (m_user m) with
              | Ret x u => mk_machine u (Running (k x)) (m_code m) (m_next m)
              | Exn e u =>
                  let m' := mk_machine u (m_status m) (m_code m) (m_next m) in
                  match e with
                  | Leave (LDST st) => resume_at st m'
                  | Leave HALT => set_status Halted m'
                  | Leave STOP => set_status (Failed Fault) m'
                  | _ => set_status (Failed e) m'
                  end
              end
          | Trap t => fun k => suspend_ (k tt) (trap_vector t) (trap_word t) m
          end k
      end
  | _ => m
  end.

(** [n] steps, numbered from [i]; before each, the environment may act on the
    machine *)
Fixpoint run (env : Z -> machine -> machine) (i : Z) (n : nat) (m : machine) : machine :=
  match n with
  | O => m
  | S n' =>
      match m_status m with
      | Halted | Failed _ => m
      | _ => run env (i + 1) n' (step (env i m))
      end
  end.

(** start-up: [main] of the nucleus leaves with the first process *)
Definition start (k : kernel) (g : G) : machine :=
  leave (main k) (mk_machine (mk_user k state0 g) Idle ∅ 0x1000000).
End machine.

#[global] Arguments Running {G} p.
#[global] Arguments Idle {G}.
#[global] Arguments Halted {G}.
#[global] Arguments Failed {G} e.
#[global] Arguments mk_machine {G}.
#[global] Arguments machine : clear implicits.
