(* ===== verification/M68k.v ===== *)
(** * The m68k instructions of the assembly files

    The part of the processor that the assembly files of [src/util] and the boot strap
    code use: registers, status word, memory by bytes, and one step for each instruction.
    Memory is taken without translation of addresses.  An instruction has the operands in
    the order of the source files, the source first. *)

From S2P Require Export Kernel.

(** ** Memory *)

Definition u16 (v : Z) : Z := v mod 2 ^ 16.
Definition memory := Z -> Z.

(** big-endian words *)
Definition rd8 (m : memory) (a : Z) : Z := m a mod 2 ^ 8.
Definition rd16 (m : memory) (a : Z) : Z := rd8 m a * 2 ^ 8 + rd8 m (a + 1).
Definition rd32 (m : memory) (a : Z) : Z := rd16 m a * 2 ^ 16 + rd16 m (a + 2).
Definition wr8 (m : memory) (a v : Z) : memory := fun x => if x =? a then v else m x.
Definition wr16 (m : memory) (a v : Z) : memory := wr8 (wr8 m a (v / 2 ^ 8)) (a + 1) v.
Definition wr32 (m : memory) (a v : Z) : memory := wr16 (wr16 m a (v / 2 ^ 16)) (a + 2) v.

(** ** State *)

(** the registers d0-d7 are 0 to 7, a0-a7 are 8 to 15; a7 is the stack pointer of the
    mode the processor is in, [m_osp] that of the other mode *)
Record m68 := mk_m68 { m_reg : Z -> Z; m_osp : Z; m_sr : Z; m_mem : memory }.
Definition set_m_reg v s := mk_m68 v (m_osp s) (m_sr s) (m_mem s).
Definition set_m_osp v s := mk_m68 (m_reg s) v (m_sr s) (m_mem s).
Definition set_m_sr v s := mk_m68 (m_reg s) (m_osp s) v (m_mem s).
Definition set_m_mem v s := mk_m68 (m_reg s) (m_osp s) (m_sr s) v.

Definition put (r : Z -> Z) (i v : Z) : Z -> Z := fun j => if j =? i then v else r j.
Definition put_m_reg (i v : Z) (s : m68) : m68 := set_m_reg (put (m_reg s) i v) s.

(** supervisor mode *)
Definition super (sr : Z) : bool := Z.testbit sr 13.
(** a new status word; a change of mode changes the stack pointer *)
Definition load_sr (w : Z) (s : m68) : m68 :=
  if Bool.eqb (super w) (super (m_sr s)) then set_m_sr w s
  else mk_m68 (put (m_reg s) 15 (m_osp s)) (m_reg s 15) w (m_mem s).
(** the condition codes N, Z, V and C; X stays *)
Definition load_flags (n z v c : bool) (s : m68) : m68 :=
  set_m_sr (Z.lor (Z.ldiff (m_sr s) 0xf) (8 * Z.b2z n + 4 * Z.b2z z + 2 * Z.b2z v + Z.b2z c)) s.
Definition load_x (x : bool) (s : m68) : m68 := set_m_sr (Z.lor (Z.ldiff (m_sr s) 0x10) (16 * Z.b2z x)) s.
(** the condition codes, X among them, from the low byte of a word *)
Definition load_cc (w : Z) (s : m68) : m68 := set_m_sr (Z.lor (Z.ldiff (m_sr s) 0xff) (Z.land w 0xff)) s.
Definition flag_n (s : m68) : bool := Z.testbit (m_sr s) 3.
Definition flag_z (s : m68) : bool := Z.testbit (m_sr s) 2.
Definition flag_v (s : m68) : bool := Z.testbit (m_sr s) 1.

(** ** Operands *)

Inductive size : Type := sz_b | sz_w | sz_l.
Definition width (z : size) : Z := match z with sz_b => 8 | sz_w => 16 | sz_l => 32 end.

Inductive operand : Type :=
  | Od (n : Z)          (* %dn *)
  | Oa (n : Z)          (* %an *)
  | Om (d n : Z)        (* d(%an) *)
  | Oabs (a : Z)        (* (a) *)
  | Oimm (v : Z).       (* #v *)

(** the address of an operand in memory *)
Definition ea (o : operand) (s : m68) : option Z :=
  match o with
  | Om d n => Some (u32 (m_reg s (8 + n) + d))
  | Oabs a => Some a
  | _ => None
  end.

Definition rd (z : size) : memory -> Z -> Z := match z with sz_b => rd8 | sz_w => rd16 | sz_l => rd32 end.
Definition wr (z : size) : memory -> Z -> Z -> memory := match z with sz_b => wr8 | sz_w => wr16 | sz_l => wr32 end.

Definition value (z : size) (o : operand) (s : m68) : option Z :=
  match o with
  | Od n => Some (m_reg s n mod 2 ^ width z)
  | Oa n => Some (m_reg s (8 + n) mod 2 ^ width z)
  | Oimm v => Some (v mod 2 ^ width z)
  | _ => option_map (rd z (m_mem s)) (ea o s)
  end.
(** a data register keeps the bytes that a shorter operation leaves; an address register
    takes the sign extension of a word *)
Definition assign (z : size) (o : operand) (v : Z) (s : m68) : option m68 :=
  match o with
  | Od n => Some (put_m_reg n (m_reg s n - m_reg s n mod 2 ^ width z + v mod 2 ^ width z) s)
  | Oa n => match z with
            | sz_b => None
            | sz_w => Some (put_m_reg (8 + n) (u32 ((v + 2 ^ 15) mod 2 ^ 16 - 2 ^ 15)) s)
            | sz_l => Some (put_m_reg (8 + n) (u32 v) s)
            end
  | Oimm _ => None
  | _ => match ea o s with Some a => Some (set_m_mem (wr z (m_mem s) a v) s) | None => None end
  end.
Definition is_an (o : operand) : bool := match o with Oa _ => true | _ => false end.

Definition negative (z : size) (v : Z) : bool := Z.testbit v (width z - 1).
(** the condition codes of a value that is moved or tested *)
Definition tested (z : size) (v : Z) : m68 -> m68 := load_flags (negative z v) (v mod 2 ^ width z =? 0) false false.
Definition moved (z : size) (o : operand) (v : Z) : m68 -> m68 := if is_an o then id else tested z v.

(** [a + b] and [a - b] with the condition codes, in a destination of the size [z] *)
Definition added (z : size) (a b : Z) (s : m68) : m68 :=
  let r := a + b in
  let x := 2 ^ width z <=? r in
  load_x x (load_flags (negative z r) (r mod 2 ^ width z =? 0)
              (Bool.eqb (negative z a) (negative z b) && negb (Bool.eqb (negative z a) (negative z r))) x s).
Definition compared (z : size) (a b : Z) (s : m68) : m68 :=
  let r := (a - b) mod 2 ^ width z in
  load_flags (negative z r) (r =? 0)
    (negb (Bool.eqb (negative z a) (negative z b)) && negb (Bool.eqb (negative z a) (negative z r))) (a <? b) s.
Definition subtracted (z : size) (a b : Z) (s : m68) : m68 :=
  load_x (a <? b) (compared z a b s).

(** ** Instructions *)

Inductive cond : Type := c_true | c_eq | c_ge | c_lt.
Definition holds_cond (c : cond) (s : m68) : bool :=
  match c with
  | c_true => true
  | c_eq => flag_z s
  | c_ge => Bool.eqb (flag_n s) (flag_v s)
  | c_lt => negb (Bool.eqb (flag_n s) (flag_v s))
  end.

(** [T]: the targets of branches *)
Inductive instr (T : Type) : Type :=
  | Ilink (n d : Z)                      (* link.w %an,#d *)
  | Iunlk (n : Z)
  | Imove (z : size) (src dst : operand)
  | Imovem_out (mask : Z) (dst : operand)   (* movem.l #mask,dst; bit i stands for register i *)
  | Imovem_in (src : operand) (mask : Z)
  | Iadd (z : size) (src dst : operand)
  | Isub (z : size) (src dst : operand)
  | Icmp (z : size) (src : operand) (n : Z)  (* cmp src,%dn *)
  | Itst (z : size) (o : operand)
  | Ibtst (b : Z) (o : operand)
  | Ilea (a n : Z)                       (* lea a,%an *)
  | Ipea (a : Z)
  | Ib (c : cond) (t : T)
  | Ijmp (a : Z)
  | Itrap (n : Z)
  | Irts
  | Irte
  | Inop
  | Ifrom_usp (n : Z)                    (* move.l %usp,%an *)
  | Ito_usp (n : Z)
  | Ito_sr (o : operand)
  | Ito_cc (o : operand)
  | Ifrom_sr (o : operand)
  | Iand_sr (v : Z)
  | Ior_sr (v : Z).
Arguments Ilink {T}. Arguments Iunlk {T}. Arguments Imove {T}. Arguments Imovem_out {T}. Arguments Imovem_in {T}.
Arguments Iadd {T}. Arguments Isub {T}. Arguments Icmp {T}. Arguments Itst {T}. Arguments Ibtst {T}.
Arguments Ilea {T}. Arguments Ipea {T}. Arguments Ib {T}. Arguments Ijmp {T}. Arguments Itrap {T}.
Arguments Irts {T}. Arguments Irte {T}. Arguments Inop {T}. Arguments Ifrom_usp {T}. Arguments Ito_usp {T}.
Arguments Ito_sr {T}. Arguments Ito_cc {T}. Arguments Ifrom_sr {T}. Arguments Iand_sr {T}. Arguments Ior_sr {T}.

(** the instructions of supervisor mode *)
Definition privileged {T} (i : instr T) : bool :=
  match i with
  | Irte | Ifrom_usp _ | Ito_usp _ | Ito_sr _ | Iand_sr _ | Ior_sr _ => true
  | _ => false
  end.

(** what comes next: the next instruction, a branch, an address, an exception *)
Inductive flow (T : Type) : Type :=
  | Fnext | Fbranch (t : T) | Fjump (a : Z) | Ftrap (n : Z).
Arguments Fnext {T}. Arguments Fbranch {T}. Arguments Fjump {T}. Arguments Ftrap {T}.

(** the registers of a mask, and the transfer of several registers *)
Definition masked (mask : Z) : list Z := filter (fun i => Is_true (Z.testbit mask i)) (seqZ 0 16).
Fixpoint store_regs (r : Z -> Z) (l : list Z) (a : Z) (m : memory) : memory :=
  match l with
  | [] => m
  | i :: l' => store_regs r l' (a + 4) (wr32 m a (r i))
  end.
Fixpoint load_regs (m : memory) (l : list Z) (a : Z) (r : Z -> Z) : Z -> Z :=
  match l with
  | [] => r
  | i :: l' => load_regs m l' (a + 4) (put r i (rd32 m a))
  end.

Definition push (v : Z) (s : m68) : m68 :=
  let a := u32 (m_reg s 15 - 4) in set_m_mem (wr32 (m_mem s) a v) (put_m_reg 15 a s).

(** the effect of an instruction in the mode that it needs; [None] for a form that does
    not exist *)
Definition effect_of {T} (i : instr T) (s : m68) : option (flow T * m68) :=
  let next o := option_map (pair Fnext) o in
  match i with
  | Ilink n d => let s1 := push (m_reg s (8 + n)) s in
      next (Some (put_m_reg 15 (u32 (m_reg s1 15 + d)) (put_m_reg (8 + n) (m_reg s1 15) s1)))
  | Iunlk n => let a := m_reg s (8 + n) in
      next (Some (put_m_reg (8 + n) (rd32 (m_mem s) a) (put_m_reg 15 (u32 (a + 4)) s)))
  | Imove z src dst =>
      match value z src s with
      | Some v => next (option_map (moved z dst v) (assign z dst v s))
      | None => None
      end
  | Imovem_out mask dst =>
      match ea dst s with
      | Some a => next (Some (set_m_mem (store_regs (m_reg s) (masked mask) a (m_mem s)) s))
      | None => None
      end
  | Imovem_in src mask =>
      match ea src s with
      | Some a => next (Some (set_m_reg (load_regs (m_mem s) (masked mask) a (m_reg s)) s))
      | None => None
      end
  | Iadd z src (Oa n) =>
      match z, value z src s with
      | sz_b, _ | _, None => None
      | _, Some v => next (Some (put_m_reg (8 + n) (u32 (m_reg s (8 + n) + (if negative z v then v - 2 ^ width z else v))) s))
      end
  | Iadd z src dst =>
      match value z src s, value z dst s with
      | Some v, Some w => next (option_map (added z w v) (assign z dst (w + v) s))
      | _, _ => None
      end
  | Isub z src (Oa n) =>
      match z, value z src s with
      | sz_b, _ | _, None => None
      | _, Some v => next (Some (put_m_reg (8 + n) (u32 (m_reg s (8 + n) - (if negative z v then v - 2 ^ width z else v))) s))
      end
  | Isub z src dst =>
      match value z src s, value z dst s with
      | Some v, Some w => next (option_map (subtracted z w v) (assign z dst (w - v) s))
      | _, _ => None
      end
  | Icmp z src n =>
      match value z src s, value z (Od n) s with
      | Some v, Some w => next (Some (compared z w v s))
      | _, _ => None
      end
  | Itst z o => match value z o s with Some v => next (Some (tested z v s)) | None => None end
  | Ibtst b o =>
      let z := match o with Od _ => sz_l | _ => sz_b end in
      match value z o s with
      | Some v => next (Some (set_m_sr (Z.lor (Z.ldiff (m_sr s) 4) (4 * Z.b2z (negb (Z.testbit v (b mod width z))))) s))
      | None => None
      end
  | Ilea a n => next (Some (put_m_reg (8 + n) a s))
  | Ipea a => next (Some (push a s))
  | Ib c t => Some (if holds_cond c s then Fbranch t else Fnext, s)
  | Ijmp a => Some (Fjump a, s)
  | Itrap n => Some (Ftrap n, s)
  | Irts => Some (Fjump (rd32 (m_mem s) (m_reg s 15)), put_m_reg 15 (u32 (m_reg s 15 + 4)) s)
  | Irte => let a := m_reg s 15 in
      Some (Fjump (rd32 (m_mem s) (u32 (a + 2))), load_sr (rd16 (m_mem s) a) (put_m_reg 15 (u32 (a + 6)) s))
  | Inop => next (Some s)
  | Ifrom_usp n => next (Some (put_m_reg (8 + n) (m_osp s) s))
  | Ito_usp n => next (Some (set_m_osp (m_reg s (8 + n)) s))
  | Ito_sr o => match value sz_w o s with Some w => next (Some (load_sr w s)) | None => None end
  | Ito_cc o => match value sz_w o s with Some w => next (Some (load_cc w s)) | None => None end
  | Ifrom_sr o => next (assign sz_w o (m_sr s) s)
  | Iand_sr v => next (Some (load_sr (Z.land (m_sr s) v) s))
  | Ior_sr v => next (Some (load_sr (Z.lor (m_sr s) v) s))
  end.

(** one instruction; [None] also for a privileged one in user mode, which the stubs and
    the boot strap code never reach *)
Definition exec1 {T} (i : instr T) (s : m68) : option (flow T * m68) :=
  if privileged i && negb (super (m_sr s)) then None else effect_of i s.

(** ** Assembly routines

    A routine is a list of lines.  All branches of the files go forward, to a label
    further down. *)
Inductive line : Type :=
  | Lab (l : string)
  | Do (i : instr string).

(** from the first line, or from the label [skip]; the result is the way control leaves
    the routine, the lines that come next, and the state *)
Fixpoint exec (skip : option string) (code : list line) (s : m68) : option (flow string * list line * m68) :=
  match code with
  | [] => None
  | Lab l :: code' => exec (if decide (skip = Some l) then None else skip) code' s
  | Do i :: code' =>
      match skip with
      | Some _ => exec skip code' s
      | None =>
          match exec1 i s with
          | Some (Fnext, s') => exec None code' s'
          | Some (Fbranch l, s') => exec (Some l) code' s'
          | Some (f, s') => Some (f, code', s')
          | None => None
          end
      end
  end.
