(* ===== verification/Stubs.v ===== *)
(** * The assembly files of [src/util]

    The routines of [STLD*.s], [LDST.s], [STST.s], [STCK.s], [LDIT.s], [SYS.s] and
    [HALT.s], line by line, and the representation of a processor state in memory. *)

From S2P Require Export M68k.

Module asm.

(** the offsets in [state_t] *)
Definition HOCA_SP : Z := 60.
Definition HOCA_PC : Z := 64.
Definition HOCA_SR : Z := 68.
Definition HOCA_CRP : Z := 72.
(** the register of the memory management unit with the address of the segment table,
    and the word it leaves there *)
Definition CRP_REG : Z := 0x40c.
Definition MM_WORD : Z := 0x412.

(** ** STLD*.s: the state goes to the old area, and the new area is loaded

    The first lines are those of all the files. *)
Definition save_registers (area : Z) : list line :=
  [ Do (Ilink 6 0);
    Do (Imovem_out 0x0100 (Om (-4) 6));
    Do (Imove sz_l (Oimm area) (Oa 0));
    Do (Imovem_out 0x00ff (Om 0 0));
    Do (Iadd sz_l (Oimm 32) (Oa 0));
    Do (Imove sz_l (Om (-4) 6) (Om 0 0));
    Do (Iadd sz_l (Oimm 4) (Oa 0));
    Do (Imovem_out 0x3e00 (Om 0 0));
    Do (Iadd sz_l (Oimm 20) (Oa 0));
    Do (Imove sz_l (Om 0 6) (Om 0 0));
    Do (Iadd sz_l (Oimm 4) (Oa 0));
    Do (Ibtst 13 (Om 4 6));
    Do (Ib c_eq "LaSTLD") ].
(** the program counter and the status word of the frame, and the word [word] *)
Definition save_frame (word : operand) : list line :=
  [ Do (Iadd sz_l (Oimm 4) (Oa 0));
    Do (Imove sz_l (Om 6 6) (Om 0 0));
    Do (Iadd sz_l (Oimm 4) (Oa 0));
    Do (Imove sz_w (Om 4 6) (Om 0 0));
    Do (Iadd sz_l (Oimm 2) (Oa 0));
    Do (Imove sz_w word (Om 0 0)) ].
(** [last]: the second load of the status word, the condition codes only in some files *)
Definition load_new (last : instr string) : list line :=
  [ Do (Iadd sz_l (Oimm 2) (Oa 0));
    Do (Imove sz_l (Oabs CRP_REG) (Om 0 0));
    Do (Iand_sr 0xefff);
    Do (Iadd sz_l (Oimm 4) (Oa 0));
    Do (Imove sz_l (Om HOCA_CRP 0) (Oabs CRP_REG));
    Do (Imove sz_l (Om HOCA_SP 0) (Oa 1));
    Do (Ito_sr (Om HOCA_SR 0));
    Do (Imove sz_l (Om HOCA_PC 0) (Om 0 1));
    Do last;
    Do (Imovem_in (Om 0 0) 0xffff);
    Do Irts ].
Definition to_cc : instr string := Ito_cc (Om HOCA_SR 0).
Definition to_sr : instr string := Ito_sr (Om HOCA_SR 0).
Definition epilogue (l : string) : list line := [ Lab l; Do (Iunlk 6); Do Irts ].

(** the files in which both modes save the frame at one place *)
Definition STLD (area : Z) (word : operand) (last : instr string) : list line :=
  save_registers area ++
  [ Do (Imove sz_l (Oa 6) (Om 0 0));
    Do (Iadd sz_l (Oimm 10) (Om 0 0));
    Do (Ib c_true "LbSTLD");
    Lab "LaSTLD";
    Do (Ifrom_usp 1);
    Do (Imove sz_l (Oa 1) (Om 0 0));
    Lab "LbSTLD" ] ++
  save_frame word ++ load_new last ++ epilogue "LZ1".

Definition STLDADDRESS : list line := STLD 0x800 (Oimm 3) to_cc.
Definition STLDILLEGAL : list line := STLD 0x800 (Oimm 4) to_cc.
Definition STLDZERO : list line := STLD 0x800 (Oimm 5) to_cc.
Definition STLDPRIVILEGE : list line := STLD 0x800 (Oimm 8) to_cc.
Definition STLDMM : list line := STLD 0x898 (Oabs MM_WORD) to_sr.
Definition STLDTERM0 : list line := STLD 0x9c8 (Oimm 0) to_cc.
Definition STLDTERM1 : list line := STLD 0x9c8 (Oimm 1) to_cc.
Definition STLDTERM2 : list line := STLD 0x9c8 (Oimm 2) to_cc.
Definition STLDTERM3 : list line := STLD 0x9c8 (Oimm 3) to_cc.
Definition STLDTERM4 : list line := STLD 0x9c8 (Oimm 4) to_cc.
Definition STLDPRINT0 : list line := STLD 0xa60 (Oimm 0) to_cc.
Definition STLDDISK0 : list line := STLD 0xaf8 (Oimm 0) to_cc.
Definition STLDFLOPPY0 : list line := STLD 0xb90 (Oimm 0) to_cc.
Definition STLDCLOCK : list line := STLD 0xc28 (Oimm 0) to_cc.

(** [STLDSYS9.s] to [STLDSYS17.s] *)
Definition STLDSYSn (n : Z) : list line :=
  save_registers 0x930 ++
  [ Do (Imove sz_l (Oa 6) (Om 0 0));
    Do (Iadd sz_l (Oimm 10) (Om 0 0)) ] ++
  save_frame (Oimm n) ++
  [ Do (Ib c_true "LbSTLD");
    Lab "LaSTLD";
    Do (Ifrom_usp 1);
    Do (Imove sz_l (Oa 1) (Om 0 0)) ] ++
  save_frame (Oimm n) ++
  [ Lab "LbSTLD" ] ++
  load_new to_sr ++ epilogue "LZ1".
Definition STLDSYS9 : list line := STLDSYSn 9.
Definition STLDSYS10 : list line := STLDSYSn 10.
Definition STLDSYS11 : list line := STLDSYSn 11.
Definition STLDSYS12 : list line := STLDSYSn 12.
Definition STLDSYS13 : list line := STLDSYSn 13.
Definition STLDSYS14 : list line := STLDSYSn 14.
Definition STLDSYS15 : list line := STLDSYSn 15.
Definition STLDSYS16 : list line := STLDSYSn 16.
Definition STLDSYS17 : list line := STLDSYSn 17.

(** [STLDSYS.s]: the argument of SYS1 to SYS8 is a word on the stack, which is popped *)
Definition STLDSYS : list line :=
  save_registers 0x930 ++
  [ Do (Imove sz_l (Oa 6) (Om 0 0));
    Do (Iadd sz_l (Oimm 14) (Om 0 0)) ] ++
  save_frame (Om 12 6) ++
  [ Do (Ib c_true "LbSTLD");
    Lab "LaSTLD";
    Do (Ifrom_usp 1);
    Do (Iadd sz_l (Oimm 4) (Oa 1));
    Do (Imove sz_l (Oa 1) (Om 0 0)) ] ++
  save_frame (Om (-2) 1) ++
  [ Lab "LbSTLD" ] ++
  load_new to_sr ++ epilogue "LZ1".

(** ** [LDST.s] *)
Definition LDST : list line :=
  [ Do (Ilink 6 0);
    Do (Iand_sr 0xefff);
    Do (Ior_sr 0x0700);
    Do (Imove sz_l (Om 8 6) (Oa 0));
    Do (Imove sz_w (Om HOCA_SR 0) (Od 0));
    Do (Ibtst 13 (Od 0));
    Do (Ib c_eq "LaLDST");
    Do (Imove sz_l (Om HOCA_SP 0) (Oa 7));
    Do (Isub sz_l (Oimm 6) (Oa 7));
    Do (Imove sz_l (Om HOCA_PC 0) (Om 2 7));
    Do (Imove sz_w (Om HOCA_SR 0) (Om 0 7));
    Do (Imove sz_l (Om HOCA_CRP 0) (Oabs CRP_REG));
    Do (Imovem_in (Om 0 0) 0x7fff);
    Do Irte;
    Lab "LaLDST";
    Do (Imove sz_l (Om HOCA_SP 0) (Oa 1));
    Do (Isub sz_l (Oimm 6) (Oa 7));
    Do (Imove sz_l (Om HOCA_PC 0) (Om 2 7));
    Do (Imove sz_w (Od 0) (Om 0 7));
    Do (Imove sz_l (Om HOCA_CRP 0) (Oabs CRP_REG));
    Do (Ito_usp 1);
    Do (Imovem_in (Om 0 0) 0x7fff);
    Do Irte ] ++ epilogue "LZ1".

(** ** [STST.s] *)
Definition STST : list line :=
  [ Do (Ilink 6 0);
    Do (Imovem_out 0x0100 (Om (-4) 6));
    Do (Ifrom_sr (Om (-6) 6));
    Do (Imove sz_l (Om 8 6) (Oa 0));
    Do (Imovem_out 0x00ff (Om 0 0));
    Do (Iadd sz_l (Oimm 32) (Oa 0));
    Do (Imove sz_l (Om (-4) 6) (Om 0 0));
    Do (Iadd sz_l (Oimm 4) (Oa 0));
    Do (Imovem_out 0x3e00 (Om 0 0));
    Do (Iadd sz_l (Oimm 20) (Oa 0));
    Do (Imove sz_l (Om 0 6) (Om 0 0));
    Do (Iadd sz_l (Oimm 4) (Oa 0));
    Do (Imove sz_l (Oa 6) (Om 0 0));
    Do (Iadd sz_l (Oimm 4) (Oa 0));
    Do (Imove sz_l (Om 4 6) (Om 0 0));
    Do (Iadd sz_l (Oimm 4) (Oa 0));
    Do (Imove sz_w (Om (-6) 6) (Om 0 0));
    Do (Iadd sz_l (Oimm 4) (Oa 0));
    Do (Imove sz_l (Oabs CRP_REG) (Om 0 0));
    Do (Imovem_in (Om (-4) 6) 0x0100);
    Do (Iunlk 6);
    Do Irts ].

(** ** [STCK.s] and [LDIT.s]: the clock and the interval timer *)
Definition CLOCK_REG : Z := 1028.
Definition TIMER_REG : Z := 1032.
Definition STCK : list line :=
  [ Do (Ilink 6 0);
    Do (Imovem_out 0x0100 (Om (-4) 6));
    Do (Imove sz_l (Om 8 6) (Oa 0));
    Do (Imove sz_l (Oabs CLOCK_REG) (Om 0 0));
    Do (Imovem_in (Om (-4) 6) 0x0100) ] ++ epilogue "LZ1".
Definition LDIT : list line :=
  [ Do (Ilink 6 0);
    Do (Imovem_out 0x0100 (Om (-4) 6));
    Do (Imove sz_l (Om 8 6) (Oa 0));
    Do (Imove sz_l (Om 0 0) (Oabs TIMER_REG));
    Do (Imovem_in (Om (-4) 6) 0x0100) ] ++ epilogue "LZ1".

(** ** [SYS.s] and [HALT.s] *)
Definition SYS_1_to_8 (n : Z) : list line := [ Do (Ilink 6 0); Do (Ipea n); Do (Itrap 3) ] ++ epilogue "LZ".
Definition SYS_9_to_17 (n : Z) : list line := [ Do (Ilink 6 0); Do (Itrap (n - 4)) ] ++ epilogue "LZ".
Definition SYS (n : Z) : list line := if n <=? 8 then SYS_1_to_8 n else SYS_9_to_17 n.
Definition HALT : list line := [ Do (Itrap 4) ].
End asm.
