(* ===== verification/StubSpec.v ===== *)
(** * What the assembly files do: rules for memory and for one line *)

From S2P Require Export Stubs.
Local Open Scope Z_scope.

(** ** Memory *)

Section memory.
Implicit Types (m : memory) (a b v : Z).

Lemma rd8_range m a : 0 <= rd8 m a < 2 ^ 8.
Proof. unfold rd8. apply Z.mod_pos_bound. lia. Qed.
Lemma rd16_range m a : 0 <= rd16 m a < 2 ^ 16.
Proof. unfold rd16. pose proof (rd8_range m a). pose proof (rd8_range m (a + 1)). lia. Qed.
Lemma rd32_range m a : 0 <= rd32 m a < 2 ^ 32.
Proof. unfold rd32. pose proof (rd16_range m a). pose proof (rd16_range m (a + 2)). lia. Qed.

Lemma wr8_other m a v b : b <> a -> wr8 m a v b = m b.
Proof. intros. unfold wr8. by rewrite (proj2 (Z.eqb_neq b a)). Qed.
Lemma wr16_other m a v b : ~ a <= b < a + 2 -> wr16 m a v b = m b.
Proof. intros. unfold wr16. rewrite !wr8_other by lia. done. Qed.
Lemma wr32_other m a v b : ~ a <= b < a + 4 -> wr32 m a v b = m b.
Proof. intros. unfold wr32. rewrite !wr16_other by lia. done. Qed.

(** memories that agree on a range *)
Lemma rd16_agree m m' a : (forall x, a <= x < a + 2 -> m x = m' x) -> rd16 m a = rd16 m' a.
Proof. intros E. unfold rd16, rd8. rewrite !E by lia. done. Qed.
Lemma rd32_agree m m' a : (forall x, a <= x < a + 4 -> m x = m' x) -> rd32 m a = rd32 m' a.
Proof. intros E. unfold rd32. rewrite !(rd16_agree m m') by (intros; apply E; lia). done. Qed.

Lemma rd16_wr16 m a v b : b = a -> rd16 (wr16 m a v) b = u16 v.
Proof.
  intros ->. unfold rd16, rd8, wr16, wr8, u16. rewrite Z.eqb_refl, (proj2 (Z.eqb_neq a (a + 1))), Z.eqb_refl by lia.
  change (2 ^ 16) with (2 ^ 8 * 2 ^ 8). rewrite Z.rem_mul_r by lia. lia.
Qed.
Lemma rd32_wr32 m a v b : b = a -> rd32 (wr32 m a v) b = u32 v.
Proof.
  intros ->. unfold rd32, wr32, u32. rewrite (rd16_wr16 _ _ _ (a + 2)) by done.
  rewrite (rd16_agree _ (wr16 m a (v / 2 ^ 16))) by (intros; apply wr16_other; lia). rewrite rd16_wr16 by done. unfold u16.
  change (2 ^ 32) with (2 ^ 16 * 2 ^ 16). rewrite (Z.rem_mul_r v) by lia. lia.
Qed.

Lemma rd8_wr32_other m a v b : ~ a <= b < a + 4 -> rd8 (wr32 m a v) b = rd8 m b.
Proof. intros. unfold rd8. by rewrite wr32_other. Qed.
Lemma rd8_wr16_other m a v b : ~ a <= b < a + 2 -> rd8 (wr16 m a v) b = rd8 m b.
Proof. intros. unfold rd8. by rewrite wr16_other. Qed.
Lemma rd16_wr16_other m a v b : b + 2 <= a \/ a + 2 <= b -> rd16 (wr16 m a v) b = rd16 m b.
Proof. intros. apply rd16_agree. intros. apply wr16_other. lia. Qed.
Lemma rd16_wr32_other m a v b : b + 2 <= a \/ a + 4 <= b -> rd16 (wr32 m a v) b = rd16 m b.
Proof. intros. apply rd16_agree. intros. apply wr32_other. lia. Qed.
Lemma rd32_wr16_other m a v b : b + 4 <= a \/ a + 2 <= b -> rd32 (wr16 m a v) b = rd32 m b.
Proof. intros. apply rd32_agree. intros. apply wr16_other. lia. Qed.
Lemma rd32_wr32_other m a v b : b + 4 <= a \/ a + 4 <= b -> rd32 (wr32 m a v) b = rd32 m b.
Proof. intros. apply rd32_agree. intros. apply wr32_other. lia. Qed.

Lemma rd8_high m a : rd8 m a = rd16 m a / 2 ^ 8.
Proof. unfold rd16. rewrite Z.div_add_l by lia. rewrite Z.div_small by apply rd8_range. lia. Qed.
Lemma testbit_high m a i : 0 <= i -> Z.testbit (rd8 m a) i = Z.testbit (rd16 m a) (i + 8).
Proof. intros Hi. rewrite rd8_high. by rewrite Z.div_pow2_bits by lia. Qed.
End memory.

Lemma u32_id v : 0 <= v < 2 ^ 32 -> u32 v = v.
Proof. apply Z.mod_small. Qed.
Lemma u32_range v : 0 <= u32 v < 2 ^ 32.
Proof. apply Z.mod_pos_bound. lia. Qed.
Lemma u32_u32 v : u32 (u32 v) = u32 v.
Proof. unfold u32. by rewrite Z.mod_mod by lia. Qed.
Lemma u32_rd32 m a : u32 (rd32 m a) = rd32 m a.
Proof. apply u32_id, rd32_range. Qed.
Lemma u16_rd16 m a : u16 (rd16 m a) = rd16 m a.
Proof. apply Z.mod_small, rd16_range. Qed.

Lemma put_eq r i v j : j = i -> put r i v j = v.
Proof. intros ->. unfold put. by rewrite Z.eqb_refl. Qed.
Lemma put_ne r i v j : j <> i -> put r i v j = r j.
Proof. intros Hj. unfold put. by rewrite (proj2 (Z.eqb_neq j i)). Qed.

(** ** The status word *)

Definition bit (v : Z) : Z := v mod 2.
(** [sr_t] as a word *)
Definition sr_word (sr : sr_t) : Z :=
  bit (ps_t sr) * 2 ^ 15 + bit (ps_s sr) * 2 ^ 13 + bit (ps_m sr) * 2 ^ 12 + (ps_int sr mod 8) * 2 ^ 8 +
  bit (ps_x sr) * 2 ^ 4 + bit (ps_n sr) * 2 ^ 3 + bit (ps_z sr) * 2 ^ 2 + bit (ps_o sr) * 2 + bit (ps_c sr).
Lemma sr_word_range sr : 0 <= sr_word sr < 2 ^ 16.
Proof.
  unfold sr_word, bit. repeat match goal with |- context [?x mod ?n] => pose proof (Z.mod_pos_bound x n ltac:(lia)); generalize dependent (x mod n); intros end.
  lia.
Qed.

Lemma super_and sr : super (Z.land sr 0xefff) = super sr.
Proof. unfold super. rewrite Z.land_spec. change (Z.testbit 0xefff 13) with true. apply andb_true_r. Qed.
Lemma super_or sr : super (Z.lor sr 0x0700) = super sr.
Proof. unfold super. rewrite Z.lor_spec. change (Z.testbit 0x0700 13) with false. apply orb_false_r. Qed.

Lemma small_bits f n k : 0 <= f < 2 ^ k -> 0 <= k <= n -> Z.testbit f n = false.
Proof. intros Hf Hn. destruct (decide (f = 0)) as [-> | Hne]; [apply Z.bits_0 |]. apply Z.bits_above_log2; [lia |]. assert (Z.log2 f < k) by (apply Z.log2_lt_pow2; lia). lia. Qed.

(** the condition codes do not touch the mode *)
Lemma super_flags sr f : 0 <= f < 2 ^ 4 -> super (Z.lor (Z.ldiff sr 0xf) f) = super sr.
Proof.
  intros Hf. unfold super. rewrite Z.lor_spec, Z.ldiff_spec. rewrite (small_bits f 13 4) by lia.
  change (Z.testbit 0xf 13) with false. by rewrite andb_true_r, orb_false_r.
Qed.
Lemma super_x sr b : super (Z.lor (Z.ldiff sr 0x10) (16 * Z.b2z b)) = super sr.
Proof.
  unfold super. rewrite Z.lor_spec, Z.ldiff_spec. rewrite (small_bits (16 * Z.b2z b) 13 5) by (destruct b; cbn; lia).
  change (Z.testbit 0x10 13) with false. by rewrite andb_true_r, orb_false_r.
Qed.
Lemma super_z sr b : super (Z.lor (Z.ldiff sr 4) (4 * Z.b2z b)) = super sr.
Proof.
  unfold super. rewrite Z.lor_spec, Z.ldiff_spec. rewrite (small_bits (4 * Z.b2z b) 13 5) by (destruct b; cbn; lia).
  change (Z.testbit 4 13) with false. by rewrite andb_true_r, orb_false_r.
Qed.

(** the condition codes of a word, loaded after others have been put into that word *)
Lemma cc_restored w f : 0 <= f < 2 ^ 4 -> Z.lor (Z.ldiff (Z.lor (Z.ldiff w 0xf) f) 0xff) (Z.land w 0xff) = w.
Proof.
  intros Hf. apply Z.bits_inj'. intros n Hn. rewrite !Z.lor_spec, !Z.ldiff_spec, Z.lor_spec, Z.ldiff_spec, Z.land_spec.
  change 0xff with (Z.ones 8). change 0xf with (Z.ones 4). destruct (Z.lt_ge_cases n 8).
  - rewrite (Z.ones_spec_low 8) by lia. cbn. by rewrite andb_false_r, andb_true_r.
  - rewrite (Z.ones_spec_high 8), (Z.ones_spec_high 4), (small_bits f n 4) by lia. cbn. by rewrite !andb_true_r, !orb_false_r, andb_false_r, orb_false_r.
Qed.

(** ** One line *)

Section lines.
Implicit Types (r : Z -> Z) (o sr : Z) (m : memory) (Q : flow string -> list line -> m68 -> Prop).

(** the routine, from [skip] on, leaves in a way and a state with [Q] *)
Definition runs_from (skip : option string) (code : list line) (s : m68) Q : Prop :=
  exists f rest s', exec skip code s = Some (f, rest, s') /\ Q f rest s'.
Abbreviation runs_code := (runs_from None).

Lemma runs_impl skip code s Q Q' : runs_from skip code s Q -> (forall f rest s', Q f rest s' -> Q' f rest s') -> runs_from skip code s Q'.
Proof. intros (f & rest & s' & E & HQ) HQ'. exists f, rest, s'. split; [exact E | by apply HQ']. Qed.

Lemma r_label skip l code s Q : runs_from (if decide (skip = Some l) then None else skip) code s Q -> runs_from skip (Lab l :: code) s Q.
Proof. done. Qed.
Lemma r_skip l i code s Q : runs_from (Some l) code s Q -> runs_from (Some l) (Do i :: code) s Q.
Proof. done. Qed.

Lemma r_do i code s s' Q : exec1 i s = Some (Fnext, s') -> runs_code code s' Q -> runs_code (Do i :: code) s Q.
Proof. intros E HQ. unfold runs_from. cbn [exec]. by rewrite E. Qed.

(** an instruction that changes nothing of the status word but condition codes: what comes
    after it may forget them *)
Definition flags_of (sr sr' : Z) : Prop := exists f, 0 <= f < 2 ^ 4 /\ sr' = Z.lor (Z.ldiff sr 0xf) f.
Lemma flags_range n z v c : 0 <= 8 * Z.b2z n + 4 * Z.b2z z + 2 * Z.b2z v + Z.b2z c < 2 ^ 4.
Proof. by destruct n, z, v, c. Qed.
Lemma flags_super sr sr' : flags_of sr sr' -> super sr' = super sr.
Proof. intros (f & Hf & ->). by apply super_flags. Qed.

Lemma r_move z src dst code r o sr m v v' a a' Q :
  value z src (mk_m68 r o sr m) = Some v -> v = v' -> ea dst (mk_m68 r o sr m) = Some a -> a = a' ->
  (forall sr', flags_of sr sr' -> runs_code code (mk_m68 r o sr' (wr z m a' v')) Q) ->
  runs_code (Do (Imove z src dst) :: code) (mk_m68 r o sr m) Q.
Proof.
  intros Hv <- Ha <- HQ. assert (assign z dst v (mk_m68 r o sr m) = Some (mk_m68 r o sr (wr z m a v))) as E.
  { destruct dst; try done; unfold assign; by rewrite Ha. }
  eapply r_do; [| apply HQ; eexists; split; [apply (flags_range (negative z v) (v mod 2 ^ width z =? 0) false false) | reflexivity]].
  unfold exec1. cbn [privileged andb effect_of]. rewrite Hv, E. unfold moved. by replace (is_an dst) with false by by destruct dst.
Qed.

Lemma r_movea src n code r o sr m v v' Q :
  value sz_l src (mk_m68 r o sr m) = Some v -> u32 v = v' -> runs_code code (mk_m68 (put r (8 + n) v') o sr m) Q ->
  runs_code (Do (Imove sz_l src (Oa n)) :: code) (mk_m68 r o sr m) Q.
Proof. intros Hv <- HQ. eapply r_do; [| exact HQ]. unfold exec1. cbn [privileged andb effect_of]. by rewrite Hv. Qed.

Lemma r_add z k dst code r o sr m v v' a a' Q :
  value z dst (mk_m68 r o sr m) = Some v -> v + k mod 2 ^ width z = v' -> ea dst (mk_m68 r o sr m) = Some a -> a = a' ->
  (forall sr', super sr' = super sr -> runs_code code (mk_m68 r o sr' (wr z m a' v')) Q) ->
  runs_code (Do (Iadd z (Oimm k) dst) :: code) (mk_m68 r o sr m) Q.
Proof.
  intros Hv <- Ha <- HQ. assert (assign z dst (v + k mod 2 ^ width z) (mk_m68 r o sr m) = Some (mk_m68 r o sr (wr z m a (v + k mod 2 ^ width z)))) as E.
  { destruct dst; try done; unfold assign; by rewrite Ha. }
  eapply r_do; cycle 1.
  - apply HQ. instantiate (1 := m_sr (added z v (k mod 2 ^ width z) (mk_m68 r o sr m))). unfold added, load_x, load_flags. cbn [m_sr set_m_sr].
    rewrite super_x, super_flags by apply flags_range. done.
  - unfold exec1. destruct dst; try done; cbn [privileged andb effect_of value]; cbn [value] in Hv; rewrite Hv, E; done.
Qed.

(** an address register and a small number *)
Lemma r_adda k n code r o sr m x Q :
  0 <= k < 2 ^ 31 -> u32 (r (8 + n) + k) = x -> runs_code code (mk_m68 (put r (8 + n) x) o sr m) Q ->
  runs_code (Do (Iadd sz_l (Oimm k) (Oa n)) :: code) (mk_m68 r o sr m) Q.
Proof.
  intros Hk <- HQ. eapply r_do; [| exact HQ]. unfold exec1. cbn [privileged andb effect_of value width m_sr]. rewrite (Z.mod_small k) by lia.
  unfold negative. rewrite (small_bits k _ 31) by (cbn; lia). done.
Qed.
Lemma r_suba k n code r o sr m x Q :
  0 <= k < 2 ^ 31 -> u32 (r (8 + n) - k) = x -> runs_code code (mk_m68 (put r (8 + n) x) o sr m) Q ->
  runs_code (Do (Isub sz_l (Oimm k) (Oa n)) :: code) (mk_m68 r o sr m) Q.
Proof.
  intros Hk <- HQ. eapply r_do; [| exact HQ]. unfold exec1. cbn [privileged andb effect_of value width m_sr]. rewrite (Z.mod_small k) by lia.
  unfold negative. rewrite (small_bits k _ 31) by (cbn; lia). done.
Qed.

Lemma r_link n code r o sr m a v Q :
  u32 (r 15 - 4) = a -> r (8 + n) = v -> 0 <= n < 7 -> runs_code code (mk_m68 (put (put (put r 15 a) (8 + n) a) 15 a) o sr (wr32 m a v)) Q ->
  runs_code (Do (Ilink n 0) :: code) (mk_m68 r o sr m) Q.
Proof.
  intros <- <- Hn HQ. eapply r_do; [| exact HQ]. unfold exec1. cbn. unfold push. cbn. unfold put_m_reg. cbn. unfold put at 2 4. rewrite Z.add_0_r, u32_u32. done.
Qed.
Lemma r_unlk n code r o sr m a b v Q :
  r (8 + n) = a -> u32 (a + 4) = b -> rd32 m a = v -> runs_code code (mk_m68 (put (put r 15 b) (8 + n) v) o sr m) Q ->
  runs_code (Do (Iunlk n) :: code) (mk_m68 r o sr m) Q.
Proof. intros <- <- <- HQ. by eapply r_do. Qed.

Lemma r_movem_out mask l dst code r o sr m a a' m' Q :
  masked mask = l -> ea dst (mk_m68 r o sr m) = Some a -> a = a' -> store_regs r l a' m = m' ->
  runs_code code (mk_m68 r o sr m') Q -> runs_code (Do (Imovem_out mask dst) :: code) (mk_m68 r o sr m) Q.
Proof. intros <- Ha <- <- HQ. eapply r_do; [| exact HQ]. unfold exec1. cbn [privileged andb effect_of]. by rewrite Ha. Qed.
Lemma r_movem_in mask l src code r o sr m a a' Q :
  masked mask = l -> ea src (mk_m68 r o sr m) = Some a -> a = a' -> runs_code code (mk_m68 (load_regs m l a' r) o sr m) Q ->
  runs_code (Do (Imovem_in src mask) :: code) (mk_m68 r o sr m) Q.
Proof. intros <- Ha <- HQ. eapply r_do; [| exact HQ]. unfold exec1. cbn [privileged andb effect_of]. by rewrite Ha. Qed.

(** a test of a bit, and the branch that follows it *)
Lemma r_btst_beq i v b (o' : operand) l code r o sr m Q :
  value (match o' with Od _ => sz_l | _ => sz_b end) o' (mk_m68 r o sr m) = Some v ->
  Z.testbit v (i mod width (match o' with Od _ => sz_l | _ => sz_b end)) = b ->
  (forall sr', super sr' = super sr -> runs_from (if b then None else Some l) code (mk_m68 r o sr' m) Q) ->
  runs_code (Do (Ibtst i o') :: Do (Ib c_eq l) :: code) (mk_m68 r o sr m) Q.
Proof.
  intros Hv <- HQ. set (b := Z.testbit v _) in *. eapply r_do.
  { unfold exec1. cbn [privileged andb effect_of]. rewrite Hv. reflexivity. }
  fold b. cbn [m_sr set_m_sr]. specialize (HQ _ (super_z sr (negb b))). destruct HQ as (f & rest & s' & E & HQ). exists f, rest, s'. split; [| exact HQ].
  cbn [exec]. unfold exec1. cbn [privileged andb effect_of]. unfold holds_cond, flag_z. cbn [m_sr set_m_sr].
  rewrite Z.lor_spec, Z.ldiff_spec. change (Z.testbit 4 2) with true. rewrite andb_false_r. cbn [orb].
  replace (Z.testbit (4 * Z.b2z (negb b)) 2) with (negb b) by by destruct b. by destruct b.
Qed.
Lemma r_bra l code s Q : runs_from (Some l) code s Q -> runs_code (Do (Ib c_true l) :: code) s Q.
Proof. intros (f & rest & s' & E & HQ). by exists f, rest, s'. Qed.

(** in supervisor mode *)
Lemma exec1_super (i : instr string) s : super (m_sr s) = true -> exec1 i s = effect_of i s.
Proof. intros E. unfold exec1. by rewrite E, andb_false_r. Qed.
Lemma load_sr_super w s : super w = true -> super (m_sr s) = true -> load_sr w s = set_m_sr w s.
Proof. intros Hw Hs. unfold load_sr. by rewrite Hw, Hs. Qed.
Lemma r_from_usp n code r o sr m Q : super sr = true ->
  runs_code code (mk_m68 (put r (8 + n) o) o sr m) Q -> runs_code (Do (Ifrom_usp n) :: code) (mk_m68 r o sr m) Q.
Proof. intros S HQ. eapply r_do; [| exact HQ]. by rewrite exec1_super. Qed.
Lemma r_to_usp n code r o sr m a Q : super sr = true -> r (8 + n) = a ->
  runs_code code (mk_m68 r a sr m) Q -> runs_code (Do (Ito_usp n) :: code) (mk_m68 r o sr m) Q.
Proof. intros S <- HQ. eapply r_do; [| exact HQ]. by rewrite exec1_super. Qed.
Lemma r_and_sr v code r o sr m Q : super sr = true -> Z.testbit v 13 = true ->
  (forall sr', super sr' = true -> runs_code code (mk_m68 r o sr' m) Q) -> runs_code (Do (Iand_sr v) :: code) (mk_m68 r o sr m) Q.
Proof.
  intros S Hv HQ. assert (super (Z.land sr v) = true) as S' by (unfold super in *; by rewrite Z.land_spec, S, Hv).
  eapply r_do; [| by apply HQ]. rewrite exec1_super by done. cbn [effect_of m_sr]. by rewrite load_sr_super.
Qed.
Lemma r_or_sr v code r o sr m Q : super sr = true ->
  (forall sr', super sr' = true -> runs_code code (mk_m68 r o sr' m) Q) -> runs_code (Do (Ior_sr v) :: code) (mk_m68 r o sr m) Q.
Proof.
  intros S HQ. assert (super (Z.lor sr v) = true) as S' by (unfold super in *; by rewrite Z.lor_spec, S).
  eapply r_do; [| by apply HQ]. rewrite exec1_super by done. cbn [effect_of m_sr]. by rewrite load_sr_super.
Qed.
Lemma r_to_sr (o' : operand) w code r o sr m Q : super sr = true -> super w = true -> value sz_w o' (mk_m68 r o sr m) = Some w ->
  runs_code code (mk_m68 r o w m) Q -> runs_code (Do (Ito_sr o') :: code) (mk_m68 r o sr m) Q.
Proof.
  intros S S' Hw HQ. eapply r_do; [| exact HQ]. rewrite exec1_super by done. cbn [effect_of]. rewrite Hw. by rewrite load_sr_super.
Qed.
Lemma r_rts code r o sr m a b c (Q : flow string -> list line -> m68 -> Prop) : r 15 = a -> rd32 m a = c -> u32 (a + 4) = b ->
  Q (Fjump c) code (mk_m68 (put r 15 b) o sr m) -> runs_code (Do Irts :: code) (mk_m68 r o sr m) Q.
Proof. intros <- <- <- HQ. by eexists _, _, _. Qed.
Lemma r_rte code r o sr m b w c (Q : flow string -> list line -> m68 -> Prop) : super sr = true -> r 15 = b ->
  rd16 m b = w -> rd32 m (u32 (b + 2)) = c ->
  Q (Fjump c) code (load_sr w (mk_m68 (put r 15 (u32 (b + 6))) o sr m)) -> runs_code (Do Irte :: code) (mk_m68 r o sr m) Q.
Proof.
  intros S <- <- <- HQ. eexists _, _, _. split; [| exact HQ]. cbn [exec]. rewrite exec1_super by done. reflexivity.
Qed.
Lemma r_pea v code r o sr m a Q : u32 (r 15 - 4) = a ->
  runs_code code (mk_m68 (put r 15 a) o sr (wr32 m a v)) Q -> runs_code (Do (Ipea v) :: code) (mk_m68 r o sr m) Q.
Proof. intros <- HQ. by eapply r_do. Qed.
Lemma r_from_sr (o' : operand) code r o sr m a Q : ea o' (mk_m68 r o sr m) = Some a ->
  runs_code code (mk_m68 r o sr (wr16 m a sr)) Q -> runs_code (Do (Ifrom_sr o') :: code) (mk_m68 r o sr m) Q.
Proof.
  intros Ha HQ. eapply r_do; [| exact HQ]. unfold exec1. cbn [privileged andb effect_of]. destruct o'; try done; unfold assign; by rewrite Ha.
Qed.
Lemma r_trap n code s (Q : flow string -> list line -> m68 -> Prop) : Q (Ftrap n) code s -> runs_code (Do (Itrap n) :: code) s Q.
Proof. intros HQ. by eexists _, _, _. Qed.
(** a part of a data register *)
Lemma r_moved z src n code r o sr m v Q : value z src (mk_m68 r o sr m) = Some v ->
  (forall sr' v', flags_of sr sr' -> v' mod 2 ^ width z = v mod 2 ^ width z -> runs_code code (mk_m68 (put r n v') o sr' m) Q) ->
  runs_code (Do (Imove z src (Od n)) :: code) (mk_m68 r o sr m) Q.
Proof.
  intros Hv HQ. eapply r_do; [unfold exec1; cbn [privileged andb effect_of]; rewrite Hv; reflexivity |]. apply HQ.
  - eexists. split; [apply (flags_range (negative z v) (v mod 2 ^ width z =? 0) false false) | done].
  - set (x := r n). rewrite Z.add_mod, (Zminus_mod x), Z.mod_mod, Z.sub_diag, Z.mod_0_l, Z.add_0_l, !Z.mod_mod by (destruct z; done). done.
Qed.
End lines.
