(* ===== verification/StubSave.v ===== *)
(** * The assembly stubs: the first part *)

From S2P Require Export StubSpec.
Local Open Scope Z_scope.

(** ** Processor states in memory *)

(** [n] long words from [a] on *)
Fixpoint longs (m : memory) (a : Z) (n : nat) : list Z :=
  match n with O => [] | S n' => rd32 m a :: longs m (a + 4) n' end.
(** the registers as unsigned words *)
Definition words (st : state_t) : list Z := u32 <$> vec_to_list (s_r st).
(** [m] holds the state [st] at [a] *)
Record holds (m : memory) (a : Z) (st : state_t) : Prop := {
  ho_regs : longs m a 17 = words st;
  ho_sr : rd16 m (a + asm.HOCA_SR) = sr_word (s_sr st);
  ho_tmp : rd16 m (a + 70) = u16 (s_tmp st);
  ho_crp : rd32 m (a + asm.HOCA_CRP) = u32 (s_crp st) }.

Lemma longs_agree m m' n : forall a, (forall x, a <= x < a + 4 * Z.of_nat n -> m x = m' x) -> longs m a n = longs m' a n.
Proof.
  induction n as [|n IH]; intros a E; [done |]. cbn [longs]. f_equal; [apply rd32_agree; intros; apply E; lia |].
  apply IH. intros; apply E; lia.
Qed.
Lemma holds_agree m m' a st : (forall x, a <= x < a + STATE_SIZE -> m x = m' x) -> holds m a st -> holds m' a st.
Proof.
  unfold STATE_SIZE. intros E [H1 H2 H3 H4]. split.
  - rewrite <- H1. symmetry. apply longs_agree. intros; apply E; lia.
  - rewrite <- H2. symmetry. apply rd16_agree. unfold asm.HOCA_SR. intros; apply E; lia.
  - rewrite <- H3. symmetry. apply rd16_agree. intros; apply E; lia.
  - rewrite <- H4. symmetry. apply rd32_agree. unfold asm.HOCA_CRP. intros; apply E; lia.
Qed.

Lemma longs_snoc m n : forall a, longs m a (S n) = longs m a n ++ [rd32 m (a + 4 * Z.of_nat n)].
Proof.
  induction n as [|n IH]; intros a; [cbn; by rewrite Z.add_0_r |]. change (longs m a (S (S n))) with (rd32 m a :: longs m (a + 4) (S n)).
  rewrite IH. cbn [longs app]. do 3 f_equal. f_equal. lia.
Qed.

Lemma longs_fmap m n : forall a i, longs m (a + 4 * i) n = (fun j => rd32 m (a + 4 * j)) <$> seqZ i (Z.of_nat n).
Proof.
  induction n as [|n IH]; intros a i; [done |]. rewrite seqZ_cons by lia. cbn [longs fmap list_fmap]. f_equal.
  replace (a + 4 * i + 4) with (a + 4 * Z.succ i) by lia. rewrite IH. by replace (Z.pred (Z.of_nat (S n))) with (Z.of_nat n) by lia.
Qed.
Lemma load_regs_seq m n : forall i a r j,
  load_regs m (seqZ i (Z.of_nat n)) a r j = if decide (i <= j < i + Z.of_nat n) then rd32 m (a + 4 * (j - i)) else r j.
Proof.
  induction n as [|n IH]; intros i a r j; [by rewrite decide_False by lia |]. rewrite seqZ_cons by lia. cbn [load_regs].
  replace (Z.pred (Z.of_nat (S n))) with (Z.of_nat n) by lia. rewrite IH. destruct (decide (j = i)) as [-> | Hne].
  - rewrite decide_False, decide_True, put_eq by lia. f_equal. lia.
  - rewrite put_ne by done. destruct (decide (i <= j < i + Z.of_nat (S n))); [rewrite decide_True by lia; f_equal; lia | by rewrite decide_False by lia].
Qed.

(** the memory stays but for some ranges *)
Definition outside (l : list (Z * Z)) (x : Z) : Prop := Forall (fun ab => ~ ab.1 <= x < ab.1 + ab.2) l.
Definition kept (l : list (Z * Z)) (m m' : memory) : Prop := forall x, outside l x -> m' x = m x.

(** ** Steps *)

Ltac norm :=
  repeat first
    [ progress change (8 + 0) with 8 | progress change (8 + 1) with 9 | progress change (8 + 6) with 14 | progress change (8 + 7) with 15
    | progress cbv [value ea rd wr width m_reg m_osp m_sr m_mem option_map asm.CRP_REG asm.HOCA_SP asm.HOCA_PC asm.HOCA_SR asm.HOCA_CRP]
    | match goal with
      | H : ?f ?k = _ |- context [?f ?k] => is_var f; rewrite H
      | |- context [put ?r ?i ?v ?j] => first [rewrite (put_eq r i v j) by done | rewrite (put_ne r i v j) by done]
      | |- context [u32 (u32 ?x)] => rewrite (u32_u32 x)
      | |- context [u32 (rd32 ?m ?x)] => rewrite (u32_rd32 m x)
      | |- context [u16 (rd16 ?m ?x)] => rewrite (u16_rd16 m x)
      | |- context [u32 ?x] => rewrite (u32_id x) by lia
      | |- context [rd32 (wr32 ?m ?a ?v) ?b] => first [rewrite (rd32_wr32 m a v b) by lia | rewrite (rd32_wr32_other m a v b) by lia]
      | |- context [rd32 (wr16 ?m ?a ?v) ?b] => rewrite (rd32_wr16_other m a v b) by lia
      | |- context [rd16 (wr32 ?m ?a ?v) ?b] => rewrite (rd16_wr32_other m a v b) by lia
      | |- context [rd16 (wr16 ?m ?a ?v) ?b] => first [rewrite (rd16_wr16 m a v b) by lia | rewrite (rd16_wr16_other m a v b) by lia]
      | |- context [rd8 (wr32 ?m ?a ?v) ?b] => rewrite (rd8_wr32_other m a v b) by lia
      | |- context [rd8 (wr16 ?m ?a ?v) ?b] => rewrite (rd8_wr16_other m a v b) by lia
      end ].
Ltac normed := norm; reflexivity.
Ltac regs_of := vm_compute; reflexivity.
Ltac stored := cbn [store_regs]; normed.

(** a sum of writes *)
Ltac solve_kept :=
  let x := fresh in let Hx := fresh in
  intros x Hx; unfold outside in Hx; rewrite !Forall_cons, Forall_nil in Hx; cbn [fst snd] in Hx; cbn [wr store_regs];
  repeat first [rewrite wr32_other by lia | rewrite wr16_other by lia];
  first [reflexivity | match goal with H : kept _ ?m ?m1 |- ?m1 x = ?m x => apply H; unfold outside; rewrite !Forall_cons, Forall_nil; cbn [fst snd]; lia end].

(** the last two lines of the stubs *)
Lemma load_all_runs base r o sr m code (Q : flow string -> list line -> m68 -> Prop) :
  r 8 = base -> 0 <= base < 2 ^ 32 ->
  (forall r', r' <$> seqZ 0 15 = longs m base 15 -> r' 15 = u32 (rd32 m (base + 60) + 4) ->
     Q (Fjump (rd32 m (rd32 m (base + 60)))) code (mk_m68 r' o sr m)) ->
  runs_from None (Do (Imovem_in (Om 0 0) 0xffff) :: Do Irts :: code) (mk_m68 r o sr m) Q.
Proof.
  intros Hb Hr HQ. eapply (r_movem_in _ (seqZ 0 (Z.of_nat 16))); [regs_of | reflexivity | |].
  { norm. rewrite Z.add_0_r. reflexivity. }
  assert (forall j, 0 <= j < 16 -> load_regs m (seqZ 0 (Z.of_nat 16)) base r j = rd32 m (base + 4 * j)) as E.
  { intros j Hj. rewrite load_regs_seq, decide_True by lia. by rewrite Z.sub_0_r. }
  eapply r_rts; [apply E; lia | reflexivity | reflexivity |]. change (4 * 15) with 60. apply HQ; [| by rewrite put_eq].
  pose proof (longs_fmap m 15 base 0) as EL. rewrite Z.mul_0_r, Z.add_0_r in EL. rewrite EL. apply list_fmap_ext. intros _ j Hj%list_elem_of_lookup_2%elem_of_seqZ.
  rewrite put_ne by lia. apply E. lia.
Qed.

Section stld.
Context (r : Z -> Z) (o sr : Z) (m : memory) (sp area w : Z).
Hypotheses (Hsp : r 15 = sp) (Hlow : 0xcc8 <= sp) (Hhigh : sp + 14 <= 2 ^ 32) (Harea : 0x800 <= area <= 0xc28).
Hypothesis (Hregs : forall i, 0 <= i < 15 -> u32 (r i) = r i).
Hypotheses (Hsuper : super sr = true) (Hw : rd16 m sp = w).

(** the registers after the first part *)
Definition saving (r1 : Z -> Z) : Prop := r1 8 = area + 60 /\ r1 14 = sp - 4 /\ r1 15 = sp - 4 /\ forall i, i <> 8 -> i <> 14 -> i <> 15 -> r1 i = r i.

Lemma save_registers_runs code Q :
  (forall r1 sr1 m1, super sr1 = true -> longs m1 area 15 = r <$> seqZ 0 15 -> kept [(area, 60); (sp - 8, 8)] m m1 -> saving r1 ->
     runs_from (if super w then None else Some "LaSTLD") code (mk_m68 r1 o sr1 m1) Q) ->
  runs_from None (asm.save_registers area ++ code) (mk_m68 r o sr m) Q.
Proof.
  intros HQ. unfold asm.save_registers. cbn [app].
  eapply r_link; [rewrite Hsp; normed | reflexivity | lia |].
  eapply r_movem_out; [regs_of | reflexivity | normed | stored |].
  eapply r_movea; [reflexivity | cbn [width]; rewrite Z.mod_small by lia; normed |].
  eapply r_movem_out; [regs_of | reflexivity | normed | stored |].
  eapply r_adda; [lia | normed |].
  eapply r_move; [reflexivity | normed | reflexivity | normed |]. intros sr1 F1%flags_super.
  eapply r_adda; [lia | normed |].
  eapply r_movem_out; [regs_of | reflexivity | normed | stored |].
  eapply r_adda; [lia | normed |].
  eapply r_move; [reflexivity | normed | reflexivity | normed |]. intros sr2 F2%flags_super.
  eapply r_adda; [lia | normed |].
  eapply r_btst_beq; [reflexivity | norm; change (13 mod 8) with 5; rewrite testbit_high by lia; replace (sp - 4 + 4) with sp by lia; rewrite Hw; reflexivity |]. intros sr3 F3.
  apply HQ; [by rewrite F3, F2, F1 | cbn [longs]; norm; rewrite !Hregs by lia; reflexivity | solve_kept |].
  split; [norm; lia |]. split; [normed |]. split; [normed |]. intros i H8 H14 H15. normed.
Qed.
End stld.
