(* ===== verification/StubProps.v ===== *)
(** * Properties: the assembly stubs

    What the stubs do to memory and registers is what [Run.v] takes an exception to do. *)

From S2P Require Export StubSave.
Local Open Scope Z_scope.

Section stld.
Context (r : Z -> Z) (o sr : Z) (m : memory) (sp area w : Z).
Hypotheses (Hsp : r 15 = sp) (Hlow : 0xcc8 <= sp) (Hhigh : sp + 14 <= 2 ^ 32) (Harea : 0x800 <= area <= 0xc28).
Hypothesis (Hregs : forall i, 0 <= i < 15 -> u32 (r i) = r i).
Hypotheses (Hsuper : super sr = true) (Hw : rd16 m sp = w).

(** the memory after the state has been saved, the stack pointer being [usp] and the word
    [tmp] *)
Definition saved_in (m1 : memory) (usp tmp : Z) : Prop :=
  longs m1 area 17 = (r <$> seqZ 0 15) ++ [usp; rd32 m (sp + 2)] /\ rd16 m1 (area + 68) = w /\ rd16 m1 (area + 70) = u16 tmp /\
  kept [(area, 72); (sp - 8, 8)] m m1.

Lemma save_frame_runs word tmp r1 sr1 m1 usp code Q :
  super sr1 = true -> longs m1 area 16 = (r <$> seqZ 0 15) ++ [usp] -> kept [(area, 64); (sp - 8, 8)] m m1 -> r1 14 = sp - 4 -> r1 8 = area + 60 ->
  (forall r2 sr2 m2, r2 14 = sp - 4 -> r2 9 = r1 9 -> r2 8 = area + 70 -> kept [(area, 70); (sp - 8, 8)] m m2 ->
     value sz_w word (mk_m68 r2 o sr2 m2) = Some tmp) ->
  (forall r2 sr2 m2, super sr2 = true -> r2 8 = area + 70 -> saved_in m2 usp tmp -> runs_from None code (mk_m68 r2 o sr2 m2) Q) ->
  runs_from None (asm.save_frame word ++ code) (mk_m68 r1 o sr1 m1) Q.
Proof.
  intros S1 HL HK R14 R8 Hword HQ. unfold asm.save_frame. cbn [app].
  assert (rd32 m1 (sp + 2) = rd32 m (sp + 2)) as E2.
  { apply rd32_agree. intros x Hx. apply HK. unfold outside. rewrite !Forall_cons, Forall_nil. cbn. lia. }
  assert (rd16 m1 sp = w) as E0.
  { rewrite <- Hw. apply rd16_agree. intros x Hx. apply HK. unfold outside. rewrite !Forall_cons, Forall_nil. cbn. lia. }
  eapply r_adda; [lia | normed |].
  eapply r_move; [reflexivity | norm; replace (sp - 4 + 6) with (sp + 2) by lia; rewrite E2; reflexivity | reflexivity | normed |].
  intros sr2 F2%flags_super. eapply r_adda; [lia | normed |].
  eapply r_move; [reflexivity | norm; replace (sp - 4 + 4) with sp by lia; rewrite E0; reflexivity | reflexivity | normed |].
  intros sr3 F3%flags_super. eapply r_adda; [lia | normed |].
  eapply r_move; [apply Hword; [normed.. | norm; lia | solve_kept] | reflexivity | reflexivity | normed |].
  intros sr4 F4%flags_super. apply HQ; [by rewrite F4, F3, F2 | norm; lia |]. unfold saved_in. split; [| split; [| split]].
  - rewrite longs_snoc. cbn [wr]. norm. replace (longs _ area 16) with (longs m1 area 16); [by rewrite HL, <- app_assoc |].
    apply longs_agree. intros x Hx. repeat first [rewrite wr32_other by lia | rewrite wr16_other by lia]. done.
  - cbn [wr]. norm. unfold u16. rewrite Z.mod_small by (rewrite <- Hw; apply rd16_range). done.
  - cbn [wr]. norm. done.
  - solve_kept.
Qed.

(** the new area, and the state that is loaded from it *)
Notation new := (area + 76).
Notation nsp := (rd32 m (new + asm.HOCA_SP)).
Hypotheses (Hnew : super (rd16 m (new + asm.HOCA_SR)) = true) (Hnsp : 0xcc8 <= nsp) (Hnsp' : nsp + 4 <= 2 ^ 32).

(** the old area holds the state with the stack pointer [usp] and the word [tmp], and the
    processor is in the state of the new area, with one word more popped off its stack *)
Record switched (usp tmp : Z) (f : flow string) (s' : m68) : Prop := {
  sw_pc : f = Fjump (rd32 m (new + asm.HOCA_PC));
  sw_regs : m_reg s' <$> seqZ 0 15 = longs m new 15;
  sw_sp : m_reg s' 15 = u32 (nsp + 4);
  sw_sr : m_sr s' = rd16 m (new + asm.HOCA_SR);
  sw_crp : rd32 (m_mem s') asm.CRP_REG = rd32 m (new + asm.HOCA_CRP);
  sw_old : longs (m_mem s') area 17 = (r <$> seqZ 0 15) ++ [usp; rd32 m (sp + 2)];
  sw_old_sr : rd16 (m_mem s') (area + asm.HOCA_SR) = w;
  sw_old_tmp : rd16 (m_mem s') (area + 70) = u16 tmp;
  sw_old_crp : rd32 (m_mem s') (area + asm.HOCA_CRP) = rd32 m asm.CRP_REG;
  sw_kept : kept [(area, 76); (sp - 8, 8); (asm.CRP_REG, 4); (nsp, 4)] m (m_mem s') }.

Lemma load_new_runs last r2 sr2 m2 usp tmp code :
  last = asm.to_sr \/ last = asm.to_cc ->
  super sr2 = true -> r2 8 = area + 70 -> saved_in m2 usp tmp ->
  runs_from None (asm.load_new last ++ code) (mk_m68 r2 o sr2 m2) (fun f _ s' => switched usp tmp f s').
Proof.
  intros Hlast S2 R8 (HL & HS & HT & HK). unfold asm.load_new. cbn [app].
  assert (forall a, new <= a -> a + 4 <= new + 76 -> rd32 m2 a = rd32 m a) as E32.
  { intros a Ha1 Ha2. apply rd32_agree. intros x Hx. apply HK. unfold outside. rewrite !Forall_cons, Forall_nil. cbn. lia. }
  assert (rd16 m2 (new + 68) = rd16 m (new + 68)) as E16.
  { apply rd16_agree. intros x Hx. apply HK. unfold outside. rewrite !Forall_cons, Forall_nil. cbn. lia. }
  assert (rd32 m2 asm.CRP_REG = rd32 m asm.CRP_REG) as EC.
  { apply rd32_agree. intros x Hx. apply HK. unfold outside, asm.CRP_REG in *. rewrite !Forall_cons, Forall_nil. cbn. lia. }
  unfold asm.CRP_REG, asm.HOCA_SP, asm.HOCA_SR, asm.HOCA_PC, asm.HOCA_CRP in *.
  eapply r_adda; [lia | normed |].
  eapply r_move; [reflexivity | norm; exact EC | reflexivity | normed |]. intros sr3 F3%flags_super.
  eapply r_and_sr; [by rewrite F3 | done |]. intros sr4 S4.
  eapply r_adda; [lia | normed |].
  eapply r_move; [reflexivity | norm; apply E32; lia | reflexivity | normed |]. intros sr5 F5%flags_super.
  eapply r_movea; [reflexivity | norm; rewrite E32 by lia; reflexivity |].
  replace (area + 70 + 2 + 4 + 60) with (new + 60) by lia.
  eapply r_to_sr; [by rewrite F5 | exact Hnew | norm; replace (area + 70 + 2 + 4 + 68) with (new + 68) by lia; rewrite E16; reflexivity |].
  eapply r_move; [reflexivity | norm; rewrite E32 by lia; reflexivity | reflexivity | norm; rewrite Z.add_0_r; reflexivity |].
  replace (area + 70 + 2 + 4 + 64) with (new + 64) by lia. intros sr6 F6.
  match goal with |- runs_from _ _ (mk_m68 ?x ?y _ ?z) _ => set (r6 := x); set (m6 := z) end.
  assert (value sz_w (Om 68 0) (mk_m68 r6 o sr6 m6) = Some (rd16 m (new + 68))) as Hv6.
  { subst r6 m6. norm. replace (area + 70 + 2 + 4 + 68) with (new + 68) by lia. by rewrite E16. }
  assert (runs_from None (Do (Imovem_in (Om 0 0) 0xffff) :: Do Irts :: code) (mk_m68 r6 o (rd16 m (new + 68)) m6)
    (fun f _ s' => switched usp tmp f s')) as HR.
  { assert (forall a, new <= a -> a + 4 <= new + 76 -> rd32 m6 a = rd32 m a) as E6.
    { intros a Ha1 Ha2. subst m6. norm. by apply E32. }
    assert (r6 8 = new) as R6 by (subst r6; norm; lia).
    apply (load_all_runs new); [exact R6 | lia |]. intros r' HR15 HR16. rewrite (E6 (new + 60)) in HR16 by lia. rewrite (E6 (new + 60)) by lia.
    split; cbn [m_reg m_osp m_sr m_mem].
    - f_equal. subst m6. by norm.
    - rewrite HR15. apply longs_agree. intros x Hx. subst m6. cbn [wr]. rewrite !wr32_other by lia. apply HK.
      unfold outside. rewrite !Forall_cons, Forall_nil. cbn. lia.
    - exact HR16.
    - done.
    - subst m6. norm. f_equal. lia.
    - subst m6. rewrite <- HL. symmetry. apply longs_agree. intros x Hx. cbn [wr]. by rewrite !wr32_other by lia.
    - subst m6. norm. exact HS.
    - subst m6. norm. exact HT.
    - subst m6. norm. done.
    - subst m6. unfold asm.CRP_REG, asm.HOCA_SP. solve_kept. }
  destruct Hlast as [-> | ->].
  - eapply r_to_sr; [rewrite (flags_super _ _ F6); exact Hnew | exact Hnew | exact Hv6 | exact HR].
  - eapply r_do; [| exact HR]. unfold exec1, asm.to_cc. cbn [privileged andb effect_of]. unfold asm.HOCA_SR. rewrite Hv6. cbn [option_map].
    unfold load_cc. cbn. destruct F6 as (f & Hf & ->). by rewrite cc_restored.
Qed.

(** the stack pointer that is saved in user mode *)
Hypothesis (Ho : u32 o = o).

Lemma kept_sp m1 usp : longs m1 area 15 = r <$> seqZ 0 15 -> kept [(area, 60); (sp - 8, 8)] m m1 ->
  longs (wr32 m1 (area + 60) usp) area 16 = (r <$> seqZ 0 15) ++ [u32 usp] /\ kept [(area, 64); (sp - 8, 8)] m (wr32 m1 (area + 60) usp).
Proof.
  intros HL HK. split.
  - rewrite longs_snoc. rewrite rd32_wr32 by lia. f_equal. rewrite <- HL. apply longs_agree. intros x Hx. by rewrite wr32_other by lia.
  - solve_kept.
Qed.

(** the stack pointer of supervisor mode is saved, [k] bytes above the frame pointer *)
Lemma save_ssp_runs k r1 sr1 m1 code Q :
  0 <= k <= 14 -> super sr1 = true -> longs m1 area 15 = r <$> seqZ 0 15 -> kept [(area, 60); (sp - 8, 8)] m m1 -> saving r sp area r1 ->
  (forall sr2 m2, super sr2 = true -> longs m2 area 16 = (r <$> seqZ 0 15) ++ [u32 (sp - 4 + k)] -> kept [(area, 64); (sp - 8, 8)] m m2 ->
     runs_from None code (mk_m68 r1 o sr2 m2) Q) ->
  runs_from None (Do (Imove sz_l (Oa 6) (Om 0 0)) :: Do (Iadd sz_l (Oimm k) (Om 0 0)) :: code) (mk_m68 r1 o sr1 m1) Q.
Proof.
  intros Hk S1 HL HK (R8 & R14 & R15 & Rne) HQ.
  eapply r_move; [reflexivity | cbn [width]; norm; rewrite Z.mod_small by lia; reflexivity | reflexivity | norm; rewrite Z.add_0_r; reflexivity |].
  intros sr2 F2%flags_super. cbn [wr].
  eapply r_add; [reflexivity | norm; rewrite Z.mod_small by lia; reflexivity | reflexivity | norm; rewrite Z.add_0_r; reflexivity |].
  intros sr3 F3. cbn [wr].
  destruct (kept_sp m1 (sp - 4) HL HK) as [_ HK2].
  apply HQ; [by rewrite F3, F2 | | solve_kept].
  rewrite longs_snoc. rewrite rd32_wr32 by lia. f_equal. rewrite <- HL. apply longs_agree. intros x Hx. by rewrite !wr32_other by lia.
Qed.

(** the stack pointer of user mode is saved, when [r1 9] holds it *)
Lemma save_usp_runs r1 sr1 m1 usp code Q :
  super sr1 = true -> longs m1 area 15 = r <$> seqZ 0 15 -> kept [(area, 60); (sp - 8, 8)] m m1 -> r1 8 = area + 60 -> r1 9 = usp ->
  (forall sr2 m2, super sr2 = true -> longs m2 area 16 = (r <$> seqZ 0 15) ++ [u32 usp] -> kept [(area, 64); (sp - 8, 8)] m m2 ->
     runs_from None code (mk_m68 r1 o sr2 m2) Q) ->
  runs_from None (Do (Imove sz_l (Oa 1) (Om 0 0)) :: code) (mk_m68 r1 o sr1 m1) Q.
Proof.
  intros S1 HL HK R8 R9 HQ.
  eapply r_move; [reflexivity | norm; reflexivity | reflexivity | norm; rewrite Z.add_0_r; reflexivity |].
  intros sr2 F2%flags_super. cbn [wr]. change (usp mod 2 ^ 32) with (u32 usp). destruct (kept_sp m1 (u32 usp) HL HK) as [HL2 HK2]. rewrite u32_u32 in HL2.
  apply HQ; [by rewrite F2 | exact HL2 | exact HK2].
Qed.

(** ** The routines *)

(** a source of the word that is not among the cells that the routine writes *)
Definition fixed_word (word : operand) (tmp : Z) : Prop :=
  forall r2 sr2 m2, kept [(area, 70); (sp - 8, 8)] m m2 -> value sz_w word (mk_m68 r2 o sr2 m2) = Some tmp.

Lemma STLD_runs word tmp last :
  last = asm.to_sr \/ last = asm.to_cc -> fixed_word word tmp ->
  runs_from None (asm.STLD area word last) (mk_m68 r o sr m) (fun f _ s' => switched (if super w then sp + 6 else o) tmp f s').
Proof.
  intros Hlast Hword. unfold asm.STLD. eapply save_registers_runs; try eassumption. intros r1 sr1 m1 S1 HL HK HS.
  pose proof HS as (R8 & R14 & R15 & Rne). destruct (super w).
  - apply (save_ssp_runs 10); [lia | done.. |]. intros sr2 m2 S2 HL2 HK2. rewrite u32_id in HL2 by lia. replace (sp - 4 + 10) with (sp + 6) in HL2 by lia.
    apply r_bra, r_label. cbn. do 2 apply r_skip. apply r_label. cbn.
    eapply save_frame_runs; try eassumption; [intros; by apply Hword |]. intros r3 sr3 m3 S3 R8' HV. by eapply load_new_runs.
  - apply r_skip, r_skip, r_skip, r_label. cbn.
    eapply r_from_usp; [done |]. change (8 + 1) with 9.
    eapply save_usp_runs; [done.. | normed | normed |]. intros sr2 m2 S2 HL2 HK2. rewrite Ho in HL2. apply r_label. cbn.
    eapply save_frame_runs; try eassumption; [intros; by apply Hword |]. intros r3 sr3 m3 S3 R8' HV. by eapply load_new_runs.
Qed.

Lemma STLDSYSn_runs n : 0 <= n < 2 ^ 16 ->
  area = 0x930 -> runs_from None (asm.STLDSYSn n) (mk_m68 r o sr m) (fun f _ s' => switched (if super w then sp + 6 else o) n f s').
Proof.
  intros Hn Ea. assert (forall r2 sr2 m2, value sz_w (Oimm n) (mk_m68 r2 o sr2 m2) = Some n) as Hword.
  { intros. cbn. by rewrite Z.mod_small by (cbn; lia). }
  unfold asm.STLDSYSn. rewrite <- Ea. eapply save_registers_runs; try eassumption. intros r1 sr1 m1 S1 HL HK HS.
  pose proof HS as (R8 & R14 & R15 & Rne). destruct (super w).
  - apply (save_ssp_runs 10); [lia | done.. |]. intros sr2 m2 S2 HL2 HK2. rewrite u32_id in HL2 by lia. replace (sp - 4 + 10) with (sp + 6) in HL2 by lia.
    eapply save_frame_runs; try eassumption; [intros; by apply Hword |]. intros r3 sr3 m3 S3 R8' HV.
    apply r_bra, r_label. cbn. do 8 apply r_skip. apply r_label. cbn. eapply load_new_runs; try eassumption. by left.
  - do 2 apply r_skip. do 7 apply r_skip. apply r_label. cbn.
    eapply r_from_usp; [done |]. change (8 + 1) with 9.
    eapply save_usp_runs; [done.. | normed | normed |]. intros sr2 m2 S2 HL2 HK2. rewrite Ho in HL2.
    eapply save_frame_runs; try eassumption; [intros; by apply Hword |]. intros r3 sr3 m3 S3 R8' HV.
    apply r_label. cbn. eapply load_new_runs; try eassumption. by left.
Qed.

(** [tmp]: the low word of the long word that is popped off the stack of the caller, which
    the routine does not write *)
Lemma STLDSYS_runs tmp :
  area = 0x930 -> (if super w then rd16 m (sp + 8) = tmp
    else rd16 m (o + 2) = tmp /\ o + 4 < 2 ^ 32 /\ 0 <= o /\ (o + 4 <= area \/ area + 76 <= o) /\ (o + 4 <= sp - 8 \/ sp <= o)) ->
  runs_from None asm.STLDSYS (mk_m68 r o sr m) (fun f _ s' => switched (if super w then sp + 10 else o + 4) tmp f s').
Proof.
  intros Ea Htmp. unfold asm.STLDSYS. rewrite <- Ea. eapply save_registers_runs; try eassumption. intros r1 sr1 m1 S1 HL HK HS.
  pose proof HS as (R8 & R14 & R15 & Rne). destruct (super w).
  - apply (save_ssp_runs 14); [lia | done.. |]. intros sr2 m2 S2 HL2 HK2. rewrite u32_id in HL2 by lia. replace (sp - 4 + 14) with (sp + 10) in HL2 by lia.
    eapply (save_frame_runs _ tmp); try eassumption.
    { intros r2 sr3 m3 R14' _ _ HK3. norm. replace (sp - 4 + 12) with (sp + 8) by lia. rewrite <- Htmp. f_equal.
      apply rd16_agree. intros x Hx. apply HK3. unfold outside. rewrite !Forall_cons, Forall_nil. cbn. lia. }
    intros r3 sr3 m3 S3 R8' HV.
    apply r_bra, r_label. cbn. do 9 apply r_skip. apply r_label. cbn. eapply load_new_runs; try eassumption. by left.
  - destruct Htmp as (Htmp & Ho1 & Ho2 & Ho3 & Ho4). do 2 apply r_skip. do 7 apply r_skip. apply r_label. cbn.
    eapply r_from_usp; [done |]. eapply r_adda; [lia | change (8 + 1) with 9; normed |]. change (8 + 1) with 9.
    eapply save_usp_runs; [done.. | normed | normed |]. intros sr2 m2 S2 HL2 HK2. rewrite u32_id in HL2 by lia.
    eapply (save_frame_runs _ tmp); try eassumption.
    { intros r2 sr3 m3 _ R9 _ HK3. revert R9. norm. intros R9. norm. replace (o + 4 + -2) with (o + 2) by lia. rewrite <- Htmp. f_equal.
      apply rd16_agree. intros x Hx. apply HK3. unfold outside. rewrite !Forall_cons, Forall_nil. cbn. lia. }
    intros r3 sr3 m3 S3 R8' HV. apply r_label. cbn. eapply load_new_runs; try eassumption. by left.
Qed.
End stld.
