(* ===== verification/Switch.v ===== *)
(** * Properties: the context switch in assembly

    The stubs [STLD*.s] refine what [Run.v] takes an exception to do, and [LDST.s] loads
    what they have saved. *)

From S2P Require Export StubProps Run.
Local Open Scope Z_scope.

Lemma words_lookup st (i : fin 17) : words st !! fin_to_nat i = Some (u32 (s_r st !!! i)).
Proof. unfold words. by rewrite list_lookup_fmap, (proj1 (vlookup_lookup (s_r st) i _) eq_refl). Qed.
Lemma holds_word m a st (i : fin 17) : holds m a st -> rd32 m (a + 4 * Z.of_nat (fin_to_nat i)) = u32 (s_r st !!! i).
Proof.
  intros [E1 _ _ _]. apply (f_equal (fun l => l !! fin_to_nat i)) in E1. pose proof (fin_to_nat_lt i) as Hi.
  pose proof (longs_fmap m 17 a 0) as EL. rewrite Z.mul_0_r, Z.add_0_r in EL. rewrite EL, words_lookup in E1.
  rewrite list_lookup_fmap, lookup_seqZ_lt in E1 by lia.
  injection E1 as E1. rewrite <- E1. f_equal.
Qed.

(** the cells of a saved state *)
Lemma holds_cells m a st : holds m a st ->
  rd32 m (a + asm.HOCA_SP) = u32 (s_sp st) /\ rd32 m (a + asm.HOCA_PC) = u32 (s_pc st) /\ longs m a 15 = firstn 15 (words st).
Proof.
  intros HO. split; [exact (holds_word m a st 15%fin HO) |]. split; [exact (holds_word m a st 16%fin HO) |].
  rewrite <- (ho_regs _ _ _ HO). done.
Qed.

(** ** LDST *)

Section ldst.
Context (r : Z -> Z) (o sr : Z) (m : memory) (s a : Z) (st : state_t).
Notation w := (sr_word (s_sr st)).
Hypotheses (Hs : r 15 = s) (Hlow : 0xcd0 <= s) (Hhigh : s + 8 <= 2 ^ 32) (Hsuper : super sr = true).
Hypotheses (Harg : rd32 m (s + 4) = a) (Hst : holds m a st) (Ha : 0x414 <= a) (Ha' : a + 76 <= 2 ^ 32) (Hapart : a + 76 <= s - 10 \/ s + 8 <= a).


(** the processor is in the state [st] *)
Record loaded_from (f : flow string) (s' : m68) : Prop := {
  is_pc : f = Fjump (u32 (s_pc st));
  is_regs : m_reg s' <$> seqZ 0 15 = firstn 15 (words st);
  is_sp : m_reg s' 15 = u32 (s_sp st);
  is_sr : m_sr s' = w;
  is_crp : rd32 (m_mem s') asm.CRP_REG = u32 (s_crp st) }.

(** in supervisor mode the frame goes below the new stack pointer *)
Hypothesis (Hsp : super w = true -> 0xcd0 <= u32 (s_sp st) /\ (a + 76 <= u32 (s_sp st) - 6 \/ u32 (s_sp st) <= a)).

Lemma load_15_runs m1 r1 o1 sr1 b code Q :
  r1 8 = a -> r1 15 = b ->
  (forall r', r' <$> seqZ 0 15 = longs m1 a 15 -> r' 15 = b -> runs_from None code (mk_m68 r' o1 sr1 m1) Q) ->
  runs_from None (Do (Imovem_in (Om 0 0) 0x7fff) :: code) (mk_m68 r1 o1 sr1 m1) Q.
Proof.
  intros H8 H15 HQ. eapply (r_movem_in _ (seqZ 0 (Z.of_nat 15))); [regs_of | reflexivity | norm; rewrite Z.add_0_r; reflexivity |].
  apply HQ; [| by rewrite load_regs_seq, decide_False by lia].
  pose proof (longs_fmap m1 15 a 0) as EL. rewrite Z.mul_0_r, Z.add_0_r in EL. rewrite EL. apply list_fmap_ext.
  intros _ j Hj%list_elem_of_lookup_2%elem_of_seqZ. rewrite load_regs_seq, decide_True by lia. f_equal. lia.
Qed.

(** the last lines, for a stack pointer in either mode: [sp] is the supervisor's *)
Section last.
Context (r1 : Z -> Z) (sr1 : Z) (sp : Z).
Hypotheses (R8 : r1 8 = a) (S1 : super sr1 = true) (Hsplow : 0x420 <= sp) (Hspa : a + 76 <= sp \/ sp + 6 <= a) (Hsphigh : sp + 6 <= 2 ^ 32).

(** the frame is written, and [m_mem] is the memory in which the registers are loaded *)
Lemma loaded_15 m1 m2 code b o1 sr2 Q : holds m1 a st -> (forall x, a <= x < a + 60 -> m2 x = m1 x) ->
  forall r2, r2 8 = a -> r2 15 = b ->
  (forall r', r' <$> seqZ 0 15 = firstn 15 (words st) -> r' 15 = b -> runs_from None code (mk_m68 r' o1 sr2 m2) Q) ->
  runs_from None (Do (Imovem_in (Om 0 0) 0x7fff) :: code) (mk_m68 r2 o1 sr2 m2) Q.
Proof.
  intros HO HM r2 H8 H15 HQ. eapply load_15_runs; [done | done |]. intros r' HR. apply HQ. rewrite HR.
  destruct (holds_cells _ _ _ HO) as (_ & _ & <-). apply longs_agree. intros x Hx. apply HM. lia.
Qed.

Lemma LDST_super m1 : holds m1 a st -> super w = true -> u32 (s_sp st) - 6 = sp ->
  runs_from None (skipn 7 asm.LDST) (mk_m68 r1 o sr1 m1) (fun f _ s' => loaded_from f s' /\ kept [(asm.CRP_REG, 4); (sp, 6)] m1 (m_mem s')).
Proof.
  intros HO Ew Esp6. destruct (holds_cells _ _ _ HO) as (Esp & Epc & _). pose proof (ho_sr _ _ _ HO) as Esr. pose proof (ho_crp _ _ _ HO) as Ecrp.
  unfold asm.LDST, asm.HOCA_SP, asm.HOCA_PC, asm.HOCA_SR, asm.HOCA_CRP, asm.CRP_REG in *. cbn [app skipn]. pose proof (u32_range (s_sp st)) as Hr.
  eapply r_movea; [reflexivity | norm; rewrite Esp; reflexivity |]. change (8 + 7) with 15.
  eapply r_suba; [lia | change (8 + 7) with 15; norm; exact Esp6 |]. change (8 + 7) with 15.
  eapply r_move; [reflexivity | norm; rewrite Epc; reflexivity | reflexivity | normed |]. intros sr5 F5%flags_super.
  eapply r_move; [reflexivity | norm; rewrite Esr; reflexivity | reflexivity | normed |]. intros sr6 F6%flags_super.
  eapply r_move; [reflexivity | norm; rewrite Ecrp; reflexivity | reflexivity | normed |]. intros sr7 F7%flags_super.
  match goal with |- runs_from _ _ (mk_m68 _ _ _ ?z) _ => set (m7 := z) end.
  eapply (loaded_15 m1); [exact HO | | normed | normed |].
  { intros x Hx. subst m7. cbn [wr]. repeat first [rewrite wr32_other by lia | rewrite wr16_other by lia]. done. }
  intros r8 HR8 H15. eapply r_rte; [by rewrite F7, F6, F5 | exact H15 | subst m7; normed | subst m7; normed |].
  unfold u16. rewrite !(Z.mod_small w) by apply sr_word_range. rewrite load_sr_super; [| done | cbn [m_sr]; by rewrite F7, F6, F5].
  split; [split; cbn [set_m_sr m_reg m_osp m_sr m_mem] |].
  - done.
  - rewrite <- HR8. apply list_fmap_ext. intros _ j Hj%list_elem_of_lookup_2%elem_of_seqZ. by rewrite put_ne by lia.
  - rewrite put_eq by done. rewrite u32_id by lia. lia.
  - done.
  - subst m7. unfold asm.CRP_REG. norm. done.
  - cbn [set_m_sr m_mem]. subst m7. solve_kept.
Qed.

Lemma LDST_user m1 : holds m1 a st -> super w = false -> r1 15 = sp + 6 -> r1 0 mod 2 ^ 16 = w ->
  runs_from None (skipn 15 asm.LDST) (mk_m68 r1 o sr1 m1) (fun f _ s' => loaded_from f s' /\ kept [(asm.CRP_REG, 4); (sp, 6)] m1 (m_mem s')).
Proof.
  intros HO Ew R15 Hd0. destruct (holds_cells _ _ _ HO) as (Esp & Epc & _). pose proof (ho_crp _ _ _ HO) as Ecrp.
  unfold asm.LDST, asm.HOCA_SP, asm.HOCA_PC, asm.HOCA_SR, asm.HOCA_CRP, asm.CRP_REG in *. cbn [app skipn].
  eapply r_movea; [reflexivity | norm; rewrite Esp; reflexivity |]. change (8 + 1) with 9.
  eapply r_suba; [lia | change (8 + 7) with 15; norm; replace (sp + 6 - 6) with sp by lia; reflexivity |]. change (8 + 7) with 15.
  eapply r_move; [reflexivity | norm; rewrite Epc; reflexivity | reflexivity | normed |]. intros sr5 F5%flags_super.
  eapply r_move; [reflexivity | norm; rewrite Hd0; reflexivity | reflexivity | normed |]. intros sr6 F6%flags_super.
  eapply r_move; [reflexivity | norm; rewrite Ecrp; reflexivity | reflexivity | normed |]. intros sr7 F7%flags_super.
  match goal with |- runs_from _ _ (mk_m68 _ _ _ ?z) _ => set (m7 := z) end.
  assert (S7 : super sr7 = true) by by rewrite F7, F6, F5. eapply r_to_usp; [exact S7 | normed |].
  eapply (loaded_15 m1); [exact HO | | normed | normed |].
  { intros x Hx. subst m7. cbn [wr]. repeat first [rewrite wr32_other by lia | rewrite wr16_other by lia]. done. }
  intros r8 HR8 H15. eapply r_rte; [exact S7 | exact H15 | subst m7; normed | subst m7; normed |].
  unfold u16. rewrite !(Z.mod_small w) by apply sr_word_range. unfold load_sr. cbn [m_sr]. rewrite Ew, S7. cbn [Bool.eqb].
  split; [split; cbn [m_reg m_osp m_sr m_mem] |].
  - done.
  - rewrite <- HR8. apply list_fmap_ext. intros _ j Hj%list_elem_of_lookup_2%elem_of_seqZ. by rewrite !put_ne by lia.
  - by rewrite put_eq by done.
  - done.
  - subst m7. unfold asm.CRP_REG. norm. done.
  - cbn [m_mem]. subst m7. solve_kept.
Qed.
End last.

Lemma LDST_runs : runs_from None asm.LDST (mk_m68 r o sr m) (fun f _ s' => loaded_from f s' /\
  kept [(s - 10, 10); (asm.CRP_REG, 4); (if super w then u32 (s_sp st) - 6 else s - 10, 6)] m (m_mem s')).
Proof.
  pose proof (ho_sr _ _ _ Hst) as Esr. rewrite <- (firstn_skipn 7 asm.LDST). pose proof (u32_range (s_sp st)) as Hr. unfold asm.HOCA_SR in Esr.
  assert (holds (wr32 m (s - 4) (r 14)) a st) as HO by (eapply holds_agree; [| exact Hst]; intros x Hx; unfold STATE_SIZE in *; by rewrite wr32_other by lia).
  assert (forall l m', kept l (wr32 m (s - 4) (r 14)) m' -> kept ((s - 10, 10) :: l) m m') as HK.
  { intros l m' HK x [Hx Hl]%Forall_cons. rewrite (HK x Hl). apply wr32_other. cbn in Hx. lia. }
  change (firstn 7 asm.LDST) with [Do (Ilink 6 0); Do (Iand_sr 0xefff); Do (Ior_sr 0x0700); Do (Imove sz_l (Om 8 6) (Oa 0));
    Do (Imove sz_w (Om 68 0) (Od 0)); Do (Ibtst 13 (Od 0)); Do (Ib c_eq "LaLDST")]. cbn [app].
  eapply r_link; [norm; reflexivity | reflexivity | lia |].
  eapply r_and_sr; [done | done |]. intros sr1 S1. eapply r_or_sr; [done |]. intros sr2 S2.
  eapply r_movea; [reflexivity | norm; replace (s - 4 + 8) with (s + 4) by lia; rewrite Harg; norm; reflexivity |].
  eapply r_moved; [norm; rewrite Esr; reflexivity |]. intros sr3 d0 F3%flags_super Hd0. cbn [width] in Hd0.
  rewrite (Z.mod_small w) in Hd0 by apply sr_word_range.
  eapply r_btst_beq; [reflexivity | norm; change (13 mod 32) with 13; rewrite Z.mod_pow2_bits_low, <- (Z.mod_pow2_bits_low d0 16), Hd0 by lia; fold (super w); reflexivity |].
  intros sr4 F4. assert (S4 : super sr4 = true) by by rewrite F4, F3. fold (super w).
  destruct (super w) eqn:Ew; [destruct (Hsp eq_refl) as [Hsp1 Hsp2] |].
  - eapply runs_impl; [apply (LDST_super _ sr4 (u32 (s_sp st) - 6)) | intros fl rest s' [HL HK']; split; [exact HL | by apply HK]]; first [lia | done | normed].
  - eapply runs_impl; [apply (LDST_user _ sr4 (s - 10)) | intros fl rest s' [HL HK']; split; [exact HL | by apply HK]]; first [lia | done | norm; lia | norm; exact Hd0 | normed].
Qed.
End ldst.

(** ** The stubs *)

Definition listing (f : symbol) : option (list line) :=
  match f with
  | STLDMM => Some asm.STLDMM | STLDADDRESS => Some asm.STLDADDRESS | STLDILLEGAL => Some asm.STLDILLEGAL
  | STLDZERO => Some asm.STLDZERO | STLDPRIVILEGE => Some asm.STLDPRIVILEGE | STLDSYS => Some asm.STLDSYS
  | STLDSYS9 => Some asm.STLDSYS9 | STLDSYS10 => Some asm.STLDSYS10 | STLDSYS11 => Some asm.STLDSYS11
  | STLDSYS12 => Some asm.STLDSYS12 | STLDSYS13 => Some asm.STLDSYS13 | STLDSYS14 => Some asm.STLDSYS14
  | STLDSYS15 => Some asm.STLDSYS15 | STLDSYS16 => Some asm.STLDSYS16 | STLDSYS17 => Some asm.STLDSYS17
  | STLDTERM0 => Some asm.STLDTERM0 | STLDTERM1 => Some asm.STLDTERM1 | STLDTERM2 => Some asm.STLDTERM2
  | STLDTERM3 => Some asm.STLDTERM3 | STLDTERM4 => Some asm.STLDTERM4 | STLDPRINT0 => Some asm.STLDPRINT0
  | STLDDISK0 => Some asm.STLDDISK0 | STLDFLOPPY0 => Some asm.STLDFLOPPY0 | STLDCLOCK => Some asm.STLDCLOCK
  | _ => None
  end.

(** the bytes that the program has pushed before the trap, and that the stub pops *)
Definition pushed (f : symbol) : Z := match f with STLDSYS => 4 | _ => 0 end.
(** the stack pointer when the exception came *)
Definition trap_sp (s : m68) : Z := if super (rd16 (m_mem s) (m_reg s 15)) then m_reg s 15 + 6 else m_osp s.

(** [s] is the processor at the entry of a stub, after an exception in the state [cpu]: it is
    in supervisor mode, with a frame of the status word and the program counter on the
    stack, above the cells of the nucleus *)
Record excepted (f : symbol) (cpu : state_t) (s : m68) : Prop := {
  ex_super : super (m_sr s) = true;
  ex_low : 0xcc8 <= m_reg s 15;
  ex_high : m_reg s 15 + 14 <= 2 ^ 32;
  ex_words : words cpu = (m_reg s <$> seqZ 0 15) ++ [trap_sp s + pushed f; rd32 (m_mem s) (m_reg s 15 + 2)];
  ex_sr : rd16 (m_mem s) (m_reg s 15) = sr_word (s_sr cpu);
  ex_crp : rd32 (m_mem s) asm.CRP_REG = u32 (s_crp cpu);
  ex_osp : 0 <= m_osp s < 2 ^ 32 }.

(** the word that the exception supplies: the unit's word, or the argument of SYS1 to SYS8,
    outside the cells that the stub writes *)
Definition supplied (f : symbol) (w : Z) (s : m68) : Prop :=
  match f with
  | STLDMM => rd16 (m_mem s) asm.MM_WORD = u16 w
  | STLDSYS => rd16 (m_mem s) (trap_sp s + 2) = u16 w /\
      (super (rd16 (m_mem s) (m_reg s 15)) = false ->
       let o := m_osp s in (o + 4 <= 0x930 \/ 0x930 + 76 <= o) /\ (o + 4 <= m_reg s 15 - 8 \/ m_reg s 15 <= o))
  | _ => True
  end.

(** a new area, with a handler in supervisor mode and room for one word on its stack *)
Record new_state (m : memory) (area : Z) (new : state_t) : Prop := {
  ns_holds : holds m (area + STATE_SIZE) new;
  ns_super : super (sr_word (s_sr new)) = true;
  ns_sp : 0xcc8 <= u32 (s_sp new);
  ns_sp' : u32 (s_sp new) + 4 <= 2 ^ 32 }.

(** the old area [area] of [m'] holds [cpu] with the word [tmp], and [s'] is the new state;
    the start address of the handler has gone over the stack *)
Record entered (area tmp : Z) (cpu new : state_t) (s : m68) (f : flow string) (s' : m68) : Prop := {
  en_pc : f = Fjump (u32 (s_pc new));
  en_old : holds (m_mem s') area (set_tmp tmp cpu);
  en_regs : m_reg s' <$> seqZ 0 15 = firstn 15 (words new);
  en_sp : m_reg s' 15 = u32 (s_sp new + 4);
  en_sr : m_sr s' = sr_word (s_sr new);
  en_crp : rd32 (m_mem s') asm.CRP_REG = u32 (s_crp new);
  en_kept : kept [(area, STATE_SIZE); (m_reg s 15 - 8, 8); (asm.CRP_REG, 4); (u32 (s_sp new), 4)] (m_mem s) (m_mem s') }.

Section stubs.
Context (f : symbol) (cpu new : state_t) (s : m68) (area : Z).
Hypotheses (E : excepted f cpu s) (N : new_state (m_mem s) area new) (Harea : 0x800 <= area <= 0xc28).
Notation w := (rd16 (m_mem s) (m_reg s 15)).

Lemma words_range st : Forall (fun v => 0 <= v < 2 ^ 32) (words st).
Proof. apply Forall_fmap, Forall_true. intros v. apply u32_range. Qed.
Lemma excepted_regs i : 0 <= i < 15 -> u32 (m_reg s i) = m_reg s i.
Proof.
  intros Hi. apply u32_id. pose proof (words_range cpu) as HF. rewrite (ex_words _ _ _ E) in HF.
  apply Forall_app in HF as [HF _]. apply (proj1 (Forall_fmap _ _ _)) in HF. apply (proj1 (Forall_forall _ _) HF). by apply elem_of_seqZ.
Qed.
Lemma excepted_sp : 0 <= trap_sp s + pushed f < 2 ^ 32.
Proof.
  pose proof (words_range cpu) as HF. rewrite (ex_words _ _ _ E) in HF. apply Forall_app in HF as [_ HF]. by apply Forall_cons in HF as [HF _].
Qed.

Lemma switched_entered tmp tmp' fl s' : u16 tmp' = u16 tmp ->
  switched (m_reg s) (m_mem s) (m_reg s 15) area w (trap_sp s + pushed f) tmp' fl s' -> entered area tmp cpu new s fl s'.
Proof.
  intros Htmp [W1 W2 W3 W4 W5 W6 W7 W8 W9 W10]. destruct (holds_cells _ _ _ (ns_holds _ _ _ N)) as (Esp & Epc & E15).
  unfold STATE_SIZE in *. rewrite Esp in W3, W10. split.
  - by rewrite W1, Epc.
  - split.
    + rewrite W6, <- (ex_words _ _ _ E). by destruct cpu.
    + rewrite W7, (ex_sr _ _ _ E). by destruct cpu.
    + rewrite W8, Htmp. by destruct cpu.
    + rewrite W9, (ex_crp _ _ _ E). by destruct cpu.
  - by rewrite W2.
  - rewrite W3. unfold u32. by rewrite Zplus_mod_idemp_l.
  - rewrite W4. apply (ho_sr _ _ _ (ns_holds _ _ _ N)).
  - rewrite W5. apply (ho_crp _ _ _ (ns_holds _ _ _ N)).
  - exact W10.
Qed.

Ltac stub_conditions :=
  destruct (ns_holds _ _ _ N) as [_ Hsr _ _]; destruct (holds_cells _ _ _ (ns_holds _ _ _ N)) as (Hsp' & _ & _);
  pose proof (ns_super _ _ _ N); pose proof (ns_sp _ _ _ N); pose proof (ns_sp' _ _ _ N); pose proof (ex_low _ _ _ E); pose proof (ex_high _ _ _ E);
  pose proof (ex_osp _ _ _ E); unfold STATE_SIZE in *.

Ltac solve_conditions :=
  first [done | lia | apply (ex_super _ _ _ E) | apply (ex_sr _ _ _ E) | (match goal with H : rd16 _ _ = sr_word (s_sr new) |- _ => by rewrite H end)
        | (match goal with H : rd32 _ _ = u32 (s_sp new) |- _ => by rewrite H end) | by apply u32_id | idtac].

(** the conditions of the rules *)
Lemma runs_entered code tmp tmp' usp : usp = trap_sp s + pushed f -> u16 tmp' = u16 tmp ->
  runs_from None code s (fun fl _ s' => switched (m_reg s) (m_mem s) (m_reg s 15) area w usp tmp' fl s') ->
  runs_from None code s (fun fl _ s' => entered area tmp cpu new s fl s').
Proof. intros -> Ht (fl & rest & s' & Hx & HS). exists fl, rest, s'. split; [exact Hx | by eapply switched_entered]. Qed.

Lemma STLD_enters word last tmp tmp' : pushed f = 0 -> u16 tmp' = u16 tmp ->
  last = asm.to_sr \/ last = asm.to_cc -> fixed_word (m_osp s) (m_mem s) (m_reg s 15) area word tmp' ->
  runs_from None (asm.STLD area word last) s (fun fl _ s' => entered area tmp cpu new s fl s').
Proof.
  intros Hp Ht Hlast Hword. eapply (runs_entered _ _ tmp'); [reflexivity | exact Ht |]. rewrite Hp, Z.add_0_r. stub_conditions. unfold trap_sp.
  pose proof excepted_regs as HR. destruct s as [r o sr m] eqn:Es. cbn [m_reg m_osp m_sr m_mem] in *.
  apply STLD_runs; solve_conditions.
Qed.

Lemma STLDSYSn_enters k tmp : pushed f = 0 -> u16 k = u16 tmp -> 0 <= k < 2 ^ 16 -> area = 0x930 ->
  runs_from None (asm.STLDSYSn k) s (fun fl _ s' => entered area tmp cpu new s fl s').
Proof.
  intros Hp Ht Hk Ha. eapply (runs_entered _ _ k); [reflexivity | exact Ht |]. rewrite Hp, Z.add_0_r. stub_conditions. unfold trap_sp.
  pose proof excepted_regs as HR. destruct s as [r o sr m] eqn:Es. cbn [m_reg m_osp m_sr m_mem] in *.
  apply STLDSYSn_runs; solve_conditions.
Qed.

Lemma STLDSYS_enters tmp : f = STLDSYS -> supplied f tmp s -> area = 0x930 ->
  runs_from None asm.STLDSYS s (fun fl _ s' => entered area tmp cpu new s fl s').
Proof.
  intros Ef HSu Ha. rewrite Ef in HSu. destruct HSu as [Ht Ho]. pose proof excepted_sp as Hsp. rewrite Ef in Hsp. eapply (runs_entered _ _ (u16 tmp)); [| unfold u16; by rewrite Z.mod_mod by lia |].
  { reflexivity. }
  stub_conditions. rewrite Ef. cbn [pushed] in *. unfold trap_sp in *. pose proof excepted_regs as HR. rewrite (ex_sr _ _ _ E) in *.
  destruct s as [r o sr m] eqn:Es. cbn [m_reg m_osp m_sr m_mem] in *.
  match goal with |- runs_from _ _ _ (fun fl _ s' => switched _ _ _ _ _ ?u _ _ _) =>
    replace u with (if super (sr_word (s_sr cpu)) then r 15 + 10 else o + 4) by (destruct (super _); lia) end.
  apply STLDSYS_runs; try solve_conditions.
  destruct (super (sr_word (s_sr cpu))).
  - rewrite <- Ht. f_equal. lia.
  - specialize (Ho eq_refl). split; [exact Ht | lia].
Qed.
End stubs.

(** ** The exceptions of [Run.v] *)

Lemma fixed_imm o m sp area k : 0 <= k < 2 ^ 16 -> fixed_word o m sp area (Oimm k) k.
Proof. intros Hk r2 sr2 m2 _. cbn. by rewrite Z.mod_small by (cbn; lia). Qed.
Lemma fixed_mm o m sp : 0xcc8 <= sp -> fixed_word o m sp 0x898 (Oabs asm.MM_WORD) (rd16 m asm.MM_WORD).
Proof.
  intros Hsp r2 sr2 m2 HK. cbn. f_equal. apply rd16_agree. unfold asm.MM_WORD. intros x Hx. apply HK.
  unfold outside. rewrite !Forall_cons, Forall_nil. cbn. lia.
Qed.

Lemma stub_area w f area tmp : stub w f = Some (area, tmp) -> 0x800 <= area <= 0xc28.
Proof. by destruct f; intros [= <- _]. Qed.

Lemma stubs_enter w f area tmp code cpu new s :
  stub w f = Some (area, tmp) -> listing f = Some code -> excepted f cpu s -> supplied f w s -> new_state (m_mem s) area new ->
  runs_from None code s (fun fl _ s' => entered area tmp cpu new s fl s').
Proof.
  intros Hst Hl E HS N. pose proof (stub_area _ _ _ _ Hst) as Ha. pose proof (ex_low _ _ _ E) as Hlow.
  assert (asm.to_sr = asm.to_sr \/ asm.to_sr = asm.to_cc) as L1 by by left. assert (asm.to_cc = asm.to_sr \/ asm.to_cc = asm.to_cc) as L2 by by right.
  destruct f; try done; injection Hst as <- <-; injection Hl as <-;
    lazymatch goal with
    | |- runs_from None asm.STLDSYS _ _ => by apply (STLDSYS_enters STLDSYS)
    | |- runs_from None ?c _ _ => unfold c;
        lazymatch goal with
        | |- runs_from None (asm.STLDSYSn ?k) _ _ => by apply (STLDSYSn_enters _ cpu new s 0x930 E N Ha k k)
        | |- runs_from None (asm.STLD ?a (Oimm ?k) ?l) _ _ =>
            apply (STLD_enters _ cpu new s a E N Ha (Oimm k) l k k eq_refl eq_refl); [first [exact L2 | exact L1] | by apply fixed_imm]
        | |- runs_from None (asm.STLD ?a ?o ?l) _ _ =>
            apply (STLD_enters _ cpu new s a E N Ha o l w (rd16 (m_mem s) asm.MM_WORD) eq_refl); [| exact L1 | by apply fixed_mm]
        end
    end.
  cbn in HS. rewrite HS. unfold u16. by rewrite Z.mod_mod by lia.
Qed.

(** ** A concrete exception

    A program in supervisor mode calls SYS5 with its stack pointer at 0x2006 after the
    argument has been pushed. *)
Definition memory1 : memory :=
  wr32 (wr16 (wr32 (wr32 (wr32 (wr32 (wr16 (fun _ => 0) 0x2000 0x2000) 0x2002 0x5678) 0x2006 5) 0x9b8 0x4000) 0x9bc 0x9998) 0x9c0 0x2700) 0x40c 0x30000.
Definition stack1 (i : Z) : Z := if i =? 15 then 0x2000 else i + 1.
Definition m68_1 : m68 := mk_m68 stack1 0x7000 0x2000 memory1.
Definition sr1 (int : Z) : sr_t := mk_sr 0 1 0 int 0 0 0 0 0.
Definition cpu1 : state_t := mk_state [# 1; 2; 3; 4; 5; 6; 7; 8; 9; 10; 11; 12; 13; 14; 15; 0x200a; 0x5678] (sr1 0) 0 0x30000.
Definition new1 : state_t := mk_state [# 0; 0; 0; 0; 0; 0; 0; 0; 0; 0; 0; 0; 0; 0; 0; 0x4000; 0x9998] (sr1 7) 0 0.

Lemma excepted1 : excepted STLDSYS cpu1 m68_1.
Proof. by split. Qed.
Lemma supplied1 : supplied STLDSYS 5 m68_1.
Proof. by split. Qed.
Lemma new_state1 : new_state (m_mem m68_1) 0x930 new1.
Proof. split; [by split | done..]. Qed.

(** C10. The stubs do what [Run.v] takes an exception to do.  After an exception in the state
    [cpu], each routine of [STLD*.s] ends; then the old area of its kind holds [cpu] with the word that
    [stub] says, the processor is in the state of the new area, with the start of the
    handler as its program counter, and of the rest of memory only the eight bytes below
    the frame, the word below the top of the handler's stack and the register of the
    memory management unit have changed. *)
Theorem stubs_switch w f area tmp code cpu new s :
  stub w f = Some (area, tmp) -> listing f = Some code -> excepted f cpu s -> supplied f w s -> new_state (m_mem s) area new ->
  runs_from None code s (fun fl _ s' => entered area tmp cpu new s fl s').
Proof. apply stubs_enter. Qed.

Lemma stubs_switch_witness :
  stub 5 STLDSYS = Some (0x930, 5) /\ listing STLDSYS = Some asm.STLDSYS /\ excepted STLDSYS cpu1 m68_1 /\ supplied STLDSYS 5 m68_1 /\
  new_state (m_mem m68_1) 0x930 new1 /\ runs_from None asm.STLDSYS m68_1 (fun fl _ s' => entered 0x930 5 cpu1 new1 m68_1 fl s').
Proof.
  repeat (split; [first [reflexivity | exact excepted1 | exact supplied1 | exact new_state1] |]).
  exact (stubs_switch 5 STLDSYS 0x930 5 asm.STLDSYS cpu1 new1 m68_1 eq_refl eq_refl excepted1 supplied1 new_state1).
Defined.

(** the processor [s] at the call [LDST(&st)] with [&st] = [a], the state being apart from
    the stack *)
Record calls_LDST (a : Z) (s : m68) : Prop := {
  cl_super : super (m_sr s) = true;
  cl_low : 0xcd0 <= m_reg s 15;
  cl_high : m_reg s 15 + 8 <= 2 ^ 32;
  cl_arg : rd32 (m_mem s) (m_reg s 15 + 4) = a;
  cl_area : 0x414 <= a;
  cl_area' : a + STATE_SIZE <= 2 ^ 32;
  cl_apart : a + STATE_SIZE <= m_reg s 15 - 10 \/ m_reg s 15 + 8 <= a }.

(** the processor [s'] runs again as the exception that left it in [s] found it, what the
    caller had pushed being popped *)
Record resumes_from (f : symbol) (s : m68) (fl : flow string) (s' : m68) : Prop := {
  rf_pc : fl = Fjump (rd32 (m_mem s) (m_reg s 15 + 2));
  rf_regs : forall i, 0 <= i < 15 -> m_reg s' i = m_reg s i;
  rf_sp : m_reg s' 15 = trap_sp s + pushed f;
  rf_sr : m_sr s' = rd16 (m_mem s) (m_reg s 15);
  rf_crp : rd32 (m_mem s') asm.CRP_REG = rd32 (m_mem s) asm.CRP_REG }.

Lemma holds_moved m1 m2 b a st : (forall i, 0 <= i < STATE_SIZE -> m2 (a + i) = m1 (b + i)) -> holds m1 b st -> holds m2 a st.
Proof.
  intros HM. set (m3 := fun x => m1 (x - a + b)). intros [H1 H2 H3 H4]. apply (holds_agree m3).
  { intros x Hx. subst m3. cbn. pose proof (HM (x - a) ltac:(lia)) as E. replace (a + (x - a)) with x in E by lia. rewrite E. f_equal. lia. }
  assert (forall x, rd16 m3 x = rd16 m1 (x - a + b)) as R16.
  { intros x. subst m3. unfold rd16, rd8. by replace (x + 1 - a + b) with (x - a + b + 1) by lia. }
  assert (forall x, rd32 m3 x = rd32 m1 (x - a + b)) as R32.
  { intros x. unfold rd32. rewrite !R16. by replace (x + 2 - a + b) with (x - a + b + 2) by lia. }
  assert (forall n x, longs m3 x n = longs m1 (x - a + b) n) as RL.
  { induction n as [|n IH]; intros x; [done |]. cbn [longs]. rewrite R32, IH. by replace (x + 4 - a + b) with (x - a + b + 4) by lia. }
  split; [rewrite RL, <- H1 | rewrite R16, <- H2 | rewrite R16, <- H3 | rewrite R32, <- H4]; f_equal; lia.
Qed.

Lemma excepted_cpu f cpu s : excepted f cpu s ->
  firstn 15 (words cpu) = m_reg s <$> seqZ 0 15 /\ u32 (s_sp cpu) = trap_sp s + pushed f /\ u32 (s_pc cpu) = rd32 (m_mem s) (m_reg s 15 + 2).
Proof.
  intros E. pose proof (ex_words _ _ _ E) as EW. split; [by rewrite EW |]. split.
  - apply (f_equal (fun l => l !! 15%nat)) in EW. pose proof (words_lookup cpu 15%fin) as EL. cbn in EL. rewrite EL in EW. by injection EW.
  - apply (f_equal (fun l => l !! 16%nat)) in EW. pose proof (words_lookup cpu 16%fin) as EL. cbn in EL. rewrite EL in EW. by injection EW.
Qed.

(** C11. A process does not notice that it was interrupted.  When a stub has saved its state,
    and whatever the nucleus does afterwards, as long as the bytes of the state that it
    loads are those that the stub has left in the old area: [LDST] of that state ends, and
    the processor has the registers, the stack pointer, the program counter, the status
    word and the segment table of the moment of the exception, the argument of SYS1 to
    SYS8 being popped. *)
Theorem stub_then_LDST w f area tmp code cpu new s :
  stub w f = Some (area, tmp) -> listing f = Some code -> excepted f cpu s -> supplied f w s -> new_state (m_mem s) area new ->
  exists fl rest s', exec None code s = Some (fl, rest, s') /\
    forall a s2, calls_LDST a s2 -> (forall i, 0 <= i < STATE_SIZE -> m_mem s2 (a + i) = m_mem s' (area + i)) ->
      let sp := trap_sp s + pushed f in
      (super (rd16 (m_mem s) (m_reg s 15)) = true -> 0xcd0 <= sp /\ (a + STATE_SIZE <= sp - 6 \/ sp <= a)) ->
      runs_from None asm.LDST s2 (fun fl _ s3 => resumes_from f s fl s3).
Proof.
  intros Hst Hl E HS N. pose proof (stub_area _ _ _ _ Hst) as Ha. destruct (excepted_cpu _ _ _ E) as (E15 & Esp & Epc).
  destruct (stubs_enter w f area tmp code cpu new s Hst Hl E HS N) as (fl & rest & s' & Ex & EN).
  exists fl, rest, s'. split; [exact Ex |]. intros a s2 [C1 C2 C3 C4 C5 C6 C7] HM sp Hsp. subst sp.
  pose proof (holds_moved _ _ _ a _ HM (en_old _ _ _ _ _ _ _ EN)) as HO. set (st := set_tmp tmp cpu) in *.
  assert (s_sr st = s_sr cpu /\ s_crp st = s_crp cpu /\ words st = words cpu /\ s_sp st = s_sp cpu /\ s_pc st = s_pc cpu) as (Hsr & Hcrp & Hwords & Hspe & Hpc)
    by by destruct cpu.
  rewrite (ex_sr _ _ _ E), <- Hsr in Hsp. rewrite <- Esp, <- Hspe in Hsp. destruct s2 as [r2 o2 sr2 m2]. unfold STATE_SIZE in *. cbn [m_reg m_osp m_sr m_mem] in *.
  destruct (LDST_runs r2 o2 sr2 m2 (r2 15) a st) as (fl3 & rest3 & s3 & Ex3 & [I1 I2 I3 I4 I5] & _); try done; try lia.
  exists fl3, rest3, s3. split; [exact Ex3 |]. split.
  - by rewrite I1, Hpc, Epc.
  - intros i Hi. rewrite Hwords, E15 in I2. apply (f_equal (fun l => l !! Z.to_nat i)) in I2.
    rewrite !list_lookup_fmap, lookup_seqZ_lt in I2 by lia. cbn in I2. injection I2 as I2. by rewrite Z2Nat.id in I2 by lia.
  - by rewrite I3, Hspe, Esp.
  - by rewrite I4, Hsr, (ex_sr _ _ _ E).
  - by rewrite I5, Hcrp, (ex_crp _ _ _ E).
Qed.

(** the nucleus loads the state from the old area, its stack being at 0x5000 *)
Definition at_LDST (s : m68) : m68 := mk_m68 (fun _ => 0x5000) 0x7000 0x2700 (wr32 (m_mem s) 0x5004 0x930).
Lemma at_LDST_calls s : calls_LDST 0x930 (at_LDST s).
Proof. split; [done.. | exact (rd32_wr32 (m_mem s) 0x5004 0x930 (0x5000 + 4) eq_refl) | done | done | by left]. Qed.
Lemma stub_then_LDST_witness :
  exists fl rest s', exec None asm.STLDSYS m68_1 = Some (fl, rest, s') /\ calls_LDST 0x930 (at_LDST s') /\
    runs_from None asm.LDST (at_LDST s') (fun fl _ s3 => resumes_from STLDSYS m68_1 fl s3).
Proof.
  destruct (stub_then_LDST 5 STLDSYS 0x930 5 asm.STLDSYS cpu1 new1 m68_1 eq_refl eq_refl excepted1 supplied1 new_state1) as (fl & rest & s' & Ex & HL).
  exists fl, rest, s'. split; [exact Ex |]. split; [apply at_LDST_calls |]. apply (HL 0x930); [apply at_LDST_calls | |].
  - unfold STATE_SIZE. intros i Hi. cbn [at_LDST m_mem]. apply wr32_other. lia.
  - intros _. change (trap_sp m68_1 + pushed STLDSYS) with 0x200a. unfold STATE_SIZE. lia.
Defined.
