(* ===== verification/Calls.v ===== *)
(** * Properties: exceptions and calls in assembly

    What the processor does when an exception comes, and the routines of [SYS.s]: the call
    reaches the stub that the trap vector names, with the frame and the argument that it
    expects, and after the system call the rest of the routine goes back to its caller. *)

From S2P Require Export Switch.
Local Open Scope Z_scope.

(** ** Exceptions *)

(** the supervisor's stack pointer *)
Definition ssp (s : m68) : Z := if super (m_sr s) then m_reg s 15 else m_osp s.
(** an exception: the status word and the address [ra] of the next instruction go over the
    supervisor's stack; the processor goes on with the status word [sr'] *)
Definition exception (ra sr' : Z) (s : m68) : m68 :=
  let s1 := load_sr sr' s in
  let sp := m_reg s1 15 - 6 in
  put_m_reg 15 sp (set_m_mem (wr16 (wr32 (m_mem s1) (sp + 2) ra) sp (m_sr s)) s1).

(** the state [cpu] of a program that goes on at [ra] after the exception, the stub [f] having
    popped what was pushed for it; there is room on the supervisor's stack *)
Record interrupted (f : symbol) (ra : Z) (cpu : state_t) (s : m68) : Prop := {
  in_words : words cpu = (m_reg s <$> seqZ 0 15) ++ [m_reg s 15 + pushed f; ra];
  in_sr : m_sr s = sr_word (s_sr cpu);
  in_crp : rd32 (m_mem s) asm.CRP_REG = u32 (s_crp cpu);
  in_sp : 0 <= m_reg s 15 < 2 ^ 32;
  in_osp : 0 <= m_osp s < 2 ^ 32;
  in_ssp : 0xcce <= ssp s;
  in_ssp' : ssp s + 8 <= 2 ^ 32 }.

Lemma exception_mode ra sr' s : super sr' = true ->
  let s' := exception ra sr' s in
  m_sr s' = sr' /\ m_reg s' 15 = ssp s - 6 /\ (forall i, i <> 15 -> m_reg s' i = m_reg s i) /\
  m_osp s' = (if super (m_sr s) then m_osp s else m_reg s 15) /\
  m_mem s' = wr16 (wr32 (m_mem s) (ssp s - 4) ra) (ssp s - 6) (m_sr s).
Proof.
  intros S. cbn zeta. unfold exception, load_sr, ssp. rewrite S. destruct (super (m_sr s));
    cbn [Bool.eqb put_m_reg set_m_reg set_m_mem set_m_sr m_reg m_osp m_sr m_mem];
    rewrite ?(put_eq _ 15 _ 15) by done; (split; [done |]); (split; [lia |]); (split; [intros i Hi; by rewrite !put_ne by done |]);
    (split; [done |]); do 2 f_equal; lia.
Qed.

Lemma exception_excepted f ra sr' cpu s : super sr' = true -> interrupted f ra cpu s ->
  excepted f cpu (exception ra sr' s) /\ trap_sp (exception ra sr' s) = m_reg s 15.
Proof.
  intros S [I1 I2 I3 I4 I7 I5 I6]. destruct (exception_mode ra sr' s S) as (E1 & E2 & E3 & E4 & E5).
  assert (u32 ra = ra) as Hra.
  { pose proof (words_range cpu) as HF. rewrite I1 in HF. apply Forall_app in HF as [_ HF].
    apply Forall_cons in HF as [_ HF]. apply Forall_cons in HF as [HF _]. by apply u32_id. }
  assert (rd16 (m_mem (exception ra sr' s)) (ssp s - 6) = m_sr s) as Hw.
  { rewrite E5, rd16_wr16 by done. apply Z.mod_small. rewrite I2. apply sr_word_range. }
  assert (rd32 (m_mem (exception ra sr' s)) (ssp s - 4) = ra) as Hpc by by rewrite E5, rd32_wr16_other, rd32_wr32 by lia.
  assert (trap_sp (exception ra sr' s) = m_reg s 15) as Ht.
  { unfold trap_sp. rewrite E2, Hw, E4. unfold ssp. destruct (super (m_sr s)); lia. }
  split; [| exact Ht]. split.
  - by rewrite E1.
  - rewrite E2. lia.
  - rewrite E2. lia.
  - rewrite Ht, I1, E2. replace (ssp s - 6 + 2) with (ssp s - 4) by lia. rewrite Hpc. f_equal.
    apply list_fmap_ext. intros _ j Hj%list_elem_of_lookup_2%elem_of_seqZ. symmetry. apply E3. lia.
  - by rewrite E2, Hw.
  - rewrite E5. unfold asm.CRP_REG in *. by rewrite rd32_wr16_other, rd32_wr32_other by lia.
  - rewrite E4. by destruct (super (m_sr s)).
Qed.

(** ** SYS.s *)

(** the stub of a call *)
Definition stub_of (n : Z) : symbol :=
  if n <=? 8 then STLDSYS else if n =? 9 then STLDSYS9 else if n =? 10 then STLDSYS10 else if n =? 11 then STLDSYS11
  else if n =? 12 then STLDSYS12 else if n =? 13 then STLDSYS13 else if n =? 14 then STLDSYS14 else if n =? 15 then STLDSYS15
  else if n =? 16 then STLDSYS16 else STLDSYS17.
(** the exception of a call, as the vector of [trap #k] has it *)
Definition trap_of (n : Z) : Z := if n <=? 8 then 3 else n - 4.
Lemma stub_of_vector n : 1 <= n <= 17 -> (0x80 + 4 * trap_of n, stub_of n) ∈ trap_vectors.
Proof.
  intros Hn. assert (n <= 8 \/ n = 9 \/ n = 10 \/ n = 11 \/ n = 12 \/ n = 13 \/ n = 14 \/ n = 15 \/ n = 16 \/ n = 17) as HC by lia.
  unfold trap_of, stub_of. destruct HC as [HC |]; [rewrite (proj2 (Z.leb_le n 8) HC); cbn; set_solver |].
  repeat match goal with H : _ \/ _ |- _ => destruct H as [-> |] end; [.. | subst]; cbn; set_solver.
Qed.
Lemma stub_of_pushed n : pushed (stub_of n) = if n <=? 8 then 4 else 0.
Proof. unfold stub_of. destruct (n <=? 8); [done |]. by repeat case_match. Qed.

(** the processor at the trap of a call from [s] *)
Record trapped (n : Z) (s s1 : m68) : Prop := {
  tr_sr : m_sr s1 = m_sr s;
  tr_osp : m_osp s1 = m_osp s;
  tr_regs : forall i, 0 <= i < 14 -> m_reg s1 i = m_reg s i;
  tr_fp : m_reg s1 14 = m_reg s 15 - 4;
  tr_sp : m_reg s1 15 = m_reg s 15 - 4 - pushed (stub_of n);
  tr_old : rd32 (m_mem s1) (m_reg s 15 - 4) = m_reg s 14;
  tr_ret : rd32 (m_mem s1) (m_reg s 15) = rd32 (m_mem s) (m_reg s 15);
  tr_arg : n <= 8 -> rd32 (m_mem s1) (m_reg s1 15) = n;
  tr_kept : kept [(m_reg s 15 - 8, 8)] (m_mem s) (m_mem s1) }.

Lemma SYS_runs n s : 1 <= n <= 17 -> 8 <= m_reg s 15 -> m_reg s 15 + 4 <= 2 ^ 32 -> 0 <= m_reg s 14 < 2 ^ 32 ->
  runs_from None (asm.SYS n) s (fun fl rest s1 => fl = Ftrap (trap_of n) /\ rest = asm.epilogue "LZ" /\ trapped n s s1).
Proof.
  intros Hn H8 Hs Hfp. destruct s as [r o sr m]. cbn [m_reg] in *. unfold asm.SYS, trap_of. pose proof (stub_of_pushed n) as HP.
  destruct (Z.leb_spec n 8) as [Hn8 | Hn8]; unfold asm.SYS_1_to_8, asm.SYS_9_to_17; cbn [app].
  - eapply r_link; [normed | reflexivity | lia |]. eapply r_pea; [normed |]. apply r_trap.
    split; [done |]. split; [done |]. split; rewrite ?HP; cbn [m_sr m_osp m_reg m_mem]; intros; norm; try done; try lia. all: first [by rewrite !put_ne by lia | solve_kept].
  - eapply r_link; [normed | reflexivity | lia |]. apply r_trap.
    split; [done |]. split; [done |]. split; rewrite ?HP; cbn [m_sr m_osp m_reg m_mem]; intros; norm; try done; try lia. all: first [by rewrite !put_ne by lia | solve_kept].
Qed.

(** the rest of the routine, after the system call *)
Lemma epilogue_runs l s a b c : m_reg s 14 = a -> u32 (a + 8) = b -> rd32 (m_mem s) (u32 (a + 4)) = c ->
  runs_from None (asm.epilogue l) s (fun fl _ s' => fl = Fjump c /\
    s' = mk_m68 (put (put (put (m_reg s) 15 (u32 (a + 4))) 14 (rd32 (m_mem s) a)) 15 b) (m_osp s) (m_sr s) (m_mem s)).
Proof.
  intros <- <- <-. destruct s as [r o sr m]. cbn [m_reg m_osp m_sr m_mem]. unfold asm.epilogue. apply r_label. cbn.
  eapply r_unlk; [reflexivity | reflexivity | reflexivity |]. change (8 + 6) with 14.
  assert (u32 (u32 (r 14 + 4) + 4) = u32 (r 14 + 8)) as E by (unfold u32; rewrite Zplus_mod_idemp_l; f_equal; lia).
  eapply r_rts; [by rewrite put_ne, put_eq | reflexivity | exact E |]. done.
Qed.

(** C33. A call [SYSn()] does what its caller expects.  The routine of [SYS.s] traps through
    the vector of the stub of its number; after the exception the stub finds the state of the
    caller and the number of the call in the form that [stubs_switch] asks for; and when the
    caller's state is resumed, with the words of its frame unchanged on its stack, the rest of the
    routine returns to the instruction after the call with the registers as they have been
    resumed, the frame pointer and the stack pointer as before the call. *)
Theorem SYS_calls n s :
  1 <= n <= 17 -> 8 <= m_reg s 15 -> m_reg s 15 + 4 < 2 ^ 32 -> 0 <= m_reg s 14 < 2 ^ 32 ->
  exists rest s1, exec None (asm.SYS n) s = Some (Ftrap (trap_of n), rest, s1) /\
    (0x80 + 4 * trap_of n, stub_of n) ∈ trap_vectors /\
    (forall ra sr' cpu, super sr' = true -> interrupted (stub_of n) ra cpu s1 ->
       (super (m_sr s) = false -> let o := m_reg s1 15 in (o + 4 <= 0x930 \/ 0x930 + STATE_SIZE <= o) /\ (o + 4 <= ssp s - 14 \/ ssp s <= o)) ->
       excepted (stub_of n) cpu (exception ra sr' s1) /\ supplied (stub_of n) n (exception ra sr' s1)) /\
    (forall s2, m_reg s2 14 = m_reg s1 14 -> m_reg s2 15 = m_reg s1 15 + pushed (stub_of n) ->
       (forall x, m_reg s 15 - 4 <= x < m_reg s 15 + 4 -> m_mem s2 x = m_mem s1 x) ->
       runs_from None rest s2 (fun fl _ s3 => fl = Fjump (rd32 (m_mem s) (m_reg s 15)) /\
         (forall i, 0 <= i < 14 -> m_reg s3 i = m_reg s2 i) /\ m_reg s3 14 = m_reg s 14 /\ m_reg s3 15 = m_reg s 15 + 4 /\
         m_sr s3 = m_sr s2 /\ m_mem s3 = m_mem s2)).
Proof.
  intros Hn H8 Hs Hfp. destruct (SYS_runs n s Hn H8 ltac:(lia) Hfp) as (fl & rest & s1 & Ex & -> & -> & T).
  eexists _, _. split; [exact Ex |]. split; [by apply stub_of_vector |]. destruct T as [T1 T2 T3 T4 T5 T6 T7 T8 T9]. split.
  - intros ra sr' cpu S I Hap. destruct (exception_excepted _ _ _ _ _ S I) as [E Et]. split; [exact E |].
    destruct (exception_mode ra sr' s1 S) as (_ & M2 & _ & M4 & M5). pose proof (in_ssp _ _ _ _ I). pose proof (in_ssp' _ _ _ _ I).
    assert (supplied_word : n <= 8 -> m_reg s1 15 + 4 <= ssp s1 - 6 \/ ssp s1 <= m_reg s1 15 ->
      rd16 (m_mem (exception ra sr' s1)) (m_reg s1 15 + 2) = u16 n).
    { intros Hn8 Ho. rewrite M5, rd16_wr16_other, rd16_wr32_other by lia. specialize (T8 Hn8). unfold rd32 in T8.
      pose proof (rd16_range (m_mem s1) (m_reg s1 15)). pose proof (rd16_range (m_mem s1) (m_reg s1 15 + 2)). unfold u16. rewrite Z.mod_small; lia. }
    assert (rd16 (m_mem (exception ra sr' s1)) (m_reg (exception ra sr' s1) 15) = m_sr s1) as Hw.
    { rewrite M5, M2, rd16_wr16 by done. apply Z.mod_small. rewrite (in_sr _ _ _ _ I). apply sr_word_range. }
    unfold supplied, stub_of. destruct (Z.leb_spec n 8) as [Hn8 | Hn8]; [| by repeat case_match].
    rewrite Et, Hw, T1, M4, M2, T1. assert (ssp s1 = if super (m_sr s) then m_reg s1 15 else m_osp s) as Es by by unfold ssp; rewrite T1, T2.
    unfold ssp, STATE_SIZE in *. destruct (super (m_sr s)).
    + split; [apply supplied_word; lia | done].
    + specialize (Hap eq_refl). cbn zeta in Hap. split; [apply supplied_word; lia |]. intros _. cbn zeta. lia.
  - intros s2 H14 H15 HM. rewrite T4 in H14.
    destruct (epilogue_runs "LZ" s2 _ _ _ H14 eq_refl eq_refl) as (fl & rest & s3 & Ex3 & -> & ->).
    eexists _, rest, _. split; [exact Ex3 |]. cbn [m_reg m_osp m_sr m_mem].
    rewrite (rd32_agree (m_mem s2) (m_mem s1)) by (intros x Hx; apply HM; revert Hx; rewrite u32_id; lia).
    rewrite (rd32_agree (m_mem s2) (m_mem s1) (m_reg s 15 - 4)) by (intros; apply HM; lia).
    replace (m_reg s 15 - 4 + 8) with (m_reg s 15 + 4) by lia. rewrite !u32_id by lia. replace (m_reg s 15 - 4 + 4) with (m_reg s 15) by lia.
    split; [by rewrite T7 |]. split; [intros i Hi; by rewrite !put_ne by lia |]. split; [by rewrite put_ne, put_eq |].
    by rewrite put_eq.
Qed.

(** SYS5 called in supervisor mode from 0x1234 *)
Definition m68_2 : m68 := mk_m68 (fun i => if i =? 15 then 0x4000 else i + 1) 0x7000 0x2000 (wr32 (wr32 (fun _ => 0) 0x4000 0x1234) 0x40c 0x30000).
Definition cpu2 : state_t := mk_state [# 1; 2; 3; 4; 5; 6; 7; 8; 9; 10; 11; 12; 13; 14; 0x3ffc; 0x3ffc; 0x5678] (sr1 0) 0 0x30000.
Lemma SYS_calls_witness :
  8 <= m_reg m68_2 15 /\ m_reg m68_2 15 + 4 < 2 ^ 32 /\ 0 <= m_reg m68_2 14 < 2 ^ 32 /\
  exists rest s1, exec None (asm.SYS 5) m68_2 = Some (Ftrap 3, rest, s1) /\
    (0x8c, STLDSYS) ∈ trap_vectors /\
    excepted STLDSYS cpu2 (exception 0x5678 0x2000 s1) /\ supplied STLDSYS 5 (exception 0x5678 0x2000 s1).
Proof.
  split; [done |]. split; [done |]. split; [done |].
  destruct (SYS_calls 5 m68_2) as (rest & s1 & Ex & Hv & HE & _); [done.. |].
  exists rest, s1. split; [exact Ex |]. split; [exact Hv |]. apply (HE 0x5678 0x2000 cpu2); [reflexivity | | discriminate].
  vm_compute in Ex. injection Ex as _ <-. by split.
Defined.
