(* ===== verification/Service.v ===== *)
(** * Properties: the routines of the processor in assembly

    [STST.s] stores the state of its caller; [STCK.s] and [LDIT.s] move the clock and the
    interval timer. *)

From S2P Require Export Calls.
Local Open Scope Z_scope.

(** ** STST.s, STCK.s and LDIT.s *)

Section service.
Context (r : Z -> Z) (o sr : Z) (m : memory) (s a : Z).
Hypotheses (Hs : r 15 = s) (Hlow : 0xcd0 <= s) (Hhigh : s + 8 <= 2 ^ 32) (Hr : forall i, 0 <= i < 15 -> u32 (r i) = r i).
Hypotheses (Harg : rd32 m (s + 4) = a) (Ha : 0x414 <= a) (Ha' : a + 76 <= 2 ^ 32) (Hapart : a + 76 <= s - 10 \/ s + 8 <= a).

(** the routine has returned: the registers are as before, but the return address is popped *)
Definition returned (fl : flow string) (s' : m68) : Prop :=
  fl = Fjump (rd32 m s) /\ (forall i, 0 <= i < 15 -> m_reg s' i = r i) /\ m_reg s' 15 = s + 4 /\ m_osp s' = o.

Lemma returned_regs r1 sr1 m1 : (forall i, i <> 8 -> i <> 14 -> i <> 15 -> r1 i = r i) ->
  rd32 m1 s = rd32 m s -> rd32 m1 (s - 4) = r 14 -> rd32 m1 (s - 8) = r 8 ->
  returned (Fjump (rd32 m1 s)) (mk_m68 (put (put (put (put r1 8 (rd32 m1 (s - 8))) 15 s) 14 (rd32 m1 (s - 4))) 15 (s + 4)) o sr1 m1).
Proof.
  intros R E1 E2 E3. rewrite E1, E2, E3. split; [done |]. cbn [m_reg m_osp]. split; [| by rewrite put_eq].
  intros i Hi. unfold put. repeat case_match; rewrite ?Z.eqb_eq, ?Z.eqb_neq in *; subst; try done; try lia. by apply R.
Qed.

(** the memory after the registers have been stored *)
Record stored_regs (m1 : memory) : Prop := {
  sg_longs : longs m1 a 15 = r <$> seqZ 0 15;
  sg_fp : rd32 m1 (s - 4) = r 14;
  sg_a0 : rd32 m1 (s - 8) = r 8;
  sg_sr : rd16 m1 (s - 10) = u16 sr;
  sg_kept : kept [(a, 60); (s - 10, 10)] m m1 }.

Lemma STST_regs code Q :
  (forall r1 sr1 m1, stored_regs m1 -> r1 8 = a + 60 -> r1 14 = s - 4 -> r1 15 = s - 4 -> (forall i, i <> 8 -> i <> 14 -> i <> 15 -> r1 i = r i) ->
     runs_from None code (mk_m68 r1 o sr1 m1) Q) ->
  runs_from None (firstn 12 asm.STST ++ code) (mk_m68 r o sr m) Q.
Proof.
  intros HQ. unfold asm.STST. cbn [firstn app].
  eapply r_link; [rewrite Hs; normed | reflexivity | lia |].
  eapply r_movem_out; [regs_of | reflexivity | normed | stored |].
  eapply r_from_sr; [norm; reflexivity |].
  eapply r_movea; [reflexivity | norm; replace (s - 4 + 8) with (s + 4) by lia; rewrite Harg; norm; reflexivity |].
  eapply r_movem_out; [regs_of | reflexivity | normed | stored |].
  eapply r_adda; [lia | normed |].
  eapply r_move; [reflexivity | normed | reflexivity | normed |]. intros sr1 _.
  eapply r_adda; [lia | normed |].
  eapply r_movem_out; [regs_of | reflexivity | normed | stored |].
  eapply r_adda; [lia | normed |].
  eapply r_move; [reflexivity | normed | reflexivity | normed |]. intros sr2 _.
  eapply r_adda; [lia | normed |].
  apply HQ; [| norm; lia | normed | normed | intros; normed]. cbn [wr]. split; [cbn [longs] | norm..| solve_kept].
  all: norm; rewrite ?Hr by lia; done.
Qed.

Record state_stored (m' : memory) : Prop := {
  ss_regs : longs m' a 17 = (r <$> seqZ 0 15) ++ [s - 4; rd32 m s];
  ss_sr : rd16 m' (a + asm.HOCA_SR) = u16 sr;
  ss_crp : rd32 m' (a + asm.HOCA_CRP) = rd32 m asm.CRP_REG;
  ss_kept : kept [(a, 70); (a + 72, 4); (s - 10, 10)] m m' }.

(** the last lines *)
Lemma back_runs l r1 sr1 m1 (P : memory -> Prop) : l = [] \/ l = [Lab "LZ1"] ->
  r1 14 = s - 4 -> (forall i, i <> 8 -> i <> 14 -> i <> 15 -> r1 i = r i) ->
  rd32 m1 s = rd32 m s -> rd32 m1 (s - 4) = r 14 -> rd32 m1 (s - 8) = r 8 -> P m1 ->
  runs_from None (Do (Imovem_in (Om (-4) 6) 0x0100) :: l ++ [Do (Iunlk 6); Do Irts]) (mk_m68 r1 o sr1 m1) (fun fl _ s' => returned fl s' /\ P (m_mem s')).
Proof.
  intros Hl R14 R E1 E2 E3 HP. eapply r_movem_in; [regs_of | reflexivity | normed | cbn [load_regs]].
  match goal with |- runs_from _ _ ?x ?Q => cut (runs_from None [Do (Iunlk 6); Do Irts] x Q); [by destruct Hl as [-> | ->] |] end.
  eapply r_unlk; [normed | normed | normed | change (8 + 6) with 14].
  eapply r_rts; [normed | normed | normed |].
  replace (s - 4 + -4) with (s - 8) by lia. replace (s - 4 + 4) with s by lia.
  split; [by apply returned_regs | done].
Qed.

Lemma STST_runs : runs_from None asm.STST (mk_m68 r o sr m) (fun fl _ s' => returned fl s' /\ state_stored (m_mem s')).
Proof.
  rewrite <- (firstn_skipn 12 asm.STST). apply STST_regs. intros r1 sr1 m1 [G1 G2 G3 G4 G5] R8 R14 R15 R.
  unfold asm.STST. cbn [skipn app]. unfold asm.CRP_REG, asm.HOCA_SR, asm.HOCA_CRP.
  assert (rd32 m1 s = rd32 m s) as Hret by (apply rd32_agree; intros x Hx; apply G5; unfold outside; rewrite !Forall_cons, Forall_nil; cbn; lia).
  assert (rd32 m1 0x40c = rd32 m 0x40c) as Hcrp by (apply rd32_agree; intros x Hx; apply G5; unfold outside; rewrite !Forall_cons, Forall_nil; cbn; lia).
  eapply r_move; [reflexivity | cbn [width]; norm; rewrite Z.mod_small by lia; reflexivity | reflexivity | normed |]. intros sr2 _.
  eapply r_adda; [lia | normed |].
  eapply r_move; [reflexivity | norm; replace (s - 4 + 4) with s by lia; rewrite Hret; reflexivity | reflexivity | normed |]. intros sr3 _.
  eapply r_adda; [lia | normed |].
  eapply r_move; [reflexivity | norm; replace (s - 4 + -6) with (s - 10) by lia; rewrite G4; reflexivity | reflexivity | normed |]. intros sr4 _.
  eapply r_adda; [lia | normed |].
  eapply r_move; [reflexivity | norm; reflexivity | reflexivity | normed |]. intros sr5 _.
  match goal with |- runs_from _ _ (mk_m68 ?y _ _ ?z) _ => apply (back_runs [] y sr5 z state_stored) end; cbn [wr]; try solve [norm; lia | by left].
  - intros i H1 H2 H3. rewrite !put_ne by done. by apply R.
  - split; unfold asm.CRP_REG, asm.HOCA_SR, asm.HOCA_CRP; [| norm; unfold u16; by rewrite Z.mod_mod by lia | norm; done | solve_kept].
    rewrite (longs_snoc _ 16), (longs_snoc _ 15). change (a + 4 * Z.of_nat 15) with (a + 60). change (a + 4 * Z.of_nat 16) with (a + 64). norm. rewrite <- app_assoc. f_equal.
    rewrite <- G1. apply longs_agree. intros x Hx. repeat first [rewrite wr32_other by lia | rewrite wr16_other by lia]. done.
Qed.

(** ** The clock and the interval timer *)

(** both routines move a long word between the argument's address and a register *)
Lemma move_runs src dst v d (P : memory -> Prop) :
  (forall r0 sr0 m0, r0 8 = a -> (forall x, ~ s - 8 <= x < s -> m0 x = m x) ->
     value sz_l src (mk_m68 r0 o sr0 m0) = Some v /\ ea dst (mk_m68 r0 o sr0 m0) = Some d) ->
  (d + 4 <= s - 8 \/ s + 4 <= d) ->
  (forall m', rd32 m' d = u32 v -> kept [(d, 4); (s - 8, 8)] m m' -> P m') ->
  runs_from None ([ Do (Ilink 6 0); Do (Imovem_out 0x0100 (Om (-4) 6)); Do (Imove sz_l (Om 8 6) (Oa 0)); Do (Imove sz_l src dst);
      Do (Imovem_in (Om (-4) 6) 0x0100) ] ++ asm.epilogue "LZ1") (mk_m68 r o sr m) (fun fl _ s' => returned fl s' /\ P (m_mem s')).
Proof.
  intros HV Hd HP. unfold asm.epilogue. cbn [app].
  eapply r_link; [rewrite Hs; normed | reflexivity | lia |].
  eapply r_movem_out; [regs_of | reflexivity | normed | stored |].
  eapply r_movea; [reflexivity | norm; replace (s - 4 + 8) with (s + 4) by lia; rewrite Harg; norm; reflexivity |].
  match goal with |- runs_from _ _ (mk_m68 ?y _ ?w ?z) _ => destruct (HV y w z) as [E1 E2] end.
  { normed. }
  { intros x Hx. by rewrite !wr32_other by lia. }
  eapply r_move; [exact E1 | reflexivity | exact E2 | reflexivity |]. intros sr1 _. clear E1 E2.
  match goal with |- runs_from _ _ (mk_m68 ?y _ _ ?z) _ => apply (back_runs [Lab "LZ1"] y sr1 z P) end; cbn [wr];
    [by right | normed | intros i H1 H2 H3; by rewrite !put_ne by done | norm; rewrite ?Hr by lia; done.. | apply HP; [norm; done | solve_kept]].
Qed.

Lemma STCK_runs : runs_from None asm.STCK (mk_m68 r o sr m) (fun fl _ s' => returned fl s' /\
  rd32 (m_mem s') a = rd32 m asm.CLOCK_REG /\ kept [(a, 4); (s - 8, 8)] m (m_mem s')).
Proof.
  apply (move_runs (Oabs asm.CLOCK_REG) (Om 0 0) (rd32 m asm.CLOCK_REG) a (fun m' => rd32 m' a = rd32 m asm.CLOCK_REG /\ kept [(a, 4); (s - 8, 8)] m m')).
  - unfold asm.CLOCK_REG. intros r0 sr0 m0 R8 HM. norm. rewrite ?Z.add_0_r. split; [| done]. f_equal. apply rd32_agree. intros x Hx. apply HM. lia.
  - lia.
  - intros m' E HK. by rewrite E, u32_rd32.
Qed.
Lemma LDIT_runs : runs_from None asm.LDIT (mk_m68 r o sr m) (fun fl _ s' => returned fl s' /\
  rd32 (m_mem s') asm.TIMER_REG = rd32 m a /\ kept [(asm.TIMER_REG, 4); (s - 8, 8)] m (m_mem s')).
Proof.
  apply (move_runs (Om 0 0) (Oabs asm.TIMER_REG) (rd32 m a) asm.TIMER_REG (fun m' => rd32 m' asm.TIMER_REG = rd32 m a /\ kept [(asm.TIMER_REG, 4); (s - 8, 8)] m m')).
  - intros r0 sr0 m0 R8 HM. norm. rewrite ?Z.add_0_r. split; [| done]. f_equal. apply rd32_agree. intros x Hx. apply HM. lia.
  - unfold asm.TIMER_REG. lia.
  - intros m' E HK. by rewrite E, u32_rd32.
Qed.
End service.

(** the call of a routine with the address [a] of a variable apart from the stack and above
    the registers of the devices *)
Record calls_service (a : Z) (s : m68) : Prop := {
  cs_low : 0xcd0 <= m_reg s 15;
  cs_high : m_reg s 15 + 8 <= 2 ^ 32;
  cs_regs : forall i, 0 <= i < 15 -> u32 (m_reg s i) = m_reg s i;
  cs_arg : rd32 (m_mem s) (m_reg s 15 + 4) = a;
  cs_area : 0x414 <= a;
  cs_area' : a + STATE_SIZE <= 2 ^ 32;
  cs_apart : a + STATE_SIZE <= m_reg s 15 - 10 \/ m_reg s 15 + 8 <= a }.
Notation back s := (returned (m_reg s) (m_osp s) (m_mem s) (m_reg s 15)).

(** C34. The routines of the processor that the C code calls do what it takes them to do, and
    return with all registers as they were.  [STST] stores the registers, the status word, the
    segment table and, as the program counter, the address after its call; but the stack
    pointer that it stores is that of its own frame, one word below the return address.  [STCK]
    stores the clock, and [LDIT] loads the interval timer; each changes nothing else but the
    stack below its caller's. *)
Theorem service_routines a s : calls_service a s ->
  runs_from None asm.STST s (fun fl _ s' => back s fl s' /\ state_stored (m_reg s) (m_sr s) (m_mem s) (m_reg s 15) a (m_mem s')) /\
  runs_from None asm.STCK s (fun fl _ s' => back s fl s' /\
    rd32 (m_mem s') a = rd32 (m_mem s) asm.CLOCK_REG /\ kept [(a, 4); (m_reg s 15 - 8, 8)] (m_mem s) (m_mem s')) /\
  runs_from None asm.LDIT s (fun fl _ s' => back s fl s' /\
    rd32 (m_mem s') asm.TIMER_REG = rd32 (m_mem s) a /\ kept [(asm.TIMER_REG, 4); (m_reg s 15 - 8, 8)] (m_mem s) (m_mem s')).
Proof.
  intros [H1 H2 H3 H4 H5 H6 H7]. destruct s as [r o sr m]. unfold STATE_SIZE in *. cbn [m_reg m_osp m_sr m_mem] in *.
  split; [| split]; [by apply STST_runs | by apply STCK_runs | by apply LDIT_runs].
Qed.

Definition m68_3 : m68 := mk_m68 (fun i => if i =? 15 then 0x4000 else i + 1) 0x7000 0x2000 (wr32 (wr32 (fun _ => 0) 0x4000 0x1234) 0x4004 0x5000).
Lemma service_routines_witness : calls_service 0x5000 m68_3 /\
  runs_from None asm.STCK m68_3 (fun fl _ s' => back m68_3 fl s' /\
    rd32 (m_mem s') 0x5000 = rd32 (m_mem m68_3) asm.CLOCK_REG /\ kept [(0x5000, 4); (m_reg m68_3 15 - 8, 8)] (m_mem m68_3) (m_mem s')).
Proof.
  assert (calls_service 0x5000 m68_3) as HC.
  { split; try done; [| by right]. intros i Hi. cbn [m68_3 m_reg]. rewrite (proj2 (Z.eqb_neq i 15)) by lia. apply u32_id. lia. }
  split; [exact HC |]. exact (proj1 (proj2 (service_routines 0x5000 m68_3 HC))).
Defined.
