(* ===== verification/Reach.v ===== *)
(** * Reachable states

    The states of the nucleus between two exceptions: after the start-up, any
    sequence of traps, interrupts and accesses of the programs and devices to memory.
    Every one of them has the invariant, and every exception is handled to its end. *)

From S2P Require Export Safety Run.
Local Open Scope kernel_scope.

(** the linker gives different addresses to different functions *)
Class Linked `{Machine} : Prop := { linked_inj : forall f g, sym f = sym g -> f = g }.

#[export] Instance symbol_eq_dec : EqDecision symbol.
Proof. solve_decision. Defined.

Section symbols.
Context `{MachineOk} `{!Linked}.

Lemma eqb_sym f g : (sym f =? sym g) = bool_decide (f = g).
Proof.
  destruct (Z.eqb_spec (sym f) (sym g)) as [E | Hne].
  - symmetry. apply bool_decide_eq_true. by apply linked_inj.
  - symmetry. apply bool_decide_eq_false. by intros ->.
Qed.

(** the stub and the handler that an address stands for *)
Lemma stub_at_sym v f w y : (v, f) ∈ trap_vectors -> stub w f = Some y -> stub_at (sym f) w = Some y.
Proof.
  intros Hin Hy. unfold stub_at. induction trap_vectors as [|[u g] l IH]; [by apply elem_of_nil in Hin |].
  cbn [omap list_omap snd]. destruct (Z.eqb_spec (sym g) (sym f)) as [E | Hne].
  - apply linked_inj in E as ->. by rewrite Hy.
  - apply IH. apply elem_of_cons in Hin as [[= <- <-] | Hin]; done.
Qed.

End symbols.

(** membership in a concrete list *)
Ltac member := cbn; repeat first [apply list_elem_of_here | apply list_elem_of_further].
Ltac handler := unfold handler_at; rewrite !eqb_sym; reflexivity.

Section exceptions.
Context `{MachineOk} `{!Linked} {CR : Credits}.

(** ** Exceptions *)

(** the traps and the interrupts with a vector, and the conditions on a call *)
Definition known_trap (t : trap) : Prop := match t with Sys n => n <= 17 | _ => True end.
Definition known_interrupt (i : interrupt) : Prop :=
  match i with Term n => 0 <= n < 5 | Printer n | Disk n | Floppy n => n = 0 | Clock => True end.
Definition proper_trap (t : trap) (cpu : state_t) (k : kernel) : Prop :=
  match t with Sys n => proper (set_tmp n cpu) (states k) (ints (k_asl k)) | _ => True end.

(** the operations on semaphores that a trap asks for *)
Definition sem_trap (t : trap) (cpu : state_t) : bool :=
  match t with Sys n => negb (in_user_mode (set_tmp n cpu)) && (sys_no n =? 3) | _ => false end.
Definition asks (t : trap) (cpu : state_t) (k : kernel) (ops : list (Z * Z)) : Prop :=
  if sem_trap t cpu then proper_vector cpu (ints (k_asl k)) ops else ops = [].

(** an exception stores the state and runs its handler *)
Lemma take_handler v f w area tmp h hd n cpu k x m c r t (X : exn -> kernel -> Prop) :
  kview k x m c r -> nuc n x m c r t ->
  (v, f) ∈ trap_vectors -> stub w f = Some (area, tmp) -> (area, h) ∈ all_areas -> handler_at (sym h) = Some hd ->
  (forall k1, let r1 := set_states (<[area := set_tmp tmp cpu]> (states r)) r in
     kview k1 x m c r1 -> nuc n x m c r1 t -> leaves_with hd k1 X) ->
  leaves_with (Run.take v w cpu) k X.
Proof.
  intros V N Hf Hs Ha Hh HX. unfold Run.take. pose proof (nu_areas _ _ _ _ _ _ N) as A.
  wp_step. eapply (wp_kload _ _ _ _ _ V); [by apply (nu_vectors _ _ _ _ _ _ N) |].
  wp_step. eapply wp_gets_opt; [eapply stub_at_sym; [exact Hf | exact Hs] |]. cbv beta iota. wp_step.
  eapply (wp_put_state _ _ _ _ _ V); [by eapply (ao_old _ A) |]. intros k1 V1.
  destruct (ao_new _ A area h Ha) as (st & Hst & Hpc). pose proof (old_not_new area h Ha area h Ha) as Hne.
  wp_step. eapply (wp_state_at _ _ _ _ _ V1); [cbn; rewrite lookup_insert_ne; [exact Hst | exact Hne] |].
  wp_step. eapply wp_gets_opt; [rewrite Hpc; exact Hh |]. cbv beta. apply HX; [exact V1 |].
  apply nuc_store_state; [by eapply old_not_new | exact N].
Qed.

Lemma tmp_set v st : s_tmp (set_tmp v st) = v.
Proof. by destruct st. Qed.

(** a pointer of the nucleus, in a state with the rest [r] *)
Lemma kview_pointer {A} (f : kernel -> A) k x m c r :
  (forall k, f (krest k) = f k) -> kview k x m c r -> f k = f r.
Proof. intros Hf V. by rewrite <- (kv_rest _ _ _ _ _ V), Hf. Qed.

(** the interrupts of the devices *)
Lemma device_interrupt_ends type old f v area h d n cpu k x m c r t :
  kview k x m c r -> nuc n x m c r t -> n + 1 < 2 ^ 31 - 1 ->
  (v, f) ∈ trap_vectors -> stub 0 f = Some (area, d) -> (area, h) ∈ all_areas ->
  handler_at (sym h) = Some (device_handler type old) ->
  (forall k, old (krest k) = old k) -> (forall ss r, old (set_states ss r) = old r) -> old r = area ->
  0 <= dev_pos type (in_dno d) < 15 ->
  leaves_with (Run.take v 0 cpu) k (ends (n + 1)).
Proof.
  intros V N Hn Hf Hs Ha Hh Ho1 Ho2 Ho3 Hd. eapply take_handler; [exact V | exact N | exact Hf | exact Hs | exact Ha | exact Hh |].
  intros k1 r1 V1 N1. eapply (device_handler_ends n Hn); [exact V1 | exact N1 | |].
  - rewrite (kview_pointer old _ _ _ _ _ Ho1 V1). unfold r1. rewrite Ho2, Ho3. cbn. apply lookup_insert_eq.
  - by rewrite tmp_set.
Qed.

(** every interrupt is handled to its end *)
Lemma interrupt_ends n b i cpu k :
  sound n b k -> n + 1 < 2 ^ 31 - 1 -> known_interrupt i ->
  leaves_with (Run.take (interrupt_vector i) 0 cpu) k (ends (n + 1)).
Proof.
  intros (x & m & c & r & t & V & N & _ & _) Hn Hi.
  destruct (ao_pointers _ (nu_areas _ _ _ _ _ _ N)) as [_ E]. injection E as E1 E2 E3 E4 E5.
  destruct i as [d | d | d | d |]; cbn [known_interrupt interrupt_vector] in *; subst.
  - assert (exists f, (0x100 + 4 * d, f) ∈ trap_vectors /\ stub 0 f = Some (0x9c8, d) /\ 0 <= dev_pos TERMINAL (in_dno d) < 15)
      as (f & Hf & Hs & Hd).
    { assert (d = 0 \/ d = 1 \/ d = 2 \/ d = 3 \/ d = 4) as [-> | [-> | [-> | [-> | ->]]]] by lia;
        eexists; (split; [member | split; [reflexivity | by vm_compute]]). }
    by eapply (device_interrupt_ends TERMINAL old_terminal_state f _ _ sym_intterminalhandler d);
      [| | | | | member | handler | | | |].
  - by eapply (device_interrupt_ends PRINTER old_printer_state STLDPRINT0 _ _ sym_intprinterhandler 0);
      [| | | member | | member | handler | | | |].
  - by eapply (device_interrupt_ends DISK old_disk_state STLDDISK0 _ _ sym_intdiskhandler 0);
      [| | | member | | member | handler | | | |].
  - by eapply (device_interrupt_ends FLOPPY old_floppy_state STLDFLOPPY0 _ _ sym_intfloppyhandler 0);
      [| | | member | | member | handler | | | |].
  - eapply (take_handler _ STLDCLOCK 0 0xc28 0 sym_intclockhandler); [exact V | exact N | member | done | member | handler |].
    intros k1 r1 V1 N1. eapply (intclockhandler_ends n Hn); [exact V1 | exact N1 | cbn; apply lookup_insert_eq].
Qed.

Lemma proper_vector_tmp w cpu m ops : proper_vector (set_tmp w cpu) m ops <-> proper_vector cpu m ops.
Proof. by destruct cpu. Qed.

(** the queues after the operations of the process that runs *)
Definition effect (x : absq) (m : gmap Z Z) (ops : list (Z * Z)) (x' : absq) : Prop :=
  ops = [] \/ after_ops (head_or (ready x)) m ops x x'.

Lemma ends_no_effect n x m e k : ends n e k -> ends_as (effect x m []) n e k.
Proof.
  intros HE. destruct e as [| | | []]; try done; destruct HE as (x' & m' & c' & r' & t' & V & N & Hb & _);
    exists x', m', c', r', t'; (split; [exact V | split; [exact N | split; [exact Hb | by left]]]).
Qed.

Section trap.
Context (n : Z) (k : kernel) (x : absq) (m : gmap Z Z) (c : Z -> option proc_t) (r : kernel) (tr : ptree).
Hypotheses (V : kview k x m c r) (N : nuc n x m c r tr) (Hr : ready x <> []) (Hn : n < 2 ^ 31 - 1).

Lemma sys_ends j cpu ops :
  j <= 17 -> proper_trap (Sys j) cpu k -> asks (Sys j) cpu k ops ->
  leaves_with (Run.take (trap_vector (Sys j)) j cpu) k (ends_as (CR := spend CR m ops) (effect x m ops) n).
Proof.
  intros Ht Hok Hops. unfold asks in Hops. cbn [proper_trap sem_trap] in *.
  assert (exists f, (trap_vector (Sys j), f) ∈ trap_vectors /\ stub j f = Some (0x930, j)) as (f & Hf & Hs).
  { cbn [trap_vector]. destruct (Z.leb_spec j 8).
    - exists STLDSYS. split; [member | reflexivity].
    - assert (j = 9 \/ j = 10 \/ j = 11 \/ j = 12 \/ j = 13 \/ j = 14 \/ j = 15 \/ j = 16 \/ j = 17) as Hj by lia.
      repeat destruct Hj as [-> | Hj]; [.. | subst]; eexists; (split; [member | reflexivity]). }
  eapply (take_handler _ f j 0x930 j sym_trapsyshandler); [exact V | exact N | exact Hf | exact Hs | member | handler |].
  intros k1 r1 V1 N1. pose proof (states_rest _ _ _ _ _ V) as Es. pose proof (kv_mem _ _ _ _ _ V) as Em. rewrite Es, Em in Hok.
  rewrite Em in Hops. destruct (negb (in_user_mode (set_tmp j cpu)) && (sys_no j =? 3)) eqn:E.
  - apply andb_true_iff in E as [Hmode%negb_true_iff Hno%Z.eqb_eq]. destruct (ready x) as [|p q] eqn:Ex; [done |].
    eapply wp_mono; [eapply (trapsyshandler_sem n Hn k1 x m c r1 tr (set_tmp j cpu) p q ops V1 N1 Ex) | done |].
    + cbn. apply lookup_insert_eq.
    + exact Hmode.
    + by rewrite tmp_set.
    + by apply proper_vector_tmp.
    + intros e k2 HE. unfold effect. rewrite Ex. destruct e as [| | | []]; try done;
        destruct HE as (x' & m' & c' & r' & t' & HE1 & HE2 & HE3 & HE4); exists x', m', c', r', t'; (split; [done | split; [done | split; [done | by right]]]).
  - subst ops. cbn [spend]. eapply wp_mono; [eapply (trapsyshandler_ends n Hn k1 x m c r1 tr (set_tmp j cpu) V1 N1 Hr) | done |].
    + cbn. apply lookup_insert_eq.
    + intros Hmode. destruct (Hok Hmode) as (H1' & H3' & H5' & H8'). split_and!; [| done | | done].
      * intros E1. by apply keeps_insert, H1'.
      * intros E1 Hty. destruct (H5' E1 Hty) as [Ho Hs']. split; [by eapply user_area_mono, Ho; apply keeps_insert | by apply keeps_insert].
    + rewrite tmp_set. apply andb_false_iff in E as [E%negb_false_iff | E%Z.eqb_neq]; auto.
    + intros e k2 HE. by eapply ends_no_effect.
Qed.

(** every trap of a running process is handled to its end *)
Lemma trap_ends_as t cpu ops :
  known_trap t -> proper_trap t cpu k -> asks t cpu k ops ->
  leaves_with (Run.take (trap_vector t) (trap_word t) cpu) k (ends_as (CR := spend CR m ops) (effect x m ops) n).
Proof.
  destruct t as [j | | w]; cbn [known_trap trap_vector trap_word].
  - by apply sys_ends.
  - intros _ _ ->. cbn [spend]. eapply (take_handler _ STLDZERO 0 0x800 5 sym_trapproghandler); [exact V | exact N | member | done | member | handler |].
    intros k1 r1 V1 N1. eapply wp_mono; [eapply trapproghandler_ends; [exact Hn | exact V1 | exact N1 | exact Hr | cbn; apply lookup_insert_eq] | done |].
    intros e k2 HE. by eapply ends_no_effect.
  - intros _ _ ->. cbn [spend]. eapply (take_handler _ STLDMM w 0x898 w sym_trapmmhandler); [exact V | exact N | member | done | member | handler |].
    intros k1 r1 V1 N1. eapply wp_mono; [eapply trapmmhandler_ends; [exact Hn | exact V1 | exact N1 | exact Hr | cbn; apply lookup_insert_eq] | done |].
    intros e k2 HE. by eapply ends_no_effect.
Qed.
End trap.

Lemma trap_ends n t cpu k ops :
  sound n true k -> n < 2 ^ 31 - 1 -> known_trap t -> proper_trap t cpu k -> asks t cpu k ops ->
  leaves_with (Run.take (trap_vector t) (trap_word t) cpu) k (ends (CR := spend CR (ints (k_asl k)) ops) n).
Proof.
  intros (x & m & c & r & tr & V & N & Hbusy & _) Hn Ht Hok Hops. rewrite (kv_mem _ _ _ _ _ V).
  eapply wp_mono; [eapply (trap_ends_as n k x m c r tr V N); try done | done |].
  - intros E. by apply Hbusy in E.
  - intros e k'. apply ends_weaken.
Qed.

(** a trap asks for some operations *)
Lemma asks_something t cpu k : proper_trap t cpu k -> exists ops, asks t cpu k ops.
Proof.
  intros Hok. unfold asks. destruct (sem_trap t cpu) eqn:E; [| by exists []]. destruct t as [j | |]; try done.
  cbn in E. apply andb_true_iff in E as [Hmode%negb_true_iff Hno%Z.eqb_eq].
  destruct (Hok Hmode) as (_ & H3' & _). rewrite tmp_set in H3'. destruct (H3' Hno) as [ops Hv].
  exists ops. by eapply proper_vector_tmp.
Qed.

(** ** Between two exceptions *)

(** what the running program and the devices may change: memory, but not the vectors,
    the semaphores of the nucleus, the declared semaphores and the new areas; and the
    device registers *)
Record accesses (k k' : kernel) : Prop := {
  ac_lists : k_asl k' = set_ints (ints (k_asl k')) (k_asl k);
  ac_running : running_queue k' = running_queue k;
  ac_cells : forall a, is_Some (ints (k_asl k) !! a) -> is_Some (ints (k_asl k') !! a);
  ac_vectors : forall a, a ∈ fst <$> trap_vectors \/ owned a \/ is_Some (credit a) -> ints (k_asl k') !! a = ints (k_asl k) !! a;
  ac_areas : forall a, is_Some (states k !! a) -> is_Some (states k' !! a);
  ac_new : forall a h, (a, h) ∈ all_areas -> states k' !! (a + STATE_SIZE) = states k !! (a + STATE_SIZE);
  ac_devs : forall a, is_Some (devregs k !! a) -> is_Some (devregs k' !! a);
  ac_globals : (pointers k', dev_arr k', save_arr k') = (pointers k, dev_arr k, save_arr k) }.

Lemma accesses_refl k : accesses k k.
Proof. split; try done. by destruct k as [[]]. Qed.

Lemma repr_ints s tp x m : repr s tp x -> repr (set_ints m s) tp x.
Proof.
  intros (rq & A & H1' & H2' & H3' & Hb & F & [I1 I2 I3]). exists rq, A. split_and!; [done | done | done |].
  split; [done |]. exists F. split; [done | | done]. by apply (semds_frame s).
Qed.

Lemma device_kept k k' r : accesses k k' -> krest k = r -> forall i dr, device_ok r i dr -> exists dr', device_ok (krest k') i dr'.
Proof.
  intros A <- i dr [D1 (d & D2 & D3) D4]. assert (dev_arr k' = dev_arr k /\ save_arr k' = save_arr k) as [Ed Es].
  { pose proof (ac_globals _ _ A) as E. exact (conj (f_equal (fun y => y.1.2) E) (f_equal snd E)). }
  destruct (ac_devs _ _ A d) as [dr' Hdr']; [by eexists |]. exists dr'. split; [done | | by cbn; rewrite Es].
  exists d. split; [by cbn; rewrite Ed | exact Hdr'].
Qed.

Lemma accesses_areas k k' : accesses k k' -> areas_ok (krest k) -> areas_ok (krest k').
Proof.
  intros A [A1 A2 A3 A4 A5]. assert (pointers k' = pointers k /\ dev_arr k' = dev_arr k) as [Ep Ed].
  { pose proof (ac_globals _ _ A) as E. exact (conj (f_equal (fun y => y.1.1) E) (f_equal (fun y => y.1.2) E)). }
  split; cbn.
  - intros a h Ha. by eapply (ac_areas _ _ A), A1.
  - intros a h Ha. rewrite (ac_new _ _ A a h Ha). by apply A2.
  - destruct A3 as [E1 E2]. unfold pointers in Ep. cbn in E1, E2. split; congruence.
  - intros i Hi. destruct (A4 i Hi) as [dr D]. by eapply device_kept.
  - destruct A5 as [d [P1 P2 P3]]. exists d. split; [by cbn; rewrite Ed | by apply (ac_devs _ _ A) | done].
Qed.

Lemma accesses_view n k k' x m c r t :
  kview k x m c r -> nuc n x m c r t -> accesses k k' ->
  kview k' x (ints (k_asl k')) c (krest k') /\ nuc n x (ints (k_asl k')) c (krest k') t.
Proof.
  intros V N A. pose proof V as [V1 V2 V3 V4]. pose proof (kview_awf _ _ _ _ _ V) as W. split; [split |].
  - rewrite (ac_lists _ _ A), (ac_running _ _ A). by apply repr_ints.
  - done.
  - intros q. rewrite (ac_lists _ _ A). apply V3.
  - done.
  - destruct N as [N1 N2 N3 N4 N5 N6 N7 N8 N9]. rewrite <- V2 in *. rewrite <- V4 in *.
    assert (forall j a, owned a -> counted j a x (ints (k_asl k)) -> counted j a x (ints (k_asl k'))) as HC.
    { intros j a Ho. apply counted_frame; [done | apply (ac_vectors _ _ A); right; by left]. }
    split; [| done | | done | | | by eapply accesses_areas | |].
    + eapply (tree_inv_queues x (ints (k_asl k))); [done | done | done | | done]. intros p. apply lives_cells. intros a. apply A.
    + intros a f Ha. rewrite (ac_vectors _ _ A); [by apply N3 |]. left. apply list_elem_of_fmap. by exists (a, f).
    + intros i Hi. apply HC; [right; by exists i | by apply N5].
    + apply HC; [by left | done].
    + intros p cp Hp. apply (entry_ok_mono (krest k)); [intros a; apply A | by apply (N8 p)].
    + intros a c0 Ec. destruct (N9 a c0 Ec) as [Hu Hg]. split; [eapply user_sem_cells; [intros b; apply A | done] |].
      eapply guarded_frame; [done | | exact Hg]. apply (ac_vectors _ _ A). right. right. by eexists.
Qed.

Lemma sound_accesses n b k k' : sound n b k -> accesses k k' -> sound n b k'.
Proof.
  intros (x & m & c & r & t & V & N & Hb & _) A. destruct (accesses_view n k k' x m c r t V N A) as [V' N'].
  by exists x, (ints (k_asl k')), c, (krest k'), t.
Qed.

(** ** Reachable states *)

(** the memory and the devices before the start-up *)
Record installed (k : kernel) : Prop := {
  in_loaded : loaded k;
  in_areas : forall a h, (a, h) ∈ all_areas -> is_Some (states k !! a);
  in_devs : forall i, 0 <= i < 15 -> is_Some (devregs k !! (0x1400 + i * 0x10)) /\ is_Some (save_arr k !! i);
  in_printer : exists j, (j < poll_fuel)%nat /\ prn_stat j = NORMAL }.

(** after a handler: [true] when a program runs, [false] when the processor waits *)
Definition goes_on (e : exn) : option bool :=
  match e with Leave (LDST _) => Some true | Leave STOP => Some false | _ => None end.

End exceptions.

Section reachable.
Context `{MachineOk} `{!Linked}.

(** [a] is declared with the value [v] *)
Definition declare (a v : Z) (CR : Z -> option Z) : Credits := fun b => if decide (b = a) then Some v else CR b.
Definition no_credits : Z -> option Z := fun _ => None.

(** [moves CR n b k ops CR' n' b' k']: one step from [k], with the credits [CR] and after
    [n] interrupts, to [k']; the running process asks for the operations [ops].
    A program may declare a semaphore that is not negative and for which nobody waits. *)
Inductive moves (CR : Z -> option Z) (n : Z) :
  bool -> kernel -> list (Z * Z) -> (Z -> option Z) -> Z -> bool -> kernel -> Prop :=
  | mv_declare b k a v :
      user_sem (ints (k_asl k)) a -> ints (k_asl k) !! a = Some v -> 0 <= v < 2 ^ 31 ->
      headBlocked a (k_asl k) = Ret ENULL (k_asl k) -> moves CR n b k [] (declare a v CR) n b k
  | mv_accesses b k k' : accesses (CR := CR) k k' -> moves CR n b k [] CR n b k'
  | mv_trap k t cpu ops e k' b' :
      known_trap t -> proper_trap t cpu k -> asks t cpu k ops ->
      Run.take (trap_vector t) (trap_word t) cpu k = Exn e k' -> goes_on e = Some b' ->
      moves CR n true k ops (spend CR (ints (k_asl k)) ops) n b' k'
  | mv_interrupt b k i cpu e k' b' :
      known_interrupt i -> Run.take (interrupt_vector i) 0 cpu k = Exn e k' -> goes_on e = Some b' ->
      moves CR n b k [] CR (n + 1) b' k'.

(** [reach k0 CR n b k]: from the start-up at [k0], with the credits [CR] and after [n]
    interrupts *)
Inductive reach (k0 : kernel) : (Z -> option Z) -> Z -> bool -> kernel -> Prop :=
  | reach_boot e k b : main k0 = Exn e k -> goes_on e = Some b -> reach k0 no_credits 0 b k
  | reach_moves CR n b k ops CR' n' b' k' :
      reach k0 CR n b k -> moves CR n b k ops CR' n' b' k' -> reach k0 CR' n' b' k'.

Lemma reach_accesses k0 (CR : Z -> option Z) n b k k' : reach k0 CR n b k -> accesses (CR := CR) k k' -> reach k0 CR n b k'.
Proof. intros R A. eapply reach_moves; [exact R | by apply mv_accesses]. Qed.
Lemma reach_trap k0 CR n k t cpu ops e k' b' :
  reach k0 CR n true k -> known_trap t -> proper_trap t cpu k -> asks t cpu k ops ->
  Run.take (trap_vector t) (trap_word t) cpu k = Exn e k' -> goes_on e = Some b' ->
  reach k0 (spend CR (ints (k_asl k)) ops) n b' k'.
Proof. intros R Ht Hok Hops E Hg. eapply reach_moves; [exact R | by eapply mv_trap]. Qed.
Lemma reach_interrupt k0 CR n b k i cpu e k' b' :
  reach k0 CR n b k -> known_interrupt i ->
  Run.take (interrupt_vector i) 0 cpu k = Exn e k' -> goes_on e = Some b' -> reach k0 CR (n + 1) b' k'.
Proof. intros R Hi E Hg. eapply reach_moves; [exact R | by eapply mv_interrupt]. Qed.

Lemma ends_goes_on {CR : Credits} Q n e k b : ends_as Q n e k -> goes_on e = Some b -> sound_as Q n b k.
Proof. destruct e as [| | | []]; cbn; intros HS [= <-]; done. Qed.

(** ** The start-up *)

Lemma boot_areas k st m r :
  installed k -> initial k st m r -> areas_ok (set_ststs (S (S (ststs k))) r).
Proof.
  intros I J. destruct (ii_same _ _ _ _ J) as (E1 & E2 & _). destruct (in_printer _ I) as (j & Hj & Hp).
  assert (forall i, 0 <= i < 15 -> exists dr, device_ok (set_ststs (S (S (ststs k))) r) i dr) as HD.
  { intros i Hi. destruct (in_devs _ I i Hi) as [[dr Hdr] Hsv]. exists dr. split; [done | | by cbn; rewrite E2].
    eexists. split; [by apply (ii_arr _ _ _ _ J) | by cbn; rewrite E1]. }
  split; [| | apply (ii_pointers _ _ _ _ J) | exact HD |].
  - intros a h Ha. by eapply (ii_kept _ _ _ _ J), in_areas.
  - intros a h Ha. destruct (ii_areas _ _ _ _ J a h Ha) as (st0 & _ & E). eexists. split; [exact E |].
    apply new_area_spec.
  - destruct (HD 5 ltac:(lia)) as [dr [_ (d & D1 & D2) _]]. exists d. split; [done | by eexists | by exists j].
Qed.

Lemma boot_sound k : installed k -> leaves_with main k (fun e k' => exists b, goes_on e = Some b /\ sound (CR := no_credits) 0 b k').
Proof.
  intros I. pose proof (in_loaded _ I) as L. eapply wp_mono; [by apply (main_spec k L) | by intros |].
  cbv beta zeta. intros e k' (m & r & c & cp & J & Ec & _ & _ & (cp' & _ & -> & V)). exists true. split; [done |].
  eexists _, _, _, _, (Node 0 []). split; [exact V |]. split; [| done].
  apply nuc_upd; [apply _ |]. eapply (nuc_same _ _ _ _ (set_ststs (S (S (ststs k))) r)); [done | done | done | done | done |].
  rewrite Ec. apply nuc_upd; [apply _ |].
  assert (forall n a, 0 <= n -> m !! a = Some 0 -> counted n a (mk_absq (seqZ 1 (MAXPROC - 1)) [0] []) m) as HC
    by (intros n a Hn Ha; exists 0; split; [done | cbn; lia]).
  split.
  - apply tree_inv_first. apply L.
  - intros p a b Ha. by apply elem_of_nil in Ha.
  - exact (ii_vectors _ _ _ _ J).
  - done.
  - intros i Hi. apply HC; [done | by apply (ii_devs _ _ _ _ J)].
  - apply HC; [done | apply (ii_clock _ _ _ _ J)].
  - by eapply boot_areas.
  - intros p cq Hq. destruct (pcore (a_pq (k_asl k)) p) as [pr|]; [| done]. injection Hq as <-. intros t Ht.
    destruct Ht. unfold trap_areas. by destruct (t =? 0), (t =? 1), pr.
  - done.
Qed.

Lemma moves_nonneg CR n b k ops CR' n' b' k' : moves CR n b k ops CR' n' b' k' -> n <= n'.
Proof. destruct 1; lia. Qed.
Lemma reach_nonneg k0 CR n b k : reach k0 CR n b k -> 0 <= n.
Proof. induction 1 as [| CR n b k ops CR' n' b' k' R IH M%moves_nonneg]; lia. Qed.

(** nobody waits for a declared semaphore at first *)
Lemma nobody_waits k x m c r a : kview k x m c r -> headBlocked a (k_asl k) = Ret ENULL (k_asl k) -> waiters a (blocked x) = [].
Proof.
  intros V E. rewrite (headBlocked_repr _ _ _ (kv_repr _ _ _ _ _ V)) in E. injection E as E.
  by apply (head_waiters x a (kview_awf _ _ _ _ _ V)).
Qed.

Lemma declare_sound {CR : Credits} n b k a v :
  sound n b k -> user_sem (ints (k_asl k)) a -> ints (k_asl k) !! a = Some v -> 0 <= v ->
  headBlocked a (k_asl k) = Ret ENULL (k_asl k) -> sound (CR := declare a v CR) n b k.
Proof.
  intros (x & m & c & r & t & V & [N1 N2 N3 N4 N5 N6 N7 N8 N9] & Hb & _) Hu Hv Hpos E.
  rewrite (kv_mem _ _ _ _ _ V) in Hu, Hv. exists x, m, c, r, t. split; [done |]. split; [| done]. split; try done.
  intros b' c0. unfold credit, declare. case_decide as Hd; [| apply N9]. intros [= <-]. subst b'. split; [done |].
  exists v. split; [done |]. rewrite (nobody_waits _ _ _ _ _ _ V E). cbn. lia.
Qed.

Lemma moves_sound CR n b k ops CR' n' b' k' :
  moves CR n b k ops CR' n' b' k' -> sound (CR := CR) n b k -> n' < 2 ^ 31 - 1 -> sound (CR := CR') n' b' k'.
Proof.
  intros M HS Hn. destruct M as [b k a v Hu Hv Hpos E | b k k' A | k t cpu ops e k' b' Ht Hok Hops E Hg | b k i cpu e k' b' Hi E Hg].
  - apply declare_sound; [done | done | done | lia | done].
  - by eapply sound_accesses.
  - pose proof (trap_ends n t cpu k ops HS Hn Ht Hok Hops) as HT. unfold wp in HT. rewrite E in HT. by eapply ends_goes_on.
  - pose proof (interrupt_ends n b i cpu k HS Hn Hi) as HI. unfold wp in HI. rewrite E in HI. by eapply ends_goes_on.
Qed.

(** every reachable state has the invariant *)
Lemma reach_sound k0 CR n b k : installed k0 -> reach k0 CR n b k -> n < 2 ^ 31 - 1 -> sound (CR := CR) n b k.
Proof.
  intros I R. induction R as [e k b E Hg | CR n b k ops CR' n' b' k' R IH M]; intros Hn.
  - pose proof (boot_sound k0 I) as HB. unfold wp in HB. rewrite E in HB. destruct HB as (b0 & Hb0 & HS).
    by assert (b0 = b) as -> by congruence.
  - apply (moves_sound CR n b k ops CR' n' b' k' M); [apply IH | exact Hn]. pose proof (moves_nonneg CR n b k ops CR' n' b' k' M). lia.
Qed.
End reachable.

Section quanta.
Context `{MachineOk} `{!Linked} {CR : Credits}.

(** ** Quanta *)

(** [turns k0 k j k' st]: [j] quanta end one after the other, each with accesses of the
    process that runs before its end; the last interrupt loads [st] *)
Inductive turns : kernel -> nat -> kernel -> state_t -> Prop :=
  | turns_one k k1 cpu k' st :
      accesses k k1 -> Run.take (interrupt_vector Clock) 0 cpu k1 = Exn (Leave (LDST st)) k' -> turns k 1 k' st
  | turns_more k k1 cpu k2 st1 j k' st :
      accesses k k1 -> Run.take (interrupt_vector Clock) 0 cpu k1 = Exn (Leave (LDST st1)) k2 ->
      turns k2 j k' st -> turns k (S j) k' st.

Lemma turn n k x m c r t p q cpu :
  kview k x m c r -> nuc n x m c r t -> n + 1 < 2 ^ 31 - 1 -> ready x = p :: q ->
  leaves_with (Run.take (interrupt_vector Clock) 0 cpu) k (fun e k' => exists x' m' c' r' w,
    kview k' x' m' c' r' /\ nuc n x' m' c' r' t /\ ready x' = q ++ p :: w /\
    exists cp, c' (head_or (ready x')) = Some cp /\ e = Leave (LDST (p_s cp))).
Proof.
  intros V N Hn Hr. eapply (take_handler _ STLDCLOCK 0 0xc28 0 sym_intclockhandler); [exact V | exact N | member | done | member | handler |].
  intros k1 r1 V1 N1. eapply (clock_turn n Hn); [exact V1 | exact N1 | cbn; apply lookup_insert_eq | exact Hr].
Qed.

(** after as many quanta as there are processes before it, a ready process runs *)
Lemma turns_reach n k j k' st :
  turns k j k' st -> n + 1 < 2 ^ 31 - 1 -> forall x m c r t l1 p l2,
  kview k x m c r -> nuc n x m c r t -> ready x = l1 ++ p :: l2 -> length l1 = j ->
  exists x' cp, repr (k_asl k') (running_queue k') x' /\ (exists w, ready x' = p :: l2 ++ w) /\
    pcore (a_pq (k_asl k')) p = Some cp /\ p_s cp = st.
Proof.
  intros T Hn. induction T as [k k1 cpu k' st A E | k k1 cpu k2 st1 j k' st A E T IH]; intros x m c r t l1 p l2 V N Hr Hl;
    destruct (accesses_view n k k1 x m c r t V N A) as [V1 N1]; (destruct l1 as [|u l1]; [done |]).
  - destruct l1; [| done]. pose proof (turn n k1 x _ c _ t u (p :: l2) cpu V1 N1 Hn Hr) as HT. unfold wp in HT.
    rewrite E in HT. destruct HT as (x' & m' & c' & r' & w & V' & _ & Hr' & cp & Hc & [= ->]).
    exists x', cp. split; [apply V' |]. split; [by exists (u :: w) |]. rewrite Hr' in Hc.
    by rewrite (kv_core _ _ _ _ _ V').
  - pose proof (turn n k1 x _ c _ t u (l1 ++ p :: l2) cpu V1 N1 Hn Hr) as HT. unfold wp in HT. rewrite E in HT.
    destruct HT as (x' & m' & c' & r' & w & V' & N' & Hr' & _).
    destruct (IH x' m' c' r' t l1 p (l2 ++ u :: w) V' N') as (x2 & cp & R & (w2 & Hw2) & Hc & Hst); [| by injection Hl |].
    + by rewrite Hr', <- app_assoc.
    + exists x2, cp. split; [done |]. split; [| done]. exists (u :: w ++ w2). by rewrite Hw2, <- app_assoc.
Qed.
End quanta.
