(* ===== verification/ReachProps.v ===== *)
(** * Properties: the nucleus as a whole

    Every state the nucleus can reach, and every exception in it. *)

From S2P Require Export Reach Fixtures.
Local Open Scope kernel_scope.

Section reachable.
Context `{MachineOk} `{!Linked}.

(** C1. The nucleus never fails.  From the start-up on, after any sequence of system
    calls, traps and interrupts, with any accesses to memory in between that respect
    the nucleus's own cells: every interrupt, and every trap of a running process that
    passes valid areas to SYS1 and SYS5, an existing device to SYS8, and to SYS3 operations
    of which one P blocks at most, with no V on its semaphore after it, is handled to its end, which loads a processor state, waits for an
    interrupt or halts.  No handler dereferences ENULL or leaves an array, none panics
    and none loops.  The sequence has fewer than 2^31 - 2 interrupts, as the count of a
    device's completions is an int. *)
Theorem nucleus_never_fails k0 CR n b k :
  installed k0 -> reach k0 CR n b k -> n + 1 < 2 ^ 31 - 1 ->
  (forall i cpu, known_interrupt i ->
     exists x k', Run.take (interrupt_vector i) 0 cpu k = Exn (Leave x) k') /\
  (b = true -> forall t cpu, known_trap t -> proper_trap t cpu k ->
     exists x k', Run.take (trap_vector t) (trap_word t) cpu k = Exn (Leave x) k').
Proof.
  intros I R Hn. pose proof (reach_sound k0 CR n b k I R ltac:(lia)) as HS.
  assert (forall (mk : MK unit) CR' j, leaves_with mk k (ends (CR := CR') j) -> exists x k', mk k = Exn (Leave x) k') as Hend.
  { intros mk CR' j HE. unfold wp in HE. destruct (mk k) as [|[| | | x] k']; cbn in HE; try done. by exists x, k'. }
  split.
  - intros i cpu Hi. by eapply (Hend _ CR), interrupt_ends.
  - intros -> t cpu Ht Hok. destruct (asks_something t cpu k Hok) as [ops Hops].
    eapply (Hend _ (spend CR (ints (k_asl k)) ops) n), (trap_ends n t cpu k ops HS); [lia | done | done | done].
Qed.


(** C3. The semaphores of the nucleus count.  In every reachable state the value of the
    pseudo-clock semaphore is minus the number of its waiters; for a device semaphore
    the sum of its value and the number of its waiters lies between 0 and the number of
    interrupts so far: a negative value never exceeds the waiters there are, and no
    value overflows. *)
Theorem semaphores_count k0 CR n b k :
  installed k0 -> reach k0 CR n b k -> n < 2 ^ 31 - 1 ->
  exists x, repr (k_asl k) (running_queue k) x /\
    ints (k_asl k) !! clock_lock = Some (- Z.of_nat (length (waiters clock_lock (blocked x)))) /\
    forall i, 0 <= i < 15 -> exists v, ints (k_asl k) !! dev_sem i = Some v /\
      0 <= v + Z.of_nat (length (waiters (dev_sem i) (blocked x))) <= n.
Proof.
  intros I R Hn. destruct (reach_sound k0 CR n b k I R Hn) as (x & m & c & r & t & V & N & _ & _).
  exists x. split; [apply V |]. rewrite (kv_mem _ _ _ _ _ V). split; [| exact (nu_devs _ _ _ _ _ _ N)].
  destruct (nu_clock _ _ _ _ _ _ N) as (v & -> & Hv). f_equal. lia.
Qed.

(** C5. Every ready process gets the processor in its turn: in any reachable state, when
    [j] processes are ready before [p], the [j]-th end of a quantum from then on
    dispatches [p] with the state saved in its entry, whatever the running processes do
    to memory in between, as long as no other exception comes. *)
Theorem ready_process_runs k0 CR n b k :
  installed k0 -> reach k0 CR n b k -> n + 1 < 2 ^ 31 - 1 ->
  exists x, repr (k_asl k) (running_queue k) x /\
    forall l1 p l2 k' st, ready x = l1 ++ p :: l2 -> turns (CR := CR) k (length l1) k' st ->
      exists x' cp, repr (k_asl k') (running_queue k') x' /\ (exists w, ready x' = p :: l2 ++ w) /\
        pcore (a_pq (k_asl k')) p = Some cp /\ p_s cp = st.
Proof.
  intros I R Hn. destruct (reach_sound k0 CR n b k I R ltac:(lia)) as (x & m & c & r & t & V & N & _ & _).
  exists x. split; [apply V |]. intros l1 p l2 k' st Hr T. by eapply (turns_reach n).
Qed.
End reachable.

(** ** The properties at concrete states *)

#[export] Instance linked0 : Linked.
Proof. split. intros f g. destruct f, g; vm_compute; congruence. Qed.

Lemma kernel0_installed : installed kernel0.
Proof.
  split; [apply kernel0_loaded | | | exists 3%nat; split; [apply Nat.ltb_lt; reflexivity | done]].
  - intros a h Hin. assert (Forall (fun ah => is_Some (states0 !! ah.1)) all_areas) as Hall.
    { apply (bool_decide_unpack _). vm_compute. exact I. }
    apply (proj1 (Forall_forall _ _) Hall _ Hin).
  - intros i Hi. assert (Forall (fun i => is_Some (devregs kernel0 !! (0x1400 + i * 0x10)) /\ is_Some (save_arr kernel0 !! i)) (seqZ 0 15)) as Hall.
    { apply (bool_decide_unpack _). vm_compute. exact I. }
    apply (proj1 (Forall_forall _ _) Hall), elem_of_seqZ. lia.
Qed.

Lemma ended_by {A} (r : result exn kernel A) b :
  outcome r ≫= goes_on = Some b -> exists e, r = Exn e (final r) /\ goes_on e = Some b.
Proof. destruct r as [a k | e k]; cbn; [done |]. by exists e. Qed.

(** the nucleus has started *)
Lemma k1_reached : reach kernel0 no_credits 0 true k1.
Proof.
  destruct (ended_by (main kernel0) true) as (e & E & Hg); [vm_compute; reflexivity |].
  exact (reach_boot kernel0 e k1 true E Hg).
Qed.

(** the clock has interrupted, once *)
Definition k1c : kernel := final (Run.take 0x140 0 supervisor k1).
Lemma k1c_reached : reach kernel0 no_credits 1 true k1c.
Proof.
  destruct (ended_by (Run.take 0x140 0 supervisor k1) true) as (e & E & Hg); [vm_compute; reflexivity |].
  exact (reach_interrupt kernel0 no_credits 0 true k1 Clock supervisor e k1c true k1_reached I E Hg).
Qed.

Lemma nucleus_never_fails_witness :
  (exists x k', Run.take (interrupt_vector (Term 3)) 0 supervisor k1c = Exn (Leave x) k') /\
  (exists x k', Run.take (trap_vector (Sys 1)) (trap_word (Sys 1)) (sys 0 0x6000) k1c = Exn (Leave x) k').
Proof.
  destruct (nucleus_never_fails kernel0 no_credits 1 true k1c kernel0_installed k1c_reached) as [HI HT]; [done |]. split.
  - apply HI. done.
  - apply HT; [done | done |]. intros _. split; [| split; [| split]]; intros Hno; [| discriminate Hno ..].
    vm_compute. eauto.
Defined.


Lemma semaphores_count_witness :
  exists x, repr (k_asl k1c) (running_queue k1c) x /\
    ints (k_asl k1c) !! clock_lock = Some (- Z.of_nat (length (waiters clock_lock (blocked x)))) /\
    forall i, 0 <= i < 15 -> exists v, ints (k_asl k1c) !! dev_sem i = Some v /\
      0 <= v + Z.of_nat (length (waiters (dev_sem i) (blocked x))) <= 1.
Proof. apply (semaphores_count kernel0 no_credits 1 true k1c kernel0_installed k1c_reached). done. Defined.

Lemma asks_create k st : asks (Sys 1) st k [].
Proof. unfold asks, sem_trap. by rewrite andb_false_r. Qed.

(** process 0 has created two processes *)
Lemma create_reached k b n st :
  reach kernel0 no_credits n b k -> b = true -> proper_trap (Sys 1) st k ->
  outcome (Run.take (trap_vector (Sys 1)) (trap_word (Sys 1)) st k) ≫= goes_on = Some true ->
  reach kernel0 no_credits n true (final (Run.take (trap_vector (Sys 1)) (trap_word (Sys 1)) st k)).
Proof.
  intros R -> Hok Ho. destruct (ended_by _ _ Ho) as (e & E & Hg).
  exact (reach_trap kernel0 no_credits n k (Sys 1) st [] e _ true R ltac:(done) Hok (asks_create k st) E Hg).
Qed.
Definition k2r : kernel := final (Run.take (trap_vector (Sys 1)) (trap_word (Sys 1)) (sys 0 0x6000) k1).
Definition k3r : kernel := final (Run.take (trap_vector (Sys 1)) (trap_word (Sys 1)) (sys 0 0x6000) k2r).

Ltac creation :=
  intros _; split; [| split; [| split]]; intros Hno; [| discriminate Hno ..]; vm_compute; eauto.

Lemma k3r_reached : reach kernel0 no_credits 0 true k3r.
Proof.
  apply (create_reached k2r true 0); [| done | creation | vm_compute; reflexivity].
  apply (create_reached k1 true 0); [exact k1_reached | done | creation | vm_compute; reflexivity].
Qed.

(** and a quantum has ended *)
Definition k4r : kernel := final (Run.take (interrupt_vector Clock) 0 supervisor k3r).
Definition loaded_by (r : result exn kernel unit) : state_t :=
  match r with Exn (Leave (LDST st)) _ => st | _ => state0 end.
Lemma loaded_by_spec r : outcome r ≫= goes_on = Some true -> r = Exn (Leave (LDST (loaded_by r))) (final r).
Proof. by destruct r as [| [| | | []]]. Qed.

Lemma one_turn : turns (CR := no_credits) k3r 1 k4r (loaded_by (Run.take (interrupt_vector Clock) 0 supervisor k3r)).
Proof.
  apply (turns_one (CR := no_credits) k3r k3r supervisor); [apply (accesses_refl (CR := no_credits)) |].
  apply loaded_by_spec. vm_compute. reflexivity.
Qed.

Lemma ready_process_runs_witness :
  turns (CR := no_credits) k3r 1 k4r (loaded_by (Run.take (interrupt_vector Clock) 0 supervisor k3r)) /\
  exists x, repr (k_asl k3r) (running_queue k3r) x /\
    forall l1 p l2 k' st, ready x = l1 ++ p :: l2 -> turns (CR := no_credits) k3r (length l1) k' st ->
      exists x' cp, repr (k_asl k') (running_queue k') x' /\ (exists w, ready x' = p :: l2 ++ w) /\
        pcore (a_pq (k_asl k')) p = Some cp /\ p_s cp = st.
Proof.
  split; [exact one_turn |].
  apply (ready_process_runs kernel0 no_credits 0 true k3r kernel0_installed k3r_reached). done.
Defined.
