(* ===== verification/Critical.v ===== *)
(** * Semaphores of the programs: the sessions of their users

    A declared semaphore of the value [v0] is a pool of [v0] units: a process that
    passes a P takes one, and gives it back with a V.  The processes inside are those
    that have taken a unit and not given it back. *)

From S2P Require Export ReachProps.
Local Open Scope kernel_scope.

(** ** The queues that a state of the nucleus represents *)

Section unique.
Context `{MachineOk}.

Definition queues_of (k : kernel) (x : absq) : Prop := repr (k_asl k) (running_queue k) x.

Lemma repr_waiters_unique a : a <> ENULL -> forall l s tp tp' x y,
  repr s tp x -> repr s tp' y -> waiters a (blocked x) = l -> waiters a (blocked y) = l.
Proof.
  intros Ha l. induction l as [|w l IH]; intros s tp tp' x y Rx Ry Hx;
    pose proof (headBlocked_repr s tp x Rx a) as Ex; rewrite (headBlocked_repr s tp' y Ry a), Hx in Ex; injection Ex as Ex.
  - by apply (head_waiters y a (repr_awf _ _ _ Ry)).
  - pose proof (head_waiters_valid x a (repr_awf _ _ _ Rx)) as Hv. rewrite Hx in Hv.
    destruct (waiters a (blocked y)) as [|w' l'] eqn:Hy.
    { cbn in Ex. subst w. destruct (head_waiters x a (repr_awf _ _ _ Rx)) as [E _]. rewrite Hx in E. by specialize (E eq_refl). }
    cbn in Ex. subst w'. f_equal.
    pose proof (removeBlocked_repr s tp x Rx a Ha) as Hrx. pose proof (removeBlocked_repr s tp' y Ry a Ha) as Hry.
    unfold wp in Hrx, Hry. destruct (removeBlocked a s) as [r s'|]; [| done].
    destruct Hrx as (_ & _ & _ & Rx'). destruct Hry as (_ & _ & _ & Ry').
    assert (forall z, awf z -> waiters a (blocked (set_blocked (resume a (blocked z)) z)) = List.tl (waiters a (blocked z))) as Ht.
    { intros z Wz. cbn. by rewrite waiters_resume, Z.eqb_refl by apply (aw_blocked _ Wz). }
    pose proof (Ht y (repr_awf _ _ _ Ry)) as Hty. rewrite Hy in Hty.
    transitivity (waiters a (blocked (set_blocked (resume a (blocked y)) y))); [symmetry; exact Hty |].
    eapply (IH s'); [exact Rx' | exact Ry' |]. rewrite (Ht x (repr_awf _ _ _ Rx)), Hx. done.
Qed.

Lemma waiters_null k x : queues_of k x -> waiters ENULL (blocked x) = [].
Proof. intros R. apply waiters_none. intros Hin. by apply (aw_sems x (repr_awf _ _ _ R) ENULL). Qed.

Lemma queues_of_waiters k x y a : queues_of k x -> queues_of k y -> waiters a (blocked x) = waiters a (blocked y).
Proof.
  intros Hx Hy. destruct (decide (a = ENULL)) as [-> | Ha]; [by rewrite !(waiters_null k) |].
  symmetry. eapply repr_waiters_unique; [exact Ha | exact Hx | exact Hy | done].
Qed.

Lemma repr_ready_unique l : forall s tp x y, repr s tp x -> repr s tp y -> ready x = l -> ready y = l.
Proof.
  induction l as [|w l IH]; intros s tp x y Rx Ry Hx;
    pose proof (headQueue_repr s tp x Rx) as Ex; rewrite (headQueue_repr s tp y Ry), Hx in Ex; injection Ex as Ex.
  - destruct (ready y) as [|w' l'] eqn:Hy; [done |]. cbn in Ex.
    destruct (ready_valid y w' (repr_awf _ _ _ Ry)) as [? _]; [rewrite Hy; left | unfold ENULL in *; lia].
  - destruct (ready_valid x w (repr_awf _ _ _ Rx)) as [? _]; [rewrite Hx; left |].
    destruct (ready y) as [|w' l'] eqn:Hy; [cbn in Ex; unfold ENULL in *; lia |]. cbn in Ex. subst w'. f_equal.
    pose proof (removeProc_repr s tp x Rx) as Hrx. pose proof (removeProc_repr s tp y Ry) as Hry.
    unfold wp in Hrx, Hry. destruct (pq (removeProc tp) s) as [r s'|]; [| done].
    destruct Hrx as (_ & _ & _ & Rx'). destruct Hry as (_ & _ & _ & Ry'). rewrite Hx in Rx'. rewrite Hy in Ry'.
    by apply (IH s' r.1 _ _ Rx' Ry').
Qed.

Lemma queues_of_ready k x y : queues_of k x -> queues_of k y -> ready x = ready y.
Proof. intros Hx Hy. symmetry. by apply (repr_ready_unique (ready x) (k_asl k) (running_queue k) x y). Qed.
Lemma queues_of_head k x y : queues_of k x -> queues_of k y -> head_or (ready x) = head_or (ready y).
Proof. intros Hx Hy. by rewrite (queues_of_ready k x y). Qed.

(** the result of an operation that only reads *)
Definition answer {A} (r : result exn asl A) : option A := match r with Ret a _ => Some a | Exn _ _ => None end.
Lemma headBlocked_queue k x a h : queues_of k x -> answer (headBlocked a (k_asl k)) = Some h -> head_or (waiters a (blocked x)) = h.
Proof. intros R E. rewrite (headBlocked_repr _ _ _ R) in E. by injection E. Qed.
Lemma headQueue_queue k x h : queues_of k x -> answer (pq (headQueue (running_queue k)) (k_asl k)) = Some h -> head_or (ready x) = h.
Proof. intros R E. rewrite (headQueue_repr _ _ _ R) in E. by injection E. Qed.
End unique.

(** ** The operations of a vector on one semaphore *)

Definition ops_on (a : Z) (ops : list (Z * Z)) : list (Z * Z) := filter (fun oa => oa.2 = a) ops.

Section vector.
Context `{Machine}.

Lemma spend_other a ops : forall CR m, ops_on a ops = [] -> spend CR m ops a = CR a.
Proof.
  induction ops as [|[op b] ops IH]; intros CR m Ha; [done |]. unfold ops_on in Ha. cbn [spend].
  rewrite filter_cons in Ha. case_decide as Hb; [done |]. cbn in Hb. destruct (m !! b); [| done].
  rewrite IH by done. unfold recredit. by rewrite decide_False by congruence.
Qed.
Lemma queues_after_other p a ops : forall W m, ops_on a ops = [] -> queues_after p W m ops a = W a.
Proof.
  induction ops as [|[op b] ops IH]; intros W m Ha; [done |]. unfold ops_on in Ha. cbn [queues_after].
  rewrite filter_cons in Ha. case_decide as Hb; [done |]. cbn in Hb. destruct (m !! b); [| done].
  rewrite IH by done. by rewrite (proj2 (Z.eqb_neq a b)) by congruence.
Qed.

Lemma spend_one a op ops : forall b0 (CR : Z -> option Z) m c v, proper_from b0 m ops -> ops_on a ops = [(op, a)] ->
  CR a = Some c -> m !! a = Some v -> spend CR m ops a = credit_of (next_value op v).
Proof.
  induction ops as [|[op' b] ops IH]; intros b0 CR m c v Hok Ha Hc Hv; [done |]. unfold ops_on in *.
  destruct Hok as (_ & v' & Hv' & _ & Hok). cbn [spend]. rewrite Hv'. rewrite filter_cons in Ha. case_decide as Hb; cbn in Hb.
  - subst b. injection Ha as -> Ha. rewrite spend_other by done. assert (v' = v) as -> by congruence.
    unfold recredit. rewrite decide_True by done. unfold credit. by rewrite Hc.
  - apply (IH _ _ _ c v Hok Ha); [| by rewrite lookup_insert_ne].
    unfold recredit. by rewrite decide_False by congruence.
Qed.
Lemma queues_after_one p a op ops : forall b0 W m v, proper_from b0 m ops -> ops_on a ops = [(op, a)] ->
  m !! a = Some v -> queues_after p W m ops a = requeue p op v (W a).
Proof.
  induction ops as [|[op' b] ops IH]; intros b0 W m v Hok Ha Hv; [done |]. unfold ops_on in *.
  destruct Hok as (_ & v' & Hv' & _ & Hok). cbn [queues_after]. rewrite Hv'. rewrite filter_cons in Ha. case_decide as Hb; cbn in Hb.
  - subst b. injection Ha as -> Ha. rewrite queues_after_other by done. assert (v' = v) as -> by congruence. by rewrite Z.eqb_refl.
  - rewrite (IH _ _ _ v Hok Ha) by by rewrite lookup_insert_ne. by rewrite (proj2 (Z.eqb_neq a b)) by congruence.
Qed.
End vector.

(** ** Sessions *)

Section sessions.
Context `{MachineOk} `{!Linked}.

(** the processes inside after a step in which the running process asks for [ops]: after
    a P it is inside unless it waits; after its V, which only a process inside may ask
    for, those that no longer wait have come in *)
Inductive inside (a : Z) (x x' : absq) (ops : list (Z * Z)) (ins : list Z) : list Z -> Prop :=
  | in_none : ops_on a ops = [] -> inside a x x' ops ins ins
  | in_P : ops_on a ops = [(LOCK, a)] ->
      inside a x x' ops ins
        (if decide (head_or (ready x) ∈ waiters a (blocked x')) then ins else head_or (ready x) :: ins)
  | in_V op ins1 ins2 woken : ops_on a ops = [(op, a)] -> op <> LOCK ->
      ins = ins1 ++ head_or (ready x) :: ins2 -> waiters a (blocked x) = woken ++ waiters a (blocked x') ->
      inside a x x' ops ins (ins1 ++ ins2 ++ woken).

(** [sessions k0 a v0 ins CR n b k]: the processes [ins] are inside, since [a] was
    declared with [v0] units *)
Inductive sessions (k0 : kernel) (a v0 : Z) : list Z -> (Z -> option Z) -> Z -> bool -> kernel -> Prop :=
  | se_declared CR n b k : reach k0 CR n b k -> CR a = Some v0 -> sessions k0 a v0 [] CR n b k
  | se_step ins CR n b k ops CR' n' b' k' x x' ins' :
      sessions k0 a v0 ins CR n b k -> moves CR n b k ops CR' n' b' k' ->
      queues_of k x -> queues_of k' x' -> inside a x x' ops ins ins' ->
      sessions k0 a v0 ins' CR' n' b' k'.

Lemma sessions_reach k0 a v0 ins CR n b k : sessions k0 a v0 ins CR n b k -> reach k0 CR n b k.
Proof. induction 1; [done | by eapply reach_moves]. Qed.

(** the semaphore in a reachable state *)
Lemma declared_state k0 CR n b k a c :
  installed k0 -> reach k0 CR n b k -> n < 2 ^ 31 - 1 -> CR a = Some c -> exists x v, queues_of k x /\ a <> ENULL /\
    ints (k_asl k) !! a = Some v /\ c = Z.max 0 v /\ Z.of_nat (length (waiters a (blocked x))) = Z.max 0 (- v) /\ -20 <= v.
Proof.
  intros I R Hn Hc. destruct (reach_sound k0 CR n b k I R Hn) as (x & m & cr & r & t & V & N & _).
  destruct (nu_credits _ _ _ _ _ _ N a c Hc) as [[_ Hne _ _] (v & Hv & -> & Hl)]. exists x, v.
  split; [apply V |]. split; [done |]. rewrite (kv_mem _ _ _ _ _ V). split; [done |]. split; [done |]. split; [done |].
  pose proof (waiters_length x a (kview_awf _ _ _ _ _ V)). lia.
Qed.

(** a trap of the running process acts on the queues as its operations say *)
Lemma trap_effect k0 CR n k t cpu ops e k' b' x x' :
  installed k0 -> reach k0 CR n true k -> n < 2 ^ 31 - 1 -> known_trap t -> proper_trap t cpu k -> asks t cpu k ops ->
  Run.take (trap_vector t) (trap_word t) cpu k = Exn e k' -> goes_on e = Some b' ->
  queues_of k x -> queues_of k' x' -> ops <> [] ->
  proper_ops (ints (k_asl k)) ops /\
  (forall a, waiters a (blocked x') = queues_after (head_or (ready x)) (fun b => waiters b (blocked x)) (ints (k_asl k)) ops a) /\
  (forall a p, p ∈ waiters a (blocked x) -> (forall b, p ∉ waiters b (blocked x')) -> p ∈ ready x').
Proof.
  intros I R Hn Ht Hok Hops E Hg Hx Hx' Hne. destruct (reach_sound k0 CR n true k I R Hn) as (y & m & c & r & tr & V & N & Hb & _).
  assert (ready y <> []) as Hr by (intros Hr; by apply Hb in Hr).
  pose proof (trap_ends_as n k y m c r tr V N Hr Hn t cpu ops Ht Hok Hops) as HT. unfold wp in HT. rewrite E in HT.
  destruct (ends_goes_on (CR := spend CR m ops) _ _ _ _ _ HT Hg) as (y' & m' & c' & r' & t' & V' & N' & _ & [? | [Hf HE]]); [done |].
  pose proof (kview_awf _ _ _ _ _ V) as W. pose proof (kview_awf _ _ _ _ _ V') as W'.
  split; [unfold asks in Hops; destruct (sem_trap t cpu); [apply Hops | done] |]. split; intros a; [| intros p Hp Hno].
  2: { rewrite (queues_of_waiters k x y a Hx (kv_repr _ _ _ _ _ V)) in Hp. destruct (waiters_valid y a p W Hp) as [Hv Hfree].
    rewrite (queues_of_ready k' x' y' Hx' (kv_repr _ _ _ _ _ V')). rewrite <- Hf in Hfree.
    destruct (nuc_lives _ _ _ _ _ _ N' W' p (nuc_node _ _ _ _ _ _ N' p Hv Hfree)) as [_ _ [[? _] | [_ [b Hb']]] _]; [done |].
    rewrite <- (queues_of_waiters k' x' y' b Hx' (kv_repr _ _ _ _ _ V')) in Hb'. by destruct (Hno b). }
  rewrite (queues_of_waiters k' x' y' a Hx' (kv_repr _ _ _ _ _ V')), HE, (kv_mem _ _ _ _ _ V).
  rewrite (queues_of_head k x y Hx (kv_repr _ _ _ _ _ V)).
  apply queues_after_ext. intros b. symmetry. exact (queues_of_waiters k x y b Hx (kv_repr _ _ _ _ _ V)).
Qed.

(** ** The units are conserved *)

Lemma moves_other CR n b k ops CR' n' b' k' a c v :
  moves CR n b k ops CR' n' b' k' -> ops_on a ops = [] -> CR a = Some c ->
  ints (k_asl k) !! a = Some v -> c = Z.max 0 v -> CR' a = Some c.
Proof.
  intros M Ha Hc Hv Hcv. destruct M as [b k d w Hu Hw Hpos E | b k k' A | k t cpu ops e k' b' Ht Hok Hops E Hg | b k i cpu e k' b' Hi E Hg];
    [| done | by rewrite spend_other | done].
  unfold declare. case_decide as Hd; [| done]. subst d. f_equal. assert (w = v) as -> by congruence. lia.
Qed.

Lemma moves_asking CR n b k ops CR' n' b' k' :
  moves CR n b k ops CR' n' b' k' -> ops <> [] -> b = true /\ n' = n /\ CR' = spend CR (ints (k_asl k)) ops /\
  exists t cpu e, known_trap t /\ proper_trap t cpu k /\ asks t cpu k ops /\
    Run.take (trap_vector t) (trap_word t) cpu k = Exn e k' /\ goes_on e = Some b'.
Proof.
  intros M Hne. destruct M as [| | k t cpu ops e k' b' Ht Hok Hops E Hg |]; try done.
  split; [done |]. split; [done |]. split; [done |]. by exists t, cpu, e.
Qed.

(** a step with one operation on [a] *)
Lemma moves_one k0 CR n b k ops CR' n' b' k' x x' a op c v :
  installed k0 -> reach k0 CR n b k -> n < 2 ^ 31 - 1 -> moves CR n b k ops CR' n' b' k' -> queues_of k x -> queues_of k' x' ->
  ops_on a ops = [(op, a)] -> CR a = Some c -> ints (k_asl k) !! a = Some v ->
  CR' a = credit_of (next_value op v) /\ waiters a (blocked x') = requeue (head_or (ready x)) op v (waiters a (blocked x)).
Proof.
  intros I R Hn M Hx Hx' Ha Hc Hv. assert (ops <> []) as Hne by by intros ->.
  destruct (moves_asking _ _ _ _ _ _ _ _ _ M Hne) as (-> & -> & -> & t & cpu & e & Ht & Hok & Hops & E & Hg).
  destruct (trap_effect k0 CR n k t cpu ops e k' b' x x' I R Hn Ht Hok Hops E Hg Hx Hx' Hne) as (Hp & HW & _).
  split; [by eapply spend_one | rewrite HW; by eapply (queues_after_one _ a op)].
Qed.

Lemma sessions_credit k0 a v0 ins CR n b k :
  installed k0 -> v0 < 2 ^ 31 -> sessions k0 a v0 ins CR n b k -> n < 2 ^ 31 - 1 ->
  exists c, CR a = Some c /\ c + Z.of_nat (length ins) = v0.
Proof.
  intros I Hv0 HS. induction HS as [CR n b k R Hc | ins CR n b k ops CR' n' b' k' x x' ins' HS IH M Hx Hx' HI]; intros Hn.
  { exists v0. split; [done | cbn; lia]. }
  pose proof (moves_nonneg CR n b k ops CR' n' b' k' M) as Hnn. destruct (IH ltac:(lia)) as (c & Hc & Hsum). clear IH.
  pose proof (sessions_reach _ _ _ _ _ _ _ _ HS) as R.
  destruct (declared_state k0 CR n b k a c I R ltac:(lia) Hc) as (y & v & Hy & _ & Hv & Hcv & Hl & Hlow).
  rewrite (queues_of_waiters k y x a Hy Hx) in Hl.
  destruct HI as [Ha | Ha | op ins1 ins2 woken Ha Hop -> Hw].
  - exists c. split; [by eapply moves_other | done].
  - destruct (moves_one k0 CR n b k ops CR' n' b' k' x x' a LOCK c v I R ltac:(lia) M Hx Hx' Ha Hc Hv) as [Hc' HW].
    assert (in_i32 (v - 1)) as Hi by (unfold in_i32; lia). unfold next_value, requeue in *. rewrite Z.eqb_refl in *.
    unfold credit_of in Hc'. rewrite bool_decide_true in Hc' by done. rewrite i32_id in HW by done.
    eexists. split; [exact Hc' |]. rewrite HW. destruct (Z.ltb_spec (v - 1) 0).
    + rewrite decide_True by (apply elem_of_app; right; left). lia.
    + destruct (waiters a (blocked x)); [| cbn in Hl; lia]. rewrite decide_False by apply not_elem_of_nil. cbn. lia.
  - destruct (moves_one k0 CR n b k ops CR' n' b' k' x x' a op c v I R ltac:(lia) M Hx Hx' Ha Hc Hv) as [Hc' HW].
    rewrite length_app in Hsum. cbn in Hsum. assert (in_i32 (v + 1)) as Hi by (unfold in_i32; lia).
    unfold next_value, requeue in *. rewrite (proj2 (Z.eqb_neq op LOCK)) in * by done.
    unfold credit_of in Hc'. rewrite bool_decide_true in Hc' by done.
    eexists. split; [exact Hc' |]. rewrite HW in Hw. apply (f_equal length) in Hw. rewrite !length_app in *.
    destruct (Z.ltb_spec v 0); [destruct (waiters a (blocked x)) |]; cbn in *; lia.
Qed.
(** the first waiter of [a] has been taken out of its queue *)
Lemma queues_after_sub p ops u : forall W m d, u ∈ queues_after p W m ops d -> u ∈ W d \/ u = p.
Proof.
  induction ops as [|[op a] ops IH]; intros W m d Hu; [by left |]. cbn [queues_after] in Hu.
  destruct (m !! a) as [v|]; [| by left]. apply IH in Hu as [Hu | Hu]; [| by right]. revert Hu.
  case_Z; [| by left]. unfold requeue. destruct (op =? LOCK); [destruct (i32 (v - 1) <? 0) | destruct (v <? 0)]; intros Hu.
  - apply elem_of_app in Hu as [? | ?%list_elem_of_singleton]; [by left | by right].
  - by left.
  - left. destruct (W d); [done | by right].
  - by left.
Qed.

Lemma woken_ready k0 CR n b k ops CR' n' b' k' x x' a w ws :
  installed k0 -> reach k0 CR n b k -> n < 2 ^ 31 - 1 -> moves CR n b k ops CR' n' b' k' -> ops <> [] ->
  queues_of k x -> queues_of k' x' -> waiters a (blocked x) = w :: ws -> waiters a (blocked x') = ws ->
  w ∈ ready x' /\ forall d, w ∉ waiters d (blocked x').
Proof.
  intros I R Hn M Hne Hx Hx' Hw Hws.
  destruct (moves_asking _ _ _ _ _ _ _ _ _ M Hne) as (-> & -> & -> & t & cpu & e & Ht & Hok & Hops & E & Hg).
  destruct (trap_effect k0 CR n k t cpu ops e k' b' x x' I R Hn Ht Hok Hops E Hg Hx Hx' Hne) as (Hp & HW & Hready).
  destruct (reach_sound k0 CR n true k I R Hn) as (y & m & cr & r & tr & V & N & Hb & _).
  pose proof (kview_awf _ _ _ _ _ V) as Wy. pose proof (kv_repr _ _ _ _ _ V) as Ry.
  assert (w ∈ waiters a (blocked y)) as Hwy by (rewrite (queues_of_waiters k y x a Ry Hx), Hw; left).
  destruct (nuc_waiter _ _ _ _ _ _ N Wy a w Hwy) as [_ Hwr].
  assert (w <> head_or (ready x)) as Hhead.
  { rewrite (queues_of_head k x y Hx Ry). destruct (ready y) as [|p q] eqn:Hr; [by discriminate (proj1 Hb eq_refl) |]. intros ->. apply Hwr. left. }
  assert (forall d, w ∉ waiters d (blocked x')) as Hno.
  { intros d Hd. destruct (decide (d = a)) as [-> | Hda].
    - rewrite Hws in Hd. pose proof (waiters_nodup x a (repr_awf _ _ _ Hx)) as Hnd. rewrite Hw in Hnd. by apply NoDup_cons in Hnd as [? _].
    - rewrite HW in Hd. apply queues_after_sub in Hd as [Hd | Hd]; [| done]. rewrite (queues_of_waiters k x y d Hx Ry) in Hd.
      apply Hda. by apply (nu_single _ _ _ _ _ _ N w). }
  split; [| done]. apply (Hready a); [rewrite Hw; left | done].
Qed.


End sessions.

(** ** Writes of a program *)

Definition with_cells (l : list (Z * Z)) (k : kernel) : kernel :=
  set_k_asl (set_ints (foldr (fun av m => <[av.1 := av.2]> m) (ints (k_asl k)) l) (k_asl k)) k.

(** the cells that a program may write *)
Definition writable `{Machine} (CR : Z -> option Z) (a : Z) : Prop := a ∉ fst <$> trap_vectors /\ ~ owned a /\ CR a = None.

Lemma with_cells_other l k a : a ∉ fst <$> l -> ints (k_asl (with_cells l k)) !! a = ints (k_asl k) !! a.
Proof.
  induction l as [|[b v] l IH]; intros Ha; [done |]. cbn in *. apply not_elem_of_cons in Ha as [Hne Ha].
  rewrite lookup_insert_ne by done. by apply IH.
Qed.

Lemma with_cells_accesses `{Machine} (CR : Z -> option Z) l k : Forall (fun av => writable CR av.1) l -> accesses (CR := CR) k (with_cells l k).
Proof.
  intros HF. split; try done.
  - intros a Ha. cbn. clear HF. induction l as [|[b v] l IH]; [done |]. cbn. destruct (decide (a = b)) as [-> | Hne];
      [rewrite lookup_insert_eq; by eexists | by rewrite lookup_insert_ne].
  - intros a Ha. apply with_cells_other. intros ([b v] & -> & Hin)%list_elem_of_fmap.
    destruct (proj1 (Forall_forall _ _) HF _ Hin) as (Hv & Ho & Hc). cbn in *.
    destruct Ha as [? | [? | [c Hcr]]]; [done | done |]. unfold credit in Hcr. congruence.
Qed.

(** ** The properties at a concrete state *)

Section steps.
Context `{MachineOk} `{!Linked}.

(** the running process passes a P, or waits *)
Lemma sessions_P k0 a v0 ins CR n k ops CR' n' b' k' p h :
  installed k0 -> sessions k0 a v0 ins CR n true k -> n < 2 ^ 31 - 1 ->
  moves CR n true k ops CR' n' b' k' -> n' < 2 ^ 31 - 1 -> ops_on a ops = [(LOCK, a)] ->
  answer (pq (headQueue (running_queue k)) (k_asl k)) = Some p -> answer (headBlocked a (k_asl k')) = Some h ->
  h = ENULL \/ h = p -> sessions k0 a v0 (if h =? ENULL then p :: ins else ins) CR' n' b' k'.
Proof.
  intros I HS Hn M Hn' Ha Ep Eh Hh. pose proof (sessions_reach _ _ _ _ _ _ _ _ HS) as R.
  destruct (reach_sound k0 CR n true k I R Hn) as (x & m & cr & r & tr & V & N & Hb & _). pose proof (kv_repr _ _ _ _ _ V) as Rx.
  destruct (reach_sound k0 CR' n' b' k' I (reach_moves _ _ _ _ _ _ _ _ _ _ R M) Hn') as (x' & m' & cr' & r' & tr' & V' & _).
  pose proof (kv_repr _ _ _ _ _ V') as Rx'. apply (headQueue_queue k x p Rx) in Ep as <-.
  assert (0 <= head_or (ready x)) as Hp.
  { destruct (ready x) as [|q l] eqn:Er; [by discriminate (proj1 Hb eq_refl) |].
    destruct (ready_valid x q (kview_awf _ _ _ _ _ V)) as [? _]; [rewrite Er; left | cbn; lia]. }
  apply (headBlocked_queue k' x' a h Rx') in Eh.
  eapply se_step; [exact HS | exact M | exact Rx | exact Rx' |]. destruct Hh as [-> | ->].
  - apply (head_waiters x' a (kview_awf _ _ _ _ _ V')) in Eh as Hw.
    replace (if ENULL =? ENULL then head_or (ready x) :: ins else ins)
      with (if decide (head_or (ready x) ∈ waiters a (blocked x')) then ins else head_or (ready x) :: ins); [by apply in_P |].
    rewrite Hw, decide_False by apply not_elem_of_nil. done.
  - replace (if head_or (ready x) =? ENULL then head_or (ready x) :: ins else ins)
      with (if decide (head_or (ready x) ∈ waiters a (blocked x')) then ins else head_or (ready x) :: ins); [by apply in_P |].
    rewrite (proj2 (Z.eqb_neq _ _)) by (unfold ENULL; lia). apply decide_True.
    destruct (waiters a (blocked x')) as [|w l]; cbn in Eh; [unfold ENULL in *; lia | subst w; left].
Qed.

(** a declaration *)
Lemma sessions_declare k0 CR n b k a v0 :
  installed k0 -> reach k0 CR n b k -> n < 2 ^ 31 - 1 -> user_sem (ints (k_asl k)) a -> ints (k_asl k) !! a = Some v0 ->
  0 <= v0 < 2 ^ 31 -> answer (headBlocked a (k_asl k)) = Some ENULL -> sessions k0 a v0 [] (declare a v0 CR) n b k.
Proof.
  intros I R Hn Hu Hv Hpos Eh. destruct (reach_sound k0 CR n b k I R Hn) as (x & m & cr & r & tr & V & _).
  pose proof (kv_repr _ _ _ _ _ V) as Rx. apply (headBlocked_queue k x a ENULL Rx) in Eh.
  apply se_declared; [| unfold declare; by rewrite decide_True]. eapply reach_moves; [exact R |].
  apply mv_declare; [done | done | done |]. by rewrite (headBlocked_repr _ _ _ Rx), Eh.
Qed.

Lemma sessions_idle k0 a v0 ins CR n b k CR' n' b' k' :
  installed k0 -> sessions k0 a v0 ins CR n b k -> n < 2 ^ 31 - 1 -> moves CR n b k [] CR' n' b' k' -> n' < 2 ^ 31 - 1 ->
  sessions k0 a v0 ins CR' n' b' k'.
Proof.
  intros I HS Hn M Hn'. pose proof (sessions_reach _ _ _ _ _ _ _ _ HS) as R.
  destruct (reach_sound k0 CR n b k I R Hn) as (x & m & cr & r & tr & V & _).
  destruct (reach_sound k0 CR' n' b' k' I (reach_moves _ _ _ _ _ _ _ _ _ _ R M) Hn') as (x' & m' & cr' & r' & tr' & V' & _).
  eapply se_step; [exact HS | exact M | apply V | apply V' |]. by apply in_none.
Qed.
End steps.

(** process 0 writes a semaphore with one unit and the vectors of a P and a V on it *)
Definition mutex : Z := 0x5000.
Definition ks : kernel :=
  with_cells [(mutex, 1); (0x5080, LOCK); (0x5084, mutex); (0x5088, UNLOCK); (0x508c, mutex)] k3r.
Definition P_call : state_t := call 3 0 1 0x5080 supervisor.
Definition V_call : state_t := call 3 0 1 0x5088 supervisor.

(** 0 passes a P, its quantum ends, and 1 waits *)
Definition kp : kernel := final (Run.take (trap_vector (Sys 3)) 3 P_call ks).
Definition kc : kernel := final (Run.take (interrupt_vector Clock) 0 supervisor kp).
Definition kw : kernel := final (Run.take (trap_vector (Sys 3)) 3 P_call kc).
(** and 2 asks for a V *)
Definition kv : kernel := final (Run.take (trap_vector (Sys 3)) 3 V_call kw).

Definition CRs : Z -> option Z := declare mutex 1 no_credits.
Definition CRp : Z -> option Z := spend CRs (ints (k_asl ks)) [(LOCK, mutex)].
Definition CRw : Z -> option Z := spend CRp (ints (k_asl kc)) [(LOCK, mutex)].
Definition CRv : Z -> option Z := spend CRw (ints (k_asl kw)) [(UNLOCK, mutex)].

Lemma user_cell a : 0x5000 <= a < 0x5100 -> a ∉ fst <$> trap_vectors /\ ~ owned a.
Proof.
  intros Ha. split.
  - intros ([b f] & -> & Hb)%list_elem_of_fmap. pose proof (trap_vectors_low _ _ Hb) as Hl. cbn in *. lia.
  - intros [-> | (i & Hi & ->)]; unfold clock_lock, dev_sem in *; cbn in Ha; lia.
Qed.
Lemma mutex_user m v : m !! mutex = Some v -> user_sem m mutex.
Proof. intros Hm. destruct (user_cell mutex) as [Hv Ho]; [by vm_compute |]. by split; [eexists | ..]. Qed.

Lemma ks_reached : reach kernel0 no_credits 0 true ks.
Proof.
  eapply reach_accesses; [exact k3r_reached |]. apply with_cells_accesses.
  repeat constructor; apply user_cell; cbn; unfold mutex; lia.
Qed.

(** a call of SYS3 with one operation on the semaphore *)
Lemma mutex_moves CR n k cpu op addr v b' :
  s_r cpu !!! 3%fin = 1 -> s_r cpu !!! 4%fin = addr -> in_user_mode (set_tmp 3 cpu) = false ->
  0x5004 <= addr < 0x50fc -> ints (k_asl k) !! addr = Some op -> ints (k_asl k) !! (addr + 4) = Some mutex ->
  ints (k_asl k) !! mutex = Some v ->
  outcome (Run.take (trap_vector (Sys 3)) 3 cpu k) ≫= goes_on = Some b' ->
  moves CR n true k [(op, mutex)] (spend CR (ints (k_asl k)) [(op, mutex)]) n b' (final (Run.take (trap_vector (Sys 3)) 3 cpu k)).
Proof.
  intros H3 H4 Hmode Ha Hop Ho Hv Ho'. destruct (ended_by _ _ Ho') as (e & E & Hg).
  assert (proper_vector cpu (ints (k_asl k)) [(op, mutex)]) as HP.
  { split; [done |]. rewrite H4. split; [done |]. split.
    - intros oa ->%list_elem_of_singleton. cbn. unfold mutex, VPOP_SIZE. lia.
    - split; [by apply (mutex_user _ v) | by exists v]. }
  eapply (mv_trap CR n k (Sys 3) cpu); [done | | | exact E | exact Hg].
  - intros _. split; [| split; [| split]]; intros Hno; rewrite tmp_set in Hno; try discriminate Hno.
    exists [(op, mutex)]. apply proper_vector_tmp. exact HP.
  - unfold asks, sem_trap. rewrite Hmode. exact HP.
Qed.
Lemma mutex_P_0 : moves CRs 0 true ks [(LOCK, mutex)] CRp 0 true kp.
Proof. apply (mutex_moves CRs 0 ks P_call LOCK 0x5080 1); [done | done | done | lia | vm_compute; reflexivity ..]. Qed.
Lemma quantum_ends : moves CRp 0 true kp [] CRp 1 true kc.
Proof.
  destruct (ended_by (Run.take (interrupt_vector Clock) 0 supervisor kp) true) as (e & E & Hg); [vm_compute; reflexivity |].
  by apply (mv_interrupt CRp 0 true kp Clock supervisor e).
Qed.
Lemma mutex_P_1 : moves CRp 1 true kc [(LOCK, mutex)] CRw 1 true kw.
Proof. apply (mutex_moves CRp 1 kc P_call LOCK 0x5080 0); [done | done | done | lia | vm_compute; reflexivity ..]. Qed.
Lemma mutex_V_2 : moves CRw 1 true kw [(UNLOCK, mutex)] CRv 1 true kv.
Proof. apply (mutex_moves CRw 1 kw V_call UNLOCK 0x5088 (-1)); [done | done | done | lia | vm_compute; reflexivity ..]. Qed.

(** 0 is inside *)
Lemma mutex_entered : sessions kernel0 mutex 1 [0] CRp 1 true kc.
Proof.
  pose proof (sessions_declare kernel0 no_credits 0 true ks mutex 1 kernel0_installed ks_reached eq_refl
    (mutex_user (ints (k_asl ks)) 1 ltac:(vm_compute; reflexivity)) ltac:(vm_compute; reflexivity) ltac:(lia) ltac:(vm_compute; reflexivity)) as S0.
  pose proof (sessions_P kernel0 mutex 1 [] CRs 0 ks [(LOCK, mutex)] CRp 0 true kp 0 ENULL kernel0_installed
    S0 eq_refl mutex_P_0 eq_refl eq_refl
    ltac:(vm_compute; reflexivity) ltac:(vm_compute; reflexivity) (or_introl eq_refl)) as S1.
  exact (sessions_idle kernel0 mutex 1 [0] CRp 0 true kp CRp 1 true kc kernel0_installed S1 eq_refl quantum_ends eq_refl).
Qed.
Lemma mutex_sessions : sessions kernel0 mutex 1 [0] CRw 1 true kw.
Proof.
  exact (sessions_P kernel0 mutex 1 [0] CRp 1 kc [(LOCK, mutex)] CRw 1 true kw 1 1 kernel0_installed mutex_entered
    eq_refl mutex_P_1 eq_refl eq_refl ltac:(vm_compute; reflexivity) ltac:(vm_compute; reflexivity) (or_intror eq_refl)).
Qed.


