(* ===== verification/TestMachine.v ===== *)
(** * A machine for the test programs

    An instance of what the linker and the hardware supply with a clock that advances
    by a fixed amount at each reading, the memory of the test programs, and the
    devices they use: the printer and the interval timer. *)

From S2P Require Export Example Run.
Local Open Scope kernel_scope.

(** the [n]-th reading of the clock is [n * d]; the machine starts in supervisor mode
    with the interrupt mask [mask] *)
Definition clocked (d mask : Z) : Machine := {|
  sym := code_of; addr_dev_sem := 0x2000; addr_clock_lock := 0x2100; addr_message := 0x2200;
  clk := fun n => d * Z.of_nat n;
  stst := fun n => set_sp 0x40000 (set_sr (set_ps_int mask (set_ps_s 1 sr0)) state0);
  prn_stat := fun n => if (n <? 3)%nat then 15 else NORMAL;
  poll_fuel := 10 |}.

(** low memory, the semaphores of the nucleus, 128 words of globals at 0x5000 and 20
    states at 0x6000; [init] are the cells with an initial value *)
Definition test_ints : gmap Z Z :=
  list_to_map (cells 0 88 ++ cells 0x2000 15 ++ cells 0x2100 1 ++ cells 0x5000 128).
Definition test_states : gmap Z state_t :=
  list_to_map (((fun i => (0x800 + STATE_SIZE * i, state0)) <$> seqZ 0 16) ++
               ((fun i => (0x6000 + STATE_SIZE * i, state0)) <$> seqZ 0 20)).
Definition test_kernel (init : list (Z * Z)) (texts : gmap Z string) : kernel :=
  mk_kernel (asl0 (list_to_map init ∪ test_ints)) (mk_link 0 0) state0 0 0 0 0 0 0 0 0
    (mk_array 15 0) (mk_array 15 (mk_saved 0 0)) 0 test_states devregs0 texts 0 0 0.

(** the interval timer alone: it interrupts when the nucleus waits, and after every
    [period] steps when [period] is not 0 *)
Definition timer_env {G} `{Machine} entry (period : Z) (n : Z) (m : machine G) : machine G :=
  match m_status m with
  | Running _ =>
      if (0 <? period) && (n mod period =? 0) then interrupted entry Clock m else m
  | _ => interrupted entry Clock m
  end.

(** the printer is printing *)
Definition printing (k : kernel) : bool :=
  match devregs k !! 0x1450 with Some d => d_op d =? IOWRITE | None => false end.
(** it completes: the text is on the paper, the status is [NORMAL] *)
Definition printed (u : user (list string)) : user (list string) :=
  match devregs (u_k u) !! 0x1450 with
  | Some d =>
      let text := default EmptyString (chars (u_k u) !! d_badd d) in
      let k := set_devregs (<[0x1450 := mk_devreg (-1) (d_dadd d) (d_badd d) NORMAL]> (devregs (u_k u))) (u_k u) in
      mk_user k (u_cpu u) (u_g u ++ [String.substring 0 (Z.to_nat (d_dadd d)) text])
  | None => u
  end.
Definition open_to_interrupts {G} (m : machine G) : bool :=
  match m_status m with
  | Running _ => ps_int (s_sr (u_cpu (m_user m))) =? 0
  | _ => true
  end.

(** the printer completes at every [latency]-th step or when the nucleus waits; else
    the timer acts *)
Definition printer_env `{Machine} entry (latency period : Z) (n : Z) (m : machine (list string)) : machine (list string) :=
  let waits := match m_status m with Idle => true | _ => false end in
  if printing (u_k (m_user m)) && open_to_interrupts m && (waits || (n mod latency =? 0))
  then interrupted entry (Printer 0) (mk_machine (printed (m_user m)) (m_status m) (m_code m) (m_next m))
  else timer_env entry period n m.

(** how a run ended, with the last message of the nucleus *)
Inductive ending : Type := Unfinished | Error (e : exn) | Halt_ (message : string).
Definition ended {G} (m : machine G) : ending :=
  match m_status m with
  | Halted => Halt_ (default EmptyString (chars (u_k (m_user m)) !! 0x2200))
  | Failed e => Error e
  | _ => Unfinished
  end.

(** ** What a test has printed *)

(** the messages between the dashes of [okbuf] *)
Fixpoint messages_from (word : string) (buf : string) : list string :=
  match buf with
  | EmptyString => []
  | String c buf' =>
      if Ascii.N_of_ascii c =? 45 then word :: messages_from EmptyString buf'
      else messages_from (word ++ String c EmptyString) buf'
  end%N.
Definition messages : string -> list string := messages_from EmptyString.

(** a test for permutations that evaluates fast *)
Fixpoint take_out (x : string) (l : list string) : option (list string) :=
  match l with
  | [] => None
  | y :: l' => if String.eqb x y then Some l' else cons y <$> take_out x l'
  end.
Fixpoint permuted (l l' : list string) : bool :=
  match l with
  | [] => match l' with [] => true | _ => false end
  | x :: l => match take_out x l' with Some l'' => permuted l l'' | None => false end
  end.

Lemma take_out_perm x l l' : take_out x l = Some l' -> l ≡ₚ x :: l'.
Proof.
  revert l'. induction l as [| y l IH]; intros l' E; simpl in E; [done |].
  destruct (String.eqb_spec x y) as [<- |]; [by simplify_eq |].
  destruct (take_out x l) as [l1 |] eqn:E1; simplify_eq/=.
  rewrite (IH l1 eq_refl). apply Permutation_swap.
Qed.
Lemma permuted_sound l l' : permuted l l' = true -> l ≡ₚ l'.
Proof.
  revert l'. induction l as [| x l IH]; intros l' E; simpl in E; [by destruct l' |].
  destruct (take_out x l') as [l1 |] eqn:E1; [| done].
  rewrite (take_out_perm _ _ _ E1). by f_equiv; apply IH.
Qed.

(** a run passes when it ends normally with the messages [expected], in any order *)
Definition passes {G} (m : machine G) (said expected : list string) : Prop :=
  ended m = Halt_ "nucleus: normal termination" /\ said ≡ₚ expected.
Definition passes_b {G} (m : machine G) (said expected : list string) : bool :=
  match ended m with Halt_ msg => String.eqb msg "nucleus: normal termination" | _ => false end
  && permuted said expected.
Lemma passes_b_sound {G} (m : machine G) said expected :
  passes_b m said expected = true -> passes m said expected.
Proof.
  unfold passes_b, passes. intros [E P]%andb_true_iff. split; [| by apply permuted_sound].
  destruct (ended m) as [| | msg]; [done | done |]. f_equal. by apply String.eqb_eq.
Qed.

(** a family of runs, evaluated one by one *)
Lemma Forall_evaluated {A} (P : A -> Prop) (f : A -> bool) l :
  (forall x, f x = true -> P x) -> forallb f l = true -> Forall P l.
Proof. intros HP Hl. apply List.Forall_forall. intros x Hx. apply HP. by apply (proj1 (List.forallb_forall f l) Hl). Qed.
