(* ===== verification/RunReach.v ===== *)
(** * Properties: the machine and the reachable states

    The machine of [Run.v], which executes programs on the nucleus, goes through the
    states of [Reach.v] only, as long as the program that runs keeps the rules. *)

From S2P Require Export ReachProps TestMachine.
Local Open Scope kernel_scope.

Section machine.
Context `{MachineOk} `{!Linked} {G : Type} (entry : Z -> option (prog G unit)).

Definition kernel_of (m : machine G) : kernel := u_k (m_user m).

(** a program runs, or the nucleus waits *)
Definition stands (m : machine G) (b : bool) : Prop :=
  match m_status m with Running _ => b = true | Idle => b = false | _ => False end.

(** the next step of the program is an access it may make, a load of a state, a halt or
    a trap that the nucleus handles *)
Definition obeys (CR : Credits) (m : machine G) : Prop :=
  match m_status m with
  | Running p =>
      match ITreeDefinition.observe p with
      | ITreeDefinition.RetF _ => False
      | ITreeDefinition.TauF _ => True
      | ITreeDefinition.VisF e _ =>
          match e with
          | Atom a =>
              match a (m_user m) with
              | Ret _ u | Exn (Leave (LDST _)) u => accesses (kernel_of m) (u_k u)
              | Exn (Leave HALT) _ => True
              | Exn _ _ => False
              end
          | Trap t => known_trap t /\ proper_trap t (set_pc (m_next m) (u_cpu (m_user m))) (kernel_of m)
          end
      end
  | _ => True
  end.

(** [m] is as reachable states are: it stands at one, it has halted, or a state was
    loaded whose program counter is not the address of a program *)
Inductive follows (k0 : kernel) (n : Z) (m : machine G) : Prop :=
  | fo_goes CR b : stands m b -> reach k0 CR n b (kernel_of m) -> follows k0 n m
  | fo_halted : m_status m = Halted -> follows k0 n m
  | fo_wild CR : m_status m = Failed Fault -> reach k0 CR n true (kernel_of m) ->
      m_code m !! s_pc (u_cpu (m_user m)) = None -> entry (s_pc (u_cpu (m_user m))) = None -> follows k0 n m.

Lemma resume_follows k0 CR n st (m : machine G) : reach k0 CR n true (kernel_of m) -> follows k0 n (resume_at entry st m).
Proof.
  intros R. unfold resume_at. destruct ((ps_m (s_sr st) =? 1) && (s_crp st =? 0)).
  - by apply (fo_goes _ _ _ CR true).
  - destruct (m_code m !! s_pc st) eqn:E1; [by apply (fo_goes _ _ _ CR true) |].
    destruct (entry (s_pc st)) eqn:E2; [by apply (fo_goes _ _ _ CR true) | by apply (fo_wild _ _ _ CR)].
Qed.

(** the way a handler ends *)
Lemma leave_follows k0 n (r : result exn kernel unit) (m : machine G) x k :
  r = Exn (Leave x) k -> (forall b, goes_on (Leave x) = Some b -> exists CR, reach k0 CR n b k) -> follows k0 n (leave entry r m).
Proof.
  intros -> HR. destruct x as [st | |]; cbn [leave].
  - destruct (HR true eq_refl) as [CR R]. by eapply resume_follows.
  - by apply fo_halted.
  - destruct (HR false eq_refl) as [CR R]. by apply (fo_goes _ _ _ CR false).
Qed.

Lemma suspend_follows k0 n' p v w (m : machine G) :
  (forall cpu, cpu = set_pc (m_next m) (u_cpu (m_user m)) -> exists x k', Run.take v w cpu (kernel_of m) = Exn (Leave x) k' /\
     forall b', goes_on (Leave x) = Some b' -> exists CR, reach k0 CR n' b' k') ->
  follows k0 n' (suspend_ entry p v w m).
Proof. intros HT. destruct (HT _ eq_refl) as (x & k' & E & HR). by eapply leave_follows. Qed.

Section step.
Context (k0 : kernel) (CR : Credits) (n : Z) (b : bool) (m : machine G).
Hypotheses (HI : installed k0) (R : reach k0 CR n b (kernel_of m)) (HS : stands m b) (Hn : n + 1 < 2 ^ 31 - 1).

Lemma trap_follows p t : b = true -> known_trap t -> proper_trap t (set_pc (m_next m) (u_cpu (m_user m))) (kernel_of m) ->
  follows k0 n (suspend_ entry p (trap_vector t) (trap_word t) m).
Proof.
  intros Hb Ht Hok. eapply suspend_follows. intros cpu ->. destruct (asks_something _ _ _ Hok) as [ops Hops].
  pose proof (trap_ends n t _ _ ops (reach_sound k0 CR n true _ HI ltac:(by rewrite <- Hb) ltac:(lia)) ltac:(lia) Ht Hok Hops) as HE.
  unfold wp in HE. destruct (Run.take _ _ _ _) as [|[| | | x] k'] eqn:E; cbn in HE; try done.
  exists x, k'. split; [done |]. intros b' Hb'. rewrite Hb in R. exists (spend CR (ints (k_asl (kernel_of m))) ops). by eapply reach_trap.
Qed.

Lemma interrupt_take i cpu : known_interrupt i -> exists x k',
  Run.take (interrupt_vector i) 0 cpu (kernel_of m) = Exn (Leave x) k' /\
  forall b', goes_on (Leave x) = Some b' -> exists CR, reach k0 CR (n + 1) b' k'.
Proof.
  intros Hi. pose proof (interrupt_ends n b i cpu _ (reach_sound k0 CR n b _ HI R ltac:(lia)) Hn Hi) as HE.
  unfold wp in HE. destruct (Run.take _ _ _ _) as [|[| | | x] k'] eqn:E; cbn in HE; try done.
  exists x, k'. split; [done |]. intros b' Hb'. exists CR. by eapply reach_interrupt.
Qed.

Lemma step_follows : obeys CR m -> follows k0 n (step entry m).
Proof.
  unfold obeys, step. pose proof HS as HS'. unfold stands in HS'.
  destruct (m_status m) as [p | | |] eqn:Hm; [| intros _; by apply (fo_goes _ _ _ CR b) | done | done].
  pose proof R as R'. rewrite HS' in R'.
  destruct (ITreeDefinition.observe p) as [x | p' | A e k]; [done | intros _; by apply (fo_goes _ _ _ CR true) |].
  destruct e as [A a | t].
  - destruct (a (m_user m)) as [x u | [| | | [st | |]] u] eqn:E; try done; cbn.
    + intros HA. apply (fo_goes _ _ _ CR true); [done |]. by eapply reach_accesses.
    + intros HA. eapply (resume_follows _ CR). by eapply reach_accesses.
    + intros _. by apply fo_halted.
  - intros [Ht Hok]. by apply trap_follows.
Qed.

Lemma interrupted_follows i : known_interrupt i ->
  follows k0 n (interrupted entry i m) \/ follows k0 (n + 1) (interrupted entry i m).
Proof.
  intros Hi. unfold interrupted. pose proof HS as HS'. unfold stands in HS'.
  destruct (m_status m) as [p | | |] eqn:Hm; [| | done | done].
  - destruct (ps_int _ =? 0); [right | left; by apply (fo_goes _ _ _ CR b)].
    eapply suspend_follows. intros cpu _. by apply interrupt_take.
  - right. destruct (interrupt_take i (u_cpu (m_user m)) Hi) as (x & k' & E & HR). by eapply leave_follows.
Qed.
End step.

End machine.

(** ** The property at a concrete machine *)

(** the first process is about to call SYS6 *)
Definition calling : machine unit :=
  mk_machine (mk_user k1 supervisor tt) (Running (SYS 6)) ∅ 0x1000000.

