(* ===== verification/TrapsP1.v ===== *)
(** * The test program of phase 2: the code

    [src/nucleus/traps/p1.c], a tree of processes that exercises SYS1 to SYS6, the
    traps and the termination of families.  The globals of the program lie at fixed
    addresses; [okbuf] with the pointer [mp] into it is the string written so far. *)

From S2P Require Export Run.
Local Open Scope kernel_scope.
Local Open Scope user_scope.

Definition CREATENOGOOD : Z := -1.
Definition NOLEAVES : Z := 4.
Definition ZERODIVIDE : Z := 5.

(** ** Globals *)

Definition s (i : Z) : Z := 0x5000 + 4 * i.
Definition testsem : Z := 0x5100.
Definition startp2 : Z := 0x5104.
Definition endp2 : Z := 0x5108.
Definition blkp4 : Z := 0x510c.
Definition synp4 : Z := 0x5110.
Definition endp4 : Z := 0x5114.
Definition endp5 : Z := 0x5118.
Definition endp8 : Z := 0x511c.
Definition endcreate : Z := 0x5120.
Definition blkp8 : Z := 0x5124.
Definition p1p2synch : Z := 0x5128.
Definition p8inc : Z := 0x512c.
Definition p4inc : Z := 0x5130.
Definition p1semops : Z := 0x5134.

Definition area (i : Z) : Z := 0x6000 + STATE_SIZE * i.
Definition p2state : Z := area 0.
Definition p4state : Z := area 1.
Definition p5state : Z := area 2.
Definition p6state : Z := area 3.
Definition p7state : Z := area 4.
Definition p8rootstate : Z := area 5.
Definition child1state : Z := area 6.
Definition child2state : Z := area 7.
Definition gchild1state : Z := area 8.
Definition gchild2state : Z := area 9.
Definition gchild3state : Z := area 10.
Definition gchild4state : Z := area 11.
Definition pstat_n : Z := area 12.
Definition mstat_n : Z := area 13.
Definition sstat_n : Z := area 14.
Definition pstat_o : Z := area 15.
Definition mstat_o : Z := area 16.
Definition sstat_o : Z := area 17.
(** the local [tstate] of [p5] *)
Definition tstate : Z := area 18.

(** the functions whose addresses the program stores in a state *)
Inductive func : Type :=
  | p2_ | p4_ | p5_ | p5a_ | p5prog_ | p5mm_ | p5sys_ | p6_ | p7_
  | p8root_ | child1_ | child2_ | p8leaf_.
#[export] Instance func_eq : EqDecision func.
Proof. solve_decision. Defined.

Definition all_funcs : list func :=
  [p2_; p4_; p5_; p5a_; p5prog_; p5mm_; p5sys_; p6_; p7_; p8root_; child1_; child2_; p8leaf_].
Definition fn (f : func) : Z :=
  match f with
  | p2_ => 0x20000 | p4_ => 0x20100 | p5_ => 0x20200 | p5a_ => 0x20300 | p5prog_ => 0x20400
  | p5mm_ => 0x20500 | p5sys_ => 0x20600 | p6_ => 0x20700 | p7_ => 0x20800
  | p8root_ => 0x20900 | child1_ => 0x20a00 | child2_ => 0x20b00 | p8leaf_ => 0x20c00
  end.

(** ** The messages *)

Definition MAXOKBUF : Z := 1000.
Definition okbufov : string := "okbufoverflow".

(** the text is copied to [mp]; its terminator becomes a dash *)
Definition print (msg : string) : prog string unit :=
  atom (bind (gets u_g) (fun okbuf =>
    let msg := if MAXOKBUF - 1 <? Z.of_nat (String.length okbuf) + 10 then okbufov else msg in
    if MAXOKBUF <? Z.of_nat (String.length okbuf + String.length msg) + 1 then raise Fault
    else modify (set_u_g (okbuf ++ msg ++ "-")%string))).

Section p1.
Context `{Machine}.
Implicit Types (a : Z).

(** [STST(&st); st.s_sp = from.s_sp - off; st.s_pc = f] *)
Definition new_state (st from off : Z) (f : func) : prog string unit :=
  STST_ st ;;
  let! b := get_state from in
  edit_state st (set_sp (s_sp b - off)) ;;
  edit_state st (set_pc (fn f)).

(** [r4 = st; SYS1()] *)
Definition create (st : Z) : prog string unit := set_r4 st ;; SYS 1.
(** [r4 = sem; passeren(r4)] and [r4 = sem; verhogen(r4)] *)
Definition P_ (sem : Z) : prog string unit := set_r4 sem ;; passeren sem.
Definition V_ (sem : Z) : prog string unit := set_r4 sem ;; verhogen sem.

(** ** [p1] *)

Definition p1_states : prog string unit :=
  new_state p2state p2state (PAGESIZE * 2) p2_ ;;
  new_state p4state p2state (PAGESIZE / 2) p4_ ;;
  new_state p5state p4state (PAGESIZE / 2 + PAGESIZE / 2) p5_ ;;
  new_state p6state p5state PAGESIZE p6_ ;;
  new_state p7state p6state (PAGESIZE / 2) p7_ ;;
  new_state p8rootstate p7state (PAGESIZE / 2) p8root_ ;;
  new_state child1state p8rootstate (PAGESIZE / 2) child1_ ;;
  new_state child2state child1state (PAGESIZE / 2) child2_ ;;
  new_state gchild1state child2state (PAGESIZE / 2) p8leaf_ ;;
  new_state gchild2state gchild1state (PAGESIZE / 2) p8leaf_ ;;
  new_state gchild3state gchild2state (PAGESIZE / 2) p8leaf_ ;;
  new_state gchild4state gchild3state (PAGESIZE / 2) p8leaf_.

Definition p1_start : prog string unit :=
  create p2state ;;
  print "p2 was started" ;;
  put_vpop p1semops 0 UNLOCK startp2 ;;
  put_vpop p1semops 1 LOCK endp2 ;;
  set_r3 2 ;;
  set_r4 p1semops ;;
  SYS 3 ;;
  let! synch := get_int p1p2synch in
  (if synch =? 0 then print "p1/p2 synchronization bad" else pret tt) ;;
  create p4state ;;
  create p5state ;;
  create p6state ;;
  create p7state ;;
  P_ endp5 ;;
  print "p1 knows p5 ended" ;;
  P_ blkp4.

Definition p1_families : prog string unit :=
  put_int p8inc 0 ;;
  pwhile (let! i := get_int p8inc in pret (i <? 4))
    (create p8rootstate ;;
     let! r := r2 in
     (if r =? CREATENOGOOD then print "error in process termination" ;; HALT_now else pret tt) ;;
     P_ endp8 ;;
     let! i := get_int p8inc in put_int p8inc (i + 1)).

Definition p1 : prog string unit :=
  verhogen testsem ;;
  print "p1 v(testsem)" ;;
  p1_states ;;
  p1_start ;;
  p1_families ;;
  print "p1 finishes OK" ;;
  set_r3 0 ;;
  divu 3%fin 4%fin ;;
  print "p1 still alive after progtrap & no trap vector" ;;
  HALT_now.

(** ** [p2]: semaphores and the CPU time *)

Definition p2_sems : prog string unit :=
  pfor 0 (MAXPROC + 1) (fun i => put_int (s i) 0) ;;
  pfor 0 (MAXPROC + 1) (fun i =>
    V_ (s i) ;;
    P_ (s i) ;;
    let! v := get_int (s i) in
    if negb (v =? 0) then print "p2 bad v/p pairs" else pret tt).

Definition p2_time : prog string unit :=
  let! now1 := STCK_ in
  SYS 6 ;;
  let! cpu_t1 := r2 in
  spin 1500 ;;
  SYS 6 ;;
  let! cpu_t2 := r2 in
  let! now2 := STCK_ in
  if (u32 (cpu_t2 - cpu_t1) <=? u32 (now2 - now1)) && (5000 <=? u32 (cpu_t2 - cpu_t1))
  then print "p2 is OK"
  else
    (if u32 (now2 - now1) <? u32 (cpu_t2 - cpu_t1) then print "more cpu time than real time" else pret tt) ;;
    (if u32 (cpu_t2 - cpu_t1) <? 5000 then print "not enough cpu time went by" else pret tt) ;;
    print "p2 blew it!".

Definition p2 : prog string unit :=
  P_ startp2 ;;
  print "p2 starts" ;;
  p2_sems ;;
  print "p2 v's successfully" ;;
  p2_time ;;
  put_int p1p2synch 1 ;;
  V_ endp2 ;;
  SYS 2 ;;
  print "p2 didn't terminate" ;;
  HALT_now.

(** ** [p4]: termination *)

Definition p4 : prog string unit :=
  let! n := get_int p4inc in
  (if n =? 1 then print "first incarnation of p4 starts" ;;
                  let! n := get_int p4inc in put_int p4inc (n + 1)
   else if n =? 2 then print "second incarnation of p4 starts"
   else pret tt) ;;
  V_ synp4 ;;
  P_ blkp4 ;;
  P_ synp4 ;;
  edit_state p4state (fun st => set_sp (s_sp st - PAGESIZE / 2) st) ;;
  create p4state ;;
  P_ synp4 ;;
  print "p4 is OK" ;;
  V_ endp4 ;;
  SYS 2 ;;
  print "p4 didn't terminate" ;;
  HALT_now.

(** ** [p5]: trap vectors *)

(** [STST(&st); st.s_pc = f; st.s_sp -= off] *)
Definition trap_area (st off : Z) (f : func) : prog string unit :=
  STST_ st ;;
  edit_state st (set_pc (fn f)) ;;
  edit_state st (fun x => set_sp (s_sp x - off) x).
(** [r2 = type; r3 = old; r4 = new; SYS5()] *)
Definition specify (type old new : Z) : prog string unit :=
  set_r2 type ;; set_r3 old ;; set_r4 new ;; SYS 5.

Definition p5 : prog string unit :=
  print "p5 starts" ;;
  trap_area pstat_n 60 p5prog_ ;;
  trap_area mstat_n 120 p5mm_ ;;
  trap_area sstat_n 180 p5sys_ ;;
  specify PROGTRAP pstat_o pstat_n ;;
  specify MMTRAP mstat_o mstat_n ;;
  specify SYSTRAP sstat_o sstat_n ;;
  set_r2 1 ;;
  set_r3 0 ;;
  divu 3%fin 2%fin ;;
  STST_ tstate ;;
  edit_state tstate (fun st => mk_state (s_r st) (s_sr st) (s_tmp st) 0) ;;
  edit_state tstate (fun st => set_sr (set_ps_m TRUE (s_sr st)) st) ;;
  LDST_at tstate.

Definition p5a : prog string unit :=
  SYS 9 ;;
  P_ endp4 ;;
  V_ blkp4 ;;
  V_ endp5 ;;
  print "p5 about to terminate" ;;
  specify PROGTRAP pstat_o pstat_n ;;
  print "p5 didn't terminate" ;;
  HALT_now.

Definition p5prog : prog string unit :=
  let! st := get_state pstat_o in
  (if pr_typ (s_tmp st) =? ZERODIVIDE then
     print "divide by zero" ;;
     edit_state pstat_o (set_reg 3%fin 1)
   else if pr_typ (s_tmp st) =? PRIVILEGE then
     print "privileged instruction" ;;
     edit_state pstat_o (fun st => set_sr (set_ps_s 1 (s_sr st)) st) ;;
     edit_state pstat_o (set_pc (fn p5a_))
   else print "other program trap") ;;
  LDST_at pstat_o.

Definition p5mm : prog string unit :=
  print "memory management trap" ;;
  edit_state mstat_o (fun st => set_sr (set_ps_m 0 (s_sr st)) st) ;;
  edit_state mstat_o (fun st => set_sr (set_ps_s 0 (s_sr st)) st) ;;
  edit_state mstat_o (set_pc (fn p5a_)) ;;
  LDST_at mstat_o.

Definition p5sys : prog string unit :=
  let! st := get_state sstat_o in
  (if ps_s (s_sr st) =? 0 then print "high level SYS call from user mode process"
   else if ps_s (s_sr st) =? 1 then print "high level SYS call from kernel mode process"
   else pret tt) ;;
  LDST_at sstat_o.

(** ** [p6] and [p7]: traps without a vector *)

Definition p6 : prog string unit :=
  print "p6 starts" ;;
  SYS 9 ;;
  print "p6 still alive after SYS9() without specifying trap vector" ;;
  HALT_now.

(** [x] is in d7 and [y] in d6, as the comment on the instruction says: x = x/0 *)
Definition p7 : prog string unit :=
  print "p7 starts" ;;
  put_reg 7%fin 1 ;;
  put_reg 6%fin 0 ;;
  divu 6%fin 7%fin ;;
  print "p7 still alive after program trap with no trap vector" ;;
  HALT_now.

(** ** [p8root] and its descendants: termination of a family *)

Definition p8root : prog string unit :=
  print "p8root starts" ;;
  create child1state ;;
  create child2state ;;
  pfor 0 NOLEAVES (fun _ => P_ endcreate) ;;
  V_ endp8 ;;
  SYS 2.

Definition child1 : prog string unit :=
  print "child1 starts" ;;
  create gchild1state ;;
  create gchild2state ;;
  P_ blkp8.

Definition child2 : prog string unit :=
  print "child2 starts" ;;
  create gchild3state ;;
  create gchild4state ;;
  P_ blkp8.

Definition p8leaf : prog string unit :=
  print "leaf process starts" ;;
  V_ endcreate ;;
  P_ blkp8.

Definition body (f : func) : prog string unit :=
  match f with
  | p2_ => p2 | p4_ => p4 | p5_ => p5 | p5a_ => p5a | p5prog_ => p5prog | p5mm_ => p5mm
  | p5sys_ => p5sys | p6_ => p6 | p7_ => p7 | p8root_ => p8root | child1_ => child1
  | child2_ => child2 | p8leaf_ => p8leaf
  end.

Definition entry (a : Z) : option (prog string unit) :=
  if a =? sym sym_p1 then Some p1
  else body <$> head (filter (fun f => fn f = a) all_funcs).
End p1.
