(* ===== verification/TrapsP12.v ===== *)
(** * The second test program of phase 2: the code

    [src/nucleus/traps/p1.2.c]: four times a family of seven processes whose root
    waits for its four leaves with one vector of four P operations, and then
    terminates. *)

From S2P Require Export Run.
Local Open Scope kernel_scope.
Local Open Scope user_scope.

Definition CREATENOGOOD : Z := -1.

(** ** Globals *)

Definition testsem : Z := 0x5100.
Definition endp8 : Z := 0x511c.
Definition blkp8 : Z := 0x5124.
Definition gchild1sem : Z := 0x5130.
Definition gchild2sem : Z := 0x5134.
Definition gchild3sem : Z := 0x5138.
Definition gchild4sem : Z := 0x513c.
Definition p8inc : Z := 0x5140.
Definition p8semops : Z := 0x5144.

Definition area (i : Z) : Z := 0x6000 + STATE_SIZE * i.
Definition p8rootstate : Z := area 5.
Definition child1state : Z := area 6.
Definition child2state : Z := area 7.
Definition gchild1state : Z := area 8.
Definition gchild2state : Z := area 9.
Definition gchild3state : Z := area 10.
Definition gchild4state : Z := area 11.

Inductive func : Type :=
  | p8root_ | child1_ | child2_ | gchild1_ | gchild2_ | gchild3_ | gchild4_.

Definition all_funcs : list func :=
  [p8root_; child1_; child2_; gchild1_; gchild2_; gchild3_; gchild4_].
Definition fn (f : func) : Z :=
  match f with
  | p8root_ => 0x20900 | child1_ => 0x20a00 | child2_ => 0x20b00
  | gchild1_ => 0x20c00 | gchild2_ => 0x20d00 | gchild3_ => 0x20e00 | gchild4_ => 0x20f00
  end.

Definition MAXOKBUF : Z := 1000.
Definition okbufov : string := "okbufoverflow".

(** the text is copied to [mp]; its terminator becomes a dash *)
Definition print (msg : string) : prog string unit :=
  atom (bind (gets u_g) (fun okbuf =>
    let msg := if MAXOKBUF - 1 <? Z.of_nat (String.length okbuf) + 10 then okbufov else msg in
    if MAXOKBUF <? Z.of_nat (String.length okbuf + String.length msg) + 1 then raise Fault
    else modify (set_u_g (okbuf ++ msg ++ "-")%string))).

Section p1.
Context `{Machine}.

(** [STST(&st); st.s_sp = from.s_sp - off; st.s_pc = f] *)
Definition new_state (st from off : Z) (f : func) : prog string unit :=
  STST_ st ;;
  let! b := get_state from in
  edit_state st (set_sp (s_sp b - off)) ;;
  edit_state st (set_pc (fn f)).

Definition create (st : Z) : prog string unit := set_r4 st ;; SYS 1.
Definition P_ (sem : Z) : prog string unit := set_r4 sem ;; passeren sem.
Definition V_ (sem : Z) : prog string unit := set_r4 sem ;; verhogen sem.

Definition p1_states : prog string unit :=
  new_state p8rootstate p8rootstate (PAGESIZE * 2) p8root_ ;;
  new_state child1state p8rootstate (PAGESIZE / 2) child1_ ;;
  new_state child2state child1state (PAGESIZE / 2) child2_ ;;
  new_state gchild1state child2state (PAGESIZE / 2) gchild1_ ;;
  new_state gchild2state gchild1state (PAGESIZE / 2) gchild2_ ;;
  new_state gchild3state gchild2state (PAGESIZE / 2) gchild3_ ;;
  new_state gchild4state gchild3state (PAGESIZE / 2) gchild4_.

Definition p1_families : prog string unit :=
  put_int p8inc 0 ;;
  pwhile (let! i := get_int p8inc in pret (i <? 4))
    (create p8rootstate ;;
     let! r := r2 in
     (if r =? CREATENOGOOD then print "error in process termination" ;; HALT_now else pret tt) ;;
     P_ endp8 ;;
     let! i := get_int p8inc in put_int p8inc (i + 1)).

Definition p1 : prog string unit :=
  verhogen testsem ;;
  print "p1 v(testsem)" ;;
  p1_states ;;
  p1_families ;;
  print "p1 finishes OK" ;;
  set_r3 0 ;;
  divu 3%fin 4%fin ;;
  print "p1 still alive after progtrap & no trap vector" ;;
  HALT_now.

Definition p8root : prog string unit :=
  print "p8root starts" ;;
  create child1state ;;
  create child2state ;;
  put_vpop p8semops 0 LOCK gchild1sem ;;
  put_vpop p8semops 1 LOCK gchild2sem ;;
  put_vpop p8semops 2 LOCK gchild3sem ;;
  put_vpop p8semops 3 LOCK gchild4sem ;;
  set_r3 4 ;;
  set_r4 p8semops ;;
  SYS 3 ;;
  V_ endp8 ;;
  SYS 2.

Definition child1 : prog string unit :=
  print "child1 starts" ;;
  create gchild1state ;;
  create gchild2state ;;
  P_ blkp8.

Definition child2 : prog string unit :=
  print "child2 starts" ;;
  create gchild3state ;;
  create gchild4state ;;
  P_ blkp8.

Definition gchild1 : prog string unit :=
  print "gchild1 starts" ;;
  V_ gchild1sem ;;
  P_ blkp8.

Definition gchild2 : prog string unit :=
  print "gchild2 starts" ;;
  V_ gchild2sem ;;
  P_ blkp8.

Definition gchild3 : prog string unit :=
  print "gchild3 starts" ;;
  V_ gchild3sem ;;
  P_ blkp8.

Definition gchild4 : prog string unit :=
  print "gchild4 starts" ;;
  V_ gchild4sem ;;
  P_ blkp8.

Definition body (f : func) : prog string unit :=
  match f with
  | p8root_ => p8root | child1_ => child1 | child2_ => child2 | gchild1_ => gchild1
  | gchild2_ => gchild2 | gchild3_ => gchild3 | gchild4_ => gchild4
  end.

Definition entry (a : Z) : option (prog string unit) :=
  if a =? sym sym_p1 then Some p1
  else body <$> head (filter (fun f => fn f = a) all_funcs).
End p1.
