(* ===== verification/IntP1.v ===== *)
(** * The test program of phase 3: the code

    [src/nucleus/interrupts/intp1.c]: the tests of phase 2 with the messages on the
    printer, through SYS8, and the pseudo clock, through SYS7. *)

From S2P Require Export Run.
Local Open Scope kernel_scope.
Local Open Scope user_scope.

Definition CREATENOGOOD : Z := -1.
Definition CLOCKINTERVAL : Z := 100000.
Definition PRINT0ADDR : Z := 0x1450.
Definition PRINT0 : Z := 5.
Definition HARDFAILURE : Z := 1.
Definition ZERODIVIDE : Z := 5.

(** ** Globals *)

Definition s (i : Z) : Z := 0x5000 + 4 * i.
Definition testsem : Z := 0x5100.
Definition startp2 : Z := 0x5104.
Definition endp2 : Z := 0x5108.
Definition blkp4 : Z := 0x510c.
Definition synp4 : Z := 0x5110.
Definition endp4 : Z := 0x5114.
Definition endp5 : Z := 0x5118.
Definition endp8 : Z := 0x511c.
Definition blkp8 : Z := 0x5124.
Definition p1p2synch : Z := 0x5128.
Definition p8inc : Z := 0x512c.
Definition p4inc : Z := 0x5130.
Definition pr_mut : Z := 0x5134.
Definition endp3 : Z := 0x5138.
Definition endp6 : Z := 0x513c.
Definition p7v : Z := 0x5140.
Definition gchild1sem : Z := 0x5144.
Definition gchild2sem : Z := 0x5148.
Definition gchild3sem : Z := 0x514c.
Definition gchild4sem : Z := 0x5150.
Definition p8semops : Z := 0x5154.

Definition area (i : Z) : Z := 0x6000 + STATE_SIZE * i.
Definition p2state : Z := area 0.
Definition p3state : Z := area 19.
Definition p4state : Z := area 1.
Definition p5state : Z := area 2.
Definition p6state : Z := area 3.
Definition p7state : Z := area 4.
Definition p8rootstate : Z := area 5.
Definition child1state : Z := area 6.
Definition child2state : Z := area 7.
Definition gchild1state : Z := area 8.
Definition gchild2state : Z := area 9.
Definition gchild3state : Z := area 10.
Definition gchild4state : Z := area 11.
Definition pstat_n : Z := area 12.
Definition mstat_n : Z := area 13.
Definition sstat_n : Z := area 14.
Definition pstat_o : Z := area 15.
Definition mstat_o : Z := area 16.
Definition sstat_o : Z := area 17.
(** the local [tstate] of [p5] *)
Definition tstate : Z := area 18.

Inductive func : Type :=
  | p1a_ | p2_ | p3_ | p4_ | p5_ | p5a_ | p5prog_ | p5mm_ | p5sys_ | p6_ | p7_
  | p8root_ | child1_ | child2_ | gchild1_ | gchild2_ | gchild3_ | gchild4_.

Definition all_funcs : list func :=
  [p1a_; p2_; p3_; p4_; p5_; p5a_; p5prog_; p5mm_; p5sys_; p6_; p7_; p8root_; child1_; child2_;
   gchild1_; gchild2_; gchild3_; gchild4_].
Definition fn (f : func) : Z :=
  match f with
  | p1a_ => 0x1ff00 | p3_ => 0x1fe00
  | p2_ => 0x20000 | p4_ => 0x20100 | p5_ => 0x20200 | p5a_ => 0x20300 | p5prog_ => 0x20400
  | p5mm_ => 0x20500 | p5sys_ => 0x20600 | p6_ => 0x20700 | p7_ => 0x20800
  | p8root_ => 0x20900 | child1_ => 0x20a00 | child2_ => 0x20b00
  | gchild1_ => 0x20c00 | gchild2_ => 0x20d00 | gchild3_ => 0x20e00 | gchild4_ => 0x20f00
  end.

(** ** The printer *)

(** the texts of the program, in its constant data and in the arrays [tmp] of [p6]
    and [p7]; a text lies at the address of its number *)
Definition text_addr (n : Z) : Z := 0x30000 + 0x80 * n.
Definition iong : string := "i/o no good".
Definition iong_addr : Z := text_addr 0.

(** [p_devrg->d_op = IOWRITE] with [d_amnt] and [d_badd] set before *)
Definition start_print (badd : Z) (len : Z) : prog (list string) unit :=
  mem (put_devreg PRINT0ADDR (fun r => mk_devreg (d_op r) len (d_badd r) (d_stat r))) ;;
  mem (put_devreg PRINT0ADDR (fun r => mk_devreg (d_op r) (d_dadd r) badd (d_stat r))) ;;
  mem (put_devreg PRINT0ADDR (fun r => mk_devreg IOWRITE (d_dadd r) (d_badd r) (d_stat r))).

(** the argument is the address of a text *)
Definition print_at (msg : Z) : prog (list string) unit :=
  set_r4 pr_mut ;;
  passeren pr_mut ;;
  let! text := mem (gets_opt Fault (fun k => chars k !! msg)) in
  start_print msg (Z.of_nat (String.length text)) ;;
  set_r2 (-1) ;;
  set_r3 HARDFAILURE ;;
  set_r4 PRINT0 ;;
  SYS 8 ;;
  let! stat := r3 in
  let! amnt := r2 in
  (if negb (stat =? NORMAL) || negb (amnt =? Z.of_nat (String.length text)) then
     start_print iong_addr (Z.of_nat (String.length iong)) ;;
     SYS 8
   else pret tt) ;;
  set_r4 pr_mut ;;
  verhogen pr_mut.

(** [sprintf] with [%nd]: a decimal with at least [n] characters *)
Fixpoint digits (fuel : nat) (z : Z) : string :=
  match fuel with
  | O => EmptyString
  | S fuel' =>
      let d := String (Ascii.ascii_of_N (Z.to_N (48 + z mod 10))) EmptyString in
      if z <? 10 then d else (digits fuel' (z / 10) ++ d)%string
  end.
Definition decimal (z : Z) : string :=
  if z <? 0 then ("-" ++ digits 11 (- z))%string else digits 11 z.
Fixpoint spaces (n : nat) : string :=
  match n with O => EmptyString | S n' => String (Ascii.ascii_of_N 32) (spaces n') end.
Definition padded (n : nat) (z : Z) : string :=
  (spaces (n - String.length (decimal z)) ++ decimal z)%string.

(** [sprintf(tmp, ...)] into the array at [a] *)
Definition sprintf_ (a : Z) (text : string) : prog (list string) unit :=
  mem (modify (fun k => set_chars (<[a := text]> (chars k)) k)).

(** the texts in the constant data, in the order of their addresses *)
Definition texts : list string :=
  [ iong; "p1 v(testsem)"; "p2 was started"; "p3 is started"; "error in process termination";
    "p1/p2 synchronization bad"; "p1 knows p5 ended"; "p1 finishes OK";
    "p1 still alive after progtrap & no trap vector"; "p2 starts"; "p2 bad v/p pairs";
    "p2 v's successfully"; "p2 is OK"; "more cpu time than real time";
    "not enough cpu time went by"; "p2 blew it!"; "p2 didn't terminate"; "p3 - WAITCLOCK OK";
    "p3 - CPU time incorrectly maintained"; "p3 - CPU time correctly maintained";
    "p3 didn't terminate"; "first incarnation of p4 starts"; "second incarnation of p4 starts";
    "p4 is OK"; "p4 didn't terminate"; "p5 starts"; "p5 didn't terminate"; "divide by zero";
    "privileged instruction"; "other program trap"; "memory management trap";
    "high level SYS call from user mode process"; "high level SYS call from kernel mode process";
    "p6 starts"; "p6 still alive after SYS9() without specifying trap vector"; "p7 starts";
    "p7 still alive after program trap with no trap vector"; "p8root starts"; "child1 starts";
    "child2 starts"; "gchild1 starts"; "gchild2 starts"; "gchild3 starts"; "gchild4 starts" ]%string.
(** the address of a text *)
Definition lit (text : string) : Z :=
  text_addr (Z.of_nat (default 0%nat (fst <$> list_find (fun t => t = text) texts))).
Definition print (text : string) : prog (list string) unit := print_at (lit text).
(** the arrays [tmp] of [p6] and [p7] *)
Definition p6_tmp : Z := text_addr 64.
Definition p7_tmp : Z := text_addr 65.

Section p1.
Context `{Machine}.

(** [STST(&st); st.s_sp = from.s_sp - off; st.s_pc = f] *)
Definition new_state (st from off : Z) (f : func) : prog (list string) unit :=
  STST_ st ;;
  let! b := get_state from in
  edit_state st (set_sp (s_sp b - off)) ;;
  edit_state st (set_pc (fn f)).

Definition create (st : Z) : prog (list string) unit := set_r4 st ;; SYS 1.
Definition P_ (sem : Z) : prog (list string) unit := set_r4 sem ;; passeren sem.
Definition V_ (sem : Z) : prog (list string) unit := set_r4 sem ;; verhogen sem.

(** ** [p1] *)

Definition p1 : prog (list string) unit :=
  STST_ p2state ;;
  edit_state p2state (fun st => set_sr (set_ps_int 0 (s_sr st)) st) ;;
  edit_state p2state (set_pc (fn p1a_)) ;;
  LDST_at p2state.

Definition p1_states : prog (list string) unit :=
  new_state p2state p2state (PAGESIZE * 2) p2_ ;;
  new_state p3state p2state (PAGESIZE / 2) p3_ ;;
  new_state p4state p3state (PAGESIZE / 2) p4_ ;;
  new_state p5state p4state (PAGESIZE / 2 + PAGESIZE / 2) p5_ ;;
  new_state p6state p5state PAGESIZE p6_ ;;
  new_state p7state p6state (2 * PAGESIZE) p7_ ;;
  new_state p8rootstate p7state (2 * PAGESIZE) p8root_ ;;
  new_state child1state p8rootstate (2 * PAGESIZE) child1_ ;;
  new_state child2state child1state (PAGESIZE / 2) child2_ ;;
  new_state gchild1state child2state (PAGESIZE / 2) gchild1_ ;;
  new_state gchild2state gchild1state (PAGESIZE / 2) gchild2_ ;;
  new_state gchild3state gchild2state (PAGESIZE / 2) gchild3_ ;;
  new_state gchild4state gchild3state (PAGESIZE / 2) gchild4_.

Definition p1_start : prog (list string) unit :=
  create p2state ;;
  print "p2 was started" ;;
  V_ startp2 ;;
  create p3state ;;
  print "p3 is started" ;;
  create p4state ;;
  create p5state ;;
  create p6state ;;
  create p7state.

Definition p1_families : prog (list string) unit :=
  put_int p8inc 0 ;;
  pwhile (let! i := get_int p8inc in pret (i <? 4))
    (let! i := get_int p8inc in
     (if negb (i =? 0) then edit_state p8rootstate (fun st => set_sp (s_sp st - PAGESIZE / 2) st)
      else pret tt) ;;
     create p8rootstate ;;
     let! r := r2 in
     (if r =? CREATENOGOOD then print "error in process termination" ;; HALT_now else pret tt) ;;
     P_ endp8 ;;
     let! i := get_int p8inc in put_int p8inc (i + 1)).

Definition p1_end : prog (list string) unit :=
  P_ endp2 ;;
  let! synch := get_int p1p2synch in
  (if synch =? 0 then print "p1/p2 synchronization bad" else pret tt) ;;
  P_ endp3 ;;
  P_ endp5 ;;
  print "p1 knows p5 ended" ;;
  P_ blkp4 ;;
  P_ endp6 ;;
  print "p1 finishes OK" ;;
  set_r3 0 ;;
  divu 3%fin 4%fin ;;
  print "p1 still alive after progtrap & no trap vector" ;;
  HALT_now.

Definition p1a : prog (list string) unit :=
  V_ testsem ;;
  print "p1 v(testsem)" ;;
  p1_states ;;
  p1_start ;;
  p1_families ;;
  p1_end.

(** ** [p2]: semaphores and the CPU time *)

Definition p2_sems : prog (list string) unit :=
  pfor 0 (MAXPROC + 1) (fun i => put_int (s i) 0) ;;
  pfor 0 (MAXPROC + 1) (fun i =>
    V_ (s i) ;;
    P_ (s i) ;;
    let! v := get_int (s i) in
    if negb (v =? 0) then print "p2 bad v/p pairs" else pret tt).

Definition p2_time : prog (list string) unit :=
  let! now1 := STCK_ in
  SYS 6 ;;
  let! cpu_t1 := r2 in
  spin 1500 ;;
  SYS 6 ;;
  let! cpu_t2 := r2 in
  let! now2 := STCK_ in
  if (u32 (cpu_t2 - cpu_t1) <=? u32 (now2 - now1)) && (5000 <=? u32 (cpu_t2 - cpu_t1))
  then print "p2 is OK"
  else
    (if u32 (now2 - now1) <? u32 (cpu_t2 - cpu_t1) then print "more cpu time than real time" else pret tt) ;;
    (if u32 (cpu_t2 - cpu_t1) <? 5000 then print "not enough cpu time went by" else pret tt) ;;
    print "p2 blew it!".

Definition p2 : prog (list string) unit :=
  P_ startp2 ;;
  print "p2 starts" ;;
  p2_sems ;;
  print "p2 v's successfully" ;;
  p2_time ;;
  put_int p1p2synch 1 ;;
  V_ endp2 ;;
  SYS 2 ;;
  print "p2 didn't terminate" ;;
  HALT_now.

(** ** [p3]: the pseudo clock *)

(** [while (time2 - time1 < (CLOCKINTERVAL >> 1)) { STCK; SYS7; STCK }], entered with
    both times 0 *)
Definition wait_interval : prog (list string) unit :=
  ITreeDefinition.ITree.iter
    (fun '((time1, time2) : Z * Z) =>
       if i32 (time2 - time1) <? Z.shiftr CLOCKINTERVAL 1 then
         let! time1 := STCK_ in
         SYS 7 ;;
         let! time2 := STCK_ in
         pret (inl (time1, time2))
       else pret (inr tt)) (0, 0).

Definition p3 : prog (list string) unit :=
  wait_interval ;;
  print "p3 - WAITCLOCK OK" ;;
  SYS 6 ;;
  let! cpu_t1 := r2 in
  pfor 0 10 (fun _ => SYS 7) ;;
  SYS 6 ;;
  let! cpu_t2 := r2 in
  (if u32 (cpu_t2 - cpu_t1) <? 1000 then print "p3 - CPU time incorrectly maintained"
   else print "p3 - CPU time correctly maintained") ;;
  V_ endp3 ;;
  SYS 2 ;;
  print "p3 didn't terminate" ;;
  HALT_now.

(** ** [p4]: termination *)

Definition p4 : prog (list string) unit :=
  let! n := get_int p4inc in
  (if n =? 1 then print "first incarnation of p4 starts" ;;
                  let! n := get_int p4inc in put_int p4inc (n + 1)
   else if n =? 2 then print "second incarnation of p4 starts"
   else pret tt) ;;
  V_ synp4 ;;
  P_ blkp4 ;;
  P_ synp4 ;;
  edit_state p4state (fun st => set_sp (s_sp st - PAGESIZE / 2) st) ;;
  create p4state ;;
  P_ synp4 ;;
  print "p4 is OK" ;;
  V_ endp4 ;;
  SYS 2 ;;
  print "p4 didn't terminate" ;;
  HALT_now.

(** ** [p5]: trap vectors *)

(** [STST(&st); st.s_pc = f; st.s_sp -= off] *)
Definition trap_area (st off : Z) (f : func) : prog (list string) unit :=
  STST_ st ;;
  edit_state st (set_pc (fn f)) ;;
  edit_state st (fun x => set_sp (s_sp x - off) x).
(** [r2 = type; r3 = old; r4 = new; SYS5()] *)
Definition specify (type old new : Z) : prog (list string) unit :=
  set_r2 type ;; set_r3 old ;; set_r4 new ;; SYS 5.

Definition p5 : prog (list string) unit :=
  print "p5 starts" ;;
  trap_area pstat_n 60 p5prog_ ;;
  trap_area mstat_n 120 p5mm_ ;;
  trap_area sstat_n 180 p5sys_ ;;
  specify PROGTRAP pstat_o pstat_n ;;
  specify MMTRAP mstat_o mstat_n ;;
  specify SYSTRAP sstat_o sstat_n ;;
  set_r2 1 ;;
  set_r3 0 ;;
  divu 3%fin 2%fin ;;
  STST_ tstate ;;
  edit_state tstate (fun st => mk_state (s_r st) (s_sr st) (s_tmp st) 0) ;;
  edit_state tstate (fun st => set_sr (set_ps_m TRUE (s_sr st)) st) ;;
  LDST_at tstate.

Definition p5a : prog (list string) unit :=
  SYS 9 ;;
  P_ endp4 ;;
  wait_interval ;;
  V_ blkp4 ;;
  V_ endp5 ;;
  specify PROGTRAP pstat_o pstat_n ;;
  print "p5 didn't terminate" ;;
  HALT_now.

Definition p5prog : prog (list string) unit :=
  let! st := get_state pstat_o in
  (if pr_typ (s_tmp st) =? ZERODIVIDE then
     print "divide by zero" ;;
     edit_state pstat_o (set_reg 3%fin 1)
   else if pr_typ (s_tmp st) =? PRIVILEGE then
     print "privileged instruction" ;;
     edit_state pstat_o (fun st => set_sr (set_ps_s 1 (s_sr st)) st) ;;
     edit_state pstat_o (set_pc (fn p5a_))
   else print "other program trap") ;;
  LDST_at pstat_o.

Definition p5mm : prog (list string) unit :=
  print "memory management trap" ;;
  edit_state mstat_o (fun st => set_sr (set_ps_m 0 (s_sr st)) st) ;;
  edit_state mstat_o (fun st => set_sr (set_ps_s 0 (s_sr st)) st) ;;
  edit_state mstat_o (set_pc (fn p5a_)) ;;
  LDST_at mstat_o.

Definition p5sys : prog (list string) unit :=
  let! st := get_state sstat_o in
  (if ps_s (s_sr st) =? 0 then print "high level SYS call from user mode process"
   else if ps_s (s_sr st) =? 1 then print "high level SYS call from kernel mode process"
   else pret tt) ;;
  LDST_at sstat_o.

(** ** [p6] and [p7]: traps without a vector *)

Definition p6 : prog (list string) unit :=
  print "p6 starts" ;;
  pfor 0 7 (fun i =>
    SYS 6 ;;
    let! p6cputime := r2 in
    let! p6systemtime := STCK_ in
    sprintf_ p6_tmp ("p6  iteration: " ++ padded 1 i ++ " , system time " ++ padded 7 p6systemtime
                     ++ " , cpu-time " ++ padded 7 p6cputime) ;;
    print_at p6_tmp ;;
    spin (Z.to_nat (Z.land i 1 * 5000))) ;;
  V_ endp6 ;;
  SYS 9 ;;
  print "p6 still alive after SYS9() without specifying trap vector" ;;
  HALT_now.

Definition p7 : prog (list string) unit :=
  print "p7 starts" ;;
  set_r4 p7v ;;
  pwhile (let! v := get_int p7v in pret (v <? 10))
    (let! v := get_int p7v in
     sprintf_ p7_tmp ("p7: " ++ decimal v ++ " ") ;;
     print_at p7_tmp ;;
     V_ p7v) ;;
  set_r4 1 ;;
  set_r3 0 ;;
  divu 3%fin 4%fin ;;
  print "p7 still alive after program trap with no trap vector" ;;
  HALT_now.

(** ** [p8root] and its descendants: termination of a family *)

Definition p8root : prog (list string) unit :=
  print "p8root starts" ;;
  create child1state ;;
  create child2state ;;
  put_vpop p8semops 0 LOCK gchild1sem ;;
  put_vpop p8semops 1 LOCK gchild2sem ;;
  put_vpop p8semops 2 LOCK gchild3sem ;;
  put_vpop p8semops 3 LOCK gchild4sem ;;
  set_r3 4 ;;
  set_r4 p8semops ;;
  SYS 3 ;;
  V_ endp8 ;;
  SYS 2.

Definition child1 : prog (list string) unit :=
  print "child1 starts" ;;
  create gchild1state ;;
  create gchild2state ;;
  P_ blkp8.

Definition child2 : prog (list string) unit :=
  print "child2 starts" ;;
  create gchild3state ;;
  create gchild4state ;;
  P_ blkp8.

Definition gchild1 : prog (list string) unit :=
  print "gchild1 starts" ;;
  V_ gchild1sem ;;
  P_ blkp8.

Definition gchild2 : prog (list string) unit :=
  print "gchild2 starts" ;;
  V_ gchild2sem ;;
  P_ blkp8.

Definition gchild3 : prog (list string) unit :=
  print "gchild3 starts" ;;
  V_ gchild3sem ;;
  P_ blkp8.

Definition gchild4 : prog (list string) unit :=
  print "gchild4 starts" ;;
  V_ gchild4sem ;;
  P_ blkp8.

Definition body (f : func) : prog (list string) unit :=
  match f with
  | p1a_ => p1a | p2_ => p2 | p3_ => p3 | p4_ => p4 | p5_ => p5 | p5a_ => p5a
  | p5prog_ => p5prog | p5mm_ => p5mm | p5sys_ => p5sys | p6_ => p6 | p7_ => p7
  | p8root_ => p8root | child1_ => child1 | child2_ => child2 | gchild1_ => gchild1
  | gchild2_ => gchild2 | gchild3_ => gchild3 | gchild4_ => gchild4
  end.

Definition entry (a : Z) : option (prog (list string) unit) :=
  if a =? sym sym_p1 then Some p1
  else body <$> head (filter (fun f => fn f = a) all_funcs).
End p1.
