(* ===== verification/RunP1.v ===== *)
(** * Properties: the first test program of phase 2 runs to its end on the nucleus *)

From S2P Require Import TestMachine TrapsP1.
Local Open Scope kernel_scope.

Definition p8_messages : list string :=
  [ "p8root starts"; "child1 starts"; "child2 starts"; "leaf process starts"; "leaf process starts";
    "leaf process starts"; "leaf process starts" ]%string.
Definition p1_expected : list string :=
  [ "p1 v(testsem)"; "p2 was started"; "p2 starts"; "p2 v's successfully"; "p2 is OK";
    "first incarnation of p4 starts"; "p5 starts"; "divide by zero"; "memory management trap";
    "high level SYS call from user mode process"; "privileged instruction";
    "high level SYS call from kernel mode process"; "p6 starts"; "p7 starts";
    "second incarnation of p4 starts"; "p4 is OK"; "p5 about to terminate"; "p1 knows p5 ended" ]%string
  ++ concat (replicate 4 p8_messages) ++ ["p1 finishes OK"]%string.

#[local] Instance machine_p1 : Machine := clocked 6000 0.

(** the machine after at most 30000 steps from the start-up of the nucleus, with the
    timer interrupting after every [period] steps *)
Definition p1_run (period : Z) : machine string :=
  run entry (timer_env entry period) 0 30000
    (start entry (test_kernel [(blkp4, 1); (p4inc, 1)] ∅) EmptyString).

(** The test program of phase 2, [p1.c], runs on the nucleus from its start-up to a
    normal end: thirty-five processes in all are created and terminated, every test
    succeeds, each message is printed as often as it should be, and the nucleus
    announces a normal termination, without interrupts of the interval timer and with
    an interrupt after every [period] steps for each period from 5 to 12. *)
Theorem phase2_test_passes :
  Forall (fun period => let m := p1_run period in passes m (messages (u_g (m_user m))) p1_expected)
    (0 :: seqZ 5 8).
Proof.
  apply (Forall_evaluated _ (fun period => let m := p1_run period in
    passes_b m (messages (u_g (m_user m))) p1_expected)).
  - intros period. apply passes_b_sound.
  - vm_compute. reflexivity.
Qed.
