(* ===== verification/RunP12.v ===== *)
(** * Properties: the second test program of phase 2 runs to its end on the nucleus *)

From S2P Require Import TestMachine TrapsP12.
Local Open Scope kernel_scope.

Definition family_messages : list string :=
  [ "p8root starts"; "child1 starts"; "child2 starts"; "gchild1 starts"; "gchild2 starts";
    "gchild3 starts"; "gchild4 starts" ]%string.
Definition p12_expected : list string :=
  ["p1 v(testsem)"%string] ++ concat (replicate 4 family_messages) ++ ["p1 finishes OK"%string].

#[local] Instance machine_p12 : Machine := clocked 6000 0.

Definition p12_run (period : Z) : machine string :=
  run entry (timer_env entry period) 0 20000 (start entry (test_kernel [] ∅) EmptyString).

(** The second test program of phase 2, [p1.2.c], runs on the nucleus from its
    start-up to a normal end, without interrupts of the interval timer and with one
    after every [period] steps for each period from 5 to 14: the root of each of the
    four families waits for its four leaves with one vector of four P operations,
    each family is terminated as a whole, and the next one finds its entries free. *)
Theorem vector_test_passes :
  Forall (fun period => let m := p12_run period in passes m (messages (u_g (m_user m))) p12_expected)
    (0 :: seqZ 5 10).
Proof.
  apply (Forall_evaluated _ (fun period => let m := p12_run period in
    passes_b m (messages (u_g (m_user m))) p12_expected)).
  - intros period. apply passes_b_sound.
  - vm_compute. reflexivity.
Qed.
