(* ===== verification/RunInt.v ===== *)
(** * Properties: the test program of phase 3 runs to its end on the nucleus *)

From S2P Require Import TestMachine IntP1.
Local Open Scope kernel_scope.

(** the messages, those of [p6] without the times they show *)
Definition int_expected : list string :=
  [ "p1 v(testsem)"; "p2 was started"; "p3 is started"; "p2 starts"; "p2 v's successfully";
    "p2 is OK"; "p3 - WAITCLOCK OK"; "p3 - CPU time correctly maintained";
    "first incarnation of p4 starts"; "second incarnation of p4 starts"; "p4 is OK"; "p5 starts";
    "divide by zero"; "memory management trap"; "high level SYS call from user mode process";
    "privileged instruction"; "high level SYS call from kernel mode process"; "p6 starts";
    "p7 starts"; "p1 knows p5 ended" ]%string
  ++ concat (replicate 4
       [ "p8root starts"; "child1 starts"; "child2 starts"; "gchild1 starts"; "gchild2 starts";
         "gchild3 starts"; "gchild4 starts" ]%string)
  ++ ((fun n => "p7: " ++ decimal n ++ " ")%string <$> seqZ 0 10)
  ++ ((fun n => "p6  iteration: " ++ decimal n)%string <$> seqZ 0 7)
  ++ ["p1 finishes OK"%string].

#[local] Instance machine_int : Machine := clocked 30000 7.

(** the texts of the program in memory *)
Definition text_memory : gmap Z string :=
  list_to_map (imap (fun i t => (text_addr (Z.of_nat i), t)) texts).

(** the printer completes at every [latency]-th step at the earliest, the timer
    interrupts after every [period] steps *)
Definition int_run (latency period : Z) : machine (list string) :=
  run entry (printer_env entry latency period) 0 60000
    (start entry (test_kernel [(blkp4, 1); (p4inc, 1); (pr_mut, 1)] text_memory) []).

(** the lines [p6] prints, without the times in them *)
Definition said (msg : string) : string :=
  if String.prefix "p6  iteration: " msg then String.substring 0 16 msg else msg.

