(* ===== verification/Support.v ===== *)
(** * The support level: data

    [src/h/support.h], the descriptors of [src/h/types.h], and the globals of
    [src/support/part1/support.c] and [src/support/part2/page.c].

    A table of segment or page descriptors is named by an inductive value, which
    stands for the address of its first entry.  An [int] that is used as a semaphore
    is an [int] cell of memory; every other global is a field of [sl]. *)

From S2P Require Export Run.
Local Open Scope kernel_scope.

Definition TER : Z := 5.
Definition MAXFRAMES : Z := 20.
Definition HIGH : Z := 4.
Definition LOW : Z := 2.
Definition IOREAD : Z := 0.
Definition IOSEEK : Z := 2.
Definition ENDOFINPUT : Z := 7.

(** ** Descriptors *)

Inductive page_table : Type :=
  | p1a_seg_table_page_table
  | shared_seg_table_page_table
  | unprivileged_seg_page_table (num : Z)    (* mm[num] *)
  | privileged_seg_page_table (num : Z)
  | page_daemon_page
  | disk_daemon_page.

Inductive seg_table : Type :=
  | p1a_seg_table
  | unprivileged_seg (num : Z)
  | privileged_seg (num : Z)
  | page_daemon_seg
  | disk_daemon_seg.

(** fields of [w] bits keep the low [w] bits of what is assigned *)
Record pd_t := mk_pd { pd_p : Z; pd_m : Z; pd_r : Z; pd_frame : Z }.
Record sd_t := mk_sd { sd_p : Z; sd_prot : Z; sd_len : Z; sd_pta : page_table }.

Definition set_pd_p v d := mk_pd (v mod 2) (pd_m d) (pd_r d) (pd_frame d).
Definition set_pd_r v d := mk_pd (pd_p d) (pd_m d) (v mod 2) (pd_frame d).
Definition set_pd_frame v d := mk_pd (pd_p d) (pd_m d) (pd_r d) (v mod 2 ^ 15).
Definition set_sd_p v d := mk_sd (v mod 2) (sd_prot d) (sd_len d) (sd_pta d).
Definition set_sd_prot v d := mk_sd (sd_p d) (v mod 2 ^ 3) (sd_len d) (sd_pta d).
Definition set_sd_len v d := mk_sd (sd_p d) (sd_prot d) (v mod 2 ^ 10) (sd_pta d).
Definition set_sd_pta v d := mk_sd (sd_p d) (sd_prot d) (sd_len d) v.

(** the fields of a virtual address *)
Definition v_seg (va : Z) : Z := bits va 19 5.
Definition v_page (va : Z) : Z := bits va 9 10.
Definition v_offset (va : Z) : Z := bits va 0 9.

#[export] Instance page_table_eq : EqDecision page_table.
Proof. solve_decision. Defined.
#[export] Instance page_table_countable : Countable page_table.
Proof.
  refine (inj_countable' (fun t => match t with
    | p1a_seg_table_page_table => (0%nat, 0) | shared_seg_table_page_table => (1%nat, 0)
    | unprivileged_seg_page_table n => (2%nat, n) | privileged_seg_page_table n => (3%nat, n)
    | page_daemon_page => (4%nat, 0) | disk_daemon_page => (5%nat, 0) end)
    (fun c => match c with
    | (0%nat, _) => p1a_seg_table_page_table | (1%nat, _) => shared_seg_table_page_table
    | (2%nat, n) => unprivileged_seg_page_table n | (3%nat, n) => privileged_seg_page_table n
    | (4%nat, _) => page_daemon_page | _ => disk_daemon_page end) _).
  by intros [].
Defined.
#[export] Instance seg_table_eq : EqDecision seg_table.
Proof. solve_decision. Defined.
#[export] Instance seg_table_countable : Countable seg_table.
Proof.
  refine (inj_countable' (fun t => match t with
    | p1a_seg_table => (0%nat, 0) | unprivileged_seg n => (1%nat, n) | privileged_seg n => (2%nat, n)
    | page_daemon_seg => (3%nat, 0) | disk_daemon_seg => (4%nat, 0) end)
    (fun c => match c with
    | (0%nat, _) => p1a_seg_table | (1%nat, n) => unprivileged_seg n | (2%nat, n) => privileged_seg n
    | (3%nat, _) => page_daemon_seg | _ => disk_daemon_seg end) _).
  by intros [].
Defined.

(** ** Globals *)

(** structs without the semaphore each of them holds, which is an [int] cell *)
Record delay_sem := mk_delay { d_time : Z; delay_start : Z }.
Record diks_scheduler := mk_ds { ds_track : Z; ds_sector : Z; ds_op : Z }.
Record page_frame_scheduler := mk_pfs { pf_pid : Z; pf_seg : Z; pf_page : Z; pf_track : Z; pf_sector : Z }.
Record virtual_sem := mk_vs { vs_addr : Z }.

(** the [int] globals that are not semaphores *)
Inductive var : Type :=
  | pf_ctr | pf_start | p_alive
  | Tsysframe (i : Z) | Tmmframe (i : Z) | Scronframe | Spagedframe | Sdiskframe
  | Tsysstack (i : Z) | Tmmstack (i : Z) | Scronstack | Spagedstack | Sdiskstack.
#[export] Instance var_eq : EqDecision var.
Proof. solve_decision. Defined.
#[export] Instance var_countable : Countable var.
Proof.
  refine (inj_countable' (fun v => match v with
    | pf_ctr => (0%nat, 0) | pf_start => (1%nat, 0) | p_alive => (2%nat, 0)
    | Tsysframe i => (3%nat, i) | Tmmframe i => (4%nat, i) | Scronframe => (5%nat, 0)
    | Spagedframe => (6%nat, 0) | Sdiskframe => (7%nat, 0) | Tsysstack i => (8%nat, i)
    | Tmmstack i => (9%nat, i) | Scronstack => (10%nat, 0) | Spagedstack => (11%nat, 0)
    | Sdiskstack => (12%nat, 0) end)
    (fun c => match c with
    | (0%nat, _) => pf_ctr | (1%nat, _) => pf_start | (2%nat, _) => p_alive
    | (3%nat, i) => Tsysframe i | (4%nat, i) => Tmmframe i | (5%nat, _) => Scronframe
    | (6%nat, _) => Spagedframe | (7%nat, _) => Sdiskframe | (8%nat, i) => Tsysstack i
    | (9%nat, i) => Tmmstack i | (10%nat, _) => Scronstack | (11%nat, _) => Spagedstack
    | _ => Sdiskstack end) _).
  by intros [].
Defined.

(** the semaphores *)
Inductive semaphore : Type :=
  | sem_mm | sem_floppy | sem_disk | sem_page | protected_sem | sem_pf | cron_sem
  | d_sem_value (i : Z) | ds_sem_value (i : Z) | vs_sem_value (i : Z).

Record sl := mk_sl {
  vars : gmap var Z;
  segs : gmap seg_table (array sd_t);
  pages : gmap page_table (array pd_t);
  bufs : array (array Z);                  (* mm[num].buf *)
  d_sem : array delay_sem;
  ds_arr : array diks_scheduler;
  pfs_arr : array page_frame_scheduler;
  vs_arr : array virtual_sem;
  disk : array (array Z);
  bytes : gmap Z Z }.                      (* the page frames, by physical address *)

Definition set_vars v g := mk_sl v (segs g) (pages g) (bufs g) (d_sem g) (ds_arr g) (pfs_arr g) (vs_arr g) (disk g) (bytes g).
Definition set_segs v g := mk_sl (vars g) v (pages g) (bufs g) (d_sem g) (ds_arr g) (pfs_arr g) (vs_arr g) (disk g) (bytes g).
Definition set_pages v g := mk_sl (vars g) (segs g) v (bufs g) (d_sem g) (ds_arr g) (pfs_arr g) (vs_arr g) (disk g) (bytes g).
Definition set_bufs v g := mk_sl (vars g) (segs g) (pages g) v (d_sem g) (ds_arr g) (pfs_arr g) (vs_arr g) (disk g) (bytes g).
Definition set_d_sem v g := mk_sl (vars g) (segs g) (pages g) (bufs g) v (ds_arr g) (pfs_arr g) (vs_arr g) (disk g) (bytes g).
Definition set_ds_arr v g := mk_sl (vars g) (segs g) (pages g) (bufs g) (d_sem g) v (pfs_arr g) (vs_arr g) (disk g) (bytes g).
Definition set_pfs_arr v g := mk_sl (vars g) (segs g) (pages g) (bufs g) (d_sem g) (ds_arr g) v (vs_arr g) (disk g) (bytes g).
Definition set_vs_arr v g := mk_sl (vars g) (segs g) (pages g) (bufs g) (d_sem g) (ds_arr g) (pfs_arr g) v (disk g) (bytes g).
Definition set_disk v g := mk_sl (vars g) (segs g) (pages g) (bufs g) (d_sem g) (ds_arr g) (pfs_arr g) (vs_arr g) v (bytes g).
Definition set_bytes v g := mk_sl (vars g) (segs g) (pages g) (bufs g) (d_sem g) (ds_arr g) (pfs_arr g) (vs_arr g) (disk g) v.

(** ** What the linker and the memory management unit supply *)

(** the functions whose addresses the support level stores in a state *)
Inductive sl_func : Type :=
  | fn_p1a | fn_tprocess | fn_slproghandler | fn_slmmhandler | fn_slsyshandler
  | fn_pagedaemon | fn_diskdaemon.

(** the members of [sa[num]] *)
Inductive sa_member : Type := sa_prog_old | sa_prog_new | sa_mm_old | sa_mm_new | sa_sys_old | sa_sys_new.
Definition sa_index (x : sa_member) : Z :=
  match x with
  | sa_prog_old => 0 | sa_prog_new => 1 | sa_mm_old => 2 | sa_mm_new => 3
  | sa_sys_old => 4 | sa_sys_new => 5
  end.

Class Support : Type := {
  sl_sym : sl_func -> Z;
  addr_sem : semaphore -> Z;        (* the address of a semaphore *)
  addr_sa : Z;                      (* sa *)
  addr_table : seg_table -> Z;      (* the address of a segment table *)
  addr_buf : Z -> Z;                (* mm[num].buf *)
  SEG1 : Z; SEG2 : Z;               (* tconst.h *)
  end_ : Z; etext : Z; startt1 : Z; startd1 : Z; edata : Z; startb1 : Z;
  (* the unit: with the segment table at the first address, a virtual address is a
     physical one, or a fault with the word the unit leaves at 0x412 *)
  translate : sl -> Z -> Z -> Z + Z;
  (* it marks the page of an access as referenced *)
  reference : Z -> Z -> sl -> sl }.

Definition sa_addr `{Support} (num : Z) (x : sa_member) : Z :=
  addr_sa + STATE_SIZE * (6 * num + sa_index x).

(** ** Accesses *)

Definition MS := M exn (user sl).

(** to the globals of the support level, and to what the nucleus reads too *)
Definition sl_ {A} (m : M exn sl A) : MS A := zoom u_g set_u_g m.
Definition ker_ {A} (m : MK A) : MS A := zoom u_k set_u_k m.

Section access.
Context `{Support}.

Definition sem_value (s : semaphore) : MS Z := ker_ (asl_ (load (addr_sem s))).
Definition set_sem_value (s : semaphore) (v : Z) : MS unit := ker_ (asl_ (store (addr_sem s) v)).

(** [x] and [x = v] for a scalar or an element of an array of scalars *)
Definition var_ (x : var) : MS Z := sl_ (gets_opt Fault (fun g => vars g !! x)).
Definition put_var (x : var) (v : Z) : MS unit :=
  let! old := var_ x in sl_ (modify (fun g => set_vars (<[x := v]> (vars g)) g)).

(** an entry of an array of structs, and an assignment to fields of it *)
Definition entry_of {A} (f : sl -> array A) (i : Z) : MS A := sl_ (gets_opt Fault (fun g => f g !! i)).
Definition edit_entry {A} (f : sl -> array A) (set : array A -> sl -> sl) (i : Z) (h : A -> A) : MS unit :=
  let! x := entry_of f i in sl_ (modify (fun g => set (<[i := h x]> (f g)) g)).

Definition pfs (i : Z) : MS page_frame_scheduler := entry_of pfs_arr i.
Definition edit_pfs : Z -> (page_frame_scheduler -> page_frame_scheduler) -> MS unit := edit_entry pfs_arr set_pfs_arr.
Definition ds (i : Z) : MS diks_scheduler := entry_of ds_arr i.
Definition edit_ds : Z -> (diks_scheduler -> diks_scheduler) -> MS unit := edit_entry ds_arr set_ds_arr.
Definition vs (i : Z) : MS virtual_sem := entry_of vs_arr i.
Definition edit_vs : Z -> (virtual_sem -> virtual_sem) -> MS unit := edit_entry vs_arr set_vs_arr.
Definition delay (i : Z) : MS delay_sem := entry_of d_sem i.
Definition edit_delay : Z -> (delay_sem -> delay_sem) -> MS unit := edit_entry d_sem set_d_sem.

Definition disk_at (i j : Z) : MS Z :=
  let! row := entry_of disk i in sl_ (gets_opt Fault (fun _ => row !! j)).
Definition put_disk (i j v : Z) : MS unit :=
  let! old := disk_at i j in edit_entry disk set_disk i (fun row => <[j := v]> row).

Definition buf_at (num i : Z) : MS Z :=
  let! b := entry_of bufs num in sl_ (gets_opt Fault (fun _ => b !! i)).
Definition put_buf (num i v : Z) : MS unit :=
  let! old := buf_at num i in edit_entry bufs set_bufs num (fun b => <[i := v]> b).

(** a descriptor, and an assignment to fields of it *)
Definition page (t : page_table) (i : Z) : MS pd_t :=
  let! tab := sl_ (gets_opt Fault (fun g => pages g !! t)) in
  sl_ (gets_opt Fault (fun _ => tab !! i)).
Definition edit_page (t : page_table) (i : Z) (h : pd_t -> pd_t) : MS unit :=
  let! d := page t i in
  sl_ (modify (fun g => set_pages (alter (fun tab => <[i := h d]> tab) t (pages g)) g)).
Definition seg (t : seg_table) (i : Z) : MS sd_t :=
  let! tab := sl_ (gets_opt Fault (fun g => segs g !! t)) in
  sl_ (gets_opt Fault (fun _ => tab !! i)).
Definition edit_seg (t : seg_table) (i : Z) (h : sd_t -> sd_t) : MS unit :=
  let! d := seg t i in
  sl_ (modify (fun g => set_segs (alter (fun tab => <[i := h d]> tab) t (segs g)) g)).

(** the device registers [dev_arr[i]->...] *)
Definition dev (i : Z) : MS devreg_t := ker_ (let! a := dev_reg i in devreg a).
Definition edit_dev (i : Z) (h : devreg_t -> devreg_t) : MS unit :=
  ker_ (let! a := dev_reg i in put_devreg a h).
End access.
Definition set_d_op v d := mk_devreg v (d_dadd d) (d_badd d) (d_stat d).
Definition set_d_dadd v d := mk_devreg (d_op d) v (d_badd d) (d_stat d).
Definition set_d_badd v d := mk_devreg (d_op d) (d_dadd d) v (d_stat d).

(** ** Programs of the support level *)

Section programs.
Context `{Machine} `{Support}.
#[local] Open Scope user_scope.

(** the registers and the address of a local variable [n] bytes below the stack pointer *)
Definition sp_minus (n : Z) : prog sl Z := let! sp := get_reg 15%fin in pret (sp - n).

(** SYS3 with the first [n] entries of the array at [v] *)
Definition sem_op (n v : Z) : prog sl unit := set_r3 n ;; set_r4 v ;; SYS 3.

(** a local variable [state_t] set from the processor, [STST(&st)] *)
Definition STST_local : prog sl state_t := atom (gets u_cpu).
(** [r4 = (int)&st; SYS1()] for a local variable *)
Definition create_local (st : state_t) : prog sl unit :=
  let! a := sp_minus STATE_SIZE in
  mem (modify (fun k => set_states (<[a := st]> (states k)) k)) ;;
  set_r4 a ;;
  SYS 1.

(** [r4 = n; SYS8()] *)
Definition wait_io (n : Z) : prog sl unit := set_r4 n ;; SYS 8.

(** an access through the memory management unit; after a fault it is tried again *)
Definition virtual {A} (va : Z) (access : Z -> MS A) : prog sl A :=
  ITreeDefinition.ITree.iter
    (fun _ : unit =>
       let! crp := atom (gets (fun u => s_crp (u_cpu u))) in
       let! a := atom (sl_ (gets (fun g => translate g crp va))) in
       match a with
       | inl w => event (Trap (MemFault w)) ;; pret (inl tt)
       | inr pa => let! x := atom (bind (sl_ (modify (reference crp va))) (fun _ => access pa)) in pret (inr x)
       end) tt.

(** a byte and an [int] of user memory *)
Definition user_byte (va : Z) : prog sl Z :=
  virtual va (fun pa => sl_ (gets_opt Fault (fun g => bytes g !! pa))).
Definition put_user_byte (va v : Z) : prog sl unit :=
  virtual va (fun pa => bind (sl_ (gets_opt Fault (fun g => bytes g !! pa)))
                             (fun _ => sl_ (modify (fun g => set_bytes (<[pa := v]> (bytes g)) g)))).
Definition user_int (va : Z) : prog sl Z := virtual va (fun pa => ker_ (asl_ (load pa))).
Definition put_user_int (va v : Z) : prog sl unit := virtual va (fun pa => ker_ (asl_ (store pa v))).
End programs.
