(* ===== verification/Page.v ===== *)
(** * The support level: paging

    [src/support/part2/page.c].  A function without system calls is a computation on
    memory, executed in one step of a program; a function with system calls is a
    program. *)

From S2P Require Export Support.
Local Open Scope kernel_scope.

Section page.
Context `{Machine} `{Support}.

(** ** P and V *)

Definition P (s : semaphore) : prog sl unit :=
  (let! a := sp_minus VPOP_SIZE in
   put_local (a + 4) (addr_sem s) ;;
   put_local a LOCK ;;
   sem_op 1 a)%U.

Definition V (s : semaphore) : prog sl unit :=
  (let! a := sp_minus VPOP_SIZE in
   put_local (a + 4) (addr_sem s) ;;
   put_local a UNLOCK ;;
   sem_op 1 a)%U.

(** SYS3 with the local vector [{op1, s1}, {op2, s2}] *)
Definition PV2 (op1 : Z) (s1 : semaphore) (op2 : Z) (s2 : semaphore) : prog sl unit :=
  (let! v := sp_minus (2 * VPOP_SIZE) in
   put_vpop v 0 op1 (addr_sem s1) ;;
   put_vpop v 1 op2 (addr_sem s2) ;;
   sem_op 2 v)%U.

(** ** Positions on the floppy disk *)

(** the inner loop of [get_disk_pos], from column [j] of row [i] *)
Fixpoint free_column (i j : Z) (n : nat) : MS (option Z) :=
  match n with
  | O => ret None
  | S n' =>
      let! v := disk_at i j in
      if v =? -1 then
        put_disk i j 1 ;; ret (Some (Z.lor (Z.shiftl i 3) j))
      else free_column i (j + 1) n'
  end.
Fixpoint free_row (i : Z) (n : nat) : MS Z :=
  match n with
  | O => raise Fault     (* the function ends without a value *)
  | S n' =>
      let! r := free_column i 0 8 in
      match r with Some v => ret v | None => free_row (i + 1) n' end
  end.
Definition get_disk_pos : MS Z := free_row 0 100.

(** ** Page tables of the daemons *)

(** the descriptor of a resident page *)
Definition present (t : page_table) (num : Z) : MS unit :=
  edit_page t num (fun d => set_pd_frame num (set_pd_p 1 (set_pd_r 1 d))).
Definition absent (t : page_table) (num : Z) : MS unit :=
  edit_page t num (fun d => set_pd_frame num (set_pd_p 0 (set_pd_r 1 d))).

Definition set_page_present (num judge : Z) : MS unit :=
  if judge =? 0 then
    present page_daemon_page num ;; present disk_daemon_page num
  else if judge =? 1 then present disk_daemon_page num
  else present page_daemon_page num.

(** the pages of the text, the data and the bss that every table of the system maps *)
Definition system_page (i : Z) : bool :=
  (startt1 / PAGESIZE <=? i) && (i <=? etext / PAGESIZE)
  || (startd1 / PAGESIZE <=? i) && (i <=? edata / PAGESIZE)
  || (startb1 / PAGESIZE <=? i) && (i <=? end_ / PAGESIZE).

(** ** Transfers *)

Definition page_in_out_helper (track sector op pf : Z) : prog sl unit :=
  (PV2 UNLOCK sem_mm LOCK sem_floppy ;;
   atom (edit_dev 11 (set_d_dadd track)) ;;
   atom (edit_dev 11 (set_d_op IOSEEK)) ;;
   wait_io 11 ;;
   atom (edit_dev 11 (set_d_badd (pf * PAGESIZE))) ;;
   atom (edit_dev 11 (set_d_dadd sector)) ;;
   atom (edit_dev 11 (set_d_op op)) ;;
   wait_io 11 ;;
   PV2 LOCK sem_mm UNLOCK sem_floppy)%U.

(** ** [pageinit] *)

Definition init_frames (endframe : Z) : MS unit :=
  put_var (Tsysframe 0) (endframe + 2) ;;
  put_var (Tsysframe 1) (endframe + 3) ;;
  put_var (Tsysframe 2) (endframe + 4) ;;
  put_var (Tsysframe 3) (endframe + 5) ;;
  put_var (Tsysframe 4) (endframe + 6) ;;
  put_var (Tmmframe 0) (endframe + 7) ;;
  put_var (Tmmframe 1) (endframe + 8) ;;
  put_var (Tmmframe 2) (endframe + 9) ;;
  put_var (Tmmframe 3) (endframe + 10) ;;
  put_var (Tmmframe 4) (endframe + 11) ;;
  put_var Scronframe (endframe + 12) ;;
  put_var Spagedframe (endframe + 13) ;;
  put_var Sdiskframe (endframe + 14) ;;
  put_var (Tsysstack 0) ((endframe + 3) * 512 - 2) ;;
  put_var (Tsysstack 1) ((endframe + 4) * 512 - 2) ;;
  put_var (Tsysstack 2) ((endframe + 5) * 512 - 2) ;;
  put_var (Tsysstack 3) ((endframe + 6) * 512 - 2) ;;
  put_var (Tsysstack 4) ((endframe + 7) * 512 - 2) ;;
  put_var (Tmmstack 0) ((endframe + 8) * 512 - 2) ;;
  put_var (Tmmstack 1) ((endframe + 9) * 512 - 2) ;;
  put_var (Tmmstack 2) ((endframe + 10) * 512 - 2) ;;
  put_var (Tmmstack 3) ((endframe + 11) * 512 - 2) ;;
  put_var (Tmmstack 4) ((endframe + 12) * 512 - 2) ;;
  put_var Scronstack ((endframe + 13) * 512 - 2) ;;
  put_var Spagedstack ((endframe + 14) * 512 - 2) ;;
  put_var Sdiskstack ((endframe + 15) * 512 - 2) ;;
  put_var pf_start (endframe + 17).

Definition init_semaphores : MS unit :=
  set_sem_value sem_pf MAXFRAMES ;;
  put_var pf_ctr 0 ;;
  set_sem_value sem_disk 0 ;;
  set_sem_value sem_page 0 ;;
  set_sem_value sem_floppy 1 ;;
  set_sem_value protected_sem 1.

Definition init_arrays : MS unit :=
  for_ 0 MAXPROC (fun i =>
    set_sem_value (ds_sem_value i) 0 ;;
    edit_ds i (fun _ => mk_ds (-1) (-1) (-1)) ;;
    edit_vs i (fun _ => mk_vs 0) ;;
    set_sem_value (vs_sem_value i) 0) ;;
  for_ 0 MAXFRAMES (fun i => edit_pfs i (fun _ => mk_pfs (-1) (-1) (-1) (-1) (-1))) ;;
  for_ 0 100 (fun i => for_ 0 8 (fun j => put_disk i j (-1))).

(** segment 0 of a daemon *)
Definition init_seg0 (t : seg_table) (pt : page_table) : MS unit :=
  edit_seg t 0 (fun d => set_sd_pta pt (set_sd_prot 7 (set_sd_len 255 (set_sd_p 1 d)))).

Definition init_daemon_page (i : Z) : MS unit :=
  let! sdisk := var_ Sdiskframe in
  let! spaged := var_ Spagedframe in
  if i =? 2 then set_page_present i 0
  else if (0x1400 / PAGESIZE <=? i) && (i <=? 0x1600 / PAGESIZE) then set_page_present i 0
  else if system_page i then set_page_present i 0
  else if i =? sdisk then set_page_present i 1
  else if i =? spaged then set_page_present i 2
  else absent page_daemon_page i ;; absent disk_daemon_page i.

Definition init_daemon_tables : MS unit :=
  init_seg0 page_daemon_seg page_daemon_page ;;
  init_seg0 disk_daemon_seg disk_daemon_page ;;
  for_ 1 32 (fun i =>
    edit_seg page_daemon_seg i (set_sd_p 0) ;;
    edit_seg disk_daemon_seg i (set_sd_p 0)) ;;
  for_ 0 256 init_daemon_page.

(** the state of a daemon: supervisor mode, translation on, interrupts open *)
Definition daemon_state (f : sl_func) (sp : Z) (t : seg_table) (st : state_t) : state_t :=
  let 'mk_state r sr tmp crp := set_sp sp (set_pc (sl_sym f) st) in
  mk_state r (set_ps_int 0 (set_ps_m 1 (set_ps_s 1 sr))) tmp (addr_table t).

Definition pageinit : prog sl unit :=
  (let endframe := end_ / PAGESIZE in
   (if 220 <? endframe then HALT_now else pret tt) ;;
   atom (bind (init_frames endframe) (fun _ => bind init_semaphores (fun _ =>
         bind init_arrays (fun _ => init_daemon_tables)))) ;;
   let! st := STST_local in
   let! sp := atom (var_ Spagedstack) in
   create_local (daemon_state fn_pagedaemon sp page_daemon_seg st) ;;
   let! st := STST_local in
   let! sp := atom (var_ Sdiskstack) in
   create_local (daemon_state fn_diskdaemon sp disk_daemon_seg st))%U.

(** ** Page frames *)

(** the search for a frame that already holds a page of the shared segment *)
Fixpoint find_shared (page seg i : Z) (n : nat) : MS Z :=
  match n with
  | O => ret (-1)
  | S n' =>
      let! f := pfs i in
      if pf_pid f =? -1 then find_shared page seg (i + 1) n'
      else if (pf_page f =? page) && (pf_seg f =? seg) then ret i
      else find_shared page seg (i + 1) n'
  end.

(** the search for a free frame, which it fills *)
Fixpoint take_frame (term page seg i : Z) (n : nat) : MS Z :=
  match n with
  | O => ret (-1)
  | S n' =>
      let! f := pfs i in
      if pf_pid f =? -1 then
        edit_pfs i (fun _ => mk_pfs term seg page (-1) (-1)) ;; ret i
      else take_frame term page seg (i + 1) n'
  end.

(** the part of [getfreeframe] between the semaphores: the frame, or -1 *)
Definition choose_frame (term page seg : Z) : MS Z :=
  let! start := var_ pf_start in
  let! shared := (if seg =? 2 then find_shared page seg 0 (Z.to_nat MAXFRAMES) else ret (-1)) in
  if negb (shared =? -1) then ret (start + shared)
  else
    let! i := take_frame term page seg 0 (Z.to_nat MAXFRAMES) in
    ret (if i =? -1 then -1 else start + i).

Definition getfreeframe (term page seg : Z) : prog sl Z :=
  (P sem_pf ;;
   P sem_mm ;;
   let! rv := atom (choose_frame term page seg) in
   let! v := atom (sem_value sem_pf) in
   (if v <=? LOW then V sem_page else pret tt) ;;
   V sem_mm ;;
   pret rv)%U.

Definition pagein (term page_ seg_ pf : Z) : prog sl unit :=
  (P sem_mm ;;
   let! page_frame :=
     atom (if seg_ =? 1 then bind (page (unprivileged_seg_page_table term) page_) (fun d => ret (pd_frame d))
           else if seg_ =? 2 then bind (page shared_seg_table_page_table page_) (fun d => ret (pd_frame d))
           else ret (-1)) in
   let track := Z.shiftr page_frame 3 in
   let sector := Z.land page_frame 7 in
   page_in_out_helper track sector IOREAD pf ;;
   let! start := atom (var_ pf_start) in
   atom (edit_pfs (pf - start) (fun f => mk_pfs (pf_pid f) (pf_seg f) (pf_page f) track sector)) ;;
   (if seg_ =? 1 then atom (edit_page (unprivileged_seg_page_table term) page_ (set_pd_r 1))
    else if seg_ =? 2 then atom (edit_page shared_seg_table_page_table page_ (set_pd_r 1))
    else pret tt) ;;
   V sem_mm)%U.

(** one iteration of the second loop of [putframe] *)
Definition free_disk (term i : Z) : MS unit :=
  let! d := page (unprivileged_seg_page_table term) i in
  if (pd_r d =? 0) && (pd_p d =? 0) then
    let! f := pfs i in
    if negb (pf_seg f =? 2) then
      put_disk (Z.shiftr (pd_frame d) 3) (Z.land (pd_frame d) 7) (-1)
    else ret tt
  else ret tt.

Definition putframe (term : Z) : prog sl unit :=
  (P sem_mm ;;
   pfor 0 MAXFRAMES (fun i =>
     let! f := atom (pfs i) in
     if (pf_pid f =? term) && negb (pf_seg f =? 2) then
       atom (edit_pfs i (fun f => mk_pfs (-1) (pf_seg f) (pf_page f) (pf_track f) (pf_sector f))) ;;
       V sem_pf
     else pret tt) ;;
   pfor 0 32 (fun i => atom (free_disk term i)) ;;
   V sem_mm)%U.

(** ** The page daemon *)

(** the second chance of the page that frame [i] holds: its descriptor loses the
    reference bit, or the page is marked absent and the position on the floppy disk
    where it goes is returned *)
Definition second_chance (t : page_table) (page_ i : Z) : MS (option (Z * Z)) :=
  let! d := page t page_ in
  if pd_p d =? 1 then
    if pd_r d =? 1 then edit_page t page_ (set_pd_r 0) ;; ret None
    else
      edit_page t page_ (set_pd_p 0) ;;
      let! f := pfs i in
      (if negb (pf_track f =? -1) && negb (pf_sector f =? -1) then
         let page_frame := Z.lor (Z.shiftl (pf_track f) 3) (pf_sector f) in
         edit_page t page_ (set_pd_frame page_frame) ;;
         ret (Some (pf_track f, pf_sector f))
       else
         let! page_frame := get_disk_pos in
         edit_page t page_ (set_pd_frame page_frame) ;;
         ret (Some (Z.shiftr page_frame 3, Z.land page_frame 7)))
  else ret None.

(** the table of the page that a frame holds *)
Definition table_of (f : page_frame_scheduler) : option page_table :=
  if pf_seg f =? 1 then Some (unprivileged_seg_page_table (pf_pid f))
  else if pf_seg f =? 2 then Some shared_seg_table_page_table
  else None.

(** the daemon's work on one frame *)
Definition sweep_frame (i : Z) : prog sl unit :=
  (P sem_mm ;;
   let! f := atom (pfs i) in
   (if negb (pf_pid f =? -1) then
      match table_of f with
      | Some t =>
          let! out := atom (second_chance t (pf_page f) i) in
          match out with
          | Some (track, sector) =>
              let! start := atom (var_ pf_start) in
              page_in_out_helper track sector IOWRITE (start + i) ;;
              atom (edit_pfs i (fun f => mk_pfs (-1) (pf_seg f) (pf_page f) (pf_track f) (pf_sector f))) ;;
              V sem_pf
          | None => pret tt
          end
      | None => pret tt
      end
    else pret tt) ;;
   V sem_mm)%U.

Definition pagedaemon : prog sl unit :=
  (pwhile (let! n := atom (var_ p_alive) in pret (0 <? n))
     (P sem_page ;;
      pwhile (let! v := atom (sem_value sem_pf) in pret (v <? HIGH))
        (pfor 0 MAXFRAMES sweep_frame)) ;;
   SYS 2)%U.
End page.
