(* ===== verification/Slsys1.v ===== *)
(** * The support level: system calls 9, 10, 13, 16 and 17

    [src/support/part1/slsyscall1.c].  [old_state] is the address of [sa[num].sys_old]
    or of another old area of the process. *)

From S2P Require Export Page.
Local Open Scope kernel_scope.

Section slsys1.
Context `{Machine} `{Support}.
#[local] Open Scope user_scope.

(** [old_state->s_r[i]] *)
Definition arg (old_state : Z) (i : fin 17) : prog sl Z :=
  let! st := get_state old_state in pret (s_r st !!! i).
Definition result_ (old_state v : Z) : prog sl unit := edit_state old_state (set_reg 2%fin v).

(** [for (i = 0; i < bound; i++) body], the bound read before each iteration *)
Definition while_below (bound : prog sl Z) (body : Z -> prog sl unit) : prog sl unit :=
  ITreeDefinition.ITree.iter
    (fun i : Z =>
       let! b := bound in
       if i <? b then body i ;; pret (inl (i + 1)) else pret (inr tt)) 0.

Definition Read_from_Terminal (old_state num : Z) : prog sl unit :=
  let! buf := arg old_state 3%fin in
  atom (edit_dev num (set_d_badd (addr_buf num))) ;;
  atom (edit_dev num (set_d_op IOREAD)) ;;
  wait_io num ;;
  let! d := atom (dev num) in
  if (d_stat d =? NORMAL) || (d_stat d =? ENDOFINPUT) then
    if negb (d_amnt d =? 0) then
      while_below (let! d := atom (dev num) in pret (d_amnt d)) (fun i =>
        let! c := atom (buf_at num i) in
        put_user_byte (buf + i) c) ;;
      let! d := atom (dev num) in
      result_ old_state (i32 (d_amnt d))
    else result_ old_state (- ENDOFINPUT)
  else result_ old_state (i32 (0 - d_stat d)).

Definition Write_to_Terminal (old_state num : Z) : prog sl unit :=
  let! buf := arg old_state 3%fin in
  while_below (arg old_state 4%fin) (fun i =>
    let! c := user_byte (buf + i) in
    atom (put_buf num i c)) ;;
  atom (edit_dev num (set_d_badd (addr_buf num))) ;;
  let! n := arg old_state 4%fin in
  atom (edit_dev num (set_d_dadd (u32 n))) ;;
  atom (edit_dev num (set_d_op IOWRITE)) ;;
  wait_io num ;;
  let! d := atom (dev num) in
  if d_stat d =? NORMAL then
    if negb (d_amnt d =? 0) then result_ old_state (i32 (d_amnt d))
    else result_ old_state (- ENDOFINPUT)
  else result_ old_state (i32 (0 - d_stat d)).

Definition Delay (old_state num : Z) : prog sl unit :=
  let! t := arg old_state 4%fin in
  atom (edit_delay num (fun d => mk_delay t (delay_start d))) ;;
  let! now := STCK_ in
  atom (edit_delay num (fun d => mk_delay (d_time d) now)) ;;
  PV2 LOCK (d_sem_value num) UNLOCK cron_sem.

Definition Get_Time_of_Day (old_state num : Z) : prog sl unit :=
  let! cur_time := STCK_ in
  result_ old_state cur_time.

Definition Terminate (old_state num : Z) : prog sl unit :=
  atom (bind (var_ p_alive) (fun n => put_var p_alive (n - 1))) ;;
  putframe num ;;
  let! n := atom (var_ p_alive) in
  (if n =? 0 then V cron_sem else pret tt) ;;
  SYS 2.
End slsys1.
