(* ===== verification/Slsys2.v ===== *)
(** * The support level: virtual semaphores, the disk and its daemon

    [src/support/part2/slsyscall2.c]. *)

From S2P Require Export Slsys1.
Local Open Scope kernel_scope.

Section slsys2.
Context `{Machine} `{Support}.

(** ** Virtual semaphores *)

(** the search for an entry of [vs_arr] with the address [addr], from entry [i] *)
Fixpoint find_vs (addr i : Z) (n : nat) : MS (option Z) :=
  match n with
  | O => ret None
  | S n' =>
      let! v := vs i in
      if vs_addr v =? addr then ret (Some i) else find_vs addr (i + 1) n'
  end.

Definition P_Virtual_Semaphore (old_state num : Z) : prog sl unit :=
  (P protected_sem ;;
   let! vpop_addr := arg old_state 4%fin in
   if SEG2 <=? vpop_addr then
     let! v := user_int vpop_addr in
     if 0 <? v then
       let! v := user_int vpop_addr in
       put_user_int vpop_addr (i32 (v - 1)) ;;
       V protected_sem
     else
       let! e := atom (find_vs 0 0 (Z.to_nat MAXPROC)) in
       match e with
       | Some i =>
           atom (edit_vs i (fun _ => mk_vs vpop_addr)) ;;
           let! v := user_int vpop_addr in
           put_user_int vpop_addr (i32 (v - 1)) ;;
           V protected_sem ;;
           P (vs_sem_value i)
       | None => pret tt
       end
   else
     V protected_sem ;;
     Terminate old_state num)%U.

Definition V_Virtual_Semaphore (old_state num : Z) : prog sl unit :=
  (P protected_sem ;;
   let! vpop_addr := arg old_state 4%fin in
   if SEG2 <=? vpop_addr then
     let! v := user_int vpop_addr in
     if 0 <=? v then
       let! v := user_int vpop_addr in
       put_user_int vpop_addr (i32 (v + 1)) ;;
       V protected_sem
     else
       let! e := atom (find_vs vpop_addr 0 (Z.to_nat MAXPROC)) in
       match e with
       | Some i =>
           atom (edit_vs i (fun _ => mk_vs 0)) ;;
           let! v := user_int vpop_addr in
           put_user_int vpop_addr (i32 (v + 1)) ;;
           V protected_sem ;;
           V (vs_sem_value i)
       | None => pret tt
       end
   else
     V protected_sem ;;
     Terminate old_state num)%U.

(** ** The disk *)

(** the request of process [num], and the wait for the daemon *)
Definition request_disk (old_state num op : Z) : prog sl unit :=
  (let! track := arg old_state 4%fin in
   atom (edit_ds num (fun d => mk_ds track (ds_sector d) (ds_op d))) ;;
   let! sector := arg old_state 2%fin in
   atom (edit_ds num (fun d => mk_ds (ds_track d) sector (ds_op d))) ;;
   atom (edit_ds num (fun d => mk_ds (ds_track d) (ds_sector d) op)) ;;
   PV2 LOCK (ds_sem_value num) UNLOCK sem_disk)%U.

Definition Disk_Put (old_state num : Z) : prog sl unit :=
  (let! buf := arg old_state 3%fin in
   (if buf <? SEG1 then Terminate old_state num else pret tt) ;;
   pfor 0 512 (fun i =>
     let! c := user_byte (buf + i) in
     atom (put_buf num i c)) ;;
   request_disk old_state num IOWRITE ;;
   let! d := atom (dev 7) in
   if d_stat d =? NORMAL then result_ old_state 512
   else result_ old_state (i32 (- d_stat d)))%U.

Definition Disk_Get (old_state num : Z) : prog sl unit :=
  (let! buf := arg old_state 3%fin in
   (if buf <? SEG1 then Terminate old_state num else pret tt) ;;
   request_disk old_state num IOREAD ;;
   let! d := atom (dev 7) in
   if d_stat d =? NORMAL then
     pfor 0 512 (fun i =>
       let! c := atom (buf_at num i) in
       put_user_byte (buf + i) c) ;;
     result_ old_state 512
   else result_ old_state (i32 (- d_stat d)))%U.

(** ** The order in which the daemon serves the requests *)

(** the distance from the position of the head in direction [dir] *)
Definition distance (dir track sector : Z) (d : diks_scheduler) : Z :=
  if dir =? 0 then i32 ((ds_track d - track) * 8 + ds_sector d - sector)
  else i32 ((track - ds_track d) * 8 + sector - ds_sector d).

Fixpoint tasker_loop (track sector dir i : Z) (n : nat) (min rv : Z) : MS Z :=
  match n with
  | O => ret rv
  | S n' =>
      let! v := sem_value (ds_sem_value i) in
      if v =? -1 then
        let! d := ds i in
        let value := distance dir track sector d in
        if (0 <=? value) && (value <? min)
        then tasker_loop track sector dir (i + 1) n' value i
        else tasker_loop track sector dir (i + 1) n' min rv
      else tasker_loop track sector dir (i + 1) n' min rv
  end.

Definition tasker_helper (track sector dir : Z) : MS Z :=
  tasker_loop track sector dir 0 (Z.to_nat MAXPROC) 10000 (-1).

(** one round of the daemon: the new position of the head and the new direction *)
Definition disk_round (track sector dir : Z) : prog sl (Z * Z * Z) :=
  (P sem_disk ;;
   let! num := atom (tasker_helper track sector dir) in
   let! dir' := pret (if num =? -1 then Z.lxor dir 1 else dir) in
   let! num := (if num =? -1 then atom (tasker_helper track sector dir') else pret num) in
   let! d := atom (ds num) in
   let track := ds_track d in
   let sector := ds_sector d in
   atom (edit_dev 7 (set_d_dadd (u32 track))) ;;
   atom (edit_dev 7 (set_d_op IOSEEK)) ;;
   wait_io 7 ;;
   let! d := atom (dev 7) in
   (if d_stat d =? NORMAL then
      atom (edit_dev 7 (set_d_dadd (u32 sector))) ;;
      atom (edit_dev 7 (set_d_badd (addr_buf num))) ;;
      let! d := atom (ds num) in
      atom (edit_dev 7 (set_d_op (u32 (ds_op d)))) ;;
      wait_io 7
    else pret tt) ;;
   V (ds_sem_value num) ;;
   pret (track, sector, dir'))%U.

Definition diskdaemon : prog sl unit :=
  (ITreeDefinition.ITree.iter
     (fun '((track, sector, dir) : Z * Z * Z) =>
        let! n := atom (var_ p_alive) in
        if 0 <? n then let! pos := disk_round track sector dir in pret (inl pos)
        else pret (inr tt)) (0, 0, 0) ;;
   SYS 2)%U.
End slsys2.
