(* ===== verification/SupportP1.v ===== *)
(** * The support level: start-up, T-processes, traps and the cron process

    [src/support/part1/support.c]. *)

From S2P Require Export Slsys2.
Local Open Scope kernel_scope.

Section support.
Context `{Machine} `{Support}.

Definition boot_code : list Z :=
  [ 0x41f90008; 0x00002608; 0x4e454a82; 0x6c000008; 0x4ef90008; 0x0000d1c2; 0x787fb882;
    0x6d000008; 0x10bc000a; 0x52486000; 0xffde4e71 ].

(** ** Tables *)

Definition set_page_table_entry_present (num : Z) : MS unit := present p1a_seg_table_page_table num.

Definition set_unprivileged_seg_present (num seg_num : Z) : MS unit :=
  edit_seg (unprivileged_seg num) seg_num (fun d => set_sd_prot 7 (set_sd_len 31 (set_sd_p 1 d))) ;;
  if seg_num =? 1 then edit_seg (unprivileged_seg num) seg_num (set_sd_pta (unprivileged_seg_page_table num))
  else edit_seg (unprivileged_seg num) seg_num (set_sd_pta shared_seg_table_page_table).

Definition set_privileged_seg_present (num seg_num : Z) : MS unit :=
  edit_seg (privileged_seg num) seg_num (fun d => set_sd_prot 7 (set_sd_p 1 d)) ;;
  (if seg_num =? 0 then edit_seg (privileged_seg num) seg_num (set_sd_len 255)
   else edit_seg (privileged_seg num) seg_num (set_sd_len 31)) ;;
  if seg_num =? 2 then edit_seg (privileged_seg num) seg_num (set_sd_pta shared_seg_table_page_table)
  else if seg_num =? 0 then edit_seg (privileged_seg num) seg_num (set_sd_pta (privileged_seg_page_table num))
  else if seg_num =? 1 then edit_seg (privileged_seg num) seg_num (set_sd_pta (unprivileged_seg_page_table num))
  else ret tt.

Definition set_privileged_page_present (num page_num : Z) : MS unit :=
  present (privileged_seg_page_table num) page_num.

(** the tables of [p1a] *)
Definition init_p1a_page (i : Z) : MS unit :=
  let! cron := var_ Scronframe in
  if i =? 2 then set_page_table_entry_present i
  else if system_page i then set_page_table_entry_present i
  else if i =? cron then set_page_table_entry_present i
  else absent p1a_seg_table_page_table i.

Definition init_p1a_tables : MS unit :=
  edit_seg p1a_seg_table 0 (fun d =>
    set_sd_pta p1a_seg_table_page_table (set_sd_len 255 (set_sd_prot 7 (set_sd_p 1 d)))) ;;
  for_ 1 32 (fun i => edit_seg p1a_seg_table i (set_sd_p 0)) ;;
  for_ 0 256 init_p1a_page.

(** the tables of T-process [i] *)
Definition init_privileged_page (i j : Z) : MS unit :=
  let! sys := var_ (Tsysframe i) in
  let! mmf := var_ (Tmmframe i) in
  if j =? 2 then set_privileged_page_present i j
  else if (0x1400 / PAGESIZE <=? j) && (j <=? 0x1600 / PAGESIZE) then set_privileged_page_present i j
  else if system_page j then set_privileged_page_present i j
  else if j =? sys then set_privileged_page_present i j
  else if j =? mmf then set_privileged_page_present i j
  else absent (privileged_seg_page_table i) j.

(** a page that was never in memory *)
Definition no_page (t : page_table) (j : Z) : MS unit :=
  edit_page t j (fun d => set_pd_r 1 (set_pd_p 0 d)).

Definition init_process (i : Z) : MS unit :=
  set_sem_value (d_sem_value i) 0 ;;
  edit_delay i (fun _ => mk_delay 0 0) ;;
  edit_seg (unprivileged_seg i) 0 (set_sd_p 0) ;;
  set_unprivileged_seg_present i 1 ;;
  set_unprivileged_seg_present i 2 ;;
  set_privileged_seg_present i 0 ;;
  set_privileged_seg_present i 1 ;;
  set_privileged_seg_present i 2 ;;
  for_ 3 32 (fun j =>
    edit_seg (unprivileged_seg i) j (set_sd_p 0) ;;
    edit_seg (privileged_seg i) j (set_sd_p 0)) ;;
  for_ 0 32 (fun j =>
    no_page (unprivileged_seg_page_table i) j ;;
    no_page shared_seg_table_page_table j) ;;
  for_ 0 256 (init_privileged_page i).

(** [*((int * )(frame * PAGESIZE) + j) = boot_code[j]] for every [j] *)
Fixpoint copy_words (a : Z) (l : list Z) : MS unit :=
  match l with
  | [] => ret tt
  | w :: l' => ker_ (asl_ (store a (i32 w))) ;; copy_words (a + 4) l'
  end.

(** ** [p1] *)

Definition p1 : prog sl unit :=
  (pageinit ;;
   atom (bind init_p1a_tables (fun _ => for_ 0 TER init_process)) ;;
   atom (set_sem_value cron_sem 0) ;;
   atom (set_sem_value sem_mm 1) ;;
   pfor 0 TER (fun i =>
     let! free_frame := getfreeframe i 31 1 in
     atom (copy_words (free_frame * PAGESIZE) boot_code) ;;
     atom (edit_page (unprivileged_seg_page_table i) 31 (set_pd_p 1)) ;;
     atom (edit_page (unprivileged_seg_page_table i) 31 (set_pd_frame free_frame))) ;;
   atom (put_var p_alive TER) ;;
   let! st := STST_local in
   let! sp := atom (var_ Scronstack) in
   mem (LDST_ (daemon_state fn_p1a sp p1a_seg_table st)))%U.

(** ** [cron]: the process that ends delays *)

(** the test of one delay *)
Definition wake_delayed (i : Z) : prog sl unit :=
  (let! v := atom (sem_value (d_sem_value i)) in
   if v <? 0 then
     let! cur := STCK_ in
     let! d := atom (delay i) in
     if d_time d <? i32 (cur - delay_start d) then V (d_sem_value i) else pret tt
   else pret tt)%U.

(** whether a process is delayed *)
Fixpoint any_delayed (i : Z) (n : nat) (clock : Z) : MS Z :=
  match n with
  | O => ret clock
  | S n' =>
      let! v := sem_value (d_sem_value i) in
      any_delayed (i + 1) n' (if v <? 0 then 1 else clock)
  end.

Definition cron_round : prog sl unit :=
  (pfor 0 TER wake_delayed ;;
   let! clock := atom (any_delayed 0 (Z.to_nat TER) 0) in
   if negb (clock =? 0) then SYS 7 else P cron_sem)%U.

Definition cron : prog sl unit :=
  (pwhile (let! n := atom (var_ p_alive) in pret (0 <? n)) cron_round ;;
   SYS 2)%U.

(** ** T-processes *)

(** the state of T-process [i], which starts in [tprocess] with its number in d4 *)
Definition process_state (i sp : Z) (st : state_t) : state_t :=
  let 'mk_state r sr tmp crp := set_reg 4%fin i (set_sp sp (set_pc (sl_sym fn_tprocess) st)) in
  mk_state r sr tmp (addr_table (privileged_seg i)).

(** [p1a_s] is one variable: each iteration changes the fields the last one set *)
Definition p1a : prog sl unit :=
  (let! st := STST_local in
   pfor 0 TER (fun i =>
     let! sp := atom (var_ (Tsysstack i)) in
     create_local (process_state i sp st)) ;;
   cron)%U.

(** the state in which the handler [f] of T-process [num] starts *)
Definition handler_state (f : sl_func) (num sp : Z) (st : state_t) : state_t :=
  let 'mk_state r sr tmp crp := set_reg 4%fin num (set_sp sp (set_pc (sl_sym f) st)) in
  mk_state r sr tmp (addr_table (privileged_seg num)).

(** [STST(&sa[num].x)] and the assignments to it *)
Definition init_handler (num : Z) (x : sa_member) (f : sl_func) (stack : var) : prog sl unit :=
  (STST_ (sa_addr num x) ;;
   let! sp := atom (var_ stack) in
   edit_state (sa_addr num x) (handler_state f num sp))%U.

(** SYS5 for one kind of trap *)
Definition specify_trap (type num : Z) (old new : sa_member) : prog sl unit :=
  (set_r2 type ;;
   set_r3 (sa_addr num old) ;;
   set_r4 (sa_addr num new) ;;
   SYS 5)%U.

(** the state in which the program of T-process [num] starts, in its own segments *)
Definition user_state (num : Z) (st : state_t) : state_t :=
  let 'mk_state r sr tmp crp := set_sp (0x80000 + 32 * PAGESIZE - 2) (set_pc (0x80000 + 31 * PAGESIZE) st) in
  mk_state r (set_ps_s 0 sr) tmp (addr_table (unprivileged_seg num)).

Definition tprocess : prog sl unit :=
  (let! tp := STST_local in
   let num := s_r tp !!! 4%fin in
   init_handler num sa_prog_new fn_slproghandler (Tsysstack num) ;;
   init_handler num sa_mm_new fn_slmmhandler (Tmmstack num) ;;
   init_handler num sa_sys_new fn_slsyshandler (Tsysstack num) ;;
   specify_trap 0 num sa_prog_old sa_prog_new ;;
   specify_trap 1 num sa_mm_old sa_mm_new ;;
   specify_trap 2 num sa_sys_old sa_sys_new ;;
   mem (LDST_ (user_state num tp)))%U.

(** ** Trap handlers of a T-process *)

(** [STST(&st); num = st.s_r[4]] *)
Definition handler_num : prog sl Z := (let! st := STST_local in pret (s_r st !!! 4%fin))%U.

Definition slproghandler : prog sl unit :=
  (let! num := handler_num in
   Terminate (sa_addr num sa_prog_old) num ;;
   LDST_at (sa_addr num sa_prog_old))%U.

(** a missing page of [seg], whose table is [t], gets a frame *)
Definition page_fault (t : page_table) (num page_ seg_ : Z) : prog sl unit :=
  (let! page_frame := getfreeframe num page_ seg_ in
   let! d := atom (page t page_) in
   (if pd_r d =? 0 then pagein num page_ seg_ page_frame else pret tt) ;;
   P sem_mm ;;
   atom (edit_page t page_ (set_pd_frame page_frame)) ;;
   atom (edit_page t page_ (set_pd_p 1)) ;;
   V sem_mm)%U.

Definition slmmhandler : prog sl unit :=
  (let! num := handler_num in
   let! old := get_state (sa_addr num sa_mm_old) in
   let page_ := mm_pg (s_tmp old) in
   let seg_ := mm_seg (s_tmp old) in
   let! sd := atom (seg (privileged_seg num) seg_) in
   (if sd_p sd =? 0 then Terminate (sa_addr num sa_mm_old) num
    else if seg_ =? 0 then Terminate (sa_addr num sa_mm_old) num
    else if seg_ =? 1 then page_fault (unprivileged_seg_page_table num) num page_ 1
    else page_fault shared_seg_table_page_table num page_ 2) ;;
   LDST_at (sa_addr num sa_mm_old))%U.

(** the [switch] of [slsyshandler] *)
Definition sl_syscall (n old num : Z) : prog sl unit :=
  if n =? 9 then Read_from_Terminal old num
  else if n =? 10 then Write_to_Terminal old num
  else if n =? 11 then V_Virtual_Semaphore old num
  else if n =? 12 then P_Virtual_Semaphore old num
  else if n =? 13 then Delay old num
  else if n =? 14 then Disk_Put old num
  else if n =? 15 then Disk_Get old num
  else if n =? 16 then Get_Time_of_Day old num
  else if n =? 17 then Terminate old num
  else pret tt.

Definition slsyshandler : prog sl unit :=
  (let! num := handler_num in
   let! old := get_state (sa_addr num sa_sys_old) in
   sl_syscall (sys_no (s_tmp old)) (sa_addr num sa_sys_old) num ;;
   LDST_at (sa_addr num sa_sys_old))%U.

(** ** The program *)

Definition body (f : sl_func) : prog sl unit :=
  match f with
  | fn_p1a => p1a | fn_tprocess => tprocess | fn_slproghandler => slproghandler
  | fn_slmmhandler => slmmhandler | fn_slsyshandler => slsyshandler
  | fn_pagedaemon => pagedaemon | fn_diskdaemon => diskdaemon
  end.
Definition all_funcs : list sl_func :=
  [fn_p1a; fn_tprocess; fn_slproghandler; fn_slmmhandler; fn_slsyshandler; fn_pagedaemon; fn_diskdaemon].

(** the program at an address, [user] being the programs that the T-processes load *)
Definition entry (user : Z -> option (prog sl unit)) (a : Z) : option (prog sl unit) :=
  if a =? sym sym_p1 then Some p1
  else match head (filter (fun f => sl_sym f =? a = true) all_funcs) with
       | Some f => Some (body f)
       | None => user a
       end.
End support.
