(* ===== verification/BootCode.v ===== *)
(** * Properties: the boot strap code

    The eleven words of [src/support/part1/bootcode.c] that [p1] copies into page 31 of the
    private segment of each T-process, decoded and run.  The processor's instructions are
    those of [M68k.v]; the addresses are those of the T-process. *)

From S2P Require Import StubSpec SupportP1.
Local Open Scope Z_scope.

(** ** Machine code *)

(** [n] bits of [w] from bit [i] on, and a signed number *)
Definition field (w i n : Z) : Z := Z.land (Z.shiftr w i) (2 ^ n - 1).
Definition signed (n v : Z) : Z := if Z.testbit v (n - 1) then v - 2 ^ n else v.
Definition cond_of (c : Z) : option cond :=
  if c =? 0 then Some c_true else if c =? 7 then Some c_eq else if c =? 12 then Some c_ge else if c =? 13 then Some c_lt else None.

(** the instruction at [pc], in the forms that the loader uses, and the address after it *)
Definition decode (m : memory) (pc : Z) : option (instr Z * Z) :=
  let w := rd16 m pc in
  let hi := field w 9 3 in
  let n := field w 0 3 in
  let op mask v := Z.land w mask =? v in
  if op 0xf1ff 0x41f9 then Some (Ilea (rd32 m (pc + 2)) hi, pc + 6)
  else if op 0xf1f8 0x2008 then Some (Imove sz_l (Oa n) (Od hi), pc + 2)
  else if op 0xfff0 0x4e40 then Some (Itrap (field w 0 4), pc + 2)
  else if op 0xfff8 0x4a80 then Some (Itst sz_l (Od n), pc + 2)
  else if op 0xf0ff 0x6000 then
    match cond_of (field w 8 4) with
    | Some c => Some (Ib c (pc + 2 + signed 16 (rd16 m (pc + 2))), pc + 4)
    | None => None
    end
  else if op 0xffff 0x4ef9 then Some (Ijmp (rd32 m (pc + 2)), pc + 6)
  else if op 0xf1f8 0xd1c0 then Some (Iadd sz_l (Od n) (Oa hi), pc + 2)
  else if op 0xf100 0x7000 then Some (Imove sz_l (Oimm (signed 8 (field w 0 8))) (Od hi), pc + 2)
  else if op 0xf1f8 0xb080 then Some (Icmp sz_l (Od n) hi, pc + 2)
  else if op 0xf1ff 0x10bc then Some (Imove sz_b (Oimm (field (rd16 m (pc + 2)) 0 8)) (Om 0 hi), pc + 4)
  else if op 0xf1f8 0x5048 then Some (Iadd sz_w (Oimm (if hi =? 0 then 8 else hi)) (Oa n), pc + 2)
  else if op 0xffff 0x4e71 then Some (Inop, pc + 2)
  else None.

(** ** The loader *)

Definition PROGRAM : Z := 0x80000.
Definition LOADER : Z := PROGRAM + 31 * PAGESIZE.

Fixpoint write_words (a : Z) (l : list Z) (m : memory) : memory :=
  match l with [] => m | w :: l' => write_words (a + 4) l' (wr32 m a w) end.
Fixpoint write_bytes (a : Z) (l : list Z) (m : memory) : memory :=
  match l with [] => m | c :: l' => write_bytes (a + 1) l' (wr8 m a c) end.

(** the code in memory *)
Definition loaded_code (m : memory) : Prop :=
  forall x, LOADER <= x < LOADER + 44 -> rd8 m x = rd8 (write_words LOADER boot_code (fun _ => 0)) x.

(** SYS9 as [Read_from_Terminal] answers it, with the lines that are left on the terminal:
    the characters go to the address in d3, their number to d2; at the end of input d2 is
    negative *)
Definition SYS9_answer (lines : list (list Z)) (s : m68) : m68 * list (list Z) :=
  match lines with
  | [] => (put_m_reg 2 (u32 (- ENDOFINPUT)) s, [])
  | l :: lines' => (put_m_reg 2 (Z.of_nat (length l)) (set_m_mem (write_bytes (u32 (m_reg s 3)) l (m_mem s)) s), lines')
  end.

(** the loader from [pc] on, until it jumps to the program *)
Fixpoint load (fuel : nat) (pc : Z) (s : m68) (lines : list (list Z)) : option (m68 * list (list Z)) :=
  if pc =? PROGRAM then Some (s, lines)
  else
    match fuel, decode (m_mem s) pc with
    | S fuel', Some (i, next) =>
        match exec1 i s with
        | Some (Fnext, s') => load fuel' next s' lines
        | Some (Fbranch a, s') | Some (Fjump a, s') => load fuel' a s' lines
        | Some (Ftrap n, s') =>
            if n =? 5 then let '(s2, lines') := SYS9_answer lines s' in load fuel' next s2 lines' else None
        | None => None
        end
    | _, _ => None
    end.

(** a run on two lines *)
Definition start_loader : m68 := mk_m68 (fun _ => 0) 0 0 (write_words LOADER boot_code (fun _ => 0)).
Example load_2 :
  option_map (fun '(s, l) => (m_mem s <$> seqZ PROGRAM 7, m_reg s 8, l)) (load 40 LOADER start_loader [[104; 105]; [106; 107; 108]]) =
  Some ([104; 105; 10; 106; 107; 108; 10], PROGRAM + 7, []).
Proof. vm_compute. reflexivity. Qed.

(** ** Decoding *)

Lemma rd16_rd8 m m' a : rd8 m a = rd8 m' a -> rd8 m (a + 1) = rd8 m' (a + 1) -> rd16 m a = rd16 m' a.
Proof. intros E1 E2. unfold rd16. by rewrite E1, E2. Qed.
Lemma decode_agree m m' pc : (forall x, pc <= x < pc + 6 -> rd8 m x = rd8 m' x) -> decode m pc = decode m' pc.
Proof.
  intros E. unfold decode, rd32. rewrite !(rd16_rd8 m m') by (apply E; lia). done.
Qed.

(** the instruction at an offset of the loader *)
Lemma decode_at m k X : loaded_code m -> 0 <= k <= 38 ->
  decode (write_words LOADER boot_code (fun _ => 0)) (LOADER + k) = X -> decode m (LOADER + k) = X.
Proof. intros L Hk <-. apply decode_agree. intros x Hx. apply L. lia. Qed.

Lemma write_bytes_app a l1 l2 m : write_bytes a (l1 ++ l2) m = write_bytes (a + Z.of_nat (length l1)) l2 (write_bytes a l1 m).
Proof.
  revert a m. induction l1 as [|c l1 IH]; intros a m; cbn [app length write_bytes]; [f_equal; lia |]. rewrite IH. f_equal. lia.
Qed.
Lemma write_bytes_other a l m x : ~ a <= x < a + Z.of_nat (length l) -> write_bytes a l m x = m x.
Proof.
  revert a m. induction l as [|c l IH]; intros a m Hx; [done |]. cbn [write_bytes length] in *. rewrite IH by lia. apply wr8_other. lia.
Qed.
Lemma loaded_code_write a l m : a + Z.of_nat (length l) <= LOADER -> loaded_code m -> loaded_code (write_bytes a l m).
Proof. intros Ha L x Hx. rewrite <- (L x Hx). unfold rd8. by rewrite write_bytes_other by lia. Qed.

(** ** Condition codes *)

Lemma flag_nv n z v c s : flag_n (load_flags n z v c s) = n /\ flag_v (load_flags n z v c s) = v.
Proof.
  unfold flag_n, flag_v, load_flags. cbn [m_sr set_m_sr]. rewrite !Z.lor_spec, !Z.ldiff_spec.
  change (Z.testbit 0xf 3) with true. change (Z.testbit 0xf 1) with true. rewrite !andb_false_r. by destruct n, z, v, c.
Qed.
Lemma negative_sz_l v : 0 <= v < 2 ^ 32 -> negative sz_l v = (2 ^ 31 <=? v).
Proof.
  intros Hv. unfold negative. cbn [width]. change (32 - 1) with 31. rewrite Z.testbit_eqb by lia.
  destruct (Z.leb_spec (2 ^ 31) v); apply Z.eqb_eq || apply Z.eqb_neq.
  - replace (v / 2 ^ 31) with 1; [done |]. apply Z.div_unique with (v - 2 ^ 31); lia.
  - rewrite Z.div_small by lia. done.
Qed.

(** ** One step *)

Section steps.
Implicit Types (s : m68) (lines : list (list Z)).

(** from [pc] the loader advances in at most [k] steps to [pc'] *)
Definition advances (k : nat) pc s lines pc' s' lines' : Prop :=
  exists j, (j <= k)%nat /\ forall f, load (j + f) pc s lines = load f pc' s' lines'.

Lemma advances_refl pc s lines : advances 0 pc s lines pc s lines.
Proof. by exists 0%nat. Qed.
Lemma advances_trans k1 k2 pc s lines pc1 s1 lines1 pc2 s2 lines2 :
  advances k1 pc s lines pc1 s1 lines1 -> advances k2 pc1 s1 lines1 pc2 s2 lines2 -> advances (k1 + k2) pc s lines pc2 s2 lines2.
Proof.
  intros (j1 & H1 & E1) (j2 & H2 & E2). exists (j1 + j2)%nat. split; [lia |]. intros f. by rewrite <- Nat.add_assoc, E1, E2.
Qed.

(** one instruction at an offset, that does not trap *)
Lemma advances_step k s lines i next pc' s' n pc2 s2 lines2 :
  loaded_code (m_mem s) -> 0 <= k <= 38 -> decode (write_words LOADER boot_code (fun _ => 0)) (LOADER + k) = Some (i, next) ->
  (exec1 i s = Some (Fnext, s') /\ pc' = next \/ exec1 i s = Some (Fbranch pc', s') \/ exec1 i s = Some (Fjump pc', s')) ->
  advances n pc' s' lines pc2 s2 lines2 -> advances (S n) (LOADER + k) s lines pc2 s2 lines2.
Proof.
  intros L Hk HD HE (j & Hj & EJ). exists (S j). split; [lia |]. intros f. cbn [Nat.add load].
  rewrite (proj2 (Z.eqb_neq _ _)) by (unfold LOADER, PROGRAM, PAGESIZE; lia). rewrite (decode_at _ _ _ L Hk HD).
  destruct HE as [[-> ->] | [-> | ->]]; apply EJ.
Qed.
Lemma advances_trap s lines n pc2 s2 lines2 : loaded_code (m_mem s) ->
  advances n (LOADER + 10) (SYS9_answer lines s).1 (SYS9_answer lines s).2 pc2 s2 lines2 -> advances (S n) (LOADER + 8) s lines pc2 s2 lines2.
Proof.
  intros L (j & Hj & EJ). exists (S j). split; [lia |]. intros f. cbn [Nat.add load].
  change (LOADER + 8 =? PROGRAM) with false. rewrite (decode_at _ 8 (Some (Itrap 5, LOADER + 10)) L) by (lia || reflexivity).
  unfold exec1. cbn [privileged andb effect_of]. change (5 =? 5) with true. cbn match. destruct (SYS9_answer lines s). apply EJ.
Qed.
End steps.

(** ** One line *)

(** the newline after a line of [k] characters *)
Definition newline (k : Z) : list Z := if k <=? 127 then [10] else [].
(** what the loader makes of a line: it puts a newline after a line that does not fill the
    buffer of the terminal *)
Definition line_image (l : list Z) : list Z := l ++ newline (Z.of_nat (length l)).
Definition image (lines : list (list Z)) : list Z := concat (line_image <$> lines).

(** the head of the loop, [n] bytes having been loaded *)
Record at_head (n : Z) (s : m68) : Prop := {
  ah_code : loaded_code (m_mem s);
  ah_a0 : m_reg s 8 = PROGRAM + n }.

Lemma exec1_tst s : 0 <= m_reg s 2 < 2 ^ 32 ->
  exists s', exec1 (T := Z) (Itst sz_l (Od 2)) s = Some (Fnext, s') /\ holds_cond c_ge s' = (m_reg s 2 <? 2 ^ 31) /\
    m_reg s' = m_reg s /\ m_mem s' = m_mem s.
Proof.
  intros Hr. eexists. split; [reflexivity |]. cbn [value width m_reg]. rewrite Z.mod_small by (cbn; lia).
  unfold tested, holds_cond. match goal with |- context [load_flags ?n ?z ?v ?c ?s] => destruct (flag_nv n z v c s) as [-> ->] end.
  rewrite negative_sz_l by done. split; [| done]. destruct (Z.leb_spec (2 ^ 31) (m_reg s 2)), (Z.ltb_spec (m_reg s 2) (2 ^ 31)); done || lia.
Qed.
Lemma exec1_cmp s : 0 <= m_reg s 2 < 2 ^ 31 -> m_reg s 4 mod 2 ^ 32 = 127 ->
  exists s', exec1 (T := Z) (Icmp sz_l (Od 2) 4) s = Some (Fnext, s') /\ holds_cond c_lt s' = (127 <? m_reg s 2) /\
    m_reg s' = m_reg s /\ m_mem s' = m_mem s.
Proof.
  intros Hr H4. eexists. split; [reflexivity |]. cbn [value width m_reg]. rewrite H4, (Z.mod_small (m_reg s 2)) by lia.
  unfold compared, holds_cond. match goal with |- context [load_flags ?n ?z ?v ?c ?s] => destruct (flag_nv n z v c s) as [-> ->] end.
  split; [| done]. rewrite (negative_sz_l 127), (negative_sz_l (m_reg s 2)), negative_sz_l by (try apply Z.mod_pos_bound; cbn; lia). cbn [width].
  change (2 ^ 31 <=? 127) with false. rewrite (proj2 (Z.leb_gt (2 ^ 31) (m_reg s 2))) by lia. cbn [Bool.eqb negb andb].
  destruct (Z.ltb_spec 127 (m_reg s 2)).
  - rewrite <- (Z.mod_unique (127 - m_reg s 2) (2 ^ 32) (-1) (127 - m_reg s 2 + 2 ^ 32)) by lia. by rewrite (proj2 (Z.leb_le _ _)) by lia.
  - rewrite Z.mod_small by lia. by rewrite (proj2 (Z.leb_gt _ _)) by lia.
Qed.

(** a move to a data register *)
Lemma exec1_move src n v s : value sz_l src s = Some v ->
  exists s', exec1 (T := Z) (Imove sz_l src (Od n)) s = Some (Fnext, s') /\ m_reg s' n mod 2 ^ 32 = v mod 2 ^ 32 /\
    (forall i, i <> n -> m_reg s' i = m_reg s i) /\ m_mem s' = m_mem s.
Proof.
  intros Hv. eexists. split; [unfold exec1; cbn [privileged andb effect_of]; rewrite Hv; reflexivity |].
  unfold moved, is_an, tested, load_flags. cbn [assign option_map put_m_reg set_m_reg set_m_sr m_reg m_mem width]. split; [| split; [| done]].
  - rewrite put_eq by done. rewrite Z.add_mod, (Zminus_mod (m_reg s n)), Z.mod_mod, Z.sub_diag, Z.mod_0_l, Z.add_0_l, !Z.mod_mod by lia. done.
  - intros i Hi. by rewrite put_ne.
Qed.

Lemma exec1_adda z src n v s : 0 <= v < 2 ^ 15 -> z <> sz_b -> value z src s = Some v ->
  exec1 (T := Z) (Iadd z src (Oa n)) s = Some (Fnext, put_m_reg (8 + n) (u32 (m_reg s (8 + n) + v)) s).
Proof.
  intros Hv Hz E. unfold exec1. cbn [privileged andb]. destruct z; [done | |];
    cbn [effect_of]; rewrite E; unfold negative; rewrite (small_bits v _ 15) by (cbn; lia); done.
Qed.

(** a conditional branch *)
Lemma advances_branch k s lines c t next n pc2 s2 lines2 :
  loaded_code (m_mem s) -> 0 <= k <= 38 -> decode (write_words LOADER boot_code (fun _ => 0)) (LOADER + k) = Some (Ib c t, next) ->
  advances n (if holds_cond c s then t else next) s lines pc2 s2 lines2 -> advances (S n) (LOADER + k) s lines pc2 s2 lines2.
Proof.
  intros L Hk HD HG. eapply advances_step; [done | done | exact HD | | exact HG].
  unfold exec1. cbn [privileged andb effect_of]. destruct (holds_cond c s); [right; by left | by left].
Qed.

Lemma advances_newline k q s lines : loaded_code (m_mem s) -> m_reg s 8 = PROGRAM + q -> holds_cond c_lt s = (127 <? k) ->
  0 <= q -> q + Z.of_nat (length (newline k)) <= 31 * PAGESIZE ->
  exists s', advances 4 (LOADER + 28) s lines (LOADER + 6) s' lines /\ m_reg s' 8 = PROGRAM + q + Z.of_nat (length (newline k)) /\
    m_mem s' = write_bytes (PROGRAM + q) (newline k) (m_mem s) /\ m_reg s' 15 = m_reg s 15.
Proof.
  intros L A C Hq Hlen. unfold newline in *. destruct (Z.leb_spec k 127) as [Hk | Hk]; cbn [length] in *; unfold PAGESIZE in Hlen.
  - set (s1 := tested sz_b 10 (set_m_mem (wr8 (m_mem s) (PROGRAM + q) 10) s)).
    assert (exec1 (T := Z) (Imove sz_b (Oimm 10) (Om 0 0)) s = Some (Fnext, s1)) as X1.
    { unfold exec1. cbn [privileged andb effect_of value assign ea]. change (8 + 0) with 8. rewrite A, Z.add_0_r, u32_id by (unfold PROGRAM; lia). done. }
    assert (m_mem s1 = write_bytes (PROGRAM + q) [10] (m_mem s)) as M1 by done.
    assert (loaded_code (m_mem s1)) as L1 by (rewrite M1; apply loaded_code_write; [cbn; unfold LOADER, PROGRAM, PAGESIZE; lia | done]).
    assert (exec1 (T := Z) (Iadd sz_w (Oimm 1) (Oa 0)) s1 = Some (Fnext, put_m_reg 8 (PROGRAM + q + 1) s1)) as X2.
    { rewrite (exec1_adda sz_w _ _ 1) by (lia || done). change (8 + 0) with 8. change (m_reg s1 8) with (m_reg s 8). by rewrite A, u32_id by (unfold PROGRAM; lia). }
    exists (put_m_reg 8 (PROGRAM + q + 1) s1). split; [| by repeat split].
    eapply (advances_branch 28); [done | lia | reflexivity |]. rewrite C, (proj2 (Z.ltb_ge _ _)) by lia.
    eapply (advances_step 32); [done | lia | reflexivity | by left |].
    eapply (advances_step 36); [done | lia | reflexivity | by left |].
    eapply (advances_branch 38); [done | lia | reflexivity |]. apply advances_refl.
  - exists s. rewrite Z.add_0_r. split; [| done]. 
    assert (advances 2 (LOADER + 28) s lines (LOADER + 6) s lines) as (j & Hj & E).
    { eapply (advances_branch 28); [done | lia | reflexivity |]. rewrite C, (proj2 (Z.ltb_lt _ _)) by lia.
      eapply (advances_branch 38); [done | lia | reflexivity |]. apply advances_refl. }
    exists j. split; [lia | exact E].
Qed.

Lemma advances_line n s l lines :
  at_head n s -> (1 <= length l)%nat -> 0 <= n -> n + Z.of_nat (length (line_image l)) <= 31 * PAGESIZE ->
  exists s', advances 11 (LOADER + 6) s (l :: lines) (LOADER + 6) s' lines /\ at_head (n + Z.of_nat (length (line_image l))) s' /\
    m_mem s' = write_bytes (PROGRAM + n) (line_image l) (m_mem s) /\ m_reg s' 15 = m_reg s 15.
Proof.
  intros [Hc Ha] Hl Hn Hlen. unfold line_image in *. rewrite length_app in *. set (k := Z.of_nat (length l)) in *. unfold PAGESIZE in Hlen.
  destruct (exec1_move (Oa 0) 3 (PROGRAM + n) s) as (s1 & X1 & D3 & R1 & M1).
  { cbn [value width]. change (8 + 0) with 8. rewrite Ha. rewrite Z.mod_small by (unfold PROGRAM; lia). done. }
  set (s2 := (SYS9_answer (l :: lines) s1).1). assert (m_mem s2 = write_bytes (PROGRAM + n) l (m_mem s)) as M2.
  { unfold s2, SYS9_answer. cbn [fst put_m_reg set_m_reg set_m_mem m_mem]. unfold u32. rewrite D3, M1. f_equal. apply Z.mod_small. unfold PROGRAM. lia. }
  assert (m_reg s2 2 = k) as D2 by done. assert (forall i, i <> 2 -> i <> 3 -> m_reg s2 i = m_reg s i) as R2.
  { intros i H2 H3. unfold s2. cbn. rewrite put_ne by done. by apply R1. }
  assert (loaded_code (m_mem s2)) as L2 by (rewrite M2; apply loaded_code_write; [unfold LOADER, PROGRAM, PAGESIZE; lia | done]).
  destruct (exec1_tst s2) as (s3 & X3 & C3 & R3 & M3); [lia |].
  assert (exec1 (T := Z) (Iadd sz_l (Od 2) (Oa 0)) s3 = Some (Fnext, put_m_reg 8 (PROGRAM + n + k) s3)) as X4.
  { rewrite (exec1_adda sz_l _ _ k); [| lia | done | cbn [value width]; rewrite R3, D2, Z.mod_small by lia; done]. change (8 + 0) with 8.
    rewrite R3, R2, Ha, u32_id by (unfold PROGRAM; lia). done. }
  set (s4 := put_m_reg 8 (PROGRAM + n + k) s3) in *.
  destruct (exec1_move (Oimm 127) 4 127 s4) as (s5 & X5 & D5 & R5 & M5); [done |].
  destruct (exec1_cmp s5) as (s6 & X6 & C6 & R6 & M6); [rewrite R5 by done; change (m_reg s4 2) with (m_reg s3 2); rewrite R3, D2; lia | exact D5 |].
  rewrite R5 in C6 by done. change (m_reg s4 2) with (m_reg s3 2) in C6. rewrite R3, D2 in C6.
  assert (m_mem s6 = write_bytes (PROGRAM + n) l (m_mem s)) as E6 by by rewrite M6, M5; change (m_mem s4) with (m_mem s3); rewrite M3.
  assert (m_reg s6 8 = PROGRAM + n + k) as A6 by by rewrite R6, R5 by done; apply put_eq.
  assert (m_reg s6 15 = m_reg s 15) as S6.
  { rewrite R6, R5 by done. change (m_reg s4 15) with (m_reg s3 15). by rewrite R3, R2 by done. }
  destruct (advances_newline k (n + k) s6 lines) as (s7 & G7 & A7 & M7 & S7); try lia; [by rewrite E6, <- M2 | done | unfold PAGESIZE; lia |].
  exists s7. split; [| split; [split | split]].
  - change 11%nat with (1 + (1 + (1 + (1 + (1 + (1 + (1 + 4)))))))%nat.
    eapply (advances_step 6); [done | lia | reflexivity | by left |].
    apply (advances_trap s1); [unfold loaded_code; by rewrite M1 |].
    eapply (advances_step 10); [exact L2 | lia | reflexivity | by left |].
    eapply (advances_branch 12); [unfold loaded_code; by rewrite M3 | lia | reflexivity |]. rewrite C3, D2, (proj2 (Z.ltb_lt _ _)) by lia.
    eapply (advances_step 22); [unfold loaded_code; by rewrite M3 | lia | reflexivity | by left |].
    eapply (advances_step 24); [unfold loaded_code; change (m_mem s4) with (m_mem s3); by rewrite M3 | lia | reflexivity | by left |].
    eapply (advances_step 26); [unfold loaded_code; rewrite M5; change (m_mem s4) with (m_mem s3); by rewrite M3 | lia | reflexivity | by left |].
    exact G7.
  - rewrite M7, E6. apply loaded_code_write; [unfold LOADER, PROGRAM, PAGESIZE; lia |]. by rewrite <- M2.
  - rewrite A7. lia.
  - rewrite M7, E6, write_bytes_app. f_equal. lia.
  - by rewrite S7.
Qed.

(** ** The whole input *)

Lemma advances_lines lines : forall n s,
  at_head n s -> Forall (fun l => (1 <= length l)%nat) lines -> 0 <= n -> n + Z.of_nat (length (image lines)) <= 31 * PAGESIZE ->
  exists s', advances (11 * length lines) (LOADER + 6) s lines (LOADER + 6) s' [] /\ at_head (n + Z.of_nat (length (image lines))) s' /\
    m_mem s' = write_bytes (PROGRAM + n) (image lines) (m_mem s) /\ m_reg s' 15 = m_reg s 15.
Proof.
  induction lines as [|l lines IH]; intros n s H HF Hn Hlen.
  - exists s. rewrite Z.add_0_r. split; [apply advances_refl | done].
  - change (image (l :: lines)) with (line_image l ++ image lines) in *. rewrite length_app in *. apply Forall_cons in HF as [Hl HF].
    destruct (advances_line n s l lines) as (s1 & G1 & H1 & M1 & S1); [done | done | done | lia |].
    destruct (IH _ _ H1 HF) as (s2 & G2 & H2 & M2 & S2); [lia | lia |]. exists s2. split; [| split; [| split]].
    + replace (11 * length (l :: lines))%nat with (11 + 11 * length lines)%nat by (cbn; lia). by eapply advances_trans.
    + by replace (n + Z.of_nat (length (line_image l) + length (image lines))) with (n + Z.of_nat (length (line_image l)) + Z.of_nat (length (image lines))) by lia.
    + rewrite M2, M1, write_bytes_app. f_equal. lia.
    + by rewrite S2.
Qed.

(** the end of input *)
Lemma advances_end n s : at_head n s -> exists s', advances 5 (LOADER + 6) s [] PROGRAM s' [] /\ m_mem s' = m_mem s /\ m_reg s' 15 = m_reg s 15.
Proof.
  intros [Hc Ha]. destruct (exec1_move (Oa 0) 3 (m_reg s 8 mod 2 ^ 32) s eq_refl) as (s1 & X1 & D3 & R1 & M1).
  set (s2 := (SYS9_answer [] s1).1). destruct (exec1_tst s2) as (s3 & X3 & C3 & R3 & M3); [done |].
  exists s3. split; [| by rewrite M3, R3; change (m_mem s2) with (m_mem s1); change (m_reg s2 15) with (m_reg s1 15); rewrite M1, R1].
  assert (loaded_code (m_mem s1)) as L1 by by rewrite M1. assert (loaded_code (m_mem s3)) as L3 by by rewrite M3.
  change 5%nat with (1 + (1 + (1 + (1 + (1 + 0)))))%nat.
  eapply (advances_step 6); [done | lia | reflexivity | by left |]. apply (advances_trap s1); [done |].
  eapply (advances_step 10); [exact L1 | lia | reflexivity | by left |].
  eapply (advances_branch 12); [done | lia | reflexivity |]. rewrite C3. change (m_reg s2 2 <? 2 ^ 31) with false.
  eapply (advances_step 16); [done | lia | reflexivity | right; by right |]. apply advances_refl.
Qed.

(** C27. The boot strap code loads the program of a T-process from its terminal.  Run from
    the start of page 31, when the lines on the terminal, none empty, with a newline after each
    that has at most 127 characters, are at most 31 pages long, it ends in the jump to
    address 0x80000, after at most 11 instructions for each line and 6 more; the terminal
    has been read to the end, the bytes of the lines are at 0x80000 in their order, the rest
    of memory, the loader in it, and the stack pointer are as they were. *)
Theorem boot_code_loads lines s :
  loaded_code (m_mem s) -> Forall (fun l => (1 <= length l)%nat) lines -> Z.of_nat (length (image lines)) <= 31 * PAGESIZE ->
  exists s', (forall fuel, (11 * length lines + 6 <= fuel)%nat -> load fuel LOADER s lines = Some (s', [])) /\
    m_mem s' = write_bytes PROGRAM (image lines) (m_mem s) /\ m_reg s' 15 = m_reg s 15.
Proof.
  intros L HF Hlen. set (s1 := put_m_reg 8 PROGRAM s). assert (at_head 0 s1) as H1 by by split; [| apply put_eq].
  destruct (advances_lines lines 0 s1 H1 HF) as (s2 & G2 & H2 & M2 & S2); [lia | lia |].
  destruct (advances_end _ _ H2) as (s3 & G3 & M3 & S3). exists s3. split; [| by rewrite M3, M2, S3, S2].
  assert (advances (1 + (11 * length lines + 5)) (LOADER + 0) s lines PROGRAM s3 []) as (j & Hj & E).
  { eapply (advances_step 0); [done | lia | reflexivity | by left |]. by eapply advances_trans. }
  intros fuel Hf. replace fuel with (j + (fuel - j))%nat by lia. change LOADER with (LOADER + 0). rewrite E. by destruct (fuel - j)%nat.
Qed.

Lemma boot_code_loads_witness :
  loaded_code (m_mem start_loader) /\ Forall (fun l => (1 <= length l)%nat) [[104; 105]; [106; 107; 108]] /\
  exists s', (forall fuel, (28 <= fuel)%nat -> load fuel LOADER start_loader [[104; 105]; [106; 107; 108]] = Some (s', [])) /\
    m_mem s' = write_bytes PROGRAM [104; 105; 10; 106; 107; 108; 10] (m_mem start_loader).
Proof.
  assert (loaded_code (m_mem start_loader)) as L by done.
  assert (Forall (fun l => (1 <= length l)%nat) [[104; 105]; [106; 107; 108]]) as HF by (repeat constructor).
  split; [exact L |]. split; [exact HF |].
  destruct (boot_code_loads [[104; 105]; [106; 107; 108]] start_loader L HF) as (s' & E & M & _); [vm_compute; discriminate |].
  exists s'. split; [exact E | exact M].
Defined.

(** [bootcode.c], which is the array of [support.c] *)
Definition bootcode : list Z :=
  [ 0x41f90008; 0x00002608; 0x4e454a82; 0x6c000008; 0x4ef90008; 0x0000d1c2; 0x787fb882;
    0x6d000008; 0x10bc000a; 0x52486000; 0xffde4e71 ].
Lemma bootcode_boot_code : bootcode = boot_code.
Proof. done. Qed.
