(* ===== verification/SupportSpec.v ===== *)
(** * The support level: rules for its accesses

    One rule of weakest preconditions for each access of [Support.v]. *)

From S2P Require Export SupportP1.
Local Open Scope kernel_scope.

Section access.
Context `{Support}.
Implicit Types (u : user sl) (X : exn -> user sl -> Prop).

(** [u] with other globals *)
Definition with_sl (g : sl) (u : user sl) : user sl := mk_user (u_k u) (u_cpu u) g.

Lemma wp_sl_gets_opt {A} e (f : sl -> option A) u a Q X :
  f (u_g u) = Some a -> Q a u -> wp (sl_ (gets_opt e f)) u Q X.
Proof. intros E HQ. apply wp_zoom. eapply wp_gets_opt; [exact E |]. by destruct u. Qed.
Lemma wp_sl_modify f u Q X : Q tt (with_sl (f (u_g u)) u) -> wp (sl_ (modify f)) u Q X.
Proof. intros HQ. apply wp_zoom, wp_modify. exact HQ. Qed.

Lemma wp_entry_of {A} (f : sl -> array A) i x u Q X :
  f (u_g u) !! i = Some x -> Q x u -> wp (entry_of f i) u Q X.
Proof. apply (wp_sl_gets_opt Fault (fun g => f g !! i)). Qed.
Lemma wp_edit_entry {A} (f : sl -> array A) set i h x u Q X :
  f (u_g u) !! i = Some x -> Q tt (with_sl (set (<[i := h x]> (f (u_g u))) (u_g u)) u) ->
  wp (edit_entry f set i h) u Q X.
Proof. intros E HQ. apply wp_bind. eapply wp_entry_of; [exact E |]. by apply wp_sl_modify. Qed.

Lemma wp_var v z u Q X : vars (u_g u) !! v = Some z -> Q z u -> wp (var_ v) u Q X.
Proof. apply (wp_sl_gets_opt Fault (fun g => vars g !! v)). Qed.
Lemma wp_put_var v z old u Q X :
  vars (u_g u) !! v = Some old -> Q tt (with_sl (set_vars (<[v := z]> (vars (u_g u))) (u_g u)) u) ->
  wp (put_var v z) u Q X.
Proof. intros E HQ. apply wp_bind. eapply wp_var; [exact E |]. by apply wp_sl_modify. Qed.

Lemma wp_sem_value s v u Q X : ints (k_asl (u_k u)) !! addr_sem s = Some v -> Q v u -> wp (sem_value s) u Q X.
Proof.
  intros E HQ. apply wp_zoom. apply wp_zoom. eapply wp_gets_opt; [exact E |].
  by destruct u as [[]].
Qed.

Lemma wp_page t i tab d u Q X :
  pages (u_g u) !! t = Some tab -> tab !! i = Some d -> Q d u -> wp (page t i) u Q X.
Proof.
  intros E1 E2 HQ. apply wp_bind. eapply (wp_sl_gets_opt Fault (fun g => pages g !! t)); [exact E1 |].
  by eapply (wp_sl_gets_opt Fault (fun _ => tab !! i)).
Qed.
Lemma wp_edit_page t i h tab d u Q X :
  pages (u_g u) !! t = Some tab -> tab !! i = Some d ->
  Q tt (with_sl (set_pages (<[t := <[i := h d]> tab]> (pages (u_g u))) (u_g u)) u) ->
  wp (edit_page t i h) u Q X.
Proof.
  intros E1 E2 HQ. apply wp_bind. eapply wp_page; [exact E1 | exact E2 |]. apply wp_sl_modify.
  replace (alter (fun tab => <[i := h d]> tab) t (pages (u_g u))) with (<[t := <[i := h d]> tab]> (pages (u_g u))); [done |].
  apply map_eq. intros t'. destruct (decide (t' = t)) as [-> |].
  - by rewrite lookup_alter_eq, E1, lookup_insert_eq.
  - by rewrite lookup_alter_ne, lookup_insert_ne.
Qed.

Lemma wp_disk_at i j row v u Q X :
  disk (u_g u) !! i = Some row -> row !! j = Some v -> Q v u -> wp (disk_at i j) u Q X.
Proof.
  intros E1 E2 HQ. apply wp_bind. eapply wp_entry_of; [exact E1 |].
  by eapply (wp_sl_gets_opt Fault (fun _ => row !! j)).
Qed.
Lemma wp_put_disk i j v row old u Q X :
  disk (u_g u) !! i = Some row -> row !! j = Some old ->
  Q tt (with_sl (set_disk (<[i := <[j := v]> row]> (disk (u_g u))) (u_g u)) u) ->
  wp (put_disk i j v) u Q X.
Proof.
  intros E1 E2 HQ. apply wp_bind. eapply wp_disk_at; [exact E1 | exact E2 |].
  by eapply (wp_edit_entry disk set_disk); [exact E1 |].
Qed.
End access.

Create HintDb support.

(** one step of symbolic execution in the support level, the entries it reads being
    found by [assumption] *)
Ltac sl_step :=
  lazymatch goal with
  | |- wp (pfs _) _ _ _ => eapply (wp_entry_of pfs_arr); [eassumption |]
  | |- wp (ds _) _ _ _ => eapply (wp_entry_of ds_arr); [eassumption |]
  | |- wp (edit_pfs _ _) _ _ _ => eapply (wp_edit_entry pfs_arr set_pfs_arr); [eassumption |]
  | |- wp (var_ _) _ _ _ => eapply wp_var; [eassumption |]
  | |- wp (sem_value _) _ _ _ => eapply wp_sem_value; [eassumption |]
  | |- wp (page _ _) _ _ _ => eapply wp_page; [eassumption | eassumption |]
  | |- wp (edit_page _ _ _) _ _ _ => eapply wp_edit_page; [eassumption | eassumption |]
  | |- wp (disk_at _ _) _ _ _ => eapply wp_disk_at; [eassumption | eassumption |]
  | |- wp (put_disk _ _ _) _ _ _ => eapply wp_put_disk; [eassumption | eassumption |]
  | |- _ => wp_step
  end; cbv beta.
Ltac sl_steps := repeat sl_step.
