(* ===== verification/Programs.v ===== *)
(** * Programs on the nucleus: P and V as big steps

    What a program does when it calls [passeren] and [verhogen] of [src/util], or [P] and
    [V] of the support level, on the machine of [Run.v]: the steps of the program, the
    trap, the handler and the return or the suspension, as one step. *)

From S2P Require Export Critical RunReach Page.
Local Open Scope kernel_scope.

Section steps.
Context `{Machine} {G : Type} (entry : Z -> option (prog G unit)).

(** ** Steps without an interrupt *)

(** the machine gets from [m] to [m'] by steps of the running program *)
Inductive goes : machine G -> machine G -> Prop :=
  | goes_refl m : goes m m
  | goes_step m m' : goes (step entry m) m' -> goes m m'.

Lemma goes_trans m1 m2 m3 : goes m1 m2 -> goes m2 m3 -> goes m1 m3.
Proof. induction 1 as [m | m m' H12 IH]; [done |]. intros H23. by apply goes_step, IH. Qed.

(** [m] with the user state [u], running [p] *)
Definition at_ (u : user G) (p : prog G unit) (m : machine G) : machine G := mk_machine u (Running p) (m_code m) (m_next m).
(** what a program does next *)
Abbreviation next p := (ITreeDefinition.observe p).
Definition like (p q : prog G unit) : Prop := next p = next q.

(** one access *)
Lemma goes_atom {A} (a : M exn (user G) A) (k : A -> prog G unit) p u m x u' m' :
  next p = ITreeDefinition.VisF (Atom a) k -> a u = Ret x u' -> goes (at_ u' (k x) m) m' -> goes (at_ u p m) m'.
Proof. intros Hp Ha HG. apply goes_step. unfold step, at_ at 1. cbn [m_status m_user]. rewrite Hp. cbn. rewrite Ha. exact HG. Qed.

Lemma goes_trap t k p u m m' :
  next p = ITreeDefinition.VisF (Trap t) k -> goes (suspend_ entry (k tt) (trap_vector t) (trap_word t) (at_ u p m)) m' ->
  goes (at_ u p m) m'.
Proof. intros Hp HG. apply goes_step. unfold step, at_ at 1. cbn [m_status]. rewrite Hp. exact HG. Qed.
End steps.

(** steps through the accesses of a program *)
Ltac access :=
  match goal with
  | |- goes _ (at_ ?u ?p ?m) _ =>
      let e := eval hnf in (ITreeDefinition.observe p) in
      match e with ITreeDefinition.VisF (Atom ?a) ?k => eapply (goes_atom _ a k p u m); [reflexivity | reflexivity |] end
  end.

Ltac trapped :=
  match goal with
  | |- goes _ (at_ ?u ?p ?m) _ =>
      let e := eval hnf in (ITreeDefinition.observe p) in
      match e with ITreeDefinition.VisF (Trap ?t) ?k => eapply (goes_trap _ t k p u m); [reflexivity |] end
  end.

Section passeren.
Context `{Machine} {G : Type} (entry : Z -> option (prog G unit)).

(** the state in which a program asks for one operation, with the vector at [v] *)
Definition asking (v op i : Z) (u : user G) : user G :=
  mk_user (with_cells [(v + 4, i); (v, op)] (u_k u)) (set_reg 4%fin v (set_reg 3%fin 1 (u_cpu u))) (u_g u).

(** [p] asks for the operation [op] on [i], and goes on with [q] *)
Definition asks_for (v op i : Z) (u : user G) (p q : prog G unit) : Prop :=
  exists p' q', like q' q /\
    forall m, goes entry (at_ u p m) (suspend_ entry q' (trap_vector (Sys 3)) 3 (at_ (asking v op i u) p' m)).

Lemma passeren_asks i (K : unit -> prog G unit) u :
  asks_for (s_r (u_cpu u) !!! 15%fin - 2 * VPOP_SIZE) LOCK i u (pbind (passeren i) K) (K tt).
Proof.
  eexists _, _. split; cycle 1.
  { intros m. do 5 access. trapped. rewrite Z.mul_0_r, Z.add_0_r. apply goes_refl. }
  reflexivity.
Qed.

Lemma verhogen_asks i (K : unit -> prog G unit) u :
  asks_for (s_r (u_cpu u) !!! 15%fin - 2 * VPOP_SIZE) UNLOCK i u (pbind (verhogen i) K) (K tt).
Proof.
  eexists _, _. split; cycle 1.
  { intros m. do 5 access. trapped. rewrite Z.mul_0_r, Z.add_0_r. apply goes_refl. }
  reflexivity.
Qed.
End passeren.

(** ** SYS3 on the machine *)

Section trap.
Context `{MachineOk} `{!Linked} (CR : Z -> option Z) (n : Z).

(** the trap of SYS3 in the processor state [cpu]: the caller goes on, or it waits and the
    dispatcher runs *)
Lemma take_sys3 k x m c r t p q cpu ops ss' :
  kview k x m c r -> nuc (CR := CR) n x m c r t -> ready x = p :: q -> in_user_mode (set_tmp 3 cpu) = false ->
  s_r cpu !!! 3%fin = Z.of_nat (length ops) -> vector_at m (s_r cpu !!! 4%fin) ops ->
  apart (s_r cpu !!! 4%fin) (Z.of_nat (length ops)) ops -> sem_run p ops (mk_ss x m false) = Some ss' ->
  let st := set_tmp 3 cpu in
  let y := ss_queues ss' in
  leaves_with (Run.take (trap_vector (Sys 3)) 3 cpu) k (fun e k' => exists c' r', is_Some (c' p) /\
    if ss_flag ss' then scheduled (set_ready (List.tl (ready y)) y) (ss_mem ss') (upd p (set_p_s st) c') r' e k'
    else e = Leave (LDST st) /\ kview k' y (ss_mem ss') c' r').
Proof.
  intros V N Hr Hmode Hlen Hvec Hap Hrun st y.
  eapply (take_handler (CR := CR) _ STLDSYS 3 0x930 3 sym_trapsyshandler); [exact V | exact N | member | done | member | handler |].
  intros k1 r1 V1 N1. destruct (ready_head_core _ _ _ _ _ _ _ V Hr) as [cp Hc].
  pose proof (area_sys (CR := CR) n x m c r1 t N1) as Ea.
  assert (states r1 !! 0x930 = Some st) as Hst by (cbn; apply lookup_insert_eq).
  eapply (trapsys_call k1 x m c r1 p q cp st); [exact V1 | exact Hr | exact Hc | by rewrite Ea | exact Hmode |].
  rewrite Ea. unfold st. rewrite tmp_set. change (sys_no 3) with 3. intros k2 V2.
  destruct (nuc_printer (CR := CR) n _ _ _ _ _ N1) as [d P].
  assert (printer_ok (set_readings (S (readings r1)) r1) d) as P2 by by destruct P.
  eapply wp_mono; [eapply (Sem_OP_spec k2 x m _ _ d 0x930 st p q ops ss' V2 P2 Hr Hst) | |]; try (by destruct cpu); try done.
  - cbv beta. intros [] k3 [Hfl V3]. eexists _, _, _, _. split; [exact V3 |].
    assert (is_Some (upd p (charged (clk (readings r1))) c p)) as Hc3 by (rewrite upd_eq, Hc; by eexists).
    split; [exact Hc3 |]. split; [by eexists |].
    intros e k4 (st' & Est & -> & V4). eexists _, _. rewrite Hfl. split; [| split; [| exact V4]].
    + rewrite upd_eq. by apply fmap_is_Some.
    + cbn in Est. rewrite lookup_insert_eq in Est. by injection Est as <-.
  - cbv beta. intros e k3 [Hfl HS]. eexists _, _. rewrite Hfl. split; [| exact HS].
    rewrite upd_eq, Hc. by eexists.
Qed.
End trap.

(** ** One operation, from the call to the return *)

(** the queues [x] in a state with the invariant *)
Definition stands_with `{Machine} (n : Z) (CR : Z -> option Z) (k : kernel) (x : absq) : Prop :=
  exists m c r t, kview k x m c r /\ nuc (CR := CR) n x m c r t.

Section call.
Context `{MachineOk} `{!Linked} {G : Type} (entry : Z -> option (prog G unit)).

(** [m] runs a program that goes on as [p] does *)
Definition runs (m : machine G) (p : prog G unit) : Prop := exists p', m_status m = Running p' /\ like p' p.

(** the registers but the program counter *)
Definition same_regs (st cpu : state_t) : Prop := s_sr st = s_sr cpu /\ s_crp st = s_crp cpu /\ forall j, j <> 16%fin -> s_r st !!! j = s_r cpu !!! j.
(** the entry [j] holds a processor state from which [p] goes on, with the registers of [cpu] *)
Definition suspended (m : machine G) (j : Z) (cpu : state_t) (p : prog G unit) : Prop :=
  exists cp p', pcore (a_pq (k_asl (kernel_of m))) j = Some cp /\ same_regs (p_s cp) cpu /\
    m_code m !! s_pc (p_s cp) = Some p' /\ like p' p.

Lemma runs_at (m : machine G) p : m_status m = Running p -> m = at_ (m_user m) p m.
Proof. destruct m as [u s cd nx]. cbn. by intros ->. Qed.

Lemma resume_code st (m : machine G) : m_code (resume_at entry st m) = m_code m /\ kernel_of (resume_at entry st m) = kernel_of m.
Proof. unfold resume_at. destruct (_ && _); [done |]. destruct (m_code m !! s_pc st); [done |]. by destruct (entry (s_pc st)). Qed.

Lemma leave_code r (m : machine G) : m_code (leave entry r m) = m_code m /\ kernel_of (leave entry r m) = final r.
Proof. destruct r as [[] k | [| | | [st | |]] k]; cbn [leave]; try done. apply (resume_code st (set_kernel k m)). Qed.

Lemma stands_goes_on e k (m : machine G) b : stands (leave entry (Exn e k) m) b -> goes_on e = Some b.
Proof.
  destruct e as [| | | [st | |]]; cbn; try done; [| by intros ->]. unfold stands, resume_at.
  destruct (_ && _); [by intros -> |]. destruct (m_code _ !! _); [by intros -> |]. destruct (entry _); [by intros -> | done].
Qed.

Context (k0 : kernel) (CR : Z -> option Z) (n : Z) (m : machine G) (v i val : Z).
Notation u := (m_user m).
Notation k := (kernel_of m).

(** the conditions on the call: a state between two exceptions, in the nucleus's own mode, with
    room for the vector on the stack; [i] is a semaphore of programs and holds [val] *)
Record may_call : Prop := {
  ca_installed : installed k0;
  ca_reach : reach k0 CR n true k;
  ca_bound : n < 2 ^ 31 - 1;
  ca_cells : writable CR v /\ writable CR (v + 4);
  ca_apart : ~ v <= i < v + VPOP_SIZE;
  ca_mode : ps_s (s_sr (u_cpu u)) = 1 /\ (ps_m (s_sr (u_cpu u)) =? 1) && (s_crp (u_cpu u) =? 0) = false;
  ca_sem : user_sem (ints (k_asl k)) i;
  ca_val : ints (k_asl k) !! i = Some val }.

Context (op : Z) (p0 q0 : prog G unit).
Notation u1 := (asking v op i u).

Lemma asking_cell a : a <> v -> a <> v + 4 -> ints (k_asl (u_k u1)) !! a = ints (k_asl k) !! a.
Proof. intros H1' H2'. apply (with_cells_other [(v + 4, i); (v, op)]). cbn. rewrite !not_elem_of_cons. split; [done |]. split; [done | apply not_elem_of_nil]. Qed.

Hypotheses (C : may_call) (Hruns : m_status m = Running p0) (Hasks : asks_for entry v op i u p0 q0).

Lemma asking_accesses : accesses (CR := CR) k (u_k u1).
Proof. apply with_cells_accesses. repeat constructor; apply (ca_cells C). Qed.

Lemma asking_vector : vector_at (ints (k_asl (u_k u1))) v [(op, i)] /\ apart v (Z.of_nat (length [(op, i)])) [(op, i)] /\
  ints (k_asl (u_k u1)) !! i = Some val /\ user_sem (ints (k_asl (u_k u1))) i.
Proof.
  pose proof (ca_apart C) as Ha. unfold VPOP_SIZE in *.
  assert (ints (k_asl (u_k u1)) !! i = Some val) as Hi by (rewrite asking_cell by lia; apply C).
  split; [| split; [| split; [exact Hi |]]].
  - cbn. split; [rewrite lookup_insert_ne by lia; by rewrite lookup_insert_eq | by rewrite lookup_insert_eq].
  - intros oa ->%list_elem_of_singleton. unfold VPOP_SIZE. cbn. lia.
  - destruct (ca_sem C) as [_ H1' H2' H3']. split; [by eexists | done..].
Qed.

(** after the call: the queues [x'], the cells [mem'], and the caller, the process [p] *)
Definition called (x' : absq) (p : Z) (m' : machine G) (flag : bool) (mem' : gmap Z Z) : Prop :=
  queues_of (kernel_of m') x' /\ ints (k_asl (kernel_of m')) = mem' /\
  (forall b', stands m' b' -> reach k0 (spend CR (ints (k_asl (u_k u1))) [(op, i)]) n b' (kernel_of m')) /\
  if flag then suspended m' p (u_cpu u1) q0
  else runs m' q0 /\ same_regs (u_cpu (m_user m')) (u_cpu u1) /\ u_g (m_user m') = u_g u.

(** the processor state that the stub stores *)
Notation cpu1 := (set_pc (m_next m) (u_cpu u1)).
Lemma cpu1_regs w : same_regs (set_tmp w cpu1) (u_cpu u1) /\ s_pc (set_tmp w cpu1) = m_next m.
Proof.
  generalize (u_cpu u1) as st. intros st. split; [split; [by destruct st | split; [by destruct st |]] |].
  - intros j Hj. transitivity (s_r (set_pc (m_next m) st) !!! j); [by destruct st | by apply reg_set_ne].
  - transitivity (s_r (set_pc (m_next m) st) !!! 16%fin); [by destruct st | apply reg_set_eq].
Qed.
Lemma cpu1_call : in_user_mode (set_tmp 3 cpu1) = false /\ s_r cpu1 !!! 3%fin = 1 /\ s_r cpu1 !!! 4%fin = v.
Proof.
  pose proof (ca_mode C) as [Hm _]. destruct (cpu1_regs 3) as [(Hsr & _) _]. split; [| split].
  - unfold in_user_mode. rewrite Hsr. cbn. replace (s_sr (set_reg _ _ _)) with (s_sr (u_cpu u)) by by destruct (u_cpu u). by rewrite Hm.
  - unfold set_pc. rewrite reg_set_ne by done. cbn [asking u_cpu]. rewrite reg_set_ne by done. apply reg_set_eq.
  - unfold set_pc. rewrite reg_set_ne by done. apply reg_set_eq.
Qed.

Lemma cpu1_fault : (ps_m (s_sr (set_tmp 3 cpu1)) =? 1) && (s_crp (set_tmp 3 cpu1) =? 0) = false.
Proof. destruct (cpu1_regs 3) as [(-> & -> & _) _]. pose proof (ca_mode C) as [_ Hf]. cbn. by destruct (u_cpu u). Qed.

Lemma scheduled_saved x' mem' p st c' r' e k' cp' : c' p = Some cp' -> scheduled x' mem' (upd p (set_p_s st) c') r' e k' ->
  exists c2 r2 cp, kview k' x' mem' c2 r2 /\ c2 p = Some cp /\ p_s cp = st.
Proof.
  intros Hp HT. assert (upd p (set_p_s st) c' p = Some (set_p_s st cp')) as Hc by by rewrite upd_eq, Hp.
  assert (p_s (set_p_s st cp') = st) as Hst by by destruct cp'. unfold scheduled in HT. destruct (ready x') as [|w ws].
  - apply idle_kview in HT as [r2 V2]. by eexists _, r2, _.
  - destruct HT as (cp & _ & _ & V2). destruct (decide (p = w)) as [-> | Hne].
    + eexists _, _, _. split; [exact V2 |]. split; [rewrite upd_eq, Hc; done |]. by destruct cp'.
    + eexists _, _, _. split; [exact V2 |]. split; [rewrite upd_ne by done; exact Hc | exact Hst].
Qed.

Lemma call_reach e k' b' : Run.take (trap_vector (Sys 3)) 3 cpu1 (u_k u1) = Exn e k' -> goes_on e = Some b' ->
  reach k0 (spend CR (ints (k_asl (u_k u1))) [(op, i)]) n b' k'.
Proof.
  intros E Hg. pose proof (reach_accesses k0 CR n true k _ (ca_reach C) asking_accesses) as R1.
  destruct cpu1_call as (Hmode & H3 & H4). destruct asking_vector as (Hvec & Hap & Hi & Hu).
  assert (proper_vector cpu1 (ints (k_asl (u_k u1))) [(op, i)]) as HP.
  { split; [done |]. rewrite H4. split; [exact Hvec |]. split; [exact Hap |]. split; [exact Hu |]. by exists val. }
  eapply (reach_trap k0 CR n (u_k u1) (Sys 3) cpu1); [exact R1 | done | | | exact E | exact Hg].
  - intros _. split; [| split; [| split]]; intros Hno; rewrite tmp_set in Hno; try discriminate Hno.
    exists [(op, i)]. apply proper_vector_tmp. exact HP.
  - unfold asks, sem_trap. rewrite Hmode. exact HP.
Qed.

(** what the handler's end means for the machine *)
Lemma call_called x' mem' flag p p' q' : like q' q0 ->
  leaves_with (Run.take (trap_vector (Sys 3)) 3 cpu1) (u_k u1) (fun e k' => exists c' r', is_Some (c' p) /\
    if flag : bool then scheduled x' mem' (upd p (set_p_s (set_tmp 3 cpu1)) c') r' e k'
    else e = Leave (LDST (set_tmp 3 cpu1)) /\ kview k' x' mem' c' r') ->
  called x' p (suspend_ entry q' (trap_vector (Sys 3)) 3 (at_ u1 p' m)) flag mem'.
Proof.
  intros Hl HT. unfold wp in HT. unfold suspend_, at_. cbn [m_next m_user m_status m_code].
  destruct (Run.take (trap_vector (Sys 3)) 3 cpu1 (u_k u1)) as [|e k'] eqn:E; [done |]. destruct HT as (c' & r' & [cp' Hp'] & HT).
  set (m1 := mk_machine _ _ _ _). destruct (leave_code (Exn e k') m1) as [Ecode Ek]. cbn [final] in Ek.
  destruct (cpu1_regs 3) as [Hregs Hpc].
  assert (m_code m1 !! m_next m = Some q') as Hcode by apply lookup_insert_eq.
  unfold called. rewrite Ek.
  assert (forall b', stands (leave entry (Exn e k') m1) b' -> reach k0 (spend CR (ints (k_asl (u_k u1))) [(op, i)]) n b' k') as HR.
  { intros b' Hb%stands_goes_on. by apply (call_reach e). }
  destruct flag.
  - destruct (scheduled_saved x' mem' p _ c' r' e k' cp' Hp' HT) as (c2 & r2 & cp & V2 & Hc & Hcp).
    split; [apply V2 |]. split; [apply V2 |]. split; [exact HR |]. exists cp, q'. rewrite Ek, Ecode, (kv_core _ _ _ _ _ V2), Hcp, Hpc.
    done.
  - destruct HT as [-> V2]. split; [apply V2 |]. split; [apply V2 |]. split; [exact HR |]. cbn [leave]. unfold resume_at.
    rewrite Hpc. cbn [m_code set_kernel]. rewrite Hcode, cpu1_fault. split; [by exists q' | split; [exact Hregs | done]].
Qed.

Lemma call_effect : exists x p q ss' m', stands_with n CR k x /\ ready x = p :: q /\
  sem_step p (op, i) (mk_ss x (ints (k_asl (u_k u1))) false) = Some ss' /\ goes entry m m' /\
  called (if ss_flag ss' then set_ready (List.tl (ready (ss_queues ss'))) (ss_queues ss') else ss_queues ss') p m'
    (ss_flag ss') (ss_mem ss').
Proof.
  destruct (reach_sound k0 CR n true k (ca_installed C) (ca_reach C) (ca_bound C)) as (x & m0 & c & r & t & V & N & Hb & _).
  destruct (ready x) as [|p q] eqn:Hr; [by discriminate (proj1 Hb eq_refl) |].
  destruct (accesses_view n k (u_k u1) x m0 c r t V N asking_accesses) as [V1 N1].
  destruct asking_vector as (Hvec & Hap & Hi & Hu).
  destruct (sem_step_nuc n (ca_bound C) CR None x _ c _ t p op i val ltac:(by exists q) (kview_awf _ _ _ _ _ V1) Hi Hu ltac:(done))
    as (ss' & Hs & _). rewrite bool_decide_false in Hs by by intros [].
  destruct Hasks as (p' & q' & Hl & Hg). specialize (Hg m). rewrite <- (runs_at m p0 Hruns) in Hg.
  destruct cpu1_call as (Hmode & H3 & H4).
  pose proof (take_sys3 CR n (u_k u1) x _ c _ t p q (set_pc (m_next m) (u_cpu u1)) [(op, i)] ss' V1 N1 Hr) as HT.
  rewrite H3, H4 in HT. specialize (HT Hmode eq_refl Hvec Hap). cbn [sem_run] in HT. rewrite Hs in HT. specialize (HT eq_refl). cbv zeta in HT.
  exists x, p, q, ss', (suspend_ entry q' (trap_vector (Sys 3)) 3 (at_ u1 p' m)). split; [by exists m0, c, r, t |]. split; [done |].
  split; [done |]. split; [exact Hg |]. apply call_called; [done |].
  eapply wp_mono; [exact HT | done |]. intros e k' (c' & r' & Hp & HS). exists c', r'. split; [exact Hp | by destruct (ss_flag ss')].
Qed.
End call.

(** ** The properties *)

Section properties.
Context `{MachineOk} `{!Linked} {G : Type} (entry : Z -> option (prog G unit)).

(** the processor state and the [int] cells when the call traps *)
Definition cpu_after (m : machine G) (v : Z) : state_t := set_reg 4%fin v (set_reg 3%fin 1 (u_cpu (m_user m))).
Definition cells_after (m : machine G) (v op i : Z) : gmap Z Z :=
  <[v + 4 := i]> (<[v := op]> (ints (k_asl (kernel_of m)))).

(** [m] asks for one operation on [i], which holds [val], and gets to [m'] without an
    interrupt: [x] and [x'] are the queues before and after it, [p] the running process *)
Record operation k0 CR n (m m' : machine G) (v op i val : Z) (x x' : absq) (p : Z) (q : list Z) : Prop := {
  op_goes : goes entry m m';
  op_before : queues_of (kernel_of m) x;
  op_runs : ready x = p :: q;
  op_after : queues_of (kernel_of m') x';
  op_cells : ints (k_asl (kernel_of m')) = <[i := next_value op val]> (cells_after m v op i);
  op_reach : forall b, stands m' b -> reach k0 (spend CR (cells_after m v op i) [(op, i)]) n b (kernel_of m') }.
(** the program goes on with [K], with its registers and globals *)
Definition goes_on_with (m m' : machine G) (v : Z) (K : prog G unit) : Prop :=
  runs m' K /\ same_regs (u_cpu (m_user m')) (cpu_after m v) /\ u_g (m_user m') = u_g (m_user m).

(** P: the value goes down; the caller goes on when it was positive, and else it leaves the
    ready queue and is the last of those that wait for [i] *)
Definition does_P k0 CR n (m : machine G) (v i val : Z) (K : prog G unit) : Prop :=
  exists m' x x' p q, operation k0 CR n m m' v LOCK i val x x' p q /\
    if 0 <? val then x' = x /\ goes_on_with m m' v K
    else ready x' = q /\ (forall a, waiters a (blocked x') = if a =? i then waiters i (blocked x) ++ [p] else waiters a (blocked x)) /\
      suspended m' p (cpu_after m v) K.
(** V: the value goes up; when it was negative the first that waits for [i] becomes the last
    of the ready queue; the caller goes on *)
Definition does_V k0 CR n (m : machine G) (v i val : Z) (K : prog G unit) : Prop :=
  exists m' x x' p q, operation k0 CR n m m' v UNLOCK i val x x' p q /\ goes_on_with m m' v K /\
    (forall a, waiters a (blocked x') = if (a =? i) && (val <? 0) then List.tl (waiters i (blocked x)) else waiters a (blocked x)) /\
    ready x' = ready x ++ (if val <? 0 then firstn 1 (waiters i (blocked x)) else []).

Lemma V_queues n CR k x i val : stands_with n CR k x ->
  (forall a, waiters a (blocked (abs_V i val x)) =
     if (a =? i) && (val <? 0) then List.tl (waiters i (blocked x)) else waiters a (blocked x)) /\
  ready (abs_V i val x) = ready x ++ (if val <? 0 then firstn 1 (waiters i (blocked x)) else []).
Proof.
  intros (m & c & r & t & V & N). pose proof (kview_awf _ _ _ _ _ V) as W. pose proof (aw_blocked _ W) as B. split.
  - intros a. destruct (Z.eqb_spec a i) as [-> | Hne]; [by apply waiters_V_self | by apply waiters_V].
  - destruct (Z.ltb_spec val 0) as [Hneg | Hpos]; [| unfold abs_V; rewrite (proj2 (Z.ltb_ge _ _)) by done; by rewrite app_nil_r].
    destruct (waiters i (blocked x)) as [|w ws] eqn:Hw.
    + unfold abs_V, abs_wake. rewrite (proj2 (Z.ltb_lt _ _)), Hw by done. rewrite decide_False by by intros [? _]. by rewrite app_nil_r.
    + assert (w ∈ waiters i (blocked x)) as Hin by (rewrite Hw; left). destruct (nuc_waiter _ _ _ _ _ _ N W i w Hin) as [_ Hnr].
      rewrite (re_ready _ _ _ _ _ (abs_V_wakes x i val w ws W Hneg Hw Hnr)), bool_decide_true; [done |].
      apply (waits_only w i (blocked x) B Hin). intros b Hb Hwb. by apply Hb, (nu_single _ _ _ _ _ _ N w).
Qed.

Section asks.
Context (k0 : kernel) (CR : Z -> option Z) (n : Z) (m : machine G) (v i val : Z) (p0 K : prog G unit).
Hypotheses (C : may_call k0 CR n m v i val) (Hr : m_status m = Running p0).

Lemma asks_does_P : asks_for entry v LOCK i (m_user m) p0 K -> - 2 ^ 31 < val < 2 ^ 31 -> does_P k0 CR n m v i val K.
Proof.
  intros HA Hval. destruct (call_effect entry k0 CR n m v i val LOCK p0 K C Hr HA) as (x & p & q & ss' & m' & HW & Hq & Hs & Hg & Hc).
  assert (queues_of (kernel_of m) x) as Hx by (destruct HW as (? & ? & ? & ? & V & _); apply V).
  destruct (asking_vector k0 CR n m v i val LOCK C) as (_ & _ & Hi & _). exists m'.
  cbn [sem_step fst snd] in Hs. rewrite Hi, Z.eqb_refl, i32_id in Hs by (unfold in_i32; lia).
  assert ((0 <? val) = negb (val - 1 <? 0)) as -> by (destruct (Z.ltb_spec 0 val), (Z.ltb_spec (val - 1) 0); cbn; lia).
  destruct (Z.ltb_spec (val - 1) 0) as [Hneg | Hpos]; cbn [negb].
  - case_bool_decide as Hok; [| done]. injection Hs as <-. destruct Hc as (Hx' & Hm & HR & HS).
    exists x, (set_ready q (abs_block i p x)), p, q. cbn [ss_flag ss_queues] in Hx'. rewrite abs_block_ready, Hq in Hx'. cbn [List.tl] in Hx'.
    split; [by split |]. split; [done |]. split; [| exact HS]. intros a. destruct HW as (? & ? & ? & ? & V & N).
    pose proof (nuc_room _ _ _ _ _ _ N (kview_awf _ _ _ _ _ V) p q Hq) as Hroom. unfold abs_block. rewrite decide_False by lia. cbn.
    rewrite waiters_suspend. case_Z; [subst; reflexivity | apply app_nil_r].
  - injection Hs as <-. destruct Hc as (Hx' & Hm & HR & HS). exists x, x, p, q. split; [by split | by split].
Qed.

Lemma asks_does_V : asks_for entry v UNLOCK i (m_user m) p0 K -> - 2 ^ 31 <= val < 2 ^ 31 - 1 -> does_V k0 CR n m v i val K.
Proof.
  intros HA Hval. destruct (call_effect entry k0 CR n m v i val UNLOCK p0 K C Hr HA) as (x & p & q & ss' & m' & HW & Hq & Hs & Hg & Hc).
  assert (queues_of (kernel_of m) x) as Hx by (destruct HW as (? & ? & ? & ? & V & _); apply V).
  destruct (asking_vector k0 CR n m v i val UNLOCK C) as (_ & _ & Hi & _).
  cbn [sem_step fst snd] in Hs. rewrite Hi in Hs. change (UNLOCK =? LOCK) with false in Hs. cbv iota in Hs.
  rewrite i32_id in Hs by (unfold in_i32; lia).
  rewrite bool_decide_true in Hs by apply (ca_sem _ _ _ _ _ _ _ C). injection Hs as <-. destruct Hc as (Hx' & Hm & HR & HS).
  exists m', x, (abs_V i val x), p, q. split; [by split |]. split; [exact HS |]. by eapply V_queues.
Qed.
End asks.

(** C7. The library's [passeren] is P.  In any reachable state, called by a program of the
    nucleus's own mode on a semaphore of programs, with room for the vector on the stack,
    and without an interrupt in between: the value goes down by one and no other cell
    changes but the two of the vector; the caller returns when the value was positive, and
    else it has left the ready queue, is the last that waits for the semaphore, and the
    state saved in its entry returns from the call; the nucleus is at a reachable state
    again, unless it has halted. *)
Theorem passeren_is_P k0 CR n m i val (K : unit -> prog G unit) :
  let v := s_r (u_cpu (m_user m)) !!! 15%fin - 2 * VPOP_SIZE in
  may_call k0 CR n m v i val -> m_status m = Running (pbind (passeren i) K) -> - 2 ^ 31 < val < 2 ^ 31 ->
  does_P k0 CR n m v i val (K tt).
Proof. intros v C Hr. by apply (asks_does_P _ _ _ _ _ _ _ _ _ C Hr), passeren_asks. Qed.

End properties.

(** ** The support level's own P and V *)

Section support.
Context `{MachineOk} `{!Linked} `{Support} (entry : Z -> option (prog sl unit)).

Lemma asking_swap v op i (u : user sl) :
  asking v op i u = mk_user (with_cells [(v, op); (v + 4, i)] (u_k u)) (set_reg 4%fin v (set_reg 3%fin 1 (u_cpu u))) (u_g u).
Proof. unfold asking, with_cells. cbn. by rewrite insert_insert_ne by lia. Qed.

Lemma support_P_is_P k0 CR n m s val (K : unit -> prog sl unit) :
  let v := s_r (u_cpu (m_user m)) !!! 15%fin - VPOP_SIZE in
  may_call k0 CR n m v (addr_sem s) val -> m_status m = Running (pbind (Page.P s) K) -> - 2 ^ 31 < val < 2 ^ 31 ->
  does_P entry k0 CR n m v (addr_sem s) val (K tt).
Proof.
  intros v C Hr. apply (asks_does_P _ _ _ _ _ _ _ _ _ _ C Hr). unfold asks_for. rewrite asking_swap.
  eexists _, _. split; cycle 1.
  { intros m1. do 5 access. trapped. apply goes_refl. }
  reflexivity.
Qed.

Lemma support_V_is_V k0 CR n m s val (K : unit -> prog sl unit) :
  let v := s_r (u_cpu (m_user m)) !!! 15%fin - VPOP_SIZE in
  may_call k0 CR n m v (addr_sem s) val -> m_status m = Running (pbind (Page.V s) K) -> - 2 ^ 31 <= val < 2 ^ 31 - 1 ->
  does_V entry k0 CR n m v (addr_sem s) val (K tt).
Proof.
  intros v C Hr. apply (asks_does_V _ _ _ _ _ _ _ _ _ _ C Hr). unfold asks_for. rewrite asking_swap.
  eexists _, _. split; cycle 1.
  { intros m1. do 5 access. trapped. apply goes_refl. }
  reflexivity.
Qed.
End support.

(** ** The properties at concrete machines *)

(** a process is about to call [f] on the semaphore [mutex], and SYS6 after it *)
Definition about_to (f : Z -> prog unit unit) (k : kernel) : machine unit :=
  mk_machine (mk_user k (set_sp 0x5090 supervisor) tt) (Running (pbind (f mutex) (fun _ => SYS 6))) ∅ 0x1000000.

Lemma about_to_calls f k CR val : reach kernel0 CR 1 true k -> CR 0x5080 = None -> CR 0x5084 = None ->
  ints (k_asl k) !! mutex = Some val -> may_call kernel0 CR 1 (about_to f k) 0x5080 mutex val.
Proof.
  intros R H1' H2' Hv. split; cbn [about_to m_user u_k u_cpu kernel_of].
  - exact kernel0_installed.
  - exact R.
  - lia.
  - split; (split; [| split]); try done; apply user_cell; lia.
  - unfold mutex, VPOP_SIZE. lia.
  - done.
  - exact (mutex_user _ val Hv).
  - exact Hv.
Qed.

(** process 1 waits: 0 is inside *)
Lemma passeren_is_P_witness : exists m' x x' p q,
  operation (fun _ => None) kernel0 CRp 1 (about_to passeren kc) m' 0x5080 LOCK mutex 0 x x' p q /\ ready x' = q /\
  waiters mutex (blocked x') = waiters mutex (blocked x) ++ [p] /\ suspended m' p (cpu_after (about_to passeren kc) 0x5080) (SYS 6).
Proof.
  destruct (passeren_is_P (fun _ => None) kernel0 CRp 1 (about_to passeren kc) mutex 0 (fun _ => SYS 6))
    as (m' & x & x' & p & q & H1' & H2' & H3' & H4').
  - apply about_to_calls; [exact (sessions_reach _ _ _ _ _ _ _ _ mutex_entered) | vm_compute; reflexivity ..].
  - reflexivity.
  - lia.
  - exists m', x, x', p, q. split; [exact H1' |]. split; [exact H2' |]. split; [exact (H3' mutex) | exact H4'].
Defined.

