(* ===== verification/BigStep.v ===== *)
(** * Programs between two traps

    A big-step semantics of programs: [returns_from u p x u'] says that [p], started in the
    state [u], makes its accesses and returns [x] in [u'], and [traps_from u p t k u'] that it
    gets to the trap [t] in [u'], from which it goes on as [k].  Both are steps of the machine
    of [Run.v]. *)

From S2P Require Export Programs.
Local Open Scope kernel_scope.

Section bigstep.
Context {G : Type}.
Abbreviation next p := (ITreeDefinition.observe p).

Inductive returns_from {A} : user G -> prog G A -> A -> user G -> Prop :=
  | rf_ret u p x : next p = ITreeDefinition.RetF x -> returns_from u p x u
  | rf_tau u p p' x u' : next p = ITreeDefinition.TauF p' -> returns_from u p' x u' -> returns_from u p x u'
  | rf_atom {B} u p (a : M exn (user G) B) k y u1 x u' :
      next p = ITreeDefinition.VisF (Atom a) k -> a u = Ret y u1 -> returns_from u1 (k y) x u' -> returns_from u p x u'.

Inductive traps_from {A} : user G -> prog G A -> trap -> (unit -> prog G A) -> user G -> Prop :=
  | tf_trap u p t k : next p = ITreeDefinition.VisF (Trap t) k -> traps_from u p t k u
  | tf_tau u p p' t k u' : next p = ITreeDefinition.TauF p' -> traps_from u p' t k u' -> traps_from u p t k u'
  | tf_atom {B} u p (a : M exn (user G) B) k y u1 t k' u' :
      next p = ITreeDefinition.VisF (Atom a) k -> a u = Ret y u1 -> traps_from u1 (k y) t k' u' -> traps_from u p t k' u'.

(** an access that fails *)
Inductive fails_from {A} : user G -> prog G A -> exn -> Prop :=
  | ff_fail {B} u p (a : M exn (user G) B) k e u1 :
      next p = ITreeDefinition.VisF (Atom a) k -> a u = Exn e u1 -> fails_from u p e
  | ff_tau u p p' e : next p = ITreeDefinition.TauF p' -> fails_from u p' e -> fails_from u p e
  | ff_atom {B} u p (a : M exn (user G) B) k y u1 e :
      next p = ITreeDefinition.VisF (Atom a) k -> a u = Ret y u1 -> fails_from u1 (k y) e -> fails_from u p e.

(** ** Rules *)

Lemma next_bind {A B} (p : prog G A) (f : A -> prog G B) :
  next (pbind p f) = match next p with
                     | ITreeDefinition.RetF r => next (f r)
                     | ITreeDefinition.TauF t => ITreeDefinition.TauF (pbind t f)
                     | ITreeDefinition.VisF e h => ITreeDefinition.VisF e (fun x => pbind (h x) f)
                     end.
Proof.
  transitivity (next (match next p with
                      | ITreeDefinition.RetF r => f r
                      | ITreeDefinition.TauF t => ITreeDefinition.go (ITreeDefinition.TauF (pbind t f))
                      | ITreeDefinition.VisF e h => ITreeDefinition.go (ITreeDefinition.VisF e (fun x => pbind (h x) f))
                      end)); [reflexivity |]. by destruct (next p).
Qed.

Lemma returns_like {A} u (p q : prog G A) x u' : next p = next q -> returns_from u q x u' -> returns_from u p x u'.
Proof. intros E HR. destruct HR; [eapply rf_ret | eapply rf_tau | eapply rf_atom]; first [by rewrite E | done]. Qed.
Lemma traps_like {A} u (p q : prog G A) t k u' : next p = next q -> traps_from u q t k u' -> traps_from u p t k u'.
Proof. intros E HR. destruct HR; [eapply tf_trap | eapply tf_tau | eapply tf_atom]; first [by rewrite E | done]. Qed.
Lemma fails_like {A} u (p q : prog G A) e : next p = next q -> fails_from u q e -> fails_from u p e.
Proof. intros E HR. destruct HR; [eapply ff_fail | eapply ff_tau | eapply ff_atom]; first [by rewrite E | done]. Qed.

Lemma returns_ret {A} u (x : A) : returns_from u (pret x) x u.
Proof. by apply rf_ret. Qed.
Lemma returns_bind {A B} u (p : prog G A) (f : A -> prog G B) x u1 y u2 :
  returns_from u p x u1 -> returns_from u1 (f x) y u2 -> returns_from u (pbind p f) y u2.
Proof.
  induction 1 as [u p x E | u p p' x u' E HR IH | C u p a k z u1 x u' E Ha HR IH]; intros HF.
  - eapply returns_like; [| exact HF]. by rewrite next_bind, E.
  - eapply rf_tau; [by rewrite next_bind, E | by apply IH].
  - eapply rf_atom; [by rewrite next_bind, E | exact Ha | by apply IH].
Qed.
Lemma traps_bind {A B} u (p : prog G A) (f : A -> prog G B) x u1 t k u2 :
  returns_from u p x u1 -> traps_from u1 (f x) t k u2 -> traps_from u (pbind p f) t k u2.
Proof.
  induction 1 as [u p x E | u p p' x u' E HR IH | C u p a h z u1 x u' E Ha HR IH]; intros HF.
  - eapply traps_like; [| exact HF]. by rewrite next_bind, E.
  - eapply tf_tau; [by rewrite next_bind, E | by apply IH].
  - eapply tf_atom; [by rewrite next_bind, E | exact Ha | by apply IH].
Qed.
Lemma fails_bind {A B} u (p : prog G A) (f : A -> prog G B) x u1 e :
  returns_from u p x u1 -> fails_from u1 (f x) e -> fails_from u (pbind p f) e.
Proof.
  induction 1 as [u p x E | u p p' x u' E HR IH | C u p a h z u1 x u' E Ha HR IH]; intros HF.
  - eapply fails_like; [| exact HF]. by rewrite next_bind, E.
  - eapply ff_tau; [by rewrite next_bind, E | by apply IH].
  - eapply ff_atom; [by rewrite next_bind, E | exact Ha | by apply IH].
Qed.
(** the trap is in the first part *)
Lemma traps_first {A B} u (p : prog G A) (f : A -> prog G B) t k u' :
  traps_from u p t k u' -> traps_from u (pbind p f) t (fun x => pbind (k x) f) u'.
Proof.
  induction 1 as [u p t k E | u p p' t k u' E HR IH | C u p a h z u1 t k u' E Ha HR IH].
  - by apply tf_trap; rewrite next_bind, E.
  - eapply tf_tau; [by rewrite next_bind, E | exact IH].
  - eapply tf_atom; [by rewrite next_bind, E | exact Ha | exact IH].
Qed.
Lemma fails_first {A B} u (p : prog G A) (f : A -> prog G B) e : fails_from u p e -> fails_from u (pbind p f) e.
Proof.
  induction 1 as [C u p a k e u1 E Ha | u p p' e E HR IH | C u p a h z u1 e E Ha HR IH].
  - eapply ff_fail; [by rewrite next_bind, E | exact Ha].
  - eapply ff_tau; [by rewrite next_bind, E | exact IH].
  - eapply ff_atom; [by rewrite next_bind, E | exact Ha | exact IH].
Qed.

(** loops *)
Lemma next_iter {R I} (f : I -> prog G (I + R)) i :
  next (ITreeDefinition.ITree.iter f i) =
  next (pbind (f i) (fun lr => match lr with
                               | inl l => ITreeDefinition.go (ITreeDefinition.TauF (ITreeDefinition.ITree.iter f l))
                               | inr r => pret r
                               end)).
Proof. done. Qed.
Lemma returns_iter_stop {R I} (f : I -> prog G (I + R)) i r u u' :
  returns_from u (f i) (inr r) u' -> returns_from u (ITreeDefinition.ITree.iter f i) r u'.
Proof. intros HR. eapply returns_like; [apply next_iter |]. eapply returns_bind; [exact HR | apply returns_ret]. Qed.
Lemma returns_iter_more {R I} (f : I -> prog G (I + R)) i j r u u1 u' :
  returns_from u (f i) (inl j) u1 -> returns_from u1 (ITreeDefinition.ITree.iter f j) r u' -> returns_from u (ITreeDefinition.ITree.iter f i) r u'.
Proof. intros HR HI. eapply returns_like; [apply next_iter |]. eapply returns_bind; [exact HR |]. by eapply rf_tau. Qed.
Lemma fails_iter {R I} (f : I -> prog G (I + R)) i e u : fails_from u (f i) e -> fails_from u (ITreeDefinition.ITree.iter f i) e.
Proof. intros HR. eapply fails_like; [apply next_iter |]. by apply fails_first. Qed.
Lemma fails_iter_more {R I} (f : I -> prog G (I + R)) i j e u u1 :
  returns_from u (f i) (inl j) u1 -> fails_from u1 (ITreeDefinition.ITree.iter f j) e -> fails_from u (ITreeDefinition.ITree.iter f i) e.
Proof. intros HR HI. eapply fails_like; [apply next_iter |]. eapply fails_bind; [exact HR |]. by eapply ff_tau. Qed.

(** accesses and traps *)
Lemma returns_atom {A} (a : M exn (user G) A) x u u' : a u = Ret x u' -> returns_from u (atom a) x u'.
Proof. intros Ha. eapply rf_atom; [reflexivity | exact Ha | apply returns_ret]. Qed.
Lemma fails_atom {A} (a : M exn (user G) A) e u u' : a u = Exn e u' -> fails_from u (atom a) e.
Proof. intros Ha. eapply ff_fail; [reflexivity | exact Ha]. Qed.
Lemma traps_event t u : traps_from u (event (G := G) (Trap t)) t (fun x => pret x) u.
Proof. by apply tf_trap. Qed.
End bigstep.

(** ** On the machine *)

Section machine.
Context `{Machine} {G : Type} (entry : Z -> option (prog G unit)).

(** a program that returns: the rest goes on *)
Lemma returns_goes {A} u (p : prog G A) x u' (K : A -> prog G unit) (m : machine G) :
  returns_from u p x u' -> exists q, like q (K x) /\ goes entry (at_ u (pbind p K) m) (at_ u' q m).
Proof.
  induction 1 as [u p x E | u p p' x u' E HR IH | C u p a k y u1 x u' E Ha HR IH].
  - eexists. split; [| apply goes_refl]. unfold like. by rewrite next_bind, E.
  - destruct IH as (q & Hq & HG). exists q. split; [exact Hq |]. apply goes_step. unfold step, at_ at 1. cbn [m_status].
    rewrite next_bind, E. exact HG.
  - destruct IH as (q & Hq & HG). exists q. split; [exact Hq |].
    eapply goes_atom; [by rewrite next_bind, E | exact Ha | exact HG].
Qed.
(** a program that traps: it is suspended *)
Lemma traps_goes {A} u (p : prog G A) t k u' (K : A -> prog G unit) (m : machine G) :
  traps_from u p t k u' ->
  exists p', goes entry (at_ u (pbind p K) m) (suspend_ entry (pbind (k tt) K) (trap_vector t) (trap_word t) (at_ u' p' m)).
Proof.
  induction 1 as [u p t k E | u p p' t k u' E HR IH | C u p a h z u1 t k u' E Ha HR IH].
  - eexists. eapply goes_trap; [by rewrite next_bind, E | apply goes_refl].
  - destruct IH as (q & HG). exists q. apply goes_step. unfold step, at_ at 1. cbn [m_status]. rewrite next_bind, E. exact HG.
  - destruct IH as (q & HG). exists q. eapply goes_atom; [by rewrite next_bind, E | exact Ha | exact HG].
Qed.
(** a program that fails *)
Lemma fails_goes {A} u (p : prog G A) e (K : A -> prog G unit) (m : machine G) :
  fails_from u p e -> e = Fault -> exists m', goes entry (at_ u (pbind p K) m) m' /\ m_status m' = Failed Fault.
Proof.
  intros HF He. induction HF as [C u p a k e u1 E Ha | u p p' e E HR IH | C u p a h z u1 e E Ha HR IH].
  - subst e. exists (step entry (at_ u (pbind p K) m)). split; [apply goes_step, goes_refl |].
    unfold step, at_. cbn [m_status m_user]. rewrite next_bind, E. by rewrite Ha.
  - destruct (IH He) as (q & HG & Hq). exists q. split; [| exact Hq]. apply goes_step. unfold step, at_ at 1. cbn [m_status]. rewrite next_bind, E. exact HG.
  - destruct (IH He) as (q & HG & Hq). exists q. split; [| exact Hq]. eapply goes_atom; [by rewrite next_bind, E | exact Ha | exact HG].
Qed.
End machine.
