(* ===== verification/TestSupport.v ===== *)
(** * A machine for the support level

    An instance of what the linker supplies to the support level, a memory management
    unit, the terminals, the disk, the floppy disk and the interval timer, and five
    programs for the T-processes. *)

From S2P Require Export TestMachine SupportP1.
Local Open Scope kernel_scope.

(** ** The memory management unit *)

Definition table_addr (t : seg_table) : Z :=
  match t with
  | p1a_seg_table => 0x40000
  | unprivileged_seg n => 0x41000 + 0x100 * n
  | privileged_seg n => 0x42000 + 0x100 * n
  | page_daemon_seg => 0x43000
  | disk_daemon_seg => 0x44000
  end.
Definition all_tables : list seg_table :=
  [p1a_seg_table; page_daemon_seg; disk_daemon_seg]
  ++ (unprivileged_seg <$> seqZ 0 5) ++ (privileged_seg <$> seqZ 0 5).
Definition table_at (crp : Z) : option seg_table :=
  head (filter (fun t => table_addr t = crp) all_tables).

(** the word at 0x412: the kind of fault, the segment and the page *)
Definition fault_word (typ seg page : Z) : Z := set_bits (set_bits (set_bits 0 14 2 typ) 10 4 seg) 0 10 page.

Definition descriptor (g : sl) (crp va : Z) : option sd_t :=
  match table_at crp with
  | Some t => match segs g !! t with Some tab => tab !! v_seg va | None => None end
  | None => None
  end.
Definition page_descriptor (g : sl) (sd : sd_t) (va : Z) : option pd_t :=
  match pages g !! sd_pta sd with Some tab => tab !! v_page va | None => None end.

Definition mmu_translate (g : sl) (crp va : Z) : Z + Z :=
  match descriptor g crp va with
  | Some sd =>
      if sd_p sd =? 0 then inl (fault_word 3 (v_seg va) (v_page va))
      else if sd_len sd <? v_page va then inl (fault_word 2 (v_seg va) (v_page va))
      else match page_descriptor g sd va with
           | Some pd =>
               if pd_p pd =? 0 then inl (fault_word 1 (v_seg va) (v_page va))
               else inr (pd_frame pd * PAGESIZE + v_offset va)
           | None => inl (fault_word 2 (v_seg va) (v_page va))
           end
  | None => inl (fault_word 3 (v_seg va) (v_page va))
  end.
Definition mmu_reference (crp va : Z) (g : sl) : sl :=
  match descriptor g crp va with
  | Some sd => set_pages (alter (alter (set_pd_r 1) (v_page va)) (sd_pta sd) (pages g)) g
  | None => g
  end.

(** ** The layout *)

Definition sem_addr (s : semaphore) : Z :=
  match s with
  | sem_mm => 0x5000 | sem_floppy => 0x5004 | sem_disk => 0x5008 | sem_page => 0x500c
  | protected_sem => 0x5010 | sem_pf => 0x5014 | cron_sem => 0x5018
  | d_sem_value i => 0x5040 + 4 * i | ds_sem_value i => 0x5080 + 4 * i | vs_sem_value i => 0x5100 + 4 * i
  end.
Definition func_addr (f : sl_func) : Z :=
  match f with
  | fn_p1a => 0x20000 | fn_tprocess => 0x20100 | fn_slproghandler => 0x20200
  | fn_slmmhandler => 0x20300 | fn_slsyshandler => 0x20400 | fn_pagedaemon => 0x20500
  | fn_diskdaemon => 0x20600
  end.

(** the end of the bss is in page 192, so the page frames start at frame 209 *)
#[export] Instance support0 : Support := {|
  sl_sym := func_addr; addr_sem := sem_addr; addr_sa := 0x7000; addr_table := table_addr;
  addr_buf := fun n => 0x45000 + 0x200 * n; SEG1 := 0x80000; SEG2 := 0x100000;
  end_ := 0x18000; etext := 0x10000; startt1 := 0x8000; startd1 := 0x12000; edata := 0x13000; startb1 := 0x14000;
  translate := mmu_translate; reference := mmu_reference |}.

(** ** Memory before the start-up *)

Definition pd0 : pd_t := mk_pd 0 0 0 0.
Definition sd0 : sd_t := mk_sd 0 0 0 shared_seg_table_page_table.
Definition sl0 : sl := {|
  vars := list_to_map ((fun v => (v, 0)) <$>
    [pf_ctr; pf_start; p_alive; Scronframe; Spagedframe; Sdiskframe; Scronstack; Spagedstack; Sdiskstack]
    ++ (Tsysframe <$> seqZ 0 5) ++ (Tmmframe <$> seqZ 0 5) ++ (Tsysstack <$> seqZ 0 5) ++ (Tmmstack <$> seqZ 0 5));
  segs := list_to_map ((fun t => (t, mk_array 32 sd0)) <$> all_tables);
  pages := list_to_map ([(p1a_seg_table_page_table, mk_array 256 pd0); (shared_seg_table_page_table, mk_array 32 pd0);
                         (page_daemon_page, mk_array 256 pd0); (disk_daemon_page, mk_array 256 pd0)]
    ++ ((fun i => (unprivileged_seg_page_table i, mk_array 32 pd0)) <$> seqZ 0 5)
    ++ ((fun i => (privileged_seg_page_table i, mk_array 256 pd0)) <$> seqZ 0 5));
  bufs := mk_array 5 (mk_array 512 0);
  d_sem := mk_array 5 (mk_delay 0 0);
  ds_arr := mk_array 20 (mk_ds 0 0 0);
  pfs_arr := mk_array 20 (mk_pfs 0 0 0 0 0);
  vs_arr := mk_array 20 (mk_vs 0);
  disk := mk_array 100 (mk_array 8 0);
  bytes := list_to_map ((fun a => (a, 0)) <$> seqZ (209 * 512) (20 * 512)) |}.

Definition support_kernel : kernel :=
  mk_kernel (asl0 (list_to_map (cells (209 * 512) (20 * 128)) ∪ test_ints)) (mk_link 0 0) state0 0 0 0 0 0 0 0 0
    (mk_array 15 0) (mk_array 15 (mk_saved 0 0)) 0
    (list_to_map ((fun i => (0x7000 + STATE_SIZE * i, state0)) <$> seqZ 0 30) ∪ test_states)
    (list_to_map ((fun i => (0x1400 + 16 * i, mk_devreg (-1) 0 0 0)) <$> seqZ 0 15)) ∅ 0 0 0.

(** ** Devices *)

Definition dreg (i : Z) : Z := 0x1400 + 16 * i.
Definition dev_of (u : user sl) (i : Z) : devreg_t := default (mk_devreg (-1) 0 0 0) (devregs (u_k u) !! dreg i).
Definition set_dev (i : Z) (d : devreg_t) (u : user sl) : user sl :=
  set_u_k (set_devregs (<[dreg i := d]> (devregs (u_k u))) (u_k u)) u.

(** the buffer of a terminal or of the disk *)
Definition buffer_no (badd : Z) : Z := (badd - 0x45000) / 0x200.
Definition buffer (u : user sl) (badd : Z) : array Z := default ∅ (bufs (u_g u) !! buffer_no badd).
Definition set_buffer (badd : Z) (b : array Z) (u : user sl) : user sl :=
  set_u_g (set_bufs (<[buffer_no badd := b]> (bufs (u_g u))) (u_g u)) u.
Definition text_of (b : array Z) (n : Z) : string :=
  foldr (fun i s => String (Ascii.ascii_of_N (Z.to_N (default 0 (b !! i)))) s) EmptyString (seqZ 0 n).

(** a block of 512 bytes, and of 128 words, of a store kept outside the memory *)
Definition store_addr (d track sector : Z) : Z := 0x1000000 * (d + 1) + 512 * (8 * track + sector).
Definition copy_bytes (from to n : Z) (m : gmap Z Z) : gmap Z Z :=
  foldr (fun i m => <[to + i := default 0 (m !! (from + i))]> m) m (seqZ 0 n).
Definition copy_ints (from to : Z) (m : gmap Z Z) : gmap Z Z :=
  foldr (fun i m => <[to + 4 * i := default 0 (m !! (from + 4 * i))]> m) m (seqZ 0 128).

(** the line the terminals supply *)
Definition input_line : list Z := [105; 110; 112; 117; 116].

Definition terminal_done (i : Z) (u : user sl) : user sl :=
  let d := dev_of u i in
  if d_op d =? IOWRITE then
    let out := (default EmptyString (chars (u_k u) !! i) ++ text_of (buffer u (d_badd d)) (d_dadd d) ++ ".")%string in
    set_dev i (mk_devreg (-1) (d_dadd d) (d_badd d) NORMAL)
      (set_u_k (set_chars (<[i := out]> (chars (u_k u))) (u_k u)) u)
  else
    set_dev i (mk_devreg (-1) (Z.of_nat (length input_line)) (d_badd d) NORMAL)
      (set_buffer (d_badd d) (list_to_map (imap (fun j c => (Z.of_nat j, c)) input_line) ∪ buffer u (d_badd d)) u).

(** the position of the head of the disk or the floppy disk *)
Definition head_track (i : Z) (u : user sl) : Z := default 0 (bytes (u_g u) !! (- i)).
Definition edit_bytes (f : gmap Z Z -> gmap Z Z) (u : user sl) : user sl := set_u_g (set_bytes (f (bytes (u_g u))) (u_g u)) u.
Definition edit_ints (f : gmap Z Z -> gmap Z Z) (u : user sl) : user sl :=
  set_u_k (set_k_asl (set_ints (f (ints (k_asl (u_k u)))) (k_asl (u_k u))) (u_k u)) u.

Definition disk_done (u : user sl) : user sl :=
  let d := dev_of u 7 in
  let fin := set_dev 7 (mk_devreg (-1) (d_dadd d) (d_badd d) NORMAL) in
  let a := store_addr 7 (head_track 7 u) (d_dadd d) in
  if d_op d =? IOSEEK then fin (edit_bytes (<[-7 := d_dadd d]>) u)
  else if d_op d =? IOWRITE then
    fin (edit_bytes (fun m => foldr (fun i m => <[a + i := default 0 (buffer u (d_badd d) !! i)]> m) m (seqZ 0 512)) u)
  else fin (set_buffer (d_badd d) (list_to_map ((fun i => (i, default 0 (bytes (u_g u) !! (a + i)))) <$> seqZ 0 512)) u).

Definition floppy_done (u : user sl) : user sl :=
  let d := dev_of u 11 in
  let fin := set_dev 11 (mk_devreg (-1) (d_dadd d) (d_badd d) NORMAL) in
  let a := store_addr 11 (head_track 11 u) (d_dadd d) in
  if d_op d =? IOSEEK then fin (edit_bytes (<[-11 := d_dadd d]>) u)
  else if d_op d =? IOWRITE then
    fin (edit_ints (copy_ints (d_badd d) a) (edit_bytes (copy_bytes (d_badd d) a 512) u))
  else fin (edit_ints (copy_ints a (d_badd d)) (edit_bytes (copy_bytes a (d_badd d) 512) u)).

(** the first device with an operation under way *)
Definition busy_device (u : user sl) : option Z :=
  head (filter (fun i => (0 <=? d_op (dev_of u i)) && (d_op (dev_of u i) <=? 2) = true) [0; 1; 2; 3; 4; 7; 11]).
Definition device_done (i : Z) : user sl -> user sl :=
  if i =? 7 then disk_done else if i =? 11 then floppy_done else terminal_done i.
Definition device_interrupt (i : Z) : interrupt :=
  if i =? 7 then Disk 0 else if i =? 11 then Floppy 0 else Term i.

(** a device completes at every [latency]-th step or when the nucleus waits; else the
    timer acts *)
Definition devices_env `{Machine} entry (latency period : Z) (n : Z) (m : machine sl) : machine sl :=
  let waits := match m_status m with Idle => true | _ => false end in
  match (if open_to_interrupts m && (waits || (n mod latency =? 0)) then busy_device (m_user m) else None) with
  | Some i => interrupted entry (device_interrupt i)
                (mk_machine (device_done i (m_user m)) (m_status m) (m_code m) (m_next m))
  | None => timer_env entry period n m
  end.
