(* ===== verification/Terminal.v ===== *)
(** * Properties: the terminal calls of the support level

    SYS9 and SYS10, [Read_from_Terminal] and [Write_to_Terminal] of [slsyscall1.c], between
    their traps: the bytes that go between the memory of the caller and the buffer of the
    terminal, the operation that the device gets, and the result in d2. *)

From S2P Require Import TestSupport.
From S2P Require Export BigStep SupportSpec.
Local Open Scope kernel_scope.

(** what the code takes the memory management unit to do: it translates by its tables, and an
    access changes at most the referenced bits in them *)
Class UnitOk `{Support} : Prop := {
  translate_bytes g b crp va : translate (set_bytes b g) crp va = translate g crp va;
  translate_bufs g b crp va : translate (set_bufs b g) crp va = translate g crp va;
  translate_reference g crp va crp' va' : translate (reference crp va g) crp' va' = translate g crp' va';
  reference_pages crp va g : exists p, reference crp va g = set_pages p g }.

Section terminal.
Context `{Machine} `{UnitOk}.
Implicit Types (k : kernel) (cpu : state_t) (g : sl).
#[local] Open Scope user_scope.

(** ** Accesses *)

Lemma returns_arg k cpu g a st i : states k !! a = Some st -> returns_from (mk_user k cpu g) (arg a i) (s_r st !!! i) (mk_user k cpu g).
Proof.
  intros E. unfold arg, get_state, mem. eapply returns_bind; [apply returns_atom | apply returns_ret].
  unfold zoom, state_at, gets_opt. cbn. by rewrite E.
Qed.
Lemma returns_result k cpu g a st v : states k !! a = Some st ->
  returns_from (mk_user k cpu g) (result_ a v) tt (mk_user (set_states (<[a := set_reg 2%fin v st]> (states k)) k) cpu g).
Proof.
  intros E. unfold result_, edit_state, mem. apply returns_atom. unfold zoom, state_at, put_state, gets_opt, bind, modify. cbn.
  rewrite E. cbn. unfold state_at, gets_opt. by rewrite E.
Qed.

Definition has_dev k (num a : Z) (d : devreg_t) : Prop := dev_arr k !! num = Some a /\ devregs k !! a = Some d.
Lemma returns_dev k cpu g num a d : has_dev k num a d -> returns_from (mk_user k cpu g) (atom (dev num)) d (mk_user k cpu g).
Proof. intros [E1 E2]. apply returns_atom. unfold dev, ker_, zoom, dev_reg, devreg, gets_opt, bind. cbn. by rewrite E1, E2. Qed.
Lemma returns_edit_dev k cpu g num a d h : has_dev k num a d ->
  returns_from (mk_user k cpu g) (atom (edit_dev num h)) tt (mk_user (set_devregs (<[a := h d]> (devregs k)) k) cpu g).
Proof.
  intros [E1 E2]. apply returns_atom. unfold edit_dev, ker_, zoom, dev_reg, put_devreg, devreg, gets_opt, bind, modify. cbn.
  rewrite E1. cbn. by rewrite E2.
Qed.
Lemma traps_wait_io k cpu g num :
  traps_from (mk_user k cpu g) (wait_io num) (Sys 8) (fun x => pret x) (mk_user k (set_reg 4%fin num cpu) g).
Proof. unfold wait_io, set_r4, put_reg. eapply traps_bind; [by apply returns_atom | apply traps_event]. Qed.

Lemma returns_buf_at k cpu g num i b c : bufs g !! num = Some b -> b !! i = Some c ->
  returns_from (mk_user k cpu g) (atom (buf_at num i)) c (mk_user k cpu g).
Proof. intros E1 E2. apply returns_atom. unfold buf_at, entry_of, sl_, zoom, gets_opt, bind. cbn. by rewrite E1; cbn; rewrite E2. Qed.
Lemma returns_put_buf k cpu g num i b c v : bufs g !! num = Some b -> b !! i = Some c ->
  returns_from (mk_user k cpu g) (atom (put_buf num i v)) tt (mk_user k cpu (set_bufs (<[num := <[i := v]> b]> (bufs g)) g)).
Proof.
  intros E1 E2. apply returns_atom. unfold put_buf, buf_at, edit_entry, entry_of, sl_, zoom, gets_opt, bind, modify. cbn.
  rewrite E1; cbn; rewrite E2; cbn; by rewrite E1.
Qed.
Lemma fails_put_buf k cpu g num i b v : bufs g !! num = Some b -> b !! i = None ->
  fails_from (mk_user k cpu g) (atom (put_buf num i v)) Fault.
Proof.
  intros E1 E2. eapply fails_atom. unfold put_buf, buf_at, entry_of, sl_, zoom, gets_opt, bind. cbn. rewrite E1; cbn; by rewrite E2.
Qed.

(** an access to memory of the user that needs no page *)
Lemma returns_virtual {A} k cpu g va pa (access : Z -> MS A) x u' : translate g (s_crp cpu) va = inr pa ->
  access pa (mk_user k cpu (reference (s_crp cpu) va g)) = Ret x u' -> returns_from (mk_user k cpu g) (virtual va access) x u'.
Proof.
  intros ET EA. unfold virtual. apply returns_iter_stop. eapply returns_bind; [by apply returns_atom |]. cbv beta.
  eapply returns_bind; [by apply returns_atom |]. cbn. rewrite ET. eapply returns_bind; [apply returns_atom; exact EA | apply returns_ret].
Qed.

Lemma reference_same crp va g : bytes (reference crp va g) = bytes g /\ bufs (reference crp va g) = bufs g.
Proof. destruct (reference_pages crp va g) as [p ->]. done. Qed.
Lemma returns_put_user_byte k cpu g va pa old v : translate g (s_crp cpu) va = inr pa -> bytes g !! pa = Some old ->
  returns_from (mk_user k cpu g) (put_user_byte va v) tt (mk_user k cpu (set_bytes (<[pa := v]> (bytes g)) (reference (s_crp cpu) va g))).
Proof.
  intros ET EB. unfold put_user_byte. eapply returns_virtual; [exact ET |]. unfold bind, sl_, zoom, gets_opt, modify. cbn.
  destruct (reference_same (s_crp cpu) va g) as [Eb _]. rewrite Eb, EB. cbn. by rewrite Eb.
Qed.
Lemma returns_user_byte k cpu g va pa c : translate g (s_crp cpu) va = inr pa -> bytes g !! pa = Some c ->
  returns_from (mk_user k cpu g) (user_byte va) c (mk_user k cpu (reference (s_crp cpu) va g)).
Proof.
  intros ET EB. unfold user_byte. eapply returns_virtual; [exact ET |]. unfold sl_, zoom, gets_opt. cbn.
  destruct (reference_same (s_crp cpu) va g) as [Eb _]. by rewrite Eb, EB.
Qed.

(** [for (i = 0; i < n; i++) body], the bound being read from what the body keeps *)
Lemma returns_while_below (Inv : Z -> user sl -> Prop) (bound : prog sl Z) (body : Z -> prog sl unit) n u :
  (forall i u, Inv i u -> returns_from u bound n u) ->
  (forall i u, 0 <= i < n -> Inv i u -> exists u', returns_from u (body i) tt u' /\ Inv (i + 1) u') ->
  Inv 0 u -> exists u', returns_from u (while_below bound body) tt u' /\ Inv (Z.max 0 n) u'.
Proof.
  intros HB HS HI0. unfold while_below. enough (forall m i u, m = Z.to_nat (n - i) -> 0 <= i <= Z.max 0 n -> Inv i u ->
    exists u', returns_from u (ITreeDefinition.ITree.iter (fun i : Z => let! b := bound in if i <? b then body i ;; pret (inl (i + 1)) else pret (inr tt)) i) tt u' /\
      Inv (Z.max 0 n) u') as HI by by apply (HI (Z.to_nat (n - 0)) 0); [| lia |].
  induction m as [|m IH]; intros i u1 Hm Hi HI.
  - assert (i = Z.max 0 n) as Ei by lia. exists u1. split; [| by rewrite <- Ei].
    apply returns_iter_stop. eapply returns_bind; [by eapply HB |]. rewrite (proj2 (Z.ltb_ge _ _)) by lia. apply returns_ret.
  - destruct (HS i u1) as (u2 & R2 & I2); [lia | done |]. destruct (IH (i + 1) u2) as (u3 & R3 & I3); [lia | lia | done |].
    exists u3. split; [| exact I3]. eapply returns_iter_more; [| exact R3].
    eapply returns_bind; [by eapply HB |]. rewrite (proj2 (Z.ltb_lt _ _)) by lia. eapply returns_bind; [exact R2 | apply returns_ret].
Qed.

(** the body fails in the turn [m] *)
Lemma fails_while_below (Inv : Z -> user sl -> Prop) (bound : prog sl Z) (body : Z -> prog sl unit) n m e u :
  (forall i u, Inv i u -> returns_from u bound n u) ->
  (forall i u, 0 <= i < m -> Inv i u -> exists u', returns_from u (body i) tt u' /\ Inv (i + 1) u') ->
  (forall u, Inv m u -> fails_from u (body m) e) ->
  0 <= m < n -> Inv 0 u -> fails_from u (while_below bound body) e.
Proof.
  intros HB HS HF Hm HI0. unfold while_below. enough (forall l i u, l = Z.to_nat (m - i) -> 0 <= i <= m -> Inv i u ->
    fails_from u (ITreeDefinition.ITree.iter (fun i : Z => let! b := bound in if i <? b then body i ;; pret (inl (i + 1)) else pret (inr tt)) i) e) as HI
    by by apply (HI (Z.to_nat (m - 0)) 0); [| lia |].
  induction l as [|l IH]; intros i u1 Hl Hi HI.
  - assert (i = m) as -> by lia. apply fails_iter. eapply fails_bind; [by eapply HB |]. rewrite (proj2 (Z.ltb_lt _ _)) by lia.
    apply fails_first. by apply HF.
  - destruct (HS i u1) as (u2 & R2 & I2); [lia | done |]. eapply fails_iter_more; [| apply (IH (i + 1) u2); [lia | lia | done]].
    eapply returns_bind; [by eapply HB |]. rewrite (proj2 (Z.ltb_lt _ _)) by lia. eapply returns_bind; [exact R2 | apply returns_ret].
Qed.

(** ** SYS9 *)

(** the globals [g'] differ from [g] in user memory and in referenced bits only *)
Definition user_memory_only g g' : Prop :=
  (exists p b, g' = set_pages p (set_bytes b g)) /\ forall crp va, translate g' crp va = translate g crp va.
(** [n] bytes [c] have gone to the physical addresses [pa] *)
Definition copied_in g (pa c : Z -> Z) (n : Z) g' : Prop :=
  user_memory_only g g' /\ (forall j, 0 <= j < n -> bytes g' !! pa j = Some (c j)) /\
  (forall x, (forall j, 0 <= j < n -> x <> pa j) -> bytes g' !! x = bytes g !! x).

(** what the terminal has answered, as SYS9 sees it: the number of characters and the
    result *)
Definition read_ok (d : devreg_t) : bool := (d_stat d =? NORMAL) || (d_stat d =? ENDOFINPUT).
Definition read_length (d : devreg_t) : Z := if read_ok d then Z.max 0 (d_amnt d) else 0.
Definition read_result (d : devreg_t) : Z :=
  if read_ok d then if d_amnt d =? 0 then - ENDOFINPUT else i32 (d_amnt d) else i32 (0 - d_stat d).

(** [n] addresses of the user from [buf] on, in the segments of [crp]: present, in memory, at
    different physical addresses [pa] *)
Record user_buffer g crp (buf n : Z) (pa : Z -> Z) : Prop := {
  ub_present : forall j, 0 <= j < n -> translate g crp (buf + j) = inr (pa j);
  ub_memory : forall j, 0 <= j < n -> is_Some (bytes g !! pa j);
  ub_apart : forall i j, 0 <= i < n -> 0 <= j < n -> pa i = pa j -> i = j }.

Lemma copied_nothing g pa c : copied_in g pa c 0 g.
Proof. split; [split; [| done] | split; [intros j; lia | done]]. exists (pages g), (bytes g). by destruct g. Qed.
Lemma returns_copy_in k cpu g num a d buf n b pa c : has_dev k num a d -> d_amnt d = n -> bufs g !! num = Some b ->
  (forall j, 0 <= j < n -> b !! j = Some (c j)) -> user_buffer g (s_crp cpu) buf (Z.max 0 n) pa ->
  exists g', returns_from (mk_user k cpu g)
      (while_below (let! d := atom (dev num) in pret (d_amnt d)) (fun i => let! x := atom (buf_at num i) in put_user_byte (buf + i) x)) tt
      (mk_user k cpu g') /\ copied_in g pa c (Z.max 0 n) g'.
Proof.
  intros HD Hn Hb Hc [U1 U2 U3]. assert (forall j, 0 <= j < n -> 0 <= j < Z.max 0 n) as Hmax by lia.
  destruct (returns_while_below (fun i u => exists g', u = mk_user k cpu g' /\ copied_in g pa c i g') (let! d := atom (dev num) in pret (d_amnt d))
    (fun i => let! x := atom (buf_at num i) in put_user_byte (buf + i) x) n (mk_user k cpu g)) as (u' & R & g' & -> & HC).
  - intros i u (g1 & -> & _). eapply returns_bind; [by eapply returns_dev |]. rewrite Hn. apply returns_ret.
  - intros i u Hi (g1 & -> & ((p & b1 & E1) & T1) & D1 & K1). destruct (U2 i (Hmax i Hi)) as [old Hold].
    assert (bytes g1 !! pa i = Some old) as Hold1 by (rewrite K1; [done |]; intros j Hj E; apply U3 in E; lia).
    destruct (reference_pages (s_crp cpu) (buf + i) g1) as [p2 Ep2].
    eexists. split; [eapply returns_bind; [eapply returns_buf_at; [by rewrite E1 | by apply Hc] |]; eapply returns_put_user_byte; [rewrite T1; apply U1; lia | exact Hold1] |].
    eexists. split; [reflexivity |]. split; [split; [| intros crp va; by rewrite translate_bytes, translate_reference] | split].
    + exists p2. rewrite Ep2, E1. by eexists.
    + intros j Hj. cbn. destruct (decide (j = i)) as [-> | Hne]; [by rewrite lookup_insert_eq |].
      rewrite lookup_insert_ne by (intros E; apply U3 in E; lia). apply D1. lia.
    + intros x Hx. cbn. rewrite lookup_insert_ne by (intros E; apply (Hx i); [lia | done]). apply K1. intros j Hj. apply Hx. lia.
  - exists g. split; [done | apply copied_nothing].
  - by exists g'.
Qed.

(** the terminal of [num] has answered, for the caller whose state is at [old_state] *)
Record answered k2 cpu2 g2 (num old_state buf : Z) (st : state_t) (d : devreg_t) (c pa : Z -> Z) : Prop := {
  an_dev : exists a, has_dev k2 num a d;
  an_state : states k2 !! old_state = Some st;
  an_chars : exists b, bufs g2 !! num = Some b /\ forall j, 0 <= j < read_length d -> b !! j = Some (c j);
  an_buffer : user_buffer g2 (s_crp cpu2) buf (read_length d) pa }.


(** ** SYS10 *)

(** [n] characters [c] have gone to the buffer of the terminal [num] *)
Definition copied_out g num (b : array Z) (c : Z -> Z) (n : Z) g' : Prop :=
  (exists p b', g' = set_pages p (set_bufs (<[num := b']> (bufs g)) g) /\
     (forall j, 0 <= j < n -> b' !! j = Some (c j)) /\ (forall j, ~ 0 <= j < n -> b' !! j = b !! j)) /\
  forall crp va, translate g' crp va = translate g crp va.
(** the [n] characters [c] of the user from [buf] on, present at the physical addresses [pa] *)
Definition user_text g crp (buf n : Z) (pa c : Z -> Z) : Prop :=
  forall j, 0 <= j < n -> translate g crp (buf + j) = inr (pa j) /\ bytes g !! pa j = Some (c j).

Lemma copied_out_nothing g num b c : bufs g !! num = Some b -> copied_out g num b c 0 g.
Proof.
  intros Hb. split; [| done]. exists (pages g), b. split; [| split; [intros j; lia | done]]. rewrite insert_id by done. by destruct g.
Qed.
Section copy_out.
Context k cpu g (num buf n : Z) (b : array Z) (pa c : Z -> Z).
Hypotheses (Hb : bufs g !! num = Some b) (Htext : user_text g (s_crp cpu) buf n pa c).
Notation body := (fun i => let! x := user_byte (buf + i) in atom (put_buf num i x)).

Lemma copied_out_read i g1 : 0 <= i < n -> copied_out g num b c i g1 ->
  exists g2, returns_from (mk_user k cpu g1) (user_byte (buf + i)) (c i) (mk_user k cpu g2) /\ copied_out g num b c i g2.
Proof.
  intros Hi ((p & b1 & E1 & D1 & K1) & T1). destruct (Htext i Hi) as [Ht Hc]. eexists. split.
  - eapply returns_user_byte; [by rewrite T1 | by rewrite E1].
  - destruct (reference_pages (s_crp cpu) (buf + i) g1) as [p2 Ep2].
    split; [| intros crp va; by rewrite translate_reference]. exists p2, b1. split; [by rewrite Ep2, E1 | done].
Qed.
Lemma copied_out_step i g1 : 0 <= i < n -> is_Some (b !! i) -> copied_out g num b c i g1 ->
  exists g2, returns_from (mk_user k cpu g1) (body i) tt (mk_user k cpu g2) /\ copied_out g num b c (i + 1) g2.
Proof.
  intros Hi [old Hold] HC. destruct (copied_out_read i g1 Hi HC) as (g2 & R & (p & b2 & E2 & D2 & K2) & T2).
  assert (bufs g2 !! num = Some b2) as Hb2 by (rewrite E2; apply lookup_insert_eq).
  eexists. split; [eapply returns_bind; [exact R |]; eapply returns_put_buf; [exact Hb2 | rewrite K2 by lia; exact Hold] |].
  split; [| intros crp va; by rewrite translate_bufs]. exists p, (<[i := c i]> b2). split; [| split].
  - rewrite E2. cbn. by rewrite insert_insert_eq.
  - intros j Hj. destruct (decide (j = i)) as [-> | Hne]; [by rewrite lookup_insert_eq |]. rewrite lookup_insert_ne by done. apply D2. lia.
  - intros j Hj. rewrite lookup_insert_ne by lia. apply K2. lia.
Qed.
Lemma copied_out_fails i g1 : 0 <= i < n -> b !! i = None -> copied_out g num b c i g1 -> fails_from (mk_user k cpu g1) (body i) Fault.
Proof.
  intros Hi Hno HC. destruct (copied_out_read i g1 Hi HC) as (g2 & R & (p & b2 & E2 & D2 & K2) & T2).
  eapply fails_bind; [exact R |]. eapply fails_put_buf; [by rewrite E2; apply lookup_insert_eq | by rewrite K2 by lia].
Qed.
End copy_out.

Definition write_result (d : devreg_t) : Z :=
  if d_stat d =? NORMAL then if d_amnt d =? 0 then - ENDOFINPUT else i32 (d_amnt d) else i32 (0 - d_stat d).


(** C21. SYS10 does not look at its length.  The buffer of a terminal has 512 characters; with a
    greater number in d4 the loop of [Write_to_Terminal] stores beyond the end of the buffer
    of the T-process, where the segment table of that T-process lies. *)
Theorem Write_to_Terminal_overflows k cpu g num old_state (st : state_t) b c pa :
  let buf := s_r st !!! 3%fin in
  states k !! old_state = Some st -> bufs g !! num = Some b -> (forall j, is_Some (b !! j) <-> 0 <= j < 512) ->
  512 < s_r st !!! 4%fin -> user_text g (s_crp cpu) buf 513 pa c ->
  fails_from (mk_user k cpu g) (Write_to_Terminal old_state num) Fault.
Proof.
  intros buf HS Hb Hdom Hn Htext. unfold Write_to_Terminal. eapply fails_bind; [by eapply returns_arg |]. cbv beta. fold buf.
  apply fails_first. apply (fails_while_below (fun i u => exists g', u = mk_user k cpu g' /\ copied_out g num b c i g') _ _ (s_r st !!! 4%fin) 512).
  - intros i u (g1 & -> & _). by apply returns_arg.
  - intros i u Hi (g1 & -> & HC). destruct (copied_out_step k cpu g num buf 513 b pa c Htext i g1) as (g2 & R & HC2); [lia | by apply Hdom | done |].
    eexists. split; [exact R | by exists g2].
  - intros u (g1 & -> & HC). eapply copied_out_fails; [exact Htext | lia | | exact HC]. destruct (b !! 512) eqn:E; [| done].
    assert (is_Some (b !! 512)) as HI by (by rewrite E). apply Hdom in HI. lia.
  - lia.
  - exists g. split; [done | by apply copied_out_nothing].
Qed.
End terminal.

(** ** A concrete T-process *)

Lemma unit_page g crp va sd va' : 
  match page_descriptor (mmu_reference crp va g) sd va', page_descriptor g sd va' with
  | Some pd', Some pd => pd_p pd' = pd_p pd /\ pd_frame pd' = pd_frame pd
  | None, None => True
  | _, _ => False
  end.
Proof.
  unfold mmu_reference, page_descriptor. destruct (descriptor g crp va) as [sd1|]; cbn; [| by repeat case_match].
  destruct (decide (sd_pta sd1 = sd_pta sd)) as [-> | Hne].
  - rewrite lookup_alter_eq. destruct (pages g !! sd_pta sd) as [tab|]; [| done]. cbn. destruct (decide (v_page va = v_page va')) as [-> | Hne].
    + rewrite lookup_alter_eq. by destruct (tab !! v_page va').
    + rewrite lookup_alter_ne by done. by destruct (tab !! v_page va').
  - rewrite lookup_alter_ne by done. by repeat case_match.
Qed.
#[export] Instance unit0_ok : UnitOk.
Proof.
  split; [done | done | |].
  - intros g crp va crp' va'. cbn [translate reference support0]. unfold mmu_translate.
    replace (descriptor (mmu_reference crp va g) crp' va') with (descriptor g crp' va') by (unfold mmu_reference; by destruct (descriptor g crp va)).
    destruct (descriptor g crp' va') as [sd|]; [| done]. pose proof (unit_page g crp va sd va') as HP.
    destruct (page_descriptor (mmu_reference crp va g) sd va'), (page_descriptor g sd va'); try done. by destruct HP as [-> ->].
  - intros crp va g. cbn [reference support0]. unfold mmu_reference. destruct (descriptor g crp va); [by eexists |]. exists (pages g). by destruct g.
Qed.

(** T-process 0, whose pages 0 and 1 are in the frames 0 and 1, with the characters 104 and
    105 in the buffer of its terminal, and 106 and 107 at the start of its page 0 *)
#[local] Instance machine_term : Machine := clocked 3000 7.
Definition user_page : Z := 0x80000.
Definition term_state (n : Z) : state_t := set_reg 3%fin user_page (set_reg 4%fin n state0).
Definition term_dev : devreg_t := mk_devreg (-1) 0 0 0.
Definition term_done : devreg_t := mk_devreg (-1) 2 0x45000 NORMAL.
Definition term_kernel (n : Z) (d : devreg_t) : kernel :=
  set_states {[0x7000 := term_state n]} (set_devregs {[0x1400 := d]} (set_dev_arr {[0 := 0x1400]} support_kernel)).
Definition term_cpu : state_t := mk_state (s_r state0) (s_sr state0) 0 (table_addr (privileged_seg 0)).
Definition term_buf : array Z := <[0 := 104]> (<[1 := 105]> (mk_array 512 0)).
Definition term_bytes : gmap Z Z := <[0 := 106]> (<[1 := 107]> (mk_array 1024 0)).
Definition term_segs : gmap seg_table (array sd_t) := {[privileged_seg 0 := {[1 := mk_sd 1 7 31 (unprivileged_seg_page_table 0)]}]}.
Definition term_pages : gmap page_table (array pd_t) := {[unprivileged_seg_page_table 0 := <[0 := mk_pd 1 0 0 0]> {[1 := mk_pd 1 0 0 1]}]}.
Definition term_sl : sl := set_segs term_segs (set_pages term_pages (set_bufs {[0 := term_buf]} (set_bytes term_bytes sl0))).
Definition identity (j : Z) : Z := j.
Definition term_byte (j : Z) : Z := default 0 (term_bytes !! j).

Lemma term_has_dev n d : has_dev (term_kernel n d) 0 0x1400 d.
Proof. split; apply lookup_singleton_eq. Qed.
Lemma term_states n d : states (term_kernel n d) !! 0x7000 = Some (term_state n).
Proof. apply lookup_singleton_eq. Qed.
Lemma term_bufs : bufs term_sl !! 0 = Some term_buf.
Proof. apply lookup_singleton_eq. Qed.
Lemma term_room j : is_Some (term_buf !! j) <-> 0 <= j < 512.
Proof.
  unfold term_buf. destruct (decide (j = 0)) as [-> | H0]; [rewrite lookup_insert_eq; split; [lia | by eexists] |].
  rewrite lookup_insert_ne by done. destruct (decide (j = 1)) as [-> | H1]; [rewrite lookup_insert_eq; split; [lia | by eexists] |].
  rewrite lookup_insert_ne by done. apply mk_array_is_Some.
Qed.
Lemma term_memory j : 0 <= j < 1024 -> bytes term_sl !! identity j = Some (term_byte j).
Proof.
  intros Hj. change (bytes term_sl) with term_bytes. unfold identity, term_byte. assert (is_Some (term_bytes !! j)) as [c ->]; [| done].
  unfold term_bytes. destruct (decide (j = 0)) as [-> | H0]; [rewrite lookup_insert_eq; by eexists |].
  rewrite lookup_insert_ne by done. destruct (decide (j = 1)) as [-> | H1]; [rewrite lookup_insert_eq; by eexists |].
  rewrite lookup_insert_ne by done. by apply mk_array_is_Some.
Qed.
Lemma term_translate j : 0 <= j < 1024 -> translate term_sl (s_crp term_cpu) (user_page + j) = inr (identity j).
Proof.
  intros Hj. change (mmu_translate term_sl (table_addr (privileged_seg 0)) (user_page + j) = inr j). unfold mmu_translate, descriptor, user_page.
  assert (v_seg (0x80000 + j) = 1) as -> by (unfold v_seg, bits; rewrite Z.land_ones, Z.shiftr_div_pow2 by lia; change (2 ^ 19) with 0x80000; change (2 ^ 5) with 32; Z.to_euclidean_division_equations; lia).
  assert (v_page (0x80000 + j) = j / 512) as Hpage by (unfold v_page, bits; rewrite Z.land_ones, Z.shiftr_div_pow2 by lia; change (2 ^ 9) with 512; change (2 ^ 10) with 1024; Z.to_euclidean_division_equations; lia).
  assert (v_offset (0x80000 + j) = j mod 512) as -> by (unfold v_offset, bits; rewrite Z.land_ones, Z.shiftr_0_r by lia; change (2 ^ 9) with 512; Z.to_euclidean_division_equations; lia).
  assert (table_at (table_addr (privileged_seg 0)) = Some (privileged_seg 0)) as -> by (vm_compute; reflexivity).
  change (segs term_sl) with term_segs. unfold term_segs. rewrite !lookup_singleton_eq.
  change (sd_p (mk_sd 1 7 31 (unprivileged_seg_page_table 0)) =? 0) with false. cbn [sd_len].
  assert (0 <= j / 512 <= 1) as Hp by (Z.to_euclidean_division_equations; lia). rewrite Hpage, (proj2 (Z.ltb_ge 31 (j / 512))) by lia.
  unfold page_descriptor. change (pages term_sl) with term_pages. unfold term_pages. cbn [sd_pta]. rewrite lookup_singleton_eq, Hpage.
  assert (j / 512 = 0 \/ j / 512 = 1) as [E | E] by lia; rewrite E.
  - rewrite lookup_insert_eq. cbn [pd_p pd_frame]. change (1 =? 0) with false. f_equal. unfold PAGESIZE. Z.to_euclidean_division_equations; lia.
  - rewrite lookup_insert_ne, lookup_singleton_eq by done. cbn [pd_p pd_frame]. change (1 =? 0) with false. f_equal. unfold PAGESIZE. Z.to_euclidean_division_equations; lia.
Qed.

Lemma term_answered : answered (term_kernel 2 term_done) term_cpu term_sl 0 0x7000 user_page (term_state 2) term_done
  (fun j => if j =? 0 then 104 else 105) identity.
Proof.
  assert (read_length term_done = 2) as HL by done. split; rewrite ?HL.
  - exists 0x1400. apply term_has_dev.
  - apply term_states.
  - exists term_buf. split; [apply term_bufs |]. intros j Hj. unfold term_buf. assert (j = 0 \/ j = 1) as [-> | ->] by lia; [apply lookup_insert_eq |].
    rewrite lookup_insert_ne by done. apply lookup_insert_eq.
  - split; [intros j Hj; apply term_translate; lia | intros j Hj; rewrite term_memory by lia; by eexists | done].
Qed.
Lemma term_text n : n <= 1024 -> user_text term_sl (s_crp term_cpu) user_page n identity term_byte.
Proof. intros Hn j Hj. split; [apply term_translate; lia | apply term_memory; lia]. Qed.



Lemma Write_to_Terminal_overflows_witness :
  512 < s_r (term_state 513) !!! 4%fin /\
  fails_from (mk_user (term_kernel 513 term_dev) term_cpu term_sl) (Write_to_Terminal 0x7000 0) Fault.
Proof.
  split; [done |]. apply (Write_to_Terminal_overflows _ term_cpu term_sl 0 0x7000 (term_state 513) term_buf term_byte identity).
  - apply term_states.
  - apply term_bufs.
  - apply term_room.
  - done.
  - apply (term_text 513). lia.
Defined.
