(* ===== verification/RunSupport.v ===== *)
(** * Properties: the support level runs five T-processes *)

From S2P Require Import TestSupport.
Local Open Scope kernel_scope.

#[local] Instance machine_sl : Machine := clocked 3000 7.

Section programs.
#[local] Open Scope user_scope.

(** a page of the private segment and of the shared segment *)
Definition private (page : Z) : Z := 0x80000 + page * PAGESIZE.
Definition shared (page : Z) : Z := 0x100000 + page * PAGESIZE.

(** [msg] is written at [va], and goes to the terminal *)
Definition put_text (va : Z) (msg : list Z) : prog sl unit :=
  pfor 0 (Z.of_nat (length msg)) (fun i => put_user_byte (va + i) (default 0 (msg !! Z.to_nat i))).
Definition say (va : Z) (msg : list Z) : prog sl unit :=
  put_text va msg ;;
  set_r3 va ;;
  set_r4 (Z.of_nat (length msg)) ;;
  SYS 10.
Definition ok : list Z := [111; 107].
Definition bad : list Z := [98; 97; 100].
Definition report (va : Z) (b : bool) : prog sl unit := say va (if b then ok else bad).
Definition the_end : prog sl unit := SYS 17.

(** process 0 reads a line from its terminal and writes it back *)
Definition echo : prog sl unit :=
  set_r3 (private 1) ;;
  SYS 9 ;;
  let! n := r2 in
  set_r3 (private 1) ;;
  set_r4 n ;;
  SYS 10 ;;
  the_end.

(** process 1 waits for 60000 microseconds *)
Definition sleeper : prog sl unit :=
  SYS 16 ;;
  let! t1 := r2 in
  set_r4 60000 ;;
  SYS 13 ;;
  SYS 16 ;;
  let! t2 := r2 in
  report (private 0) (60000 <? t2 - t1) ;;
  the_end.

(** processes 2 and 3 synchronise with a virtual semaphore *)
Definition waiter : prog sl unit :=
  put_user_int (shared 0) 0 ;;
  set_r4 (shared 0) ;;
  SYS 12 ;;
  let! v := user_int (shared 0) in
  report (private 0) (v =? 0) ;;
  the_end.
Definition signaller : prog sl unit :=
  pwhile (let! v := user_int (shared 0) in pret (negb (v =? -1))) (pret tt) ;;
  set_r4 (shared 0) ;;
  SYS 11 ;;
  report (private 0) true ;;
  the_end.

(** process 4 writes a block on the disk and reads it back; then it writes a word in
    [n] pages and reads all of them, more pages than there are frames *)
Definition disk_and_pages (n : Z) : prog sl unit :=
  put_text (private 0) [1; 2; 3] ;;
  set_r3 (private 0) ;; set_r4 13 ;; set_r2 5 ;;
  SYS 14 ;;
  set_r3 (private 1) ;; set_r4 13 ;; set_r2 5 ;;
  SYS 15 ;;
  let! x := user_byte (private 1 + 2) in
  report (private 2) (x =? 3) ;;
  pfor 0 n (fun i => put_user_int (private i + 400) (i * i)) ;;
  let! sum := ITreeDefinition.ITree.iter (fun '((i, acc) : Z * Z) =>
    if i <? n then let! v := user_int (private i + 400) in pret (inl (i + 1, acc + v))
    else pret (inr acc)) (0, 0) in
  report (private 2) (sum =? (n - 1) * n * (2 * n - 1) / 6) ;;
  the_end.

(** all of them start at the same address; the segment table tells which one runs *)
Definition user_program (n : Z) (a : Z) : option (prog sl unit) :=
  if a =? 0x80000 + 31 * PAGESIZE then
    Some (let! crp := atom (gets (fun u => s_crp (u_cpu u))) in
          if crp =? table_addr (unprivileged_seg 0) then echo
          else if crp =? table_addr (unprivileged_seg 1) then sleeper
          else if crp =? table_addr (unprivileged_seg 2) then waiter
          else if crp =? table_addr (unprivileged_seg 3) then signaller
          else disk_and_pages n)
  else None.

(** a T-process that writes a word in [np] pages, looks [turns] times at the page with its
    program, as the processor does when it fetches instructions, and ends *)
Definition leaver (np turns : Z) : prog sl unit :=
  pfor 0 np (fun i => put_user_int (private i + 400) i) ;;
  ITreeDefinition.ITree.iter (fun i : Z =>
    if i <? turns then user_byte (private 31) ;; pret (inl (i + 1)) else pret (inr tt)) 0 ;;
  the_end.
(** a T-process that writes a word in [n] pages and reads all of them *)
Definition keeper (n : Z) : prog sl unit :=
  pfor 0 n (fun i => put_user_int (private i + 400) (i * i + 7) ;; user_byte (private 31) ;; pret tt) ;;
  let! wrong := ITreeDefinition.ITree.iter (fun '((i, wrong) : Z * Z) =>
    if i <? n then
      user_byte (private 31) ;;
      let! v := user_int (private i + 400) in
      pret (inl (i + 1, if v =? i * i + 7 then wrong else wrong + 1))
    else pret (inr wrong)) (0, 0) in
  report (private 2) (wrong =? 0) ;;
  the_end.
(** three T-processes with two virtual semaphores in shared memory: one waits for the
    first, after a delay; one signals the first, when it sees that the first waits; the
    third waits for the second semaphore, which nobody signals *)
Definition semaphore_1 : Z := shared 0.
Definition semaphore_2 : Z := shared 0 + 4.
Definition signalled : Z := shared 0 + 12.
Definition look (n : Z) : prog sl unit :=
  ITreeDefinition.ITree.iter (fun i : Z =>
    if i <? n then user_byte (shared 0 + 8) ;; pret (inl (i + 1)) else pret (inr tt)) 0.
Definition until (va v : Z) : prog sl unit := pwhile (let! w := user_int va in pret (negb (w =? v))) (pret tt).
Definition waiter_1 (delay : Z) : prog sl unit :=
  put_user_int semaphore_1 0 ;; put_user_int semaphore_2 0 ;; put_user_int signalled 0 ;;
  look 60 ;; spin (Z.to_nat delay) ;;
  set_r4 semaphore_1 ;;
  SYS 12 ;;
  report (private 0) true ;;
  the_end.
Definition signaller_1 : prog sl unit :=
  look 20 ;; until semaphore_1 (-1) ;;
  set_r4 semaphore_1 ;;
  SYS 11 ;;
  put_user_int signalled 1 ;;
  the_end.
Definition waiter_2 : prog sl unit :=
  look 20 ;; until signalled 1 ;;
  set_r4 semaphore_2 ;;
  SYS 12 ;;
  report (private 0) true ;;
  the_end.
Definition stolen_program (delay : Z) (a : Z) : option (prog sl unit) :=
  if a =? 0x80000 + 31 * PAGESIZE then
    Some (let! crp := atom (gets (fun u => s_crp (u_cpu u))) in
          if crp =? table_addr (unprivileged_seg 0) then waiter_1 delay
          else if crp =? table_addr (unprivileged_seg 1) then signaller_1
          else if crp =? table_addr (unprivileged_seg 2) then waiter_2
          else the_end)
  else None.
Definition race_program (np turns n : Z) (a : Z) : option (prog sl unit) :=
  if a =? 0x80000 + 31 * PAGESIZE then
    Some (let! crp := atom (gets (fun u => s_crp (u_cpu u))) in
          if crp =? table_addr (unprivileged_seg 0) then leaver np turns
          else if (crp =? table_addr (unprivileged_seg 3)) || (crp =? table_addr (unprivileged_seg 4)) then keeper n
          else the_end)
  else None.
End programs.

Definition sl_entry (n : Z) : Z -> option (prog sl unit) := entry (user_program n).
Definition sl_run (pages latency period : Z) (fuel : nat) : machine sl :=
  run (sl_entry pages) (devices_env (sl_entry pages) latency period) 0 fuel
    (start (sl_entry pages) support_kernel sl0).

(** what the terminals show *)
Definition on_terminals (m : machine sl) : list string :=
  (fun i => default EmptyString (chars (u_k (m_user m)) !! i)) <$> [0; 1; 2; 3; 4].
Definition all_ok : list string := [ "input."; "ok."; "ok."; "ok."; "ok.ok." ]%string.



(** a run of these programs *)
Definition race_entry (np turns n : Z) : Z -> option (prog sl unit) := entry (race_program np turns n).
Definition race_run (np turns n latency period : Z) (fuel : nat) : machine sl :=
  run (race_entry np turns n) (devices_env (race_entry np turns n) latency period) 0 fuel
    (start (race_entry np turns n) support_kernel sl0).

(** the frame of a present page of a T-process *)
Definition frame_of (m : machine sl) (num page_ : Z) : option Z :=
  match pages (u_g (m_user m)) !! unprivileged_seg_page_table num with
  | Some tab => match tab !! page_ with Some d => if pd_p d =? 1 then Some (pd_frame d) else None | None => None end
  | None => None
  end.
(** the number of the frames in use *)
Definition frames_in_use (m : machine sl) : Z :=
  Z.of_nat (length (filter (fun i => pf_pid <$> pfs_arr (u_g (m_user m)) !! i <> Some (-1)) (seqZ 0 MAXFRAMES))).


Definition stolen_entry (delay : Z) : Z -> option (prog sl unit) := entry (stolen_program delay).
Definition stolen_run (delay latency period : Z) (fuel : nat) : machine sl :=
  run (stolen_entry delay) (devices_env (stolen_entry delay) latency period) 0 fuel
    (start (stolen_entry delay) support_kernel sl0).

(** the run ends in a deadlock, with [shown] on the terminals *)
Definition deadlocks_with (m : machine sl) (shown : list string) : Prop :=
  on_terminals m = shown /\ ended m = Halt_ "nucleus: deadlock termination".
Lemma deadlocks_evaluated m shown :
  bool_decide (on_terminals m = shown) &&
    match ended m with Halt_ s => bool_decide (s = "nucleus: deadlock termination"%string) | _ => false end = true ->
  deadlocks_with m shown.
Proof.
  intros [E1%bool_decide_eq_true E2]%andb_true_iff. split; [done |].
  destruct (ended _); try done. by apply bool_decide_eq_true in E2 as ->.
Qed.

