(* ===== verification/PageProps.v ===== *)
(** * Properties: paging

    The layout of memory, positions on the floppy disk, page frames and the second
    chance of [src/support/part2/page.c]. *)

From S2P Require Export SupportSpec TestSupport.
Local Open Scope kernel_scope.

Section frames.
Context `{Support}.

(** ** The layout of memory *)

(** the frames of the system with their stack pointers, in the order of [pageinit] *)
Definition stacks : list (var * var) :=
  ((fun i => (Tsysframe i, Tsysstack i)) <$> seqZ 0 5) ++
  ((fun i => (Tmmframe i, Tmmstack i)) <$> seqZ 0 5) ++
  [(Scronframe, Scronstack); (Spagedframe, Spagedstack); (Sdiskframe, Sdiskstack)].

Definition has_vars (m : gmap var Z) : Prop :=
  forall v, v ∈ stacks.*1 ++ stacks.*2 ++ [pf_start] -> is_Some (m !! v).

Lemma has_vars_insert m v z : has_vars m -> has_vars (<[v := z]> m).
Proof. intros Hm w Hw. rewrite lookup_insert. case_decide; eauto. Qed.

(** a sequence of assignments *)
Fixpoint put_vars (l : list (var * Z)) : MS unit :=
  match l with
  | [] => ret tt
  | [(v, z)] => put_var v z
  | (v, z) :: l' => put_var v z ;; put_vars l'
  end.
Definition layout (endframe : Z) : list (var * Z) :=
  [
    (Tsysframe 0, endframe + 2); (Tsysframe 1, endframe + 3); (Tsysframe 2, endframe + 4);
    (Tsysframe 3, endframe + 5); (Tsysframe 4, endframe + 6); (Tmmframe 0, endframe + 7);
    (Tmmframe 1, endframe + 8); (Tmmframe 2, endframe + 9); (Tmmframe 3, endframe + 10);
    (Tmmframe 4, endframe + 11); (Scronframe, endframe + 12); (Spagedframe, endframe + 13);
    (Sdiskframe, endframe + 14); (Tsysstack 0, (endframe + 3) * 512 - 2); (Tsysstack 1,
    (endframe + 4) * 512 - 2); (Tsysstack 2, (endframe + 5) * 512 - 2); (Tsysstack 3, (endframe
    + 6) * 512 - 2); (Tsysstack 4, (endframe + 7) * 512 - 2); (Tmmstack 0, (endframe + 8) * 512
    - 2); (Tmmstack 1, (endframe + 9) * 512 - 2); (Tmmstack 2, (endframe + 10) * 512 - 2);
    (Tmmstack 3, (endframe + 11) * 512 - 2); (Tmmstack 4, (endframe + 12) * 512 - 2);
    (Scronstack, (endframe + 13) * 512 - 2); (Spagedstack, (endframe + 14) * 512 - 2);
    (Sdiskstack, (endframe + 15) * 512 - 2); (pf_start, endframe + 17) ].
Lemma init_frames_layout e : init_frames e = put_vars (layout e).
Proof. reflexivity. Qed.

Lemma wp_put_vars l (u : user sl) Q X :
  has_vars (vars (u_g u)) -> (forall v, v ∈ l.*1 -> v ∈ stacks.*1 ++ stacks.*2 ++ [pf_start]) -> NoDup l.*1 ->
  (forall m, (forall v z, (v, z) ∈ l -> m !! v = Some z) ->
             (forall v, v ∉ l.*1 -> m !! v = vars (u_g u) !! v) ->
             Q tt (with_sl (set_vars m (u_g u)) u)) ->
  wp (put_vars l) u Q X.
Proof.
  revert u. induction l as [| [v z] l IH]; intros u Hm Hl Hn HQ.
  { apply wp_ret. replace u with (with_sl (set_vars (vars (u_g u)) (u_g u)) u) by by destruct u as [? ? []].
    apply HQ; [intros ? ? Hin; by apply elem_of_nil in Hin | done]. }
  destruct (Hm v (Hl v (list_elem_of_here _ _))) as [old E]. apply NoDup_cons in Hn as [Hv Hn].
  assert (wp (put_var v z ;; put_vars l)%K u Q X) as HW.
  { apply wp_bind. eapply wp_put_var; [exact E |]. apply IH; [by apply has_vars_insert | | done |].
    { intros w Hw. apply Hl. by right. }
    intros m Hm1 Hm2. cbn in Hm2. apply HQ.
    - intros w y [[= -> ->] | Hin]%elem_of_cons; [by rewrite Hm2, lookup_insert_eq | by apply Hm1].
    - intros w [Hne Hw]%not_elem_of_cons. cbn in Hne. rewrite Hm2 by done. by rewrite lookup_insert_ne. }
  destruct l; [| exact HW]. unfold wp, bind, ret in HW. cbn in HW. cbn [put_vars]. unfold wp.
  by destruct (put_var v z u) as [[] |].
Qed.

(** each frame of the system with its stack pointer, and the first page frame *)
Lemma init_frames_spec e (u : user sl) :
  has_vars (vars (u_g u)) ->
  returns (init_frames e) u (fun _ u' => exists m, u' = with_sl (set_vars m (u_g u)) u /\
    m !! pf_start = Some (e + 17) /\
    Forall2 (fun fs i => m !! fs.1 = Some (e + 2 + i) /\ m !! fs.2 = Some ((e + 3 + i) * 512 - 2)) stacks (seqZ 0 13)).
Proof.
  intros Hm. rewrite init_frames_layout. apply wp_put_vars; [done | | |].
  { intros v Hv. assert (Forall (fun v => v ∈ stacks.*1 ++ stacks.*2 ++ [pf_start]) (layout e).*1) as HF.
    { apply (bool_decide_unpack _). vm_compute. exact I. }
    by apply (proj1 (Forall_forall _ _) HF). }
  { apply (bool_decide_unpack _). vm_compute. exact I. }
  intros m Hin _. eexists. split; [done |].
  assert (forall v z, (v, z) ∈ layout e -> m !! v = Some z) as Hl by exact Hin.
  split; [apply Hl; repeat first [apply list_elem_of_here | apply list_elem_of_further] |].
  change (seqZ 0 13) with [0; 1; 2; 3; 4; 5; 6; 7; 8; 9; 10; 11; 12].
  unfold stacks. cbn. repeat constructor; cbn;
    (erewrite Hl; [| unfold layout; repeat first [apply list_elem_of_here | apply list_elem_of_further]]; f_equal; lia).
Qed.

(** C25. Start-up of the support level: for every end of the bss that [pageinit] accepts
    (page 220 at most), each of the thirteen system stacks ends two bytes below the end
    of the frame that is reserved for it, these frames are distinct and lie between the
    bss and the page frames; and the twenty page frames lie in the 256 frames of memory
    exactly when the bss ends before page 220: for page 220 the last one does not. *)
Theorem memory_layout e (u : user sl) :
  has_vars (vars (u_g u)) -> 0 <= e <= 220 ->
  returns (init_frames e) u (fun _ u' => exists start fr,
    vars (u_g u') !! pf_start = Some start /\
    Forall2 (fun fs f => vars (u_g u') !! fs.1 = Some f /\
      exists sp, vars (u_g u') !! fs.2 = Some sp /\ sp / PAGESIZE = f /\ sp + 2 = (f + 1) * PAGESIZE) stacks fr /\
    NoDup fr /\ Forall (fun f => e < f < start) fr /\
    (start + MAXFRAMES <= 256 <-> e <> 220)).
Proof.
  intros Hm He. eapply wp_use; [by apply init_frames_spec |]. intros _ u' (m & -> & Hs & HF).
  exists (e + 17), ((fun i => e + 2 + i) <$> seqZ 0 13). cbn [vars u_g with_sl set_vars].
  split; [done |]. split; [| split; [| split]].
  - apply Forall2_fmap_r. eapply Forall2_impl; [exact HF |]. cbv beta. intros [fv sv] i [E1 E2].
    split; [done |]. eexists. split; [exact E2 |]. unfold PAGESIZE.
    split; [| lia]. symmetry. apply Z.div_unique with (r := 510); lia.
  - apply NoDup_fmap_2; [intros ? ? ?; lia |]. apply NoDup_seqZ.
  - apply Forall_fmap, Forall_forall. intros i Hi%elem_of_seqZ. cbn. lia.
  - unfold MAXFRAMES. lia.
Qed.

(** ** Positions on the floppy disk *)

(** the mark of a position: -1 when it is free *)
Definition mark (g : sl) (p : Z) : option Z :=
  match disk g !! Z.shiftr p 3 with Some row => row !! Z.land p 7 | None => None end.

Lemma position_fields i j : 0 <= i -> 0 <= j < 8 ->
  Z.lor (Z.shiftl i 3) j = 8 * i + j /\ Z.shiftr (8 * i + j) 3 = i /\ Z.land (8 * i + j) 7 = j.
Proof.
  intros Hi Hj. change 7 with (Z.ones 3). rewrite Z.land_ones, Z.shiftr_div_pow2, Z.shiftl_mul_pow2 by lia.
  change (2 ^ 3) with 8. split; [| split].
  - rewrite Z.mul_comm, <- Z.lxor_lor, <- Z.add_nocarry_lxor; [done | |];
      (apply Z.bits_inj'; intros k Hk; rewrite Z.land_spec, Z.bits_0;
       destruct (decide (k < 3));
       [rewrite (Z.mul_comm 8 i); change 8 with (2 ^ 3); rewrite Z.mul_pow2_bits_low by lia; done
       | rewrite (Z.bits_above_log2 j k); [by rewrite andb_false_r | lia |]];
       destruct (decide (j = 0)) as [-> |]; [cbn; lia | apply Z.log2_lt_pow2; [lia |];
         apply Z.lt_le_trans with (2 ^ 3); [lia | apply Z.pow_le_mono_r; lia]]).
  - symmetry. apply Z.div_unique with (r := j); lia.
  - symmetry. apply Z.mod_unique with (q := i); lia.
Qed.

(** every position has a mark *)
Definition marked (g : sl) : Prop := forall p, 0 <= p < 800 -> is_Some (mark g p).

Lemma mark_cell g i j : 0 <= i -> 0 <= j < 8 ->
  mark g (8 * i + j) = match disk g !! i with Some row => row !! j | None => None end.
Proof. intros Hi Hj. unfold mark. by destruct (position_fields i j Hi Hj) as (_ & -> & ->). Qed.

(** the globals with a position marked *)
Definition set_mark (p v : Z) (g : sl) : sl :=
  set_disk (alter (fun row => <[Z.land p 7 := v]> row) (Z.shiftr p 3) (disk g)) g.

(** the search finds the first free position from [p] on *)
Definition first_free (g : sl) (from to p : Z) : Prop :=
  from <= p < to /\ mark g p = Some (-1) /\ forall q, from <= q < p -> mark g q <> Some (-1).
Definition none_free (g : sl) (from to : Z) : Prop := forall q, from <= q < to -> mark g q <> Some (-1).

Lemma free_column_spec i j n (u : user sl) X :
  marked (u_g u) -> 0 <= i < 100 -> 0 <= j -> j + Z.of_nat n <= 8 ->
  wp (free_column i j n) u (fun r u' =>
    match r with
    | Some p => first_free (u_g u) (8 * i + j) (8 * i + j + Z.of_nat n) p /\ u' = with_sl (set_mark p 1 (u_g u)) u
    | None => none_free (u_g u) (8 * i + j) (8 * i + j + Z.of_nat n) /\ u' = u
    end) X.
Proof.
  intros Hd Hi. revert j. induction n as [| n IH]; intros j Hj Hn; cbn [free_column].
  { apply wp_ret. split; [intros q; lia | done]. }
  destruct (Hd (8 * i + j) ltac:(lia)) as [v Ev]. pose proof Ev as Ec. rewrite mark_cell in Ec by lia.
  destruct (disk (u_g u) !! i) as [row |] eqn:Er; [| done].
  apply wp_bind. eapply wp_disk_at; [exact Er | exact Ec |]. destruct (Z.eqb_spec v (-1)) as [-> |].
  - apply wp_bind. eapply wp_put_disk; [exact Er | exact Ec |]. apply wp_ret.
    destruct (position_fields i j ltac:(lia) ltac:(lia)) as (-> & E1 & E2).
    split; [split; [lia | split; [done | intros q; lia]] |]. f_equal. unfold set_mark. f_equal.
    rewrite E1, E2. apply map_eq. intros t. destruct (decide (t = i)) as [-> |].
    + by rewrite lookup_alter_eq, lookup_insert_eq, Er.
    + by rewrite lookup_alter_ne, lookup_insert_ne.
  - eapply wp_mono; [apply IH; lia | | done]. intros [p |] u'; cbv beta.
    + intros [(Hp & Hm & Hq) ->]. split; [| done]. split; [lia |]. split; [done |]. intros q Hq'.
      destruct (decide (q = 8 * i + j)) as [-> |]; [by rewrite Ev; intros [=] | apply Hq; lia].
    + intros [Hq ->]. split; [| done]. intros q Hq'.
      destruct (decide (q = 8 * i + j)) as [-> |]; [by rewrite Ev; intros [=] | apply Hq; lia].
Qed.

Lemma free_row_spec i n (u : user sl) :
  marked (u_g u) -> 0 <= i -> i + Z.of_nat n = 100 ->
  wp (free_row i n) u
    (fun p u' => first_free (u_g u) (8 * i) 800 p /\ u' = with_sl (set_mark p 1 (u_g u)) u)
    (fun e u' => e = Fault /\ u' = u /\ none_free (u_g u) (8 * i) 800).
Proof.
  intros Hd. revert i. induction n as [| n IH]; intros i Hi Hn; cbn [free_row].
  { apply wp_raise. split; [done |]. split; [done |]. intros q. lia. }
  apply wp_bind. eapply wp_mono; [apply (free_column_spec i 0 8 u (fun _ _ => False)); [done | lia | lia | lia] | | by intros].
  intros [p |] u'; cbv beta.
  - intros [(Hp & Hm & Hq) ->]. apply wp_ret. split; [| done]. split; [lia |]. split; [done |]. intros q ?. apply Hq. lia.
  - intros [Hq ->]. eapply wp_mono; [apply IH; lia | |]; cbv beta.
    + intros p u' [(Hp & Hm & Hq') ->]. split; [| done]. split; [lia |]. split; [done |]. intros q ?.
      destruct (decide (q < 8 * (i + 1))); [apply Hq; lia | apply Hq'; lia].
    + intros e u' (-> & -> & Hq'). split; [done |]. split; [done |]. intros q ?.
      destruct (decide (q < 8 * (i + 1))); [apply Hq; lia | apply Hq'; lia].
Qed.

Lemma position_split p : 0 <= p < 800 ->
  0 <= Z.shiftr p 3 < 100 /\ 0 <= Z.land p 7 < 8 /\ p = 8 * Z.shiftr p 3 + Z.land p 7.
Proof.
  intros Hp. change 7 with (Z.ones 3). rewrite Z.land_ones, Z.shiftr_div_pow2 by lia. change (2 ^ 3) with 8.
  pose proof (Z.mod_pos_bound p 8 ltac:(lia)). pose proof (Z.div_mod p 8 ltac:(lia)). lia.
Qed.

Lemma get_disk_pos_spec (u : user sl) :
  marked (u_g u) ->
  wp get_disk_pos u
    (fun p u' => first_free (u_g u) 0 800 p /\ u' = with_sl (set_mark p 1 (u_g u)) u /\
       0 <= Z.shiftr p 3 < 100 /\ 0 <= Z.land p 7 < 8 /\ Z.lor (Z.shiftl (Z.shiftr p 3) 3) (Z.land p 7) = p)
    (fun e u' => e = Fault /\ u' = u /\ none_free (u_g u) 0 800).
Proof.
  intros Hd. eapply wp_mono; [apply (free_row_spec 0 100); [done | lia | lia] | | done].
  intros p u' [Hf ->]. split; [done |]. split; [done |]. destruct Hf as [Hp _].
  destruct (position_split p Hp) as (Ht & Hs & Ep). split; [done |]. split; [done |].
  rewrite (proj1 (position_fields _ _ (proj1 Ht) Hs)). lia.
Qed.

(** C18. [get_disk_pos] gives the first free of the 800 positions of the floppy disk and
    marks that one only; the position splits into a track below 100 and a sector below
    8 from which it can be put together again.  When no position is free the function
    ends without a value. *)
Theorem disk_position_is_first_free (u : user sl) :
  marked (u_g u) ->
  wp get_disk_pos u
    (fun p u' => first_free (u_g u) 0 800 p /\ u' = with_sl (set_mark p 1 (u_g u)) u /\
       0 <= Z.shiftr p 3 < 100 /\ 0 <= Z.land p 7 < 8 /\ Z.lor (Z.shiftl (Z.shiftr p 3) 3) (Z.land p 7) = p)
    (fun e u' => e = Fault /\ u' = u /\ none_free (u_g u) 0 800).
Proof. apply get_disk_pos_spec. Qed.

(** ** The second chance *)

Definition descriptor_at (g : sl) (t : page_table) (i : Z) : option pd_t :=
  match pages g !! t with Some tab => tab !! i | None => None end.

Lemma wp_page_at t i d (u : user sl) Q X : descriptor_at (u_g u) t i = Some d -> Q d u -> wp (page t i) u Q X.
Proof. unfold descriptor_at. destruct (pages (u_g u) !! t) eqn:E; [| done]. intros E2. by apply (wp_page t i _ _ _ _ _ E E2). Qed.

(** the globals with a descriptor changed *)
Definition set_descriptor (t : page_table) (i : Z) (d : pd_t) (g : sl) : sl :=
  match pages g !! t with Some tab => set_pages (<[t := <[i := d]> tab]> (pages g)) g | None => g end.
Lemma descriptor_set t i d old g : descriptor_at g t i = Some old -> descriptor_at (set_descriptor t i d g) t i = Some d.
Proof.
  unfold descriptor_at, set_descriptor. destruct (pages g !! t) as [tab |] eqn:E; [| done]. intros _. cbn.
  by rewrite lookup_insert_eq, lookup_insert_eq.
Qed.
Lemma set_descriptor_lookup g t i t' j old d : descriptor_at g t i = Some old ->
  descriptor_at (set_descriptor t i d g) t' j = if decide (t' = t /\ j = i) then Some d else descriptor_at g t' j.
Proof.
  intros Hold. case_decide as E; [destruct E as [-> ->]; by apply (descriptor_set t i d old) |].
  unfold descriptor_at, set_descriptor. destruct (pages g !! t) as [tab |] eqn:Et; [| done]. cbn. destruct (decide (t' = t)) as [-> | Hne].
  - rewrite lookup_insert_eq, Et. rewrite lookup_insert_ne; [done |]. intros ->. by apply E.
  - by rewrite lookup_insert_ne.
Qed.
Lemma set_descriptor_twice t i d d' g : set_descriptor t i d' (set_descriptor t i d g) = set_descriptor t i d' g.
Proof.
  unfold set_descriptor. destruct (pages g !! t) as [tab |] eqn:E; [| by rewrite E]. cbn.
  rewrite lookup_insert_eq, !insert_insert_eq. done.
Qed.
Lemma marked_set t i d g : marked g -> marked (set_descriptor t i d g).
Proof. unfold marked, mark, set_descriptor. by destruct (pages g !! t). Qed.
Lemma first_free_set t i d g a b p : first_free (set_descriptor t i d g) a b p <-> first_free g a b p.
Proof. unfold first_free, mark, set_descriptor. by destruct (pages g !! t). Qed.
Lemma none_free_set t i d g a b : none_free (set_descriptor t i d g) a b <-> none_free g a b.
Proof. unfold none_free, mark, set_descriptor. by destruct (pages g !! t). Qed.

Lemma wp_edit_page_at t i h d (u : user sl) Q X :
  descriptor_at (u_g u) t i = Some d -> Q tt (with_sl (set_descriptor t i (h d) (u_g u)) u) -> wp (edit_page t i h) u Q X.
Proof.
  unfold descriptor_at, set_descriptor. destruct (pages (u_g u) !! t) eqn:E; [| done]. intros E2 HQ.
  by apply (wp_edit_page t i h _ _ _ _ _ E E2).
Qed.

(** a frame whose page has a copy on the floppy disk *)
Definition has_copy (f : page_frame_scheduler) : bool := negb (pf_track f =? -1) && negb (pf_sector f =? -1).
Definition copy_ok (f : page_frame_scheduler) : Prop := 0 <= pf_track f < 100 /\ 0 <= pf_sector f < 8.


(** ** Page frames *)

Definition framed (g : sl) : Prop := forall i, is_Some (pfs_arr g !! i) <-> 0 <= i < MAXFRAMES.
Definition unused (g : sl) (i : Z) : Prop := exists f, pfs_arr g !! i = Some f /\ pf_pid f = -1.
(** frame [i] holds page [page] of the shared segment [seg] *)
Definition holds (g : sl) (page seg i : Z) : Prop :=
  exists f, pfs_arr g !! i = Some f /\ pf_pid f <> -1 /\ pf_page f = page /\ pf_seg f = seg.
(** the first frame from [a] on with the property [P] *)
Definition first_frame (P : Z -> Prop) (a i : Z) : Prop := a <= i < MAXFRAMES /\ P i /\ forall j, a <= j < i -> ~ P j.
Definition no_frame (P : Z -> Prop) (a : Z) : Prop := forall j, a <= j < MAXFRAMES -> ~ P j.

Lemma first_frame_later P a i : ~ P a -> first_frame P (a + 1) i -> first_frame P a i.
Proof.
  intros Ha (Hi & HP & Hj). split; [lia |]. split; [done |]. intros j ?. destruct (decide (j = a)) as [-> |]; [done |].
  apply Hj. lia.
Qed.
Lemma no_frame_later P a : ~ P a -> no_frame P (a + 1) -> no_frame P a.
Proof. intros Ha Hj j ?. destruct (decide (j = a)) as [-> |]; [done |]. apply Hj. lia. Qed.

Lemma find_shared_spec page seg i n (u : user sl) :
  framed (u_g u) -> 0 <= i -> i + Z.of_nat n = MAXFRAMES ->
  returns (find_shared page seg i n) u (fun r u' => u' = u /\
    if r =? -1 then no_frame (holds (u_g u) page seg) i else first_frame (holds (u_g u) page seg) i r).
Proof.
  intros Hu. revert i. induction n as [| n IH]; intros i Hi Hn; cbn [find_shared].
  { apply wp_ret. split; [done |]. intros j. lia. }
  destruct (proj2 (Hu i) ltac:(lia)) as [f Ef]. apply wp_bind. eapply (wp_entry_of pfs_arr); [exact Ef |].
  assert (~ holds (u_g u) page seg i ->
    returns (find_shared page seg (i + 1) n) u (fun r u' => u' = u /\
      if r =? -1 then no_frame (holds (u_g u) page seg) i else first_frame (holds (u_g u) page seg) i r)) as Hnext.
  { intros Hno. eapply wp_use; [apply IH; lia |]. cbv beta. intros r u' [-> Hr]. split; [done |].
    destruct (r =? -1); [by apply no_frame_later | by apply first_frame_later]. }
  destruct (Z.eqb_spec (pf_pid f) (-1)) as [Ep |].
  { apply Hnext. intros (f' & Ef' & Hp & _). congruence. }
  destruct (Z.eqb_spec (pf_page f) page), (Z.eqb_spec (pf_seg f) seg); cbn [andb];
    try (apply Hnext; intros (f' & Ef' & _ & ? & ?); congruence).
  apply wp_ret. split; [done |]. destruct (Z.eqb_spec i (-1)); [lia |]. split; [lia |]. split; [by exists f |]. intros j. lia.
Qed.

Lemma take_frame_spec term page seg i n (u : user sl) :
  framed (u_g u) -> 0 <= i -> i + Z.of_nat n = MAXFRAMES ->
  returns (take_frame term page seg i n) u (fun r u' =>
    if r =? -1 then u' = u /\ no_frame (unused (u_g u)) i
    else first_frame (unused (u_g u)) i r /\
         u' = with_sl (set_pfs_arr (<[r := mk_pfs term seg page (-1) (-1)]> (pfs_arr (u_g u))) (u_g u)) u).
Proof.
  intros Hu. revert i. induction n as [| n IH]; intros i Hi Hn; cbn [take_frame].
  { apply wp_ret. split; [done |]. intros j. lia. }
  destruct (proj2 (Hu i) ltac:(lia)) as [f Ef]. apply wp_bind. eapply (wp_entry_of pfs_arr); [exact Ef |].
  destruct (Z.eqb_spec (pf_pid f) (-1)) as [Ep | Ep].
  - apply wp_bind. eapply (wp_edit_entry pfs_arr set_pfs_arr); [exact Ef |]. apply wp_ret.
    destruct (Z.eqb_spec i (-1)); [lia |]. split; [| done]. split; [lia |]. split; [by exists f |]. intros j. lia.
  - eapply wp_use; [apply IH; lia |]. cbv beta. intros r u' Hr.
    assert (~ unused (u_g u) i) as Hno by (intros (f' & Ef' & ?); congruence).
    destruct (r =? -1); [destruct Hr; split; [done | by apply no_frame_later]
                        | destruct Hr; split; [by apply first_frame_later | done]].
Qed.

(** no page of the shared segment is in two frames *)
Definition shared_once (g : sl) : Prop :=
  forall page i j, holds g page 2 i -> holds g page 2 j -> i = j.

(** C28. [getfreeframe] chooses, for a page of the shared segment that is in a frame, that
    frame; for any other page the first unused frame, which then belongs to that page
    and to no copy on the floppy disk, every other frame staying as it was; and -1 when
    there is none.  It never puts a page of the shared segment into two frames. *)
Theorem choose_frame_is_exclusive term page seg start (u : user sl) :
  framed (u_g u) -> shared_once (u_g u) -> vars (u_g u) !! pf_start = Some start ->
  returns (choose_frame term page seg) u (fun rv u' =>
    shared_once (u_g u') /\
    ((exists i, seg = 2 /\ first_frame (holds (u_g u) page 2) 0 i /\ rv = start + i /\ u' = u) \/
     ((seg = 2 -> no_frame (holds (u_g u) page 2) 0) /\
      ((exists i, first_frame (unused (u_g u)) 0 i /\ rv = start + i /\
          u' = with_sl (set_pfs_arr (<[i := mk_pfs term seg page (-1) (-1)]> (pfs_arr (u_g u))) (u_g u)) u) \/
       (no_frame (unused (u_g u)) 0 /\ rv = -1 /\ u' = u))))).
Proof.
  intros Hu Hs Hst. unfold choose_frame. apply wp_bind. eapply wp_var; [exact Hst |]. apply wp_bind.
  assert (forall Q : Z -> user sl -> Prop,
    (forall r, (if r =? -1 then seg = 2 -> no_frame (holds (u_g u) page 2) 0
                else seg = 2 /\ first_frame (holds (u_g u) page 2) 0 r) -> Q r u) ->
    returns (if seg =? 2 then find_shared page seg 0 (Z.to_nat MAXFRAMES) else ret (-1)) u Q) as HW.
  { intros Q HQ. destruct (Z.eqb_spec seg 2) as [-> |].
    - eapply wp_use; [by apply find_shared_spec |]. cbv beta. intros r u' [-> Hr]. apply HQ. by destruct (r =? -1).
    - apply wp_ret, HQ. by intros ->. }
  apply HW. clear HW. intros r Hr. destruct (r =? -1); cbn [negb].
  2: { apply wp_ret. split; [done |]. left. exists r. destruct Hr as [-> Hr]. done. }
  apply wp_bind. eapply wp_use; [by apply take_frame_spec |]. cbv beta. intros i u' Hi. apply wp_ret.
  destruct (i =? -1).
  - destruct Hi as [-> Hno]. split; [done |]. right. split; [done |]. by right.
  - destruct Hi as [Hf ->]. split; [| right; split; [done |]; left; by exists i].
    assert (forall pg k, holds (set_pfs_arr (<[i := mk_pfs term seg page (-1) (-1)]> (pfs_arr (u_g u))) (u_g u)) pg 2 k ->
              (k = i /\ pg = page /\ seg = 2) \/ (k <> i /\ holds (u_g u) pg 2 k)) as Hcase.
    { intros pg k (f & Ef & Hp & Hpg & Hsg). cbn in Ef. destruct (decide (k = i)) as [-> |].
      - rewrite lookup_insert_eq in Ef. injection Ef as <-. left. done.
      - rewrite lookup_insert_ne in Ef by done. right. split; [done |]. by exists f. }
    assert (forall k, seg = 2 -> holds (u_g u) page 2 k -> False) as Hex.
    { intros k Hs2 Hk. eapply (Hr Hs2 k); [| exact Hk]. apply Hu. destruct Hk as (f & -> & _). done. }
    intros pg k1 k2 H1 H2. cbn in H1, H2.
    destruct (Hcase _ _ H1) as [(E1 & P1 & S1) | (N1 & G1)], (Hcase _ _ H2) as [(E2 & P2 & S2) | (N2 & G2)].
    + by rewrite E1, E2.
    + rewrite P1 in G2. exfalso. by eapply Hex.
    + rewrite P2 in G1. exfalso. by eapply Hex.
    + by apply (Hs pg).
Qed.
End frames.

(** ** The properties at concrete states *)

Definition user0 : user sl := mk_user support_kernel state0 sl0.

Lemma has_vars0 : has_vars (vars sl0).
Proof.
  assert (Forall (fun v => is_Some (vars sl0 !! v)) (stacks.*1 ++ stacks.*2 ++ [pf_start])) as HF.
  { apply (bool_decide_unpack _). vm_compute. exact I. }
  intros v Hv. by apply (proj1 (Forall_forall _ _) HF).
Qed.

Lemma memory_layout_witness :
  returns (init_frames 220) user0 (fun _ u' => exists start fr,
    vars (u_g u') !! pf_start = Some start /\
    Forall2 (fun fs f => vars (u_g u') !! fs.1 = Some f /\
      exists sp, vars (u_g u') !! fs.2 = Some sp /\ sp / PAGESIZE = f /\ sp + 2 = (f + 1) * PAGESIZE) stacks fr /\
    NoDup fr /\ Forall (fun f => 220 < f < start) fr /\
    (start + MAXFRAMES <= 256 <-> 220 <> 220)).
Proof. apply (memory_layout 220 user0 has_vars0). lia. Defined.

(** a floppy disk with the first three positions taken *)
Definition sl_disk : sl := set_disk (list_to_map (imap (fun i x => (Z.of_nat i, x))
  ([list_to_map (imap (fun i x => (Z.of_nat i, x)) [1; 1; 1; -1; -1; -1; -1; -1])] ++
   replicate 99 (mk_array 8 (-1))))) sl0.

Lemma sl_disk_marked : marked sl_disk.
Proof.
  assert (Forall (fun p => is_Some (mark sl_disk p)) (seqZ 0 800)) as HF.
  { apply (bool_decide_unpack _). vm_compute. exact I. }
  intros p Hp. apply (proj1 (Forall_forall _ _) HF). apply elem_of_seqZ. lia.
Qed.

Lemma disk_position_is_first_free_witness :
  let u := with_sl sl_disk user0 in
  wp get_disk_pos u
    (fun p u' => first_free (u_g u) 0 800 p /\ u' = with_sl (set_mark p 1 (u_g u)) u /\
       0 <= Z.shiftr p 3 < 100 /\ 0 <= Z.land p 7 < 8 /\ Z.lor (Z.shiftl (Z.shiftr p 3) 3) (Z.land p 7) = p)
    (fun e u' => e = Fault /\ u' = u /\ none_free (u_g u) 0 800).
Proof. apply (disk_position_is_first_free (with_sl sl_disk user0) sl_disk_marked). Defined.

(** page 4 of T-process 2, in frame 0, is present and not referenced *)
Definition sl_page : sl := set_descriptor (unprivileged_seg_page_table 2) 4 (mk_pd 1 0 0 209) sl_disk.


(** frame 0 holds page 4 of T-process 2, the others are unused *)
Definition sl_frames : sl :=
  set_vars (<[pf_start := 209]> (vars sl0))
    (set_pfs_arr (<[0 := mk_pfs 2 1 4 (-1) (-1)]> (mk_array 20 (mk_pfs (-1) (-1) (-1) (-1) (-1)))) sl0).

Lemma sl_frames_framed : framed sl_frames.
Proof.
  intros i. cbn [pfs_arr sl_frames set_pfs_arr set_vars]. rewrite lookup_insert, mk_array_lookup. unfold MAXFRAMES.
  repeat case_decide; subst; split; intros Hi; eauto; try lia; by destruct Hi.
Qed.
Lemma sl_frames_once : shared_once sl_frames.
Proof.
  intros pg i j (f & Ef & _ & _ & Hs) _. exfalso. cbn [pfs_arr sl_frames set_pfs_arr set_vars] in Ef.
  rewrite lookup_insert, mk_array_lookup in Ef. repeat case_decide; simplify_eq; done.
Qed.

Lemma choose_frame_is_exclusive_witness :
  let u := with_sl sl_frames user0 in
  returns (choose_frame 1 7 2) u (fun rv u' =>
    shared_once (u_g u') /\
    ((exists i, 2 = 2 /\ first_frame (holds (u_g u) 7 2) 0 i /\ rv = 209 + i /\ u' = u) \/
     ((2 = 2 -> no_frame (holds (u_g u) 7 2) 0) /\
      ((exists i, first_frame (unused (u_g u)) 0 i /\ rv = 209 + i /\
          u' = with_sl (set_pfs_arr (<[i := mk_pfs 1 2 7 (-1) (-1)]> (pfs_arr (u_g u))) (u_g u)) u) \/
       (no_frame (unused (u_g u)) 0 /\ rv = -1 /\ u' = u))))).
Proof.
  apply (choose_frame_is_exclusive 1 7 2 209 (with_sl sl_frames user0) sl_frames_framed sl_frames_once). apply lookup_insert_eq.
Defined.
