(* ===== verification/Tables.v ===== *)
(** * The segment and page tables of the support level

    What [p1] of [src/support/part1/support.c] writes into the tables: rules for edits
    of descriptors, each of which is a change of descriptors one by one, and the frames
    that each process can reach when the T-processes start. *)

From S2P Require Export PageProps.
Local Open Scope kernel_scope.

Section edits.
Context `{Machine} `{Support}.

(** ** Descriptors *)

Definition seg_at (g : sl) (t : seg_table) (i : Z) : option sd_t :=
  match segs g !! t with Some tab => tab !! i | None => None end.

(** the descriptors that the program declares *)
Definition process (n : Z) : bool := (0 <=? n) && (n <? TER).
Definition page_exists (t : page_table) (i : Z) : bool :=
  match t with
  | shared_seg_table_page_table => (0 <=? i) && (i <? 32)
  | unprivileged_seg_page_table n => process n && (0 <=? i) && (i <? 32)
  | privileged_seg_page_table n => process n && (0 <=? i) && (i <? 256)
  | _ => (0 <=? i) && (i <? 256)
  end.
Definition seg_exists (t : seg_table) (i : Z) : bool :=
  match t with
  | unprivileged_seg n | privileged_seg n => process n && (0 <=? i) && (i <? 32)
  | _ => (0 <=? i) && (i <? 32)
  end.

(** the arrays and the semaphores have the entries that [p1] uses *)
Record shaped (u : user sl) : Prop := {
  sh_pages : forall t i, page_exists t i = true -> is_Some (descriptor_at (u_g u) t i);
  sh_segs : forall t i, seg_exists t i = true -> is_Some (seg_at (u_g u) t i);
  sh_delays : forall n, 0 <= n < TER -> is_Some (d_sem (u_g u) !! n);
  sh_sems : forall n, 0 <= n < TER -> is_Some (ints (k_asl (u_k u)) !! addr_sem (d_sem_value n)) }.

(** ** Edits *)

(** changes of the page and of the segment descriptors *)
Definition page_map : Type := page_table -> Z -> pd_t -> pd_t.
Definition seg_map : Type := seg_table -> Z -> sd_t -> sd_t.
Definition at_page (t : page_table) (i : Z) (h : pd_t -> pd_t) : page_map :=
  fun t' i' d => if decide (t' = t /\ i' = i) then h d else d.
Definition at_seg (t : seg_table) (i : Z) (h : sd_t -> sd_t) : seg_map :=
  fun t' i' d => if decide (t' = t /\ i' = i) then h d else d.
Definition same {A B} : A -> Z -> B -> B := fun _ _ d => d.
Definition after {A B} (F1 F2 : A -> Z -> B -> B) : A -> Z -> B -> B := fun t i d => F2 t i (F1 t i d).
Definition each {A B} (lo hi : Z) (F : Z -> A -> Z -> B -> B) : A -> Z -> B -> B :=
  fun t i d => foldl (fun d j => F j t i d) d (seqZ lo (hi - lo)).

(** [m] changes the descriptors by [F] and [G], and no variable *)
Definition edits (vs : gmap var Z) (m : MS unit) (F : page_map) (G : seg_map) : Prop :=
  forall u, shaped u -> vars (u_g u) = vs ->
  returns m u (fun _ u' => shaped u' /\ vars (u_g u') = vs /\
    (forall t i, descriptor_at (u_g u') t i = F t i <$> descriptor_at (u_g u) t i) /\
    (forall t i, seg_at (u_g u') t i = G t i <$> seg_at (u_g u) t i)).

Lemma fmap_same {A B} (t : A) i (d : option B) : d = same t i <$> d.
Proof. by destruct d. Qed.

Lemma edits_ret vs : edits vs (ret tt) same same.
Proof. intros u Hu Hv. apply wp_ret. split; [done |]. split; [done |]. split; intros t i; apply fmap_same. Qed.

Lemma edits_bind vs m1 m2 F1 F2 G1 G2 :
  edits vs m1 F1 G1 -> edits vs m2 F2 G2 -> edits vs (m1 ;; m2) (after F1 F2) (after G1 G2).
Proof.
  intros H1 H2 u Hu Hv. apply wp_bind. eapply wp_use; [by apply H1 |]. cbv beta. intros _ u1 (Hu1 & Hv1 & HF1 & HG1).
  eapply wp_use; [by apply H2 |]. cbv beta. intros _ u2 (Hu2 & Hv2 & HF2 & HG2). split; [done |]. split; [done |].
  split; intros t i; [rewrite HF2, HF1 | rewrite HG2, HG1]; by rewrite <- option_fmap_compose.
Qed.

Lemma edits_ext vs m F F' G G' :
  (forall t i d, F t i d = F' t i d) -> (forall t i d, G t i d = G' t i d) -> edits vs m F G -> edits vs m F' G'.
Proof.
  intros HF HG Hm u Hu Hv. eapply wp_use; [by apply Hm |]. cbv beta. intros _ u' (Hu' & Hv' & EF & EG).
  split; [done |]. split; [done |]. split; intros t i; [rewrite EF | rewrite EG]; by apply option_fmap_ext.
Qed.

Lemma edits_var vs x z m F G : vs !! x = Some z -> edits vs (m z) F G -> edits vs (let! y := var_ x in m y) F G.
Proof. intros Hx Hm u Hu Hv. apply wp_bind. eapply wp_var; [by rewrite Hv | by apply Hm]. Qed.

Lemma edits_if vs (b : bool) m1 m2 F1 F2 G1 G2 :
  edits vs m1 F1 G1 -> edits vs m2 F2 G2 -> edits vs (if b then m1 else m2) (if b then F1 else F2) (if b then G1 else G2).
Proof. by destruct b. Qed.

Lemma edits_for vs lo hi body F G :
  lo <= hi -> (forall i, lo <= i < hi -> edits vs (body i) (F i) (G i)) -> edits vs (for_ lo hi body) (each lo hi F) (each lo hi G).
Proof.
  intros Hle Hb u Hu Hv. unfold each.
  apply (wp_for (fun i u' => shaped u' /\ vars (u_g u') = vs /\
    (forall t j, descriptor_at (u_g u') t j = (fun d => foldl (fun d i => F i t j d) d (seqZ lo (i - lo))) <$> descriptor_at (u_g u) t j) /\
    (forall t j, seg_at (u_g u') t j = (fun d => foldl (fun d i => G i t j d) d (seqZ lo (i - lo))) <$> seg_at (u_g u) t j))); [done | | |].
  - rewrite Z.sub_diag. split; [done |]. split; [done |]. split; intros t i; apply (fmap_same t i).
  - intros i u1 Hi (Hu1 & Hv1 & HF1 & HG1). eapply wp_use; [by apply (Hb i) |]. cbv beta. intros _ u2 (Hu2 & Hv2 & HF2 & HG2).
    split; [done |]. split; [done |]. replace (i + 1 - lo) with (i - lo + 1) by lia.
    rewrite seqZ_app by lia. replace (lo + (i - lo)) with i by lia. change (seqZ i 1) with [i].
    split; intros t j; [rewrite HF2, HF1 | rewrite HG2, HG1]; rewrite <- option_fmap_compose; apply option_fmap_ext;
      intros d; by rewrite foldl_app.
  - done.
Qed.

Lemma edits_page vs t i h : page_exists t i = true -> edits vs (edit_page t i h) (at_page t i h) same.
Proof.
  intros He u Hu Hv. destruct (sh_pages u Hu t i He) as [d Hd]. eapply wp_edit_page_at; [exact Hd |].
  assert (forall t' j, descriptor_at (set_descriptor t i (h d) (u_g u)) t' j = at_page t i h t' j <$> descriptor_at (u_g u) t' j) as HF.
  { intros t' j. rewrite (set_descriptor_lookup _ _ _ _ _ d _ Hd). unfold at_page. case_decide as E; [by destruct E as [-> ->]; rewrite Hd |].
    by destruct (descriptor_at (u_g u) t' j). }
  assert (forall t' j, seg_at (set_descriptor t i (h d) (u_g u)) t' j = seg_at (u_g u) t' j) as HG
    by (intros t' j; unfold seg_at, set_descriptor; by destruct (pages (u_g u) !! t)).
  assert (vars (set_descriptor t i (h d) (u_g u)) = vars (u_g u) /\ d_sem (set_descriptor t i (h d) (u_g u)) = d_sem (u_g u)) as [Ev Ed]
    by (unfold set_descriptor; by destruct (pages (u_g u) !! t)).
  cbn. split; [| split; [by rewrite Ev | split; [done | intros t' j; rewrite HG; apply fmap_same]]].
  destruct Hu as [S1 S2 S3 S4]. split; cbn; [| | by rewrite Ed | done].
  - intros t' j Ht. rewrite HF. by apply fmap_is_Some, S1.
  - intros t' j Ht. rewrite HG. by apply S2.
Qed.

Lemma edits_seg vs t i h : seg_exists t i = true -> edits vs (edit_seg t i h) same (at_seg t i h).
Proof.
  intros He u Hu Hv. destruct (sh_segs u Hu t i He) as [d Hd]. unfold seg_at in Hd. destruct (segs (u_g u) !! t) as [tab|] eqn:Et; [| done].
  assert (returns (seg t i) u (fun x u' => x = d /\ u' = u)) as Hseg.
  { apply wp_bind. eapply (wp_sl_gets_opt Fault (fun g => segs g !! t)); [exact Et |].
    by eapply (wp_sl_gets_opt Fault (fun _ => tab !! i)). }
  apply wp_bind. eapply wp_use; [exact Hseg |]. cbv beta. intros x u' [-> ->]. apply wp_sl_modify.
  set (g' := set_segs _ _). assert (forall t' j, seg_at g' t' j = at_seg t i h t' j <$> seg_at (u_g u) t' j) as HG.
  { intros t' j. unfold seg_at, g'. cbn [segs set_segs]. destruct (decide (t' = t /\ j = i)) as [[-> ->] | Hne].
    - rewrite lookup_alter_eq, Et. cbn [fmap option_fmap option_map]. rewrite lookup_insert_eq, Hd. unfold at_seg.
      cbn [fmap option_fmap option_map]. by rewrite decide_True.
    - assert (forall o, at_seg t i h t' j <$> o = o) as -> by (intros [x|]; cbn; unfold at_seg; by rewrite ?decide_False).
      unfold seg_at. destruct (decide (t' = t)) as [-> | Ht].
      + rewrite lookup_alter_eq, Et. cbn [fmap option_fmap option_map]. rewrite lookup_insert_ne; [done |]. intros ->. by apply Hne.
      + by rewrite lookup_alter_ne. }
  cbn. split; [| split; [done | split; [intros t' j; apply fmap_same | done]]].
  destruct Hu as [S1 S2 S3 S4]. split; cbn; [done | | done | done].
  intros t' j Ht. rewrite HG. by apply fmap_is_Some, S2.
Qed.

Lemma edits_delay vs n h : 0 <= n < TER -> edits vs (edit_delay n h) same same.
Proof.
  intros Hn u Hu Hv. destruct (sh_delays u Hu n Hn) as [d Hd]. eapply (wp_edit_entry d_sem set_d_sem); [exact Hd |].
  split; [| split; [done | split; intros t i; apply fmap_same]]. destruct Hu as [S1 S2 S3 S4]. split; [done | done | | done].
  intros j Hj. cbn. rewrite lookup_insert. case_decide; [by eexists | by apply S3].
Qed.

Lemma edits_sem vs n v : 0 <= n < TER -> edits vs (set_sem_value (d_sem_value n) v) same same.
Proof.
  intros Hn u Hu Hv. destruct (sh_sems u Hu n Hn) as [d Hd]. apply wp_zoom, wp_zoom. apply wp_bind. eapply wp_gets_opt; [exact Hd |]. apply wp_modify.
  split; [| split; [done | split; intros t i; apply fmap_same]]. destruct Hu as [S1 S2 S3 S4]. split; [done | done | done |].
  intros j Hj. cbn. rewrite lookup_insert. case_decide; [by eexists | by apply S4].
Qed.
End edits.

(** ** Changes of one descriptor *)

Section maps.
Context `{Machine} `{Support}.

Lemma at_page_eq t i h d : at_page t i h t i d = h d.
Proof. unfold at_page. by rewrite decide_True. Qed.
Lemma at_page_ne t i h t' j d : t' <> t \/ j <> i -> at_page t i h t' j d = d.
Proof. intros Hne. unfold at_page. apply decide_False. tauto. Qed.
Lemma at_seg_eq t i h d : at_seg t i h t i d = h d.
Proof. unfold at_seg. by rewrite decide_True. Qed.
Lemma at_seg_ne t i h t' j d : t' <> t \/ j <> i -> at_seg t i h t' j d = d.
Proof. intros Hne. unfold at_seg. apply decide_False. tauto. Qed.

(** two edits of one segment descriptor *)
Lemma edits_seg2 vs t i h1 h2 : seg_exists t i = true ->
  edits vs (edit_seg t i h1 ;; edit_seg t i h2) same (at_seg t i (fun d => h2 (h1 d))).
Proof.
  intros He. eapply edits_ext; [| | by eapply edits_bind; apply edits_seg]; [done |].
  intros t' j d. unfold after, at_seg. by case_decide.
Qed.

(** what one iteration establishes and the others keep *)
Lemma each_ends {A B} lo hi (F : Z -> A -> Z -> B -> B) t i k d (P : B -> Prop) :
  lo <= k < hi -> (forall d, P (F k t i d)) -> (forall j d, lo <= j < hi -> P d -> P (F j t i d)) -> P (each lo hi F t i d).
Proof.
  intros Hk HP Hkeep. unfold each. replace (hi - lo) with ((k - lo) + (1 + (hi - k - 1))) by lia.
  rewrite seqZ_app, foldl_app, seqZ_app, foldl_app by lia. cbn [foldl].
  replace (lo + (k - lo)) with k by lia. change (seqZ k 1) with [k]. cbn [foldl].
  generalize (HP (foldl (fun d j => F j t i d) d (seqZ lo (k - lo)))).
  generalize (F k t i (foldl (fun d j => F j t i d) d (seqZ lo (k - lo)))).
  assert (forall j, j ∈ seqZ (k + 1) (hi - k - 1) -> lo <= j < hi) as Hr by (intros j Hj%elem_of_seqZ; lia).
  induction (seqZ (k + 1) (hi - k - 1)) as [|j l IH]; intros e He; cbn; [done |].
  apply IH; [intros j' Hj'; apply Hr; by right |]. apply Hkeep; [apply Hr; left | done].
Qed.

(** what no iteration changes *)
Lemma each_same {A B} lo hi (F : Z -> A -> Z -> B -> B) t i d :
  (forall j d, lo <= j < hi -> F j t i d = d) -> each lo hi F t i d = d.
Proof.
  intros HF. unfold each. assert (forall j, j ∈ seqZ lo (hi - lo) -> lo <= j < hi) as Hr by (intros j Hj%elem_of_seqZ; lia).
  revert d. induction (seqZ lo (hi - lo)) as [|j l IH]; intros d; cbn; [done |].
  rewrite HF by (apply Hr; left). apply IH. intros j' Hj'. apply Hr. by right.
Qed.

(** one iteration alone changes an entry *)
Lemma each_own {A B} lo hi k (F : Z -> A -> Z -> B -> B) t i d (P : B -> Prop) :
  lo <= k < hi -> (forall d, P (F k t i d)) -> (forall j d, j <> k -> F j t i d = d) -> P (each lo hi F t i d).
Proof.
  intros Hk HP Hne. apply (each_ends _ _ _ _ _ k); [done | done |]. intros j e _ He.
  destruct (decide (j = k)) as [-> |]; [apply HP | by rewrite Hne].
Qed.
End maps.

(** ** The tables of [p1] *)

Section start.
Context `{Machine} `{Support} (vs : gmap var Z) (cron : Z) (sys mmf : Z -> Z).
Hypotheses (Hcron : vs !! Scronframe = Some cron)
  (Hsys : forall i, 0 <= i < TER -> vs !! Tsysframe i = Some (sys i))
  (Hmmf : forall i, 0 <= i < TER -> vs !! Tmmframe i = Some (mmf i)).

(** the pages of segment 0 that the handlers of T-process [i], and [cron], need *)
Definition resident (i j : Z) : bool :=
  (j =? 2) || ((0x1400 / PAGESIZE <=? j) && (j <=? 0x1600 / PAGESIZE)) || system_page j || (j =? sys i) || (j =? mmf i).
Definition p1a_resident (j : Z) : bool := (j =? 2) || system_page j || (j =? cron).

(** a page of segment 0 is in the frame of its number *)
Definition in_place (b : bool) (j : Z) (d : pd_t) : pd_t := set_pd_frame j (set_pd_p (Z.b2z b) (set_pd_r 1 d)).

Lemma edits_place t j (b : bool) : page_exists t j = true ->
  edits vs (if b then present t j else absent t j) (at_page t j (in_place b j)) same.
Proof. intros Ht. destruct b; exact (edits_page vs t j _ Ht). Qed.

Lemma edits_privileged_page i j : 0 <= i < TER -> 0 <= j < 256 ->
  edits vs (init_privileged_page i j) (at_page (privileged_seg_page_table i) j (in_place (resident i j) j)) same.
Proof.
  intros Hi Hj. unfold init_privileged_page. eapply edits_var; [by apply Hsys |]. eapply edits_var; [by apply Hmmf |].
  assert (page_exists (privileged_seg_page_table i) j = true) as He by (cbn; unfold process; lia).
  pose proof (fun b => edits_place (privileged_seg_page_table i) j b He) as HP. unfold resident, set_privileged_page_present in *.
  destruct (j =? 2); [exact (HP true) |]. destruct (_ && _); [exact (HP true) |]. destruct (system_page j); [exact (HP true) |].
  destruct (j =? sys i); [exact (HP true) |]. destruct (j =? mmf i); [exact (HP true) | exact (HP false)].
Qed.

Lemma edits_p1a_page j : 0 <= j < 256 ->
  edits vs (init_p1a_page j) (at_page p1a_seg_table_page_table j (in_place (p1a_resident j) j)) same.
Proof.
  intros Hj. unfold init_p1a_page. eapply edits_var; [exact Hcron |].
  assert (page_exists p1a_seg_table_page_table j = true) as He by (cbn; lia).
  pose proof (fun b => edits_place p1a_seg_table_page_table j b He) as HP. unfold p1a_resident, set_page_table_entry_present in *.
  destruct (j =? 2); [exact (HP true) |]. destruct (system_page j); [exact (HP true) |].
  destruct (j =? cron); [exact (HP true) | exact (HP false)].
Qed.

(** a segment descriptor: absent, or present with a length and a page table *)
Definition seg_is (o : option (Z * page_table)) (d : sd_t) : Prop :=
  match o with Some (len, t) => d = mk_sd 1 7 len t | None => sd_p d = 0 end.
Definition user_segs (i s : Z) : option (Z * page_table) :=
  if s =? 1 then Some (31, unprivileged_seg_page_table i) else if s =? 2 then Some (31, shared_seg_table_page_table) else None.
Definition handler_segs (i s : Z) : option (Z * page_table) :=
  if s =? 0 then Some (255, privileged_seg_page_table i) else user_segs i s.
Definition p1a_segs (s : Z) : option (Z * page_table) := if s =? 0 then Some (255, p1a_seg_table_page_table) else None.

Definition fixed (o : option (Z * page_table)) (d : sd_t) : sd_t :=
  match o with Some (len, t) => mk_sd 1 7 len t | None => set_sd_p 0 d end.
Lemma fixed_is o d : seg_is o (fixed o d).
Proof. by destruct o as [[]|]. Qed.

(** the descriptor of one segment *)
Lemma edits_user_seg i s : 0 <= i < TER -> s = 1 \/ s = 2 ->
  edits vs (set_unprivileged_seg_present i s) same (at_seg (unprivileged_seg i) s (fixed (user_segs i s))).
Proof.
  intros Hi Hs. assert (seg_exists (unprivileged_seg i) s = true) as He by (cbn; unfold process; lia).
  unfold set_unprivileged_seg_present. destruct Hs as [-> | ->]; exact (edits_seg2 vs _ _ _ _ He).
Qed.

Lemma edits_handler_seg i s : 0 <= i < TER -> s = 0 \/ s = 1 \/ s = 2 ->
  edits vs (set_privileged_seg_present i s) same (at_seg (privileged_seg i) s (fixed (handler_segs i s))).
Proof.
  intros Hi Hs. assert (seg_exists (privileged_seg i) s = true) as He by (cbn; unfold process; lia).
  unfold set_privileged_seg_present. destruct Hs as [-> | [-> | ->]];
    (eapply edits_ext; [| | eapply edits_bind; [exact (edits_seg vs _ _ _ He) | exact (edits_seg2 vs _ _ _ _ He)]]; [done |];
     intros t j d; unfold after, at_seg; by case_decide).
Qed.

(** the tables of T-process [i], and no other descriptors *)
Record process_maps (i : Z) (F : page_map) (G : seg_map) : Prop := {
  pm_user : forall s d, 0 <= s < 32 -> seg_is (user_segs i s) (G (unprivileged_seg i) s d);
  pm_handler : forall s d, 0 <= s < 32 -> seg_is (handler_segs i s) (G (privileged_seg i) s d);
  pm_segs : forall t s d, t <> unprivileged_seg i -> t <> privileged_seg i -> G t s d = d;
  pm_private : forall j d, 0 <= j < 32 -> pd_p (F (unprivileged_seg_page_table i) j d) = 0;
  pm_shared : forall j d, 0 <= j < 32 -> pd_p (F shared_seg_table_page_table j d) = 0;
  pm_resident : forall j d, 0 <= j < 256 -> exists d', F (privileged_seg_page_table i) j d = in_place (resident i j) j d';
  pm_pages : forall t j d, t <> unprivileged_seg_page_table i -> t <> shared_seg_table_page_table ->
    t <> privileged_seg_page_table i -> F t j d = d }.

Definition clear_seg (i j : Z) : seg_map :=
  after (at_seg (unprivileged_seg i) j (set_sd_p 0)) (at_seg (privileged_seg i) j (set_sd_p 0)).
Definition clear_pages (i j : Z) : page_map :=
  after (at_page (unprivileged_seg_page_table i) j (fun d => set_pd_r 1 (set_pd_p 0 d)))
        (at_page shared_seg_table_page_table j (fun d => set_pd_r 1 (set_pd_p 0 d))).

Lemma each_nothing {A B} lo hi t i (d : B) : each lo hi (fun _ : Z => @same A B) t i d = d.
Proof. by apply each_same. Qed.

Lemma clear_seg_is i s d t : 3 <= s < 32 -> t = unprivileged_seg i \/ t = privileged_seg i ->
  sd_p (each 3 32 (clear_seg i) t s d) = 0.
Proof.
  intros Hs Ht. apply (each_own 3 32 s _ t s d (fun e => sd_p e = 0)); [done | |].
  - intros e. unfold clear_seg, after. destruct Ht as [-> | ->]; [rewrite at_seg_ne by (by left) | ]; by rewrite at_seg_eq.
  - intros j e Hj. unfold clear_seg, after. by rewrite !at_seg_ne by (right; done).
Qed.
Lemma clear_seg_other i t s d : s < 3 \/ (t <> unprivileged_seg i /\ t <> privileged_seg i) -> each 3 32 (clear_seg i) t s d = d.
Proof. intros Ht. apply each_same. intros j e Hj. unfold clear_seg, after. rewrite !at_seg_ne; [done | |]; destruct Ht as [? | []]; (by left) || (right; lia). Qed.

Lemma clear_pages_is i j d t : 0 <= j < 32 -> t = unprivileged_seg_page_table i \/ t = shared_seg_table_page_table ->
  pd_p (each 0 32 (clear_pages i) t j d) = 0.
Proof.
  intros Hj Ht. apply (each_own 0 32 j _ t j d (fun e => pd_p e = 0)); [done | |].
  - intros e. unfold clear_pages, after. destruct Ht as [-> | ->]; [rewrite at_page_ne by (by left) | ]; by rewrite at_page_eq.
  - intros l e Hl. unfold clear_pages, after. by rewrite !at_page_ne by (right; done).
Qed.
Lemma clear_pages_other i t j d : t <> unprivileged_seg_page_table i -> t <> shared_seg_table_page_table -> each 0 32 (clear_pages i) t j d = d.
Proof. intros H1' H2'. apply each_same. intros l e Hl. unfold clear_pages, after. by rewrite !at_page_ne by (by left). Qed.

(** the edits of [init_process] *)
Definition process_segs (i : Z) : seg_map :=
  after (at_seg (unprivileged_seg i) 0 (set_sd_p 0)) (after (at_seg (unprivileged_seg i) 1 (fixed (user_segs i 1)))
  (after (at_seg (unprivileged_seg i) 2 (fixed (user_segs i 2))) (after (at_seg (privileged_seg i) 0 (fixed (handler_segs i 0)))
  (after (at_seg (privileged_seg i) 1 (fixed (handler_segs i 1)))
  (after (at_seg (privileged_seg i) 2 (fixed (handler_segs i 2))) (each 3 32 (clear_seg i))))))).
Definition process_pages (i : Z) : page_map :=
  after (each 0 32 (clear_pages i)) (each 0 256 (fun j => at_page (privileged_seg_page_table i) j (in_place (resident i j) j))).

Lemma process_maps_intro i : process_maps i (process_pages i) (process_segs i).
Proof.
  assert (forall s, 0 <= s < 32 -> s = 0 \/ s = 1 \/ s = 2 \/ 3 <= s) as Hcase by lia. split.
  - intros s d Hs. unfold process_segs, after. destruct (Hcase s Hs) as [-> | [-> | [-> | Hs3]]];
      [rewrite clear_seg_other by (by left); repeat (rewrite at_seg_eq || (rewrite at_seg_ne by ((by left) || (by right)))); (done || apply fixed_is) .. |].
    unfold user_segs. rewrite (proj2 (Z.eqb_neq s 1)), (proj2 (Z.eqb_neq s 2)) by lia. apply clear_seg_is; [lia | by left].
  - intros s d Hs. unfold process_segs, after. destruct (Hcase s Hs) as [-> | [-> | [-> | Hs3]]];
      [rewrite clear_seg_other by (by left); repeat (rewrite at_seg_eq || (rewrite at_seg_ne by ((by left) || (by right)))); (done || apply fixed_is) .. |].
    unfold handler_segs, user_segs. rewrite (proj2 (Z.eqb_neq s 0)), (proj2 (Z.eqb_neq s 1)), (proj2 (Z.eqb_neq s 2)) by lia.
    apply clear_seg_is; [lia | by right].
  - intros t s d Hu Hh. unfold process_segs, after. rewrite clear_seg_other by (by right). by rewrite !at_seg_ne by (by left).
  - intros j d Hj. unfold process_pages, after. rewrite each_same by (intros l e Hl; by rewrite at_page_ne by (by left)).
    apply clear_pages_is; [done | by left].
  - intros j d Hj. unfold process_pages, after. rewrite each_same by (intros l e Hl; by rewrite at_page_ne by (by left)).
    apply clear_pages_is; [done | by right].
  - intros j d Hj. unfold process_pages, after.
    apply (each_own 0 256 j _ _ _ _ (fun e => exists d', e = in_place (resident i j) j d')); [done | |].
    + intros e. rewrite at_page_eq. by eexists.
    + intros l e Hl. by rewrite at_page_ne by (by right).
  - intros t j d Hu Hs Hp. unfold process_pages, after. rewrite each_same by (intros l e Hl; by rewrite at_page_ne by (by left)).
    by apply clear_pages_other.
Qed.

Lemma edits_process i : 0 <= i < TER -> edits vs (init_process i) (process_pages i) (process_segs i).
Proof.
  intros Hi. assert (forall j, 0 <= j < 32 -> seg_exists (unprivileged_seg i) j = true /\ seg_exists (privileged_seg i) j = true) as HS
    by (intros j Hj; cbn; unfold process; lia).
  assert (forall j, 0 <= j < 32 -> page_exists (unprivileged_seg_page_table i) j = true /\ page_exists shared_seg_table_page_table j = true) as HP
    by (intros j Hj; cbn; unfold process; lia).
  eapply edits_ext; [| | unfold init_process].
  3: { eapply edits_bind; [by apply edits_sem |]. eapply edits_bind; [by apply edits_delay |].
    eapply edits_bind; [by apply edits_seg, HS |].
    do 2 (eapply edits_bind; [apply edits_user_seg; auto |]). do 3 (eapply edits_bind; [apply edits_handler_seg; auto |]). eapply edits_bind.
    + apply (edits_for vs 3 32 _ (fun _ => same) (clear_seg i)); [lia |]. intros j Hj.
      destruct (HS j ltac:(lia)) as [He1 He2]. exact (edits_bind _ _ _ _ _ _ _ (edits_seg _ _ _ _ He1) (edits_seg _ _ _ _ He2)).
    + eapply edits_bind.
      * apply (edits_for vs 0 32 _ (clear_pages i) (fun _ => same)); [lia |]. intros j Hj.
        destruct (HP j Hj) as [He1 He2]. exact (edits_bind _ _ _ _ _ _ _ (edits_page _ _ _ _ He1) (edits_page _ _ _ _ He2)).
      * apply (edits_for vs 0 256 _ (fun j => at_page (privileged_seg_page_table i) j (in_place (resident i j) j)) (fun _ => same)); [lia |].
        intros j Hj. by apply edits_privileged_page. }
  - intros t j d. unfold process_pages, after, same. by rewrite each_nothing.
  - intros t s d. unfold process_segs, after. by rewrite !each_nothing.
Qed.

(** [p1a] *)
Definition p1a_segs_map : seg_map :=
  after (at_seg p1a_seg_table 0 (fixed (p1a_segs 0))) (each 1 32 (fun s => at_seg p1a_seg_table s (set_sd_p 0))).
Definition p1a_pages_map : page_map := each 0 256 (fun j => at_page p1a_seg_table_page_table j (in_place (p1a_resident j) j)).

Lemma edits_p1a : edits vs init_p1a_tables p1a_pages_map p1a_segs_map.
Proof.
  eapply edits_ext; [| | unfold init_p1a_tables].
  3: { eapply edits_bind; [by apply edits_seg |]. eapply edits_bind.
    - apply (edits_for vs 1 32 _ (fun _ => same) (fun s => at_seg p1a_seg_table s (set_sd_p 0))); [lia |].
      intros s Hs. apply edits_seg. cbn. lia.
    - apply (edits_for vs 0 256 _ (fun j => at_page p1a_seg_table_page_table j (in_place (p1a_resident j) j)) (fun _ => same)); [lia |].
      intros j Hj. by apply edits_p1a_page. }
  - intros t j d. unfold after, same, p1a_pages_map. by rewrite each_nothing.
  - intros t s d. unfold after, p1a_segs_map. by rewrite each_nothing.
Qed.

(** the tables that [p1] leaves *)
Record started (g : sl) : Prop := {
  st_user : forall i s d, 0 <= i < TER -> 0 <= s < 32 -> seg_at g (unprivileged_seg i) s = Some d -> seg_is (user_segs i s) d;
  st_handler : forall i s d, 0 <= i < TER -> 0 <= s < 32 -> seg_at g (privileged_seg i) s = Some d -> seg_is (handler_segs i s) d;
  st_p1a : forall s d, 0 <= s < 32 -> seg_at g p1a_seg_table s = Some d -> seg_is (p1a_segs s) d;
  st_private : forall i j d, 0 <= i < TER -> 0 <= j < 32 -> descriptor_at g (unprivileged_seg_page_table i) j = Some d -> pd_p d = 0;
  st_shared : forall j d, 0 <= j < 32 -> descriptor_at g shared_seg_table_page_table j = Some d -> pd_p d = 0;
  st_resident : forall i j d, 0 <= i < TER -> 0 <= j < 256 -> descriptor_at g (privileged_seg_page_table i) j = Some d ->
    exists d', d = in_place (resident i j) j d';
  st_p1a_pages : forall j d, 0 <= j < 256 -> descriptor_at g p1a_seg_table_page_table j = Some d -> exists d', d = in_place (p1a_resident j) j d' }.

Lemma tables_edits : edits vs (init_p1a_tables ;; for_ 0 TER init_process)
  (after p1a_pages_map (each 0 TER process_pages)) (after p1a_segs_map (each 0 TER process_segs)).
Proof. apply edits_bind; [exact edits_p1a |]. apply edits_for; [done |]. exact edits_process. Qed.

Lemma fmap_inv {A B} (f : A -> B) o (P : B -> Prop) : (forall d, P (f d)) -> forall d, f <$> o = Some d -> P d.
Proof. intros HP d Hd. apply fmap_Some in Hd as (d0 & _ & ->). apply HP. Qed.

Lemma tables_started u : shaped u -> vars (u_g u) = vs ->
  returns (init_p1a_tables ;; for_ 0 TER init_process) u (fun _ u' => shaped u' /\ vars (u_g u') = vs /\ started (u_g u')).
Proof.
  intros Hu Hv. eapply wp_use; [by apply tables_edits |]. cbv beta. intros _ u' (Hu' & Hv' & HF & HG).
  split; [done |]. split; [done |]. pose proof process_maps_intro as HP. split.
  - intros i s d Hi Hs. rewrite HG. apply fmap_inv. intros d0. unfold after.
    apply (each_own 0 TER i _ _ _ _ (seg_is (user_segs i s))); [done | |]; intros;
      [by apply (pm_user _ _ _ (HP i)) | apply (pm_segs _ _ _ (HP _)); congruence].
  - intros i s d Hi Hs. rewrite HG. apply fmap_inv. intros d0. unfold after.
    apply (each_own 0 TER i _ _ _ _ (seg_is (handler_segs i s))); [done | |]; intros;
      [by apply (pm_handler _ _ _ (HP i)) | apply (pm_segs _ _ _ (HP _)); congruence].
  - intros s d Hs. rewrite HG. apply fmap_inv. intros d0. unfold after. rewrite each_same by (intros; by apply (pm_segs _ _ _ (HP _))).
    unfold p1a_segs_map, after. destruct (decide (s = 0)) as [-> | Hne].
    + rewrite each_same by (intros j e Hj; by rewrite at_seg_ne by (right; lia)). rewrite at_seg_eq. apply fixed_is.
    + unfold p1a_segs. rewrite (proj2 (Z.eqb_neq s 0)) by done.
      apply (each_own 1 32 s _ _ s _ (fun e => sd_p e = 0)); [lia | intros e; by rewrite at_seg_eq |].
      intros j e Hj. by rewrite at_seg_ne by (by right).
  - intros i j d Hi Hj. rewrite HF. apply (fmap_inv _ _ (fun e => pd_p e = 0)). intros d0. unfold after.
    apply (each_own 0 TER i _ _ _ _ (fun e => pd_p e = 0)); [done | intros e; by apply (pm_private _ _ _ (HP i)) |].
    intros k e Hki. apply (pm_pages _ _ _ (HP k)); congruence.
  - intros j d Hj. rewrite HF. apply (fmap_inv _ _ (fun e => pd_p e = 0)). intros d0. unfold after.
    apply (each_ends 0 TER _ _ _ 0 _ (fun e => pd_p e = 0)); [done | |]; intros; by apply (pm_shared _ _ _ (HP _)).
  - intros i j d Hi Hj. rewrite HF. apply (fmap_inv _ _ (fun e => exists d', e = in_place (resident i j) j d')). intros d0. unfold after.
    apply (each_own 0 TER i _ _ _ _ (fun e => exists d', e = in_place (resident i j) j d')); [done | intros e; by apply (pm_resident _ _ _ (HP i)) |].
    intros k e Hki. apply (pm_pages _ _ _ (HP k)); congruence.
  - intros j d Hj. rewrite HF. apply (fmap_inv _ _ (fun e => exists d', e = in_place (p1a_resident j) j d')). intros d0. unfold after. rewrite each_same by (intros; by apply (pm_pages _ _ _ (HP _))).
    apply (each_own 0 256 j _ _ _ _ (fun e => exists d', e = in_place (p1a_resident j) j d')); [done | intros e; rewrite at_page_eq; by eexists |].
    intros k e Hk. by rewrite at_page_ne by (by right).
Qed.
End start.

(** ** The frames that a process can reach *)

Section isolation.
Context `{Machine} `{Support}.

(** with the segment table [t], page [pg] of segment [s] is in frame [f] *)
Definition reaches (g : sl) (t : seg_table) (s pg f : Z) : Prop :=
  exists sd pd, 0 <= s < 32 /\ seg_at g t s = Some sd /\ sd_p sd = 1 /\ 0 <= pg <= sd_len sd /\
    descriptor_at g (sd_pta sd) pg = Some pd /\ pd_p pd = 1 /\ pd_frame pd = f.

(** a segment whose pages lie in the frames of their numbers, [b] telling which are present *)
Lemma reaches_in_place g t pt (b : Z -> bool) s pg f :
  (forall s' d, 0 <= s' < 32 -> seg_at g t s' = Some d -> s' <> s -> sd_p d = 1 ->
     forall j pd, 0 <= j <= sd_len d -> descriptor_at g (sd_pta d) j = Some pd -> pd_p pd = 0) ->
  0 <= s < 32 -> seg_at g t s = Some (mk_sd 1 7 255 pt) ->
  (forall j d, 0 <= j < 256 -> descriptor_at g pt j = Some d -> exists d', d = in_place (b j) j d') ->
  (forall j, 0 <= j < 256 -> is_Some (descriptor_at g pt j)) ->
  forall s', reaches g t s' pg f <-> s' = s /\ 0 <= pg < 256 /\ f = pg /\ b pg = true.
Proof.
  intros Hother Hs Hseg Hpages Hex s'. split.
  - intros (sd & pd & Hs' & Hsd & Hp & Hpg & Hpd & Hpp & Hf). destruct (decide (s' = s)) as [-> | Hne].
    2: { pose proof (Hother s' sd Hs' Hsd Hne Hp pg pd Hpg Hpd). congruence. }
    rewrite Hseg in Hsd. injection Hsd as <-. cbn in Hpg, Hpd. destruct (Hpages pg pd ltac:(lia) Hpd) as [d' ->].
    split; [done |]. split; [lia |]. cbn in Hf, Hpp. rewrite Z.mod_small in Hf by lia. split; [done |]. by destruct (b pg).
  - intros (-> & Hpg & -> & Hb). destruct (Hex pg Hpg) as [d Hd]. destruct (Hpages pg d Hpg Hd) as [d' ->].
    exists (mk_sd 1 7 255 pt), (in_place (b pg) pg d'). split; [exact Hs |]. split; [exact Hseg |]. split; [done |].
    split; [cbn; lia |]. split; [exact Hd |]. split; [cbn; by rewrite Hb |]. cbn. apply Z.mod_small. lia.
Qed.

(** the frames with the text, the data and the bss, and the pages with the exception
    areas and the device registers, which the handlers of every T-process reach *)
Definition common_frame (f : Z) : bool :=
  (f =? 2) || ((0x1400 / PAGESIZE <=? f) && (f <=? 0x1600 / PAGESIZE)) || system_page f.

(** the frames of the system, as [init_frames] lays them out after page [e] *)
Definition laid_out (e : Z) (m : gmap var Z) : Prop :=
  Forall2 (fun fs i => m !! fs.1 = Some (e + 2 + i) /\ m !! fs.2 = Some ((e + 3 + i) * 512 - 2)) stacks (seqZ 0 13).

Lemma laid_out_frames e m : laid_out e m ->
  (forall i, 0 <= i < TER -> m !! Tsysframe i = Some (e + 2 + i)) /\ (forall i, 0 <= i < TER -> m !! Tmmframe i = Some (e + 7 + i)) /\
  m !! Scronframe = Some (e + 12).
Proof.
  intros HL. assert (forall (k : nat) v sp, stacks !! k = Some (v, sp) -> m !! v = Some (e + 2 + Z.of_nat k)) as HK.
  { intros k v sp Hk. destruct (Forall2_lookup_l _ _ _ _ _ HL Hk) as (i & Hi & E & _). cbn in E. rewrite E.
    apply lookup_seqZ in Hi as [-> _]. f_equal; lia. }
  assert (forall i, 0 <= i < TER -> i = 0 \/ i = 1 \/ i = 2 \/ i = 3 \/ i = 4) as Hcase by (unfold TER; lia).
  split; [| split].
  - intros i Hi. rewrite (HK (Z.to_nat i) _ (Tsysstack i)); [f_equal; lia |].
    destruct (Hcase i Hi) as [-> | [-> | [-> | [-> | ->]]]]; reflexivity.
  - intros i Hi. rewrite (HK (Z.to_nat (5 + i)) _ (Tmmstack i)); [f_equal; lia |].
    destruct (Hcase i Hi) as [-> | [-> | [-> | [-> | ->]]]]; reflexivity.
  - rewrite (HK 10%nat _ Scronstack); [f_equal; lia | reflexivity].
Qed.

(** the system ends with its bss *)
Lemma common_frame_below f : etext <= end_ -> edata <= end_ -> 11 <= end_ / PAGESIZE -> common_frame f = true -> f <= end_ / PAGESIZE.
Proof.
  intros H1' H2' H3'. unfold common_frame, system_page, PAGESIZE in *.
  pose proof (Z.div_le_mono etext end_ 512 ltac:(lia) H1'). pose proof (Z.div_le_mono edata end_ 512 ltac:(lia) H2').
  change (0x1400 / 512) with 10. change (0x1600 / 512) with 11. lia.
Qed.

End isolation.

(** ** The property at a concrete state *)

(** the bss ends in page 192 *)
Definition sl_laid : sl := set_vars (list_to_map (layout 192)) sl0.
Definition user_laid : user sl := with_sl sl_laid user0.

Lemma process_cases n : process n = true -> n = 0 \/ n = 1 \/ n = 2 \/ n = 3 \/ n = 4.
Proof. unfold process, TER. lia. Qed.
Ltac each_process n := destruct (process_cases n ltac:(unfold process in *; lia)) as [-> | [-> | [-> | [-> | ->]]]].

Lemma table_entries (n : Z) {A} (f : Z -> option A) i :
  bool_decide (Forall (fun i => is_Some (f i)) (seqZ 0 n)) = true -> (0 <=? i) && (i <? n) = true -> is_Some (f i).
Proof. intros HF%bool_decide_eq_true Hi. apply (proj1 (Forall_forall _ _) HF), elem_of_seqZ. lia. Qed.

Lemma user_laid_shaped : shaped user_laid.
Proof.
  split.
  - intros [| | n | n | |] i Hi; cbn [page_exists] in Hi; rewrite ?andb_true_iff in Hi.
    1,5,6: apply (table_entries 256); [vm_compute; reflexivity | lia].
    + apply (table_entries 32); [vm_compute; reflexivity | lia].
    + destruct Hi as [[Hn H1] H2]. apply (table_entries 32); [| lia]. each_process n; vm_compute; reflexivity.
    + destruct Hi as [[Hn H1] H2]. apply (table_entries 256); [| lia]. each_process n; vm_compute; reflexivity.
  - intros [| n | n | |] i Hi; cbn [seg_exists] in Hi; rewrite ?andb_true_iff in Hi.
    1,4,5: apply (table_entries 32); [vm_compute; reflexivity | lia].
    + destruct Hi as [[Hn H1] H2]. apply (table_entries 32); [| lia]. each_process n; vm_compute; reflexivity.
    + destruct Hi as [[Hn H1] H2]. apply (table_entries 32); [| lia]. each_process n; vm_compute; reflexivity.
  - intros n Hn. each_process n; vm_compute; eauto.
  - intros n Hn. each_process n; vm_compute; eauto.
Qed.

Lemma user_laid_out : laid_out 192 (vars (u_g user_laid)).
Proof. vm_compute. repeat constructor. Qed.

