(* ===== verification/DiskProps.v ===== *)
(** * Properties: the order of the disk requests

    [tasker_helper] of [src/support/part2/slsyscall2.c], which chooses the request that
    the disk daemon serves next. *)

From S2P Require Export SupportSpec TestSupport.
Local Open Scope kernel_scope.

Section requests.
Context `{Support}.

(** the semaphore and the position of request [i] *)
Definition ds_value (u : user sl) (i : Z) : option Z := ints (k_asl (u_k u)) !! addr_sem (ds_sem_value i).
Definition requests_ok (u : user sl) : Prop :=
  forall i, (0 <= i < MAXPROC -> is_Some (ds_value u i)) /\ (is_Some (ds_arr (u_g u) !! i) <-> 0 <= i < MAXPROC).

(** process [i] waits for the disk with a request at distance [v] in direction [dir] *)
Definition candidate (u : user sl) (track sector dir i v : Z) : Prop :=
  0 <= i < MAXPROC /\ ds_value u i = Some (-1) /\
  exists d, ds_arr (u_g u) !! i = Some d /\ v = distance dir track sector d /\ 0 <= v < 10000.

(** the nearest candidate, the first one of them *)
Definition nearest (u : user sl) (track sector dir i : Z) : Prop :=
  exists v, candidate u track sector dir i v /\
    forall j w, candidate u track sector dir j w -> v <= w /\ (v = w -> i <= j).

(** the state of the loop before entry [i] *)
Definition best (u : user sl) (track sector dir i min rv : Z) : Prop :=
  (min = 10000 /\ rv = -1 /\ forall j w, j < i -> ~ candidate u track sector dir j w) \/
  (candidate u track sector dir rv min /\ rv < i /\
   forall j w, j < i -> candidate u track sector dir j w -> min <= w /\ (min = w -> rv <= j)).

Lemma best_skip u track sector dir i min rv :
  (forall w, candidate u track sector dir i w -> min <= w) ->
  best u track sector dir i min rv -> best u track sector dir (i + 1) min rv.
Proof.
  intros Hno [(-> & -> & Hj) | (Hc & Hlt & Hj)].
  - left. split; [done |]. split; [done |]. intros j w Hji Hcj. destruct (decide (j = i)) as [-> |].
    + pose proof (Hno w Hcj). destruct Hcj as (_ & _ & d & _ & _ & ?). lia.
    + apply (Hj j w); [lia | done].
  - right. split; [done |]. split; [lia |]. intros j w Hji Hcj. destruct (decide (j = i)) as [-> |].
    + pose proof (Hno w Hcj). lia.
    + apply Hj; [lia | done].
Qed.

Lemma best_take u track sector dir i v min rv :
  candidate u track sector dir i v -> v < min ->
  best u track sector dir i min rv -> best u track sector dir (i + 1) v i.
Proof.
  intros Hc Hv Hb. right. split; [done |]. split; [lia |]. intros j w Hji Hcj.
  destruct (decide (j = i)) as [-> |].
  - destruct Hc as (_ & _ & d & Ed & -> & _), Hcj as (_ & _ & d' & Ed' & -> & _). simplify_eq. lia.
  - destruct Hb as [(-> & -> & Hno) | (_ & _ & Hmin)]; [destruct (Hno j w); [lia | done] |].
    destruct (Hmin j w); [lia | done |]. lia.
Qed.

Lemma tasker_loop_spec u track sector dir i n min rv :
  requests_ok u -> 0 <= i -> i + Z.of_nat n = MAXPROC -> best u track sector dir i min rv ->
  returns (tasker_loop track sector dir i n min rv) u (fun r u' => u' = u /\ exists m, best u track sector dir MAXPROC m r).
Proof.
  intros Hu. revert i min rv. induction n as [| n IH]; intros i min rv Hi Hn Hb; cbn [tasker_loop].
  { apply wp_ret. split; [done |]. exists min. by replace MAXPROC with i by lia. }
  destruct (Hu i) as [Hs Hd]. destruct (Hs ltac:(lia)) as [v Ev]. destruct (proj2 Hd ltac:(lia)) as [d Ed].
  apply wp_bind. eapply wp_sem_value; [exact Ev |].
  destruct (Z.eqb_spec v (-1)) as [-> | Hne].
  - apply wp_bind. eapply (wp_entry_of ds_arr); [exact Ed |].
    destruct (Z.leb_spec 0 (distance dir track sector d)); [destruct (Z.ltb_spec (distance dir track sector d) min) |];
      cbn [andb]; apply IH; try lia.
    + apply (best_take _ _ _ _ _ _ min rv); [| done | done]. split; [lia |]. split; [done |]. exists d.
      split; [done |]. split; [done |]. destruct Hb as [(-> & _) | ((_ & _ & d' & _ & _ & ?) & _)]; lia.
    + apply best_skip; [| done]. intros w (_ & _ & d' & Ed' & -> & _). simplify_eq. lia.
    + apply best_skip; [| done]. intros w (_ & _ & d' & Ed' & -> & ?). simplify_eq. lia.
  - apply IH; [lia | lia |]. apply best_skip; [| done]. intros w (_ & Hv & _). unfold ds_value in *. congruence.
Qed.

Lemma tasker_helper_spec track sector dir (u : user sl) :
  requests_ok u ->
  returns (tasker_helper track sector dir) u (fun r u' => u' = u /\
    if r =? -1 then forall j w, ~ candidate u track sector dir j w else nearest u track sector dir r).
Proof.
  intros Hu. eapply wp_use.
  { apply (tasker_loop_spec u track sector dir 0 (Z.to_nat MAXPROC)); [done | lia | done |].
    left. split; [done |]. split; [done |]. intros j w ? (? & _). lia. }
  cbv beta. intros r u' [-> [m Hb]]. split; [done |]. destruct Hb as [(-> & -> & Hno) | (Hc & Hlt & Hmin)].
  - intros j w Hc. apply (Hno j w); [| done]. destruct Hc as (? & _). lia.
  - destruct (Z.eqb_spec r (-1)); [destruct Hc; lia |]. exists m. split; [done |]. intros j w Hcj.
    apply Hmin; [| done]. destruct Hcj as (? & _). lia.
Qed.

(** C31. [tasker_helper] computes the nearest waiting request in the direction of the
    head, the one with the smallest number among equals, and -1 exactly when no process
    waits for a position ahead at a distance below 10000; it changes nothing. *)
Theorem tasker_finds_nearest track sector dir (u : user sl) :
  requests_ok u ->
  returns (tasker_helper track sector dir) u (fun r u' => u' = u /\
    if r =? -1 then forall j w, ~ candidate u track sector dir j w else nearest u track sector dir r).
Proof. apply tasker_helper_spec. Qed.

(** the signed distance of a request from the head *)
Definition offset (track sector : Z) (d : diks_scheduler) : Z := (ds_track d - track) * 8 + ds_sector d - sector.

Lemma distance_offset dir track sector d : - 2 ^ 31 < offset track sector d < 2 ^ 31 ->
  distance dir track sector d = if dir =? 0 then offset track sector d else - offset track sector d.
Proof.
  unfold offset, distance. intros Hr. destruct (dir =? 0); rewrite i32_id; unfold in_i32; lia.
Qed.

(** the two searches of [diskdaemon]: in the direction of the head, and when nothing is
    found there, in the other *)
Definition two_searches (track sector dir : Z) : MS Z :=
  let! num := tasker_helper track sector dir in
  if num =? -1 then tasker_helper track sector (Z.lxor dir 1) else ret num.


End requests.

(** ** The properties at concrete states *)

(** the processes of [waiting] wait for the disk, with the requests [l] *)
Definition disk_requests (waiting : list Z) (l : list diks_scheduler) : user sl :=
  mk_user (set_k_asl (asl0 (list_to_map ((fun i => (addr_sem (ds_sem_value i),
      if decide (i ∈ waiting) then -1 else 0)) <$> seqZ 0 20))) support_kernel) state0
    (set_ds_arr (list_to_map (imap (fun i d => (Z.of_nat i, d)) l) ∪ mk_array 20 (mk_ds 0 0 0)) sl0).

Definition one_request : user sl := disk_requests [1; 3] [mk_ds 0 0 0; mk_ds 7 2 0; mk_ds 0 0 0; mk_ds 5 6 1].
Definition far_request : user sl := disk_requests [2] [mk_ds 0 0 0; mk_ds 0 0 0; mk_ds 1500 2 0].

Lemma in_range u : Forall (fun i => is_Some (ds_value u i)) (seqZ 0 20) ->
  dom (ds_arr (u_g u)) = (list_to_set (seqZ 0 20) : gset Z) -> requests_ok u.
Proof.
  intros HF Hm i. split.
  - intros Hi. apply (proj1 (Forall_forall _ _) HF). apply elem_of_seqZ. unfold MAXPROC in *. lia.
  - rewrite <- elem_of_dom, Hm, elem_of_list_to_set, elem_of_seqZ. unfold MAXPROC. lia.
Qed.
Lemma one_request_ok : requests_ok one_request.
Proof.
  apply in_range; apply (bool_decide_unpack _); vm_compute; exact I.
Qed.
Lemma far_request_ok : requests_ok far_request.
Proof.
  apply in_range; apply (bool_decide_unpack _); vm_compute; exact I.
Qed.

Lemma tasker_finds_nearest_witness :
  returns (tasker_helper 6 0 0) one_request (fun r u' => u' = one_request /\
    if r =? -1 then forall j w, ~ candidate one_request 6 0 0 j w else nearest one_request 6 0 0 r).
Proof. apply (tasker_finds_nearest 6 0 0 one_request one_request_ok). Defined.


